(* ===== verification/_CoqProject ===== *)
-Q . S2P
Prelude.v
PyStr.v
PyUuid.v
Json.v
JsonFacts.v
Exceptions.v
Settings.v
Dtos.v
Models.v
Program.v
Interfaces.v
Container.v
Repositories.v
Storage.v
Messaging.v
Sha256.v
ApiServices.v
Worker.v
Keys.v
Wiring.v
Http.v
Environment.v
Logic.v
Contracts.v
Specs.v
ProcessingSpec.v
ConsumerSpec.v
ApiSpec.v
Reference.v
WorkerOutcomes.v
Examples.v
WorkerTheorems.v
LoopTheorems.v
ApiTheorems.v
MessageTheorems.v
Protocol.v
Processes.v
System.v
SystemTheorems.v
HttpTheorems.v
Components.v
Postgres.v
Migrations.v
MigrationTheorems.v
PyCsv.v
Tool.v
Cli.v
CliTheorems.v
PyText.v
Bench.v
LocalClient.v
LocalJobs.v
LocalDocker.v
LocalScenarios.v
PollTheorems.v
SmokeTheorems.v
TextFacts.v
PsqlTheorems.v
ScenarioTheorems.v
AccessTheorems.v
EndToEnd.v
Drain.v
Results.v
Providers.v
ProviderTheorems.v
Startup.v
StartupTheorems.v
Deploy.v
DeployTheorems.v
