(* ===== verification/Prelude.v ===== *)
(** * Verification of the asynchronous document pipeline

    The program is a document-processing backend in Python: an HTTP API
    ([api/]) that registers documents and enqueues jobs, a worker ([worker/])
    that turns a document into Markdown, and the code they share ([shared/]).
    Around them are the migrations of the database, a command line ([cli/]),
    tools that drive a local stack and inject failures ([local/]), and the cloud
    stacks ([infrastructure/]).  This development models the two processes down
    to the calls they make and proves what they guarantee together, and models
    each of the tools with the theorems that make it right.

    ** The program

    - A client posts a document, uploads its file with a signed URL, and posts a
      job for it.  [JobService.create] checks the document, the upload and the
      queue depth, inserts the job as [QUEUED], commits, and publishes a message
      with the job's id.
    - A worker's [RabbitMQConsumer.start] takes messages one at a time.
      [_handle] parses the message, reads the job, claims it ([QUEUED] to
      [STARTED], a compare-and-set committed in a session of its own), runs
      [ProcessingService.process] (which stores the Markdown, upserts the artifact
      and moves the job to [COMPLETED]), and acknowledges the message.  If
      processing raises, [_handle_failure] moves the job back to [QUEUED] and
      publishes it again, or to [FAILED] once its attempts are used up.
    - The broker delivers at least once and any call can fail, so the job row is
      the only thing the coroutines agree on; a partial unique index allows one
      active job for a document and account.

    ** How it is modelled

    A coroutine is a [Program.prog]: it returns, raises, or performs one [event]
    (a call that leaves the process, or reads the clock, randomness or object
    state) and continues with the value or the exception the call gave.
    [try]/[except], [finally] and sequencing are functions on programs, so a
    method of the source is one definition with the same structure.  Programs are
    used in three ways:

    - [Environment.run] executes one against an [environment], a function that
      answers every event.  Postgres, S3, RabbitMQ, fitz and the ASGI server are
      not part of the repository: the theorems hold for every environment that
      is [Conforming], that is, keeps the promises of [Environment.doc], under
      the failures its [health] allows.  [Reference.reference] is a concrete one.
    - [Program.wp] is the weakest precondition of a program under a transition
      system of answers; [Environment.documented] is that of a single coroutine
      and [Protocol.protocol] that of a coroutine among others.
    - [System.step] interleaves any number of coroutines, event by event.

    The tools run alone and sequentially.  They are written in the state and
    exception monad of [Tool] over an abstract state, whose operations (a
    database session, S3, alembic, files; httpx, a clock, subprocesses) are a
    class with its laws: [Cli.Host] with [HostLaws], [Bench.Bench] with
    [BenchLaws].  [CliTheorems] and [PollTheorems] give in-memory instances, on
    which the witnesses run.  Migrations are lists of statements
    ([Postgres.statement]), applied to a database with rows by any interpreter
    that meets [PostgresDdl].

    ** The files

    - Foundations.  [Prelude]; [PyStr] and [PyUuid] ([str.encode], [uuid.UUID]);
      [Json] and [JsonFacts] ([json.dumps], [json.loads]); [Sha256]
      ([hashlib.sha256]); [Program] (events, programs, their logic).
    - [shared/core]: [Exceptions] ([exceptions.py]), [Settings] ([settings/],
      [config.py]).  [shared/dtos]: [Dtos].
    - [shared/infrastructure/models.py] and the constraints of the migrations:
      [Models].
    - [shared/interfaces], [worker/interfaces]: [Interfaces], a type class per
      abstract class.
    - [shared/infrastructure]: [Repositories] (a module per repository),
      [Storage] ([s3_client.py]), [Messaging] ([rabbitmq_client.py]).
    - [api/services]: [ApiServices].  [worker/services], [worker/infrastructure]:
      [Worker].  [open_session]: [Container].  The methods the two containers
      give each service: [Wiring]; the objects they construct, and the caches of
      [api/core/providers.py] in front of them: [Providers], [ProviderTheorems].
    - [api/app.py], [api/middleware.py], [api/core], [api/routes],
      [api/schemas]: [Http].
    - The environment and the logic: [Environment], [Logic], [Reference].
    - Contracts and refinement: [Contracts] (a class of rules per interface, from
      which the clients are verified), [Specs] (the implementations keep them),
      [ProcessingSpec], [ConsumerSpec], [ApiSpec] (the abstract outcomes of
      [process], [_handle] and [create], and that the code has no other).
    - Concurrency: [Protocol] (what one coroutine may do to job rows and may rely
      on), [Processes] (the handlers and the requests keep it), [System] (the
      interleaving, its invariant and the rely-guarantee argument).
    - Theorems: [SystemTheorems], [WorkerTheorems] (after [WorkerOutcomes] and
      [Examples]), [LoopTheorems], [ApiTheorems], [MessageTheorems], [Keys],
      [HttpTheorems], [Components], [EndToEnd], [Drain],
      [Results].
    - [shared/migrations]: [Postgres] (statements and databases), [Migrations] (a
      module per revision), [MigrationTheorems].
    - [cli/]: [PyCsv] (the [csv] module), [Tool], [Cli], [CliTheorems].
    - [local/]: [PyText] (methods of [str], [int()], [fromisoformat]), [Bench],
      [LocalClient] ([client.py], [smoke.py]), [LocalJobs] ([jobs.py]),
      [LocalDocker] ([docker.py], [fixtures.py]), [LocalScenarios]
      ([scenarios/], [chaos.py]); [PollTheorems], [SmokeTheorems], [TextFacts], [PsqlTheorems],
      [ScenarioTheorems]; [AccessTheorems] joins [cli/], [local/] and the API.
    - Starting up: [Startup] ([shared/core/config.py], [logging.py],
      [worker/main.py], the constructors of the containers, the head of
      [api/app.py]), [StartupTheorems].
    - [infrastructure/]: [Deploy] (a module per stack), [DeployTheorems].

    Definitions carry the names of the source: [Worker.RabbitMQConsumer._handle]
    is [RabbitMQConsumer._handle].  A method that is split up has its parts named
    after what they do ([_check_queued], [_claim], [_process_claimed] are the
    three sessions of [_handle]).  The attributes of an object are the
    parameters of its Section; the mutable ones (the cached connection of the
    producer, the stop event) are part of the [world] and read by events.

    ** What the theorems show

    - The pipeline as a whole ([SystemTheorems]), in every configuration that
      handlers and requests reach together under duplicated deliveries, failing
      calls and processes killed at any event: no two handlers process one job
      at a time; processing happens only under a committed claim; every change of
      a row is a move of the life cycle with its attempts counted; the tables
      keep their constraints and the attempt budget; final rows never change.
      A job whose worker was killed stays [STARTED].
    - The worker ([WorkerTheorems], [LoopTheorems]): [_handle] refines the
      abstract outcomes [handle_result]; when it returns, it has settled its
      message exactly once; it completes, retries or fails a job as its attempts
      say; it opens, parses and stores nothing before its claim is committed; it
      touches no other job.  [start] settles the delivered messages in order until it
      sees the stop event; with nothing delivered it waits, and has not returned.
    - The API ([ApiTheorems]): [create] refines [create_result], decides by its
      checks in order, commits before it publishes, and keeps one active job per
      account and document; a job that is committed but not published blocks the
      document.  Reads are scoped to the account; keys are accepted by digest.
    - The wire ([MessageTheorems], [Keys]): what is published is read back; what
      else may arrive is dropped, with the one exception that is proved; object
      keys are distinct.
    - The objects ([ProviderTheorems]): whatever calls of the providers overlap, what
      they hand out has the methods of [Wiring]; from the first returned value on one
      instance is stored, and only calls that were computing then return another.
      [overlapping_calls] shows that they can, each job service with a connection of
      its own.
    - HTTP ([HttpTheorems]): requests are answered once, with which status; the
      middleware logs it; validation errors are grouped without loss.
    - Components: the compare-and-set, the upsert, the containment of library
      errors, the signing client, the queue depth.
    - End to end ([EndToEnd]): when the services work, an accepted request is
      completed by the worker that is given its message, and the client then sees
      the job completed and the artifact whose object holds the result.
    - The queue ([Drain]), with requests and deliveries one after the other and
      every delivery that is not acknowledged put back: while all services but the
      parser work, the queue holds one message for every queued job and no other;
      while database and broker work, whatever storage and parser do, the
      deliveries end every job within [deliveries_needed], the sum of the attempts
      the queued jobs have left.  The queue stays within the backpressure threshold;
      requests that overlap can exceed it, since the depth is read before the insert.
    - The results ([Results]), whatever is registered, uploaded, requested and
      delivered in any order and whatever fails: an artifact row has its object under
      the key of its document and a completed job, a document has at most one of a
      type, and the document of a completed job has one.
    - The schema ([MigrationTheorems]): the chain of upgrades ends in the schema
      of [models.py]; over rows it is refused, and changes nothing, exactly if
      two unfinished jobs of one account for one document are there; jobs of the
      removed status are queued; the downgrades undo their upgrades but for the differences
      that are stated.
    - The tools: [create-accounts] and [setup] on every branch ([CliTheorems]),
      and the key that [setup] writes is the one the local client sends and the
      API accepts ([AccessTheorems]); polling ends within its budget, with the
      error the code names ([PollTheorems]); the smoke test ends, and exits with 0
      exactly if what it exchanged shows that every document was carried through
      ([SmokeTheorems]); the row that [psql] prints is read back ([PsqlTheorems]);
      the scenario that kills a worker scales to the configured number of replicas
      whatever happens before ([ScenarioTheorems]).
    - Starting up ([StartupTheorems]): for which variables and files there are
      settings, of which types and values; after a signal the worker handles no
      further message and returns at its next delivery, while an idle worker goes on
      waiting; the URLs identify their services.
    - Deployment ([DeployTheorems]): both containers start, with the addresses
      and credentials of the resources of the other stacks, and the security
      groups admit the connections these settings need and no others.
    - Behaviours worth knowing are theorems too: a claim whose commit fails, a
      publish that fails after the commit, a message nested too deeply, an answer
      that precedes a failing commit.

    ** Bounds and fuel

    - [Json.loads] recurses with [fuel_for] its input, twice its length and one
      more, which always suffices ([loads_no_fuel]); the depth at which Python
      raises [RecursionError] is the parameter [limit], and no theorem fixes it.
    - [RabbitMQConsumer.start] takes the number of messages it may pull.  It ends as
      [Stopped] or [Exhausted] when the code leaves its loop; as [Waiting] when
      nothing is delivered, and as [MoreMessages] when the number is used up, with the
      iterator and the connection open, and [resume] is the rest of it.
      [start_settles_in_order] shows that a number above that of the messages to come
      is enough, now and after each wait.
    - The polling loops of [local/] take the number of rounds to run; the theorems
      give the number that is enough from the timeout and the interval
      ([PollTheorems.rounds]).  [LocalDocker.fill_pages] needs no more rounds
      than the pages that are missing, 30 at most.
    - Programs are otherwise structurally recursive: every coroutine but the loop
      ends after finitely many events.
    - Integers are Python's.  The words of SHA-256 are 32 bits wide and wrapped at
      each addition.  Columns of type [Integer] are not wrapped: a job's attempts
      never exceed its budget ([reachable_well_formed]).

    ** What is assumed

    - [doc]: what Postgres, S3, RabbitMQ and the PDF library answer, ambiguous
      failures included (a commit, a put or a publish that reports an error may
      have happened).
    - READ COMMITTED: a statement sees committed rows and its own writes, and one
      that meets an uncommitted row it conflicts with waits ([System.waits]).
    - FastAPI: arguments reach a route function validated; a dependency that
      yields is closed after the response is sent; a handler is chosen by the
      class of the exception; dependencies that are no coroutines run in a thread pool.
      [lru_cache] holds no lock while it computes.  [AsgiResponse]: sending a response sends its
      start and then other messages.
    - The Unicode tables of [str.lower] and [str.upper] are parameters, known on
      ASCII ([StrLower], [StrUpper]).
    - [PostgresDdl]: what a DDL statement does to schema and rows; an upgrade is one
      transaction.
    - [Gather]: [asyncio.gather] gives the results in order, and what was sent and
      printed meanwhile is what its coroutines sent and printed, interleaved; or it
      raises an exception of one of them.
    - [HostLaws], [BenchLaws]: that sessions, files, the clock and subprocesses do
      what their documentation says, that a request is answered or raises, and that
      time passes at a sleep.  A write to a file that fails may have written a part.
    - [LocalClient.Checkout]: the directory of the tools, which their paths begin with;
      [setup_key_authenticates] is about the root of the repository as the working
      directory.
    - [PydanticSettings]: a field is taken from a variable, else from an entry of
      the dotenv file, else from its default, names compared in lower case;
      [IntReader], [FilteringLogger] and [EngineUrl] for what the settings,
      structlog and SQLAlchemy accept.
    - [CloudLaws]: the intrinsic functions [Fn::Select] and [Fn::Split], generated
      secrets, the form of the endpoints, and the rules CDK adds for a load
      balancer, which open the mapped port of the first container.

    ** What is not modelled

    The parsing of command lines by typer, of paths and bodies by FastAPI, and
    OpenAPI metadata; the scope, account and region of the cloud stacks; the
    Dockerfiles and the tests.  Nothing in the source shuts a container down, so
    there is no theorem about it.  [asyncio.gather] runs its coroutines in list
    order in the services and is a parameter in the smoke test ([Gather]).  Cancellation of
    a coroutine is not an exception here: a process that is killed stops.  Module-level
    code that only names things (loggers, routers, abstract classes, the identifiers of
    alembic) has no definition. *)

From Stdlib Require Export ZArith NArith Ascii String Lia.
From stdpp Require Export base tactics list option strings gmap numbers.

#[global] Open Scope string_scope.
Abbreviation length := Datatypes.length.
#[global] Open Scope list_scope.

(** ** Results: a value or a raised exception *)

Inductive result (X A : Type) : Type :=
| Ok (a : A)
| Exn (x : X).
Arguments Ok {X A} a.
Arguments Exn {X A} x.

Definition is_ok {X A} (r : result X A) : bool :=
  match r with Ok _ => true | Exn _ => false end.

(** ** Strings *)

(** Python's [a in b] on strings: [sub] occurs in [s]. *)
Fixpoint contains (sub s : string) : bool :=
  String.prefix sub s ||
  match s with
  | EmptyString => false
  | String _ s' => contains sub s'
  end.

Fixpoint list_of_string (s : string) : list ascii :=
  match s with
  | EmptyString => []
  | String c s' => c :: list_of_string s'
  end.

Fixpoint string_of_list (l : list ascii) : string :=
  match l with
  | [] => EmptyString
  | c :: l' => String c (string_of_list l')
  end.

(** [sep.join(l)]. *)
Fixpoint join (sep : string) (l : list string) : string :=
  match l with
  | [] => ""
  | [s] => s
  | s :: l' => s ++ sep ++ join sep l'
  end.

Lemma string_of_list_of_string s : string_of_list (list_of_string s) = s.
Proof. induction s as [|c s IH]; simpl; congruence. Qed.

Lemma list_of_string_of_list l : list_of_string (string_of_list l) = l.
Proof. induction l as [|c l IH]; simpl; congruence. Qed.

Lemma append_nil_l t : String.append "" t = t.
Proof. reflexivity. Qed.

Lemma append_cons c s t : String.append (String c s) t = String c (String.append s t).
Proof. reflexivity. Qed.

Lemma append_nil_r s : String.append s "" = s.
Proof. induction s as [|c s IH]; [done|]. rewrite append_cons. congruence. Qed.

Lemma append_assoc s t u :
  String.append (String.append s t) u = String.append s (String.append t u).
Proof.
  induction s as [|c s IH]; [done|]. rewrite !append_cons. congruence.
Qed.

Lemma list_of_string_app s t :
  list_of_string (s ++ t) = (list_of_string s ++ list_of_string t)%list.
Proof.
  induction s as [|c s IH]; [done|]. rewrite append_cons. simpl. congruence.
Qed.

Lemma list_of_string_inj s t : list_of_string s = list_of_string t -> s = t.
Proof.
  intros H. rewrite <- (string_of_list_of_string s), H.
  apply string_of_list_of_string.
Qed.

Lemma length_list_of_string s : length (list_of_string s) = String.length s.
Proof. induction s as [|c s IH]; simpl; congruence. Qed.

Lemma prefix_app s t : String.prefix s (s ++ t) = true.
Proof.
  induction s as [|c s IH]; [by destruct t|].
  rewrite append_cons. simpl.
  destruct (Ascii.ascii_dec c c); [done | congruence].
Qed.

Lemma contains_mid a sub b : contains sub (a ++ sub ++ b) = true.
Proof.
  induction a as [|c a IH].
  - rewrite append_nil_l. pose proof (prefix_app sub b) as H.
    destruct (String.append sub b); cbn [contains]; by rewrite H.
  - rewrite append_cons. cbn [contains]. rewrite IH. apply orb_true_r.
Qed.

(** Character codes, used to write byte tests the way the code's libraries do. *)
Abbreviation code := N_of_ascii.

Definition byte_in (lo hi : N) (c : ascii) : bool :=
  ((lo <=? code c) && (code c <=? hi))%N.

(** ** Automation shared by the development *)

(** The lemmas that drive symbolic execution, the frame lemmas of tables and
    transactions, and the neutrality lemmas of the claim protocol. *)
Create HintDb pipeline.
Create HintDb frame.
Create HintDb neutral.

Create Rewrite HintDb strings.
#[export] Hint Rewrite string_of_list_of_string list_of_string_of_list
  list_of_string_app : strings.

(** Split conjunctions and existentials of the context. *)
Ltac break :=
  repeat match goal with
  | H : ∃ _, _ |- _ => destruct H
  | H : _ ∧ _ |- _ => destruct H
  end.

(** ** Interleavings *)

(** The list takes its elements from the front of one of the lists at a time. *)
Inductive interleaved {A} : list (list A) -> list A -> Prop :=
| IL_done ls : Forall (fun l => l = []) ls -> interleaved ls []
| IL_step ls i x l rest :
    ls !! i = Some (x :: l) -> interleaved (<[i := l]> ls) rest -> interleaved ls (x :: rest).

Lemma interleaved_empty {A} (ls : list (list A)) l :
  Forall (fun l => l = []) ls -> interleaved ls l -> l = [].
Proof.
  intros H Hi. destruct Hi as [|ls i x l rest Hl _]; [done|].
  by apply (Forall_lookup_1 _ _ _ _ H) in Hl.
Qed.

Lemma interleaved_skip {A} (ls : list (list A)) l : interleaved ls l -> interleaved ([] :: ls) l.
Proof.
  intros H. induction H as [ls H|ls i x l rest Hl _ IH].
  - constructor. by constructor.
  - by apply (IL_step _ (S i) x l).
Qed.

(** One list after the other. *)
Lemma interleaved_concat {A} (ls : list (list A)) : interleaved ls (concat ls).
Proof.
  induction ls as [|l ls IH]; [by constructor|].
  induction l as [|x l IHl]; [by apply interleaved_skip|].
  cbn. by apply (IL_step _ 0 x l).
Qed.
