(* ===== verification/PyStr.v ===== *)
(** * Python strings

    A [str] is represented by the UTF-8 encoding of its code points, lone
    surrogates encoded as the [surrogatepass] handler does; a [bytes] is a
    string of 8-bit characters.  [str.encode()] is then the identity, except
    that it raises on a surrogate ([encode]). *)

From S2P Require Import Prelude.

(** ** UTF-8 with [surrogatepass] *)

Definition chr (n : N) : ascii := ascii_of_N n.

(** The encoding of a code point. *)
Definition utf8_encode (n : N) : list ascii :=
  if (n <? 128)%N then [chr n]
  else if (n <? 2048)%N then [chr (192 + n / 64); chr (128 + n mod 64)]
  else if (n <? 65536)%N
  then [chr (224 + n / 4096); chr (128 + n / 64 mod 64); chr (128 + n mod 64)]
  else [chr (240 + n / 262144); chr (128 + n / 4096 mod 64);
        chr (128 + n / 64 mod 64); chr (128 + n mod 64)].

Definition is_cont (c : ascii) : bool := byte_in 128 191 c.

(** The code points of a text; [None] if the bytes are not UTF-8. *)
Fixpoint utf8_decode (l : list ascii) : option (list N) :=
  match l with
  | [] => Some []
  | c :: l1 =>
      if byte_in 0 127 c then cons (code c) <$> utf8_decode l1
      else if byte_in 194 223 c then
        match l1 with
        | c1 :: l2 =>
            if is_cont c1
            then cons (64 * (code c - 192) + (code c1 - 128))%N <$> utf8_decode l2
            else None
        | _ => None
        end
      else if byte_in 224 239 c then
        match l1 with
        | c1 :: c2 :: l3 =>
            if is_cont c1 && is_cont c2 && (byte_in 225 239 c || byte_in 160 191 c1)
            then cons (4096 * (code c - 224) + 64 * (code c1 - 128)
                       + (code c2 - 128))%N <$> utf8_decode l3
            else None
        | _ => None
        end
      else if byte_in 240 244 c then
        match l1 with
        | c1 :: c2 :: c3 :: l4 =>
            if is_cont c1 && is_cont c2 && is_cont c3
               && (byte_in 241 244 c || byte_in 144 191 c1)
               && (byte_in 240 243 c || byte_in 128 143 c1)
            then cons (262144 * (code c - 240) + 4096 * (code c1 - 128)
                       + 64 * (code c2 - 128) + (code c3 - 128))%N
                 <$> utf8_decode l4
            else None
        | _ => None
        end
      else None
  end.

Definition is_high (n : N) : bool := ((55296 <=? n) && (n <=? 56319))%N.
Definition is_low (n : N) : bool := ((56320 <=? n) && (n <=? 57343))%N.
Definition join_surrogates (hi lo : N) : N :=
  (65536 + 1024 * (hi - 55296) + (lo - 56320))%N.

(** [s.encode()]; [None] is the [UnicodeEncodeError]. *)
Definition encode (s : string) : option string :=
  match utf8_decode (list_of_string s) with
  | Some ps => if existsb (fun n => is_high n || is_low n) ps then None else Some s
  | None => None
  end.

Lemma utf8_decode_ascii l :
  Forall (fun c => byte_in 0 127 c = true) l -> utf8_decode l = Some (map code l).
Proof.
  induction 1 as [|c l Hc _ IH]; [done|].
  cbn [utf8_decode map]. by rewrite Hc, IH.
Qed.

Lemma encode_ascii s :
  Forall (fun c => byte_in 0 127 c = true) (list_of_string s) -> encode s = Some s.
Proof.
  intros H. unfold encode. rewrite utf8_decode_ascii by done.
  replace (existsb _ _) with false; [done|]. symmetry.
  induction H as [|c l Hc _ IH]; [done|]. cbn [map existsb]. rewrite IH, orb_false_r.
  unfold byte_in, is_high, is_low in *. apply andb_prop in Hc as [_ Hc%N.leb_le].
  destruct (N.leb_spec 55296 (code c)); [lia|].
  destruct (N.leb_spec 56320 (code c)); [lia|]. done.
Qed.
