(* ===== verification/PyUuid.v ===== *)
(** * [uuid.UUID] of the Python standard library, as the pipeline uses it

    Identifiers of documents, jobs and artifacts are [uuid.UUID] values: the
    services create them ([uuid4]), the messages and object keys carry their
    [str], and the consumer reads them back with [UUID(str(...))].  A UUID is
    its 128-bit integer; [uuid_str] is [str(u)] and [uuid_of_str] is the
    constructor [UUID(hex)], which accepts more than it prints (braces, the
    [urn:uuid:] prefix, hyphens anywhere, and whatever [int(_, 16)] accepts).

    Strings are ASCII here: a string with any other character is rejected.
    [int] also accepts non-ASCII decimal digits, which are not modelled. *)

From S2P Require Import Prelude.

Abbreviation uuid := N.

Definition valid_uuid (u : uuid) : Prop := (u < 2 ^ 128)%N.

(** ** Printing *)

Definition hex_digit (d : N) : ascii :=
  ascii_of_N (if (d <? 10)%N then 48 + d else 87 + d)%N.

(** The [n] low hexadecimal digits of [u], most significant first. *)
Fixpoint hex_digits (n : nat) (u : N) : list ascii :=
  match n with
  | O => []
  | S n' => (hex_digits n' (u / 16) ++ [hex_digit (u mod 16)])%list
  end.

(** [UUID.__str__]: 8-4-4-4-12 lower-case hexadecimal digits. *)
Definition uuid_chars (u : uuid) : list ascii :=
  let h := hex_digits 32 u in
  (take 8 h ++ "-"%char :: take 4 (drop 8 h) ++ "-"%char ::
   take 4 (drop 12 h) ++ "-"%char :: take 4 (drop 16 h) ++ "-"%char ::
   drop 20 h)%list.

Definition uuid_str (u : uuid) : string := string_of_list (uuid_chars u).

(** ** Parsing *)

(** [s.replace(pat, "")] for a non-empty [pat]; [skip] counts the characters
    of a match still to be dropped. *)
Fixpoint remove_all (pat : list ascii) (skip : nat) (l : list ascii)
  : list ascii :=
  match l with
  | [] => []
  | c :: l' =>
      match skip with
      | S k => remove_all pat k l'
      | O => if bool_decide (take (length pat) l = pat)
             then remove_all pat (length pat - 1) l'
             else c :: remove_all pat 0 l'
      end
  end.

Fixpoint drop_while (p : ascii -> bool) (l : list ascii) : list ascii :=
  match l with
  | [] => []
  | c :: l' => if p c then drop_while p l' else l
  end.

(** [s.strip(chars)]. *)
Definition strip (p : ascii -> bool) (l : list ascii) : list ascii :=
  reverse (drop_while p (reverse (drop_while p l))).

Definition is_brace (c : ascii) : bool :=
  bool_decide (c = "{"%char) || bool_decide (c = "}"%char).

(** [Py_ISSPACE]: tab, newline, vertical tab, form feed, return, space. *)
Definition is_space (c : ascii) : bool := byte_in 9 13 c || byte_in 32 32 c.

Definition hex_value (c : ascii) : option N :=
  if byte_in 48 57 c then Some (code c - 48)%N
  else if byte_in 97 102 c then Some (code c - 87)%N
  else if byte_in 65 70 c then Some (code c - 55)%N
  else None.

(** The digits of [int(_, 16)]: single underscores may separate digits, not
    start or end them.  [under] says that an underscore was just read. *)
Fixpoint int16_digits (acc : N) (under : bool) (l : list ascii) : option N :=
  match l with
  | [] => if under then None else Some acc
  | c :: l' =>
      if bool_decide (c = "_"%char)
      then if under then None else int16_digits acc true l'
      else match hex_value c with
           | Some d => int16_digits (16 * acc + d)%N false l'
           | None => None
           end
  end.

(** [int(s, 16)] for a string without a minus sign: optional plus sign, then
    an optional [0x] prefix that one underscore may follow. *)
Definition py_int16 (l : list ascii) : option N :=
  let l := strip is_space l in
  let l := match l with "+"%char :: l' => l' | _ => l end in
  let l := match l with
           | "0"%char :: x :: l' =>
               if byte_in 120 120 x || byte_in 88 88 x
               then match l' with "_"%char :: l'' => l'' | _ => l' end
               else l
           | _ => l
           end in
  match l with
  | [] => None
  | "_"%char :: _ => None
  | _ => int16_digits 0 false l
  end.

Definition is_ascii (l : list ascii) : bool := forallb (byte_in 0 127) l.

(** [UUID(s)]; [None] is the [ValueError] it raises. *)
Definition uuid_of_str (s : string) : option uuid :=
  let l := list_of_string s in
  let l := remove_all (list_of_string "urn:") 0 l in
  let l := remove_all (list_of_string "uuid:") 0 l in
  let l := remove_all ["-"%char] 0 (strip is_brace l) in
  if is_ascii l && bool_decide (length l = 32) then py_int16 l else None.

Example uuid_str_ex :
  uuid_str 1 = "00000000-0000-0000-0000-000000000001".
Proof. reflexivity. Qed.

Example uuid_parse_ex :
  uuid_of_str "{urn:uuid:00000000-0000-0000-0000-00000000000A}" = Some 10%N.
Proof. reflexivity. Qed.

Example uuid_parse_bad : uuid_of_str "not-a-uuid" = None.
Proof. reflexivity. Qed.

(** ** Round trip *)

(** The characters [str] prints apart from the hyphens. *)
Definition is_hex (c : ascii) : bool := byte_in 48 57 c || byte_in 97 102 c.

Lemma N_lt_16_cases (P : N -> Prop) :
  (forall k, (k < 16)%nat -> P (N.of_nat k)) -> forall d, (d < 16)%N -> P d.
Proof.
  intros H d Hd. rewrite <- (N2Nat.id d). apply H. lia.
Qed.

Lemma hex_digit_spec d :
  (d < 16)%N -> is_hex (hex_digit d) = true /\ hex_value (hex_digit d) = Some d.
Proof.
  revert d. apply N_lt_16_cases. intros k Hk.
  do 16 (destruct k as [|k]; [by split|]). lia.
Qed.

Lemma length_hex_digits n u : length (hex_digits n u) = n.
Proof.
  revert u. induction n as [|n IH]; intros u; simpl; [done|].
  rewrite length_app, IH. simpl. lia.
Qed.

Lemma hex_digits_hex n u : Forall (fun c => is_hex c = true) (hex_digits n u).
Proof.
  revert u. induction n as [|n IH]; intros u; simpl; [constructor|].
  apply Forall_app; split; [apply IH|].
  constructor; [|constructor].
  apply hex_digit_spec. apply N.mod_lt. lia.
Qed.

Lemma is_hex_cases (P : ascii -> Prop) :
  (forall d, (d < 16)%N -> P (hex_digit d)) ->
  forall c, is_hex c = true -> P c.
Proof.
  intros H c Hc. rewrite <- (ascii_N_embedding c).
  unfold is_hex, byte_in in Hc. set (n := N_of_ascii c) in *.
  clearbody n. apply orb_prop in Hc. rewrite !andb_true_iff, !N.leb_le in Hc.
  destruct Hc as [Hc|Hc].
  - replace (ascii_of_N n) with (hex_digit (n - 48)); [apply H; lia|].
    unfold hex_digit. destruct (N.ltb_spec (n - 48) 10); [|lia].
    f_equal. lia.
  - replace (ascii_of_N n) with (hex_digit (n - 87)); [apply H; lia|].
    unfold hex_digit. destruct (N.ltb_spec (n - 87) 10); [lia|].
    f_equal. lia.
Qed.

Lemma is_hex_digit c :
  is_hex c = true -> exists d, (d < 16)%N /\ c = hex_digit d.
Proof. revert c. apply is_hex_cases. eauto. Qed.

(** A decidable property of hexadecimal characters is checked on the sixteen. *)
Lemma is_hex_check (f : ascii -> bool) :
  forallb (fun k => f (hex_digit (N.of_nat k))) (seq 0 16) = true ->
  forall c, is_hex c = true -> f c = true.
Proof.
  intros H. apply is_hex_cases. apply N_lt_16_cases. intros k Hk.
  rewrite forallb_forall in H. apply H. apply in_seq. lia.
Qed.

Lemma remove_all_absent c pat l :
  Forall (fun x => x <> c) l -> remove_all (c :: pat) 0 l = l.
Proof.
  induction 1 as [|x l Hx _ IH]; [done|].
  cbn [remove_all]. rewrite bool_decide_eq_false_2; [by rewrite IH|].
  cbn. congruence.
Qed.

Lemma remove_char_app c l1 l2 :
  remove_all [c] 0 (l1 ++ l2) = (remove_all [c] 0 l1 ++ remove_all [c] 0 l2)%list.
Proof.
  induction l1 as [|x l1 IH]; [done|]. cbn [remove_all app].
  destruct (decide (x = c)) as [->|Hne].
  - rewrite !bool_decide_eq_true_2 by done. exact IH.
  - rewrite !bool_decide_eq_false_2 by (cbn; congruence). by rewrite IH.
Qed.

Lemma drop_while_none p l :
  Forall (fun x => p x = false) l -> drop_while p l = l.
Proof. intros H. destruct H as [|x l Hx _]; simpl; [done|]. by rewrite Hx. Qed.

Lemma strip_none p l : Forall (fun x => p x = false) l -> strip p l = l.
Proof.
  intros H. unfold strip. rewrite (drop_while_none p l H), drop_while_none.
  - apply reverse_involutive.
  - by apply Forall_reverse.
Qed.

Definition hex_or_dash (c : ascii) : bool := is_hex c || bool_decide (c = "-"%char).

Lemma hex_or_dash_check (f : ascii -> bool) :
  f "-"%char = true ->
  forallb (fun k => f (hex_digit (N.of_nat k))) (seq 0 16) = true ->
  forall l, Forall (fun c => hex_or_dash c = true) l ->
  Forall (fun c => f c = true) l.
Proof.
  intros Hd Hh l. apply Forall_impl. intros c [Hc|Hc]%orb_true_iff.
  - by apply is_hex_check.
  - by apply bool_decide_eq_true in Hc as ->.
Qed.

Lemma is_hex_Forall (f : ascii -> bool) l :
  forallb (fun k => f (hex_digit (N.of_nat k))) (seq 0 16) = true ->
  Forall (fun c => is_hex c = true) l -> Forall (fun c => f c = true) l.
Proof. intros Hf. apply Forall_impl. by apply is_hex_check. Qed.

(** Value of a list of hexadecimal digits. *)
Definition hex_fold (acc : N) (l : list ascii) : N :=
  fold_left (fun a c => 16 * a + default 0 (hex_value c))%N l acc.

Lemma int16_digits_hex acc l :
  Forall (fun c => is_hex c = true) l ->
  int16_digits acc false l = Some (hex_fold acc l).
Proof.
  intros H. revert acc. induction H as [|c l Hc _ IH]; intros acc; [done|].
  cbn [int16_digits hex_fold fold_left].
  assert (Hu : c <> "_"%char).
  { intros ->. by vm_compute in Hc. }
  rewrite bool_decide_eq_false_2 by done.
  apply is_hex_digit in Hc as (d & Hd & ->).
  destruct (hex_digit_spec d Hd) as [_ ->]. apply IH.
Qed.

Lemma hex_fold_app acc l1 l2 :
  hex_fold acc (l1 ++ l2) = hex_fold (hex_fold acc l1) l2.
Proof. apply fold_left_app. Qed.

Lemma hex_fold_digits n acc u :
  hex_fold acc (hex_digits n u) = (acc * 16 ^ N.of_nat n + u mod 16 ^ N.of_nat n)%N.
Proof.
  revert u. induction n as [|n IH]; intros u.
  { cbn. rewrite N.mod_1_r. lia. }
  cbn [hex_digits]. rewrite hex_fold_app, IH. unfold hex_fold. cbn [fold_left].
  assert (Hm : (u mod 16 < 16)%N) by (apply N.mod_lt; lia).
  rewrite (proj2 (hex_digit_spec _ Hm)). cbn [default].
  rewrite Nat2N.inj_succ, N.pow_succ_r by lia.
  rewrite (N.Div0.mod_mul_r u 16). set (m := (16 ^ N.of_nat n)%N). clearbody m. unfold id. lia.
Qed.

(** [int(h, 16)] reads the digits back. *)
Lemma py_int16_hex_digits n u :
  py_int16 (hex_digits (S n) u) = Some (u mod 16 ^ N.of_nat (S n))%N.
Proof.
  pose proof (hex_digits_hex (S n) u) as Hh.
  pose proof (hex_fold_digits (S n) 0 u) as Hv.
  pose proof (length_hex_digits (S n) u) as Hl.
  assert (Hs : Forall (fun c => is_space c = false) (hex_digits (S n) u)).
  { eapply Forall_impl; [intros c Hc; apply negb_true_iff; exact Hc|].
    by apply is_hex_Forall. }
  unfold py_int16. rewrite strip_none by done.
  destruct (hex_digits (S n) u) as [|c l]; [done|].
  assert (Hc : is_hex c = true) by by apply Forall_cons_1 in Hh as [? _].
  assert (Hx : forall x l', l = x :: l' ->
            byte_in 120 120 x || byte_in 88 88 x = false).
  { intros x l' ->. apply Forall_cons_1 in Hh as [_ Hh].
    apply Forall_cons_1 in Hh as [Hx _].
    apply negb_true_iff. clear - Hx. revert x Hx. by apply is_hex_check. }
  assert (Hd : int16_digits 0 false (c :: l)
               = Some (u mod 16 ^ N.of_nat (S n))%N).
  { rewrite int16_digits_hex by done. by rewrite Hv. }
  clear Hs Hv Hl Hh. revert Hd.
  apply is_hex_digit in Hc as (d & Hlt & ->). revert d Hlt.
  refine (N_lt_16_cases _ _). intros k Hk.
  intros Hd. set (c := hex_digit _) in *.
  do 16 (destruct k as [|k];
    [vm_compute in c; subst c; destruct l as [|x l]; [exact Hd|];
     cbv beta iota; rewrite ?(Hx x l eq_refl); exact Hd|]).
  lia.
Qed.

Lemma uuid_chars_hex u : Forall (fun c => hex_or_dash c = true) (uuid_chars u).
Proof.
  assert (H : Forall (fun c => hex_or_dash c = true) (hex_digits 32 u)).
  { eapply Forall_impl; [|apply hex_digits_hex].
    intros c Hc. unfold hex_or_dash. by rewrite Hc. }
  unfold uuid_chars.
  generalize dependent (hex_digits 32 u). intros h H.
  repeat first [exact H | apply Forall_take | apply Forall_drop
               | apply Forall_app_2 | apply Forall_cons_2 | done].
Qed.

Lemma remove_dash_hex l :
  Forall (fun c => is_hex c = true) l -> remove_all ["-"%char] 0 l = l.
Proof.
  intros H. apply remove_all_absent. eapply Forall_impl; [|exact H].
  by intros c Hc ->.
Qed.

Lemma take_drop_drop {A} n m k (h : list A) :
  k = m + n -> (take n (drop m h) ++ drop k h)%list = drop m h.
Proof. intros ->. rewrite <- drop_drop. apply take_drop. Qed.

(** Dropping the hyphens of [str(u)] leaves its digits. *)
Lemma uuid_chars_digits u :
  remove_all ["-"%char] 0 (uuid_chars u) = hex_digits 32 u.
Proof.
  pose proof (hex_digits_hex 32 u) as H. unfold uuid_chars.
  generalize dependent (hex_digits 32 u). intros h H.
  rewrite !(cons_middle "-"%char), !remove_char_app.
  change (remove_all ["-"%char] 0 ["-"%char]) with (@nil ascii). cbn [app].
  rewrite !remove_dash_hex by (repeat first [exact H | apply Forall_take
                                            | apply Forall_drop]).
  rewrite (take_drop_drop 4 16 20), (take_drop_drop 4 12 16),
    (take_drop_drop 4 8 12) by done.
  apply take_drop.
Qed.

(** [UUID(str(u)) == u] for every UUID. *)
Lemma uuid_of_str_uuid_str u : valid_uuid u -> uuid_of_str (uuid_str u) = Some u.
Proof.
  intros Hu. unfold uuid_of_str, uuid_str. rewrite list_of_string_of_list.
  pose proof (uuid_chars_hex u) as Hh.
  assert (Hc : forall c, hex_or_dash c = false ->
                 Forall (fun x => x <> c) (uuid_chars u)).
  { intros c Hc. eapply Forall_impl; [|exact Hh]. intros x Hx ->. congruence. }
  assert (Hr : forall p, remove_all ("u"%char :: p) 0 (uuid_chars u) = uuid_chars u).
  { intros p. apply remove_all_absent, Hc. reflexivity. }
  cbn [list_of_string]. rewrite !Hr, strip_none.
  2: { eapply Forall_impl; [intros c H; apply negb_true_iff; exact H|].
       by apply hex_or_dash_check. }
  rewrite uuid_chars_digits, length_hex_digits.
  rewrite bool_decide_eq_true_2, py_int16_hex_digits by done.
  assert (Ha : is_ascii (hex_digits 32 u) = true).
  { unfold is_ascii. apply forallb_forall, Forall_forall.
    apply is_hex_Forall; [done | apply hex_digits_hex]. }
  rewrite Ha. cbn [andb]. f_equal. by apply N.mod_small.
Qed.
