(* ===== verification/Json.v ===== *)
(** * [json] of the Python standard library, as the pipeline uses it

    Producers send [json.dumps(payload).encode()]; the consumer reads
    [json.loads(msg.body)].  Texts are UTF-8 bytes (see [PyStr]), so
    [decode_body] is the decoding [json.loads] applies to bytes and
    [loads_text] its decoder.

    [loads] gives a value, a [ValueError] (which covers [JSONDecodeError] and
    [UnicodeDecodeError]), or a [RecursionError] when brackets nest deeper
    than the interpreter allows; that limit is an argument.  The decoder is
    written with fuel; [fuel_for] is enough for every input ([loads_no_fuel]).
    A number with a fraction or an exponent is kept as its text. *)

From stdpp Require Import pretty.
From S2P Require Import Prelude PyStr.

Inductive json : Type :=
| JNull
| JBool (b : bool)
| JInt (z : Z)
| JFloat (text : string)
| JStr (s : string)
| JArr (l : list json)
| JObj (members : list (string * json)).

(** Outcome of a decoder: a value and what follows it, or the reason to stop. *)
Inductive decoded (A : Type) : Type :=
| DVal (a : A) (rest : list ascii)
| DValueError
| DRecursionError
| DFuel.
Arguments DVal {A} a rest.
Arguments DValueError {A}.
Arguments DRecursionError {A}.
Arguments DFuel {A}.

(** ** [json.dumps] *)

(** The four lower-case hexadecimal digits of [\uXXXX]. *)
Definition hex4 (n : N) : list ascii :=
  let d k := let v := (n / 16 ^ k mod 16)%N in
             chr (if v <? 10 then 48 + v else 87 + v)%N in
  [d 3; d 2; d 1; d 0]%N.

Definition u_escape (n : N) : list ascii := "\"%char :: "u"%char :: hex4 n.

(** [ensure_ascii]: how one code point of a string is written. *)
Definition escape (n : N) : list ascii :=
  (if (n =? 34)%N then ["\"%char; chr 34]
   else if (n =? 92)%N then ["\"%char; "\"%char]
   else if (n =? 10)%N then ["\"%char; "n"%char]
   else if (n =? 13)%N then ["\"%char; "r"%char]
   else if (n =? 9)%N then ["\"%char; "t"%char]
   else if (n =? 12)%N then ["\"%char; "f"%char]
   else if (n =? 8)%N then ["\"%char; "b"%char]
   else if (32 <=? n)%N && (n <=? 126)%N then [chr n]
   else if (n <? 65536)%N then u_escape n
   else u_escape (55296 + (n - 65536) / 1024)
        ++ u_escape (56320 + (n - 65536) mod 1024))%list%N.

Definition dquote : ascii := chr 34.

(** A string that is not valid UTF-8 does not arise; its bytes would be
    written as code points. *)
Definition dump_string (s : string) : list ascii :=
  let l := list_of_string s in
  (dquote :: concat (map escape (default (map code l) (utf8_decode l)))
   ++ [dquote])%list.

Definition separate (ls : list (list ascii)) : list ascii :=
  match ls with
  | [] => []
  | l :: ls' => (l ++ concat (map (fun x => ","%char :: " "%char :: x) ls'))%list
  end.

(** [json.dumps] with its default separators [", "] and [": "]. *)
Fixpoint dump (j : json) : list ascii :=
  match j with
  | JNull => list_of_string "null"
  | JBool true => list_of_string "true"
  | JBool false => list_of_string "false"
  | JInt z => list_of_string (pretty z)
  | JFloat t => list_of_string t
  | JStr s => dump_string s
  | JArr l => ("["%char :: separate (map dump l) ++ ["]"%char])%list
  | JObj ms =>
      ("{"%char ::
       separate (map (fun m => dump_string m.1 ++ ":"%char :: " "%char :: dump m.2) ms)
       ++ ["}"%char])%list
  end.

Definition dumps (j : json) : string := string_of_list (dump j).

(** ** The bytes of a message as a text *)

(** [json.detect_encoding]. *)
Inductive encoding := Utf8 | Utf8Sig | Utf16 | Utf16BE | Utf16LE | Utf32
| Utf32BE | Utf32LE.

Definition bom_utf8 := map chr [239; 187; 191]%N.
Definition bom_utf16_be := map chr [254; 255]%N.
Definition bom_utf16_le := map chr [255; 254]%N.
Definition bom_utf32_be := map chr [0; 0; 254; 255]%N.
Definition bom_utf32_le := map chr [255; 254; 0; 0]%N.

Definition startswith (l p : list ascii) : bool := bool_decide (take (length p) l = p).

Definition nul (c : ascii) : bool := bool_decide (code c = 0%N).

Definition detect_encoding (b : list ascii) : encoding :=
  if startswith b bom_utf32_be || startswith b bom_utf32_le then Utf32
  else if startswith b bom_utf16_be || startswith b bom_utf16_le then Utf16
  else if startswith b bom_utf8 then Utf8Sig
  else match b with
       | [b0; b1] =>
           if nul b0 then Utf16BE else if nul b1 then Utf16LE else Utf8
       | b0 :: b1 :: b2 :: b3 :: _ =>
           if nul b0 then if nul b1 then Utf32BE else Utf16BE
           else if nul b1
                then if nul b2 && nul b3 then Utf32LE else Utf16LE
                else Utf8
       | _ => Utf8
       end.

(** Code units of two and four bytes. *)
Fixpoint units16 (be : bool) (l : list ascii) : option (list N) :=
  match l with
  | [] => Some []
  | a :: b :: l' =>
      cons (if be then 256 * code a + code b else 256 * code b + code a)%N
        <$> units16 be l'
  | _ => None
  end.

Fixpoint units32 (be : bool) (l : list ascii) : option (list N) :=
  match l with
  | [] => Some []
  | a :: b :: c :: d :: l' =>
      let n := if be
               then 16777216 * code a + 65536 * code b + 256 * code c + code d
               else 16777216 * code d + 65536 * code c + 256 * code b + code a in
      if (n <? 1114112)%N then cons n <$> units32 be l' else None
  | _ => None
  end%N.

Fixpoint join16 (l : list N) : list N :=
  match l with
  | [] => []
  | h :: l1 =>
      match l1 with
      | lo :: l2 => if is_high h && is_low lo
                    then join_surrogates h lo :: join16 l2
                    else h :: join16 l1
      | [] => [h]
      end
  end.

Definition encode_points (l : list N) : list ascii := concat (map utf8_encode l).

(** [b.decode(detect_encoding(b), "surrogatepass")], as UTF-8 bytes. *)
Definition decode_body (b : list ascii) : option (list ascii) :=
  let utf8 l := encode_points <$> utf8_decode l in
  let utf16 be l := (fun u => encode_points (join16 u)) <$> units16 be l in
  let utf32 be l := encode_points <$> units32 be l in
  match detect_encoding b with
  | Utf8 => utf8 b
  | Utf8Sig => utf8 (drop 3 b)
  | Utf16 => utf16 (startswith b bom_utf16_be) (drop 2 b)
  | Utf16BE => utf16 true b
  | Utf16LE => utf16 false b
  | Utf32 => utf32 (startswith b bom_utf32_be) (drop 4 b)
  | Utf32BE => utf32 true b
  | Utf32LE => utf32 false b
  end.

(** ** [json.loads] *)

Definition json_space (c : ascii) : bool :=
  byte_in 32 32 c || byte_in 9 10 c || byte_in 13 13 c.

Fixpoint skip_ws (l : list ascii) : list ascii :=
  match l with
  | c :: l' => if json_space c then skip_ws l' else l
  | [] => []
  end.

Definition hex_val (c : ascii) : option N :=
  if byte_in 48 57 c then Some (code c - 48)%N
  else if byte_in 97 102 c then Some (code c - 87)%N
  else if byte_in 65 70 c then Some (code c - 55)%N
  else None.

Definition hex4_val (a b c d : ascii) : option N :=
  match hex_val a, hex_val b, hex_val c, hex_val d with
  | Some a, Some b, Some c, Some d => Some (4096 * a + 256 * b + 16 * c + d)%N
  | _, _, _, _ => None
  end.

(** The character a one-letter escape stands for. *)
Definition backslash (c : ascii) : option ascii :=
  if (code c =? 34)%N then Some (chr 34)
  else if (code c =? 92)%N then Some (chr 92)
  else if (code c =? 47)%N then Some (chr 47)
  else if (code c =? 98)%N then Some (chr 8)
  else if (code c =? 102)%N then Some (chr 12)
  else if (code c =? 110)%N then Some (chr 10)
  else if (code c =? 114)%N then Some (chr 13)
  else if (code c =? 116)%N then Some (chr 9)
  else None.

Definition push_point (n : N) (acc : list ascii) : list ascii :=
  (reverse (utf8_encode n) ++ acc)%list.

(** [scanstring] after the opening quote; [acc] holds, reversed, the bytes read
    so far.  Control characters are refused ([strict=True]); a high surrogate
    escape joins with the low surrogate escape that follows it. *)
Fixpoint scan_string (acc : list ascii) (l : list ascii) : decoded string :=
  match l with
  | [] => DValueError
  | c :: l1 =>
      if (code c =? 34)%N then DVal (string_of_list (reverse acc)) l1
      else if (code c <? 32)%N then DValueError
      else if negb (code c =? 92)%N then scan_string (c :: acc) l1
      else match l1 with
           | [] => DValueError
           | e :: l2 =>
               if negb (code e =? 117)%N then
                 match backslash e with
                 | Some x => scan_string (x :: acc) l2
                 | None => DValueError
                 end
               else match l2 with
                    | h1 :: h2 :: h3 :: h4 :: l6 =>
                        match hex4_val h1 h2 h3 h4 with
                        | None => DValueError
                        | Some u =>
                            let plain := scan_string (push_point u acc) l6 in
                            match l6 with
                            | b' :: e' :: g1 :: g2 :: g3 :: g4 :: l12 =>
                                if is_high u && (code b' =? 92)%N
                                   && (code e' =? 117)%N
                                then match hex4_val g1 g2 g3 g4 with
                                     | None => DValueError
                                     | Some u2 =>
                                         if is_low u2
                                         then scan_string
                                                (push_point (join_surrogates u u2) acc)
                                                l12
                                         else plain
                                     end
                                else plain
                            | _ => plain
                            end
                        end
                    | _ => DValueError
                    end
           end
  end.

(** *** Numbers: an optional minus sign, an integer without leading zeros, an
    optional fraction and an optional exponent; the longest such prefix. *)

Definition is_digit (c : ascii) : bool := byte_in 48 57 c.

Fixpoint span (p : ascii -> bool) (l : list ascii) : list ascii * list ascii :=
  match l with
  | c :: l' => if p c then let '(a, b) := span p l' in (c :: a, b) else ([], l)
  | [] => ([], [])
  end.

Definition decimal (l : list ascii) : Z :=
  fold_left (fun a c => 10 * a + Z.of_N (code c - 48))%Z l 0%Z.

(** [sys.int_info.default_max_str_digits]: longer integers are refused. *)
Definition max_str_digits : nat := 4300.

Definition is_char (n : N) (c : ascii) : bool := (code c =? n)%N.

Definition scan_fraction (l : list ascii) : list ascii * list ascii :=
  match l with
  | c :: l' =>
      if is_char 46 c
      then match span is_digit l' with
           | ([], _) => ([], l)
           | (ds, l'') => (c :: ds, l'')
           end
      else ([], l)
  | [] => ([], l)
  end.

Definition scan_exponent (l : list ascii) : list ascii * list ascii :=
  match l with
  | c :: l' =>
      if is_char 101 c || is_char 69 c then
        let '(sign, l1) := match l' with
                           | s :: l1 => if is_char 43 s || is_char 45 s
                                        then ([s], l1) else ([], l')
                           | [] => ([], l')
                           end in
        match span is_digit l1 with
        | ([], _) => ([], l)
        | (ds, l2) => (c :: sign ++ ds, l2)%list
        end
      else ([], l)
  | [] => ([], l)
  end.

Definition scan_integer (l : list ascii) : option (list ascii * list ascii) :=
  match l with
  | c :: l' =>
      if is_char 48 c then Some ([c], l')
      else if byte_in 49 57 c
           then let '(ds, l'') := span is_digit l' in Some (c :: ds, l'')
           else None
  | [] => None
  end.

Definition scan_number (l : list ascii) : decoded json :=
  let '(sign, l0) := match l with
                     | c :: l0 => if is_char 45 c then ([c], l0) else ([], l)
                     | [] => ([], l)
                     end in
  match scan_integer l0 with
  | None => DValueError
  | Some (ds, l1) =>
      let '(frac, l2) := scan_fraction l1 in
      let '(exp, l3) := scan_exponent l2 in
      match frac, exp with
      | [], [] =>
          if bool_decide (max_str_digits < length ds) then DValueError
          else DVal (JInt (match sign with [] => decimal ds
                           | _ => - decimal ds end)) l3
      | _, _ => DVal (JFloat (string_of_list (sign ++ ds ++ frac ++ exp))) l3
      end
  end.

(** The literals, [NaN] and the infinities included. *)
Definition literals : list (string * json) :=
  [("null", JNull); ("true", JBool true); ("false", JBool false);
   ("NaN", JFloat "nan"); ("Infinity", JFloat "inf"); ("-Infinity", JFloat "-inf")].

Fixpoint scan_literal (ls : list (string * json)) (l : list ascii)
  : option (json * list ascii) :=
  match ls with
  | [] => None
  | (t, v) :: ls' =>
      let t := list_of_string t in
      if startswith l t then Some (v, drop (length t) l) else scan_literal ls' l
  end.

(** *** Values.  [depth] is the nesting still allowed. *)

Fixpoint scan_value (fuel depth : nat) (l : list ascii) : decoded json :=
  match fuel with
  | O => DFuel
  | S fuel =>
      match l with
      | [] => DValueError
      | c :: l1 =>
          if is_char 34 c then
            match scan_string [] l1 with
            | DVal s l2 => DVal (JStr s) l2
            | DValueError => DValueError
            | DRecursionError => DRecursionError
            | DFuel => DFuel
            end
          else if is_char 123 c then
            match depth with
            | O => DRecursionError
            | S depth =>
                let l2 := skip_ws l1 in
                match l2 with
                | c2 :: l3 =>
                    if is_char 125 c2 then DVal (JObj []) l3
                    else scan_members fuel depth [] l2
                | [] => DValueError
                end
            end
          else if is_char 91 c then
            match depth with
            | O => DRecursionError
            | S depth =>
                let l2 := skip_ws l1 in
                match l2 with
                | c2 :: l3 =>
                    if is_char 93 c2 then DVal (JArr []) l3
                    else scan_elements fuel depth [] l2
                | [] => DValueError
                end
            end
          else match scan_literal literals l with
               | Some (v, l2) => DVal v l2
               | None => scan_number l
               end
      end
  end
with scan_members (fuel depth : nat) (acc : list (string * json))
       (l : list ascii) : decoded json :=
  match fuel with
  | O => DFuel
  | S fuel =>
      match l with
      | q :: l1 =>
          if is_char 34 q then
            match scan_string [] l1 with
            | DVal k l2 =>
                match skip_ws l2 with
                | c :: l3 =>
                    if is_char 58 c then
                      match scan_value fuel depth (skip_ws l3) with
                      | DVal v l4 =>
                          match skip_ws l4 with
                          | d :: l5 =>
                              if is_char 125 d
                              then DVal (JObj (reverse ((k, v) :: acc))) l5
                              else if is_char 44 d
                              then scan_members fuel depth ((k, v) :: acc) (skip_ws l5)
                              else DValueError
                          | [] => DValueError
                          end
                      | DValueError => DValueError
                      | DRecursionError => DRecursionError
                      | DFuel => DFuel
                      end
                    else DValueError
                | [] => DValueError
                end
            | DValueError => DValueError
            | DRecursionError => DRecursionError
            | DFuel => DFuel
            end
          else DValueError
      | [] => DValueError
      end
  end
with scan_elements (fuel depth : nat) (acc : list json)
       (l : list ascii) : decoded json :=
  match fuel with
  | O => DFuel
  | S fuel =>
      match scan_value fuel depth l with
      | DVal v l1 =>
          match skip_ws l1 with
          | d :: l2 =>
              if is_char 93 d then DVal (JArr (reverse (v :: acc))) l2
              else if is_char 44 d
              then scan_elements fuel depth (v :: acc) (skip_ws l2)
              else DValueError
          | [] => DValueError
          end
      | DValueError => DValueError
      | DRecursionError => DRecursionError
      | DFuel => DFuel
      end
  end.

Definition fuel_for (l : list ascii) : nat := 2 * length l + 1.

(** The decoder on a text: one value, surrounded by white space. *)
Definition loads_text (limit : nat) (l : list ascii) : decoded json :=
  match scan_value (fuel_for l) limit (skip_ws l) with
  | DVal v l1 =>
      match skip_ws l1 with [] => DVal v [] | _ => DValueError end
  | e => e
  end.

(** [json.loads(body)] for bytes. *)
Definition loads (limit : nat) (body : string) : decoded json :=
  match decode_body (list_of_string body) with
  | Some l => loads_text limit l
  | None => DValueError
  end.

(** [payload[key]] of a decoded object: the last binding of the key.  [None]
    stands for the [KeyError], and for the [TypeError] of a value that is not
    an object. *)
Definition get_item (key : string) (j : json) : option json :=
  match j with
  | JObj ms => option_map snd (List.find (fun m => bool_decide (m.1 = key)) (reverse ms))
  | _ => None
  end.

Example loads_ex :
  loads 10 (dumps (JObj [("job_id", JStr "a"); ("n", JArr [JInt 3; JNull])])) =
  DVal (JObj [("job_id", JStr "a"); ("n", JArr [JInt 3; JNull])]) [].
Proof. vm_compute. reflexivity. Qed.

Example loads_bad : loads 10 "not json" = DValueError.
Proof. vm_compute. reflexivity. Qed.
