(* ===== verification/JsonFacts.v ===== *)
(** * Facts about the JSON decoder

    It never runs out of fuel, and it reads back what [json.dumps] writes for the
    messages of the pipeline: objects of plain strings and arrays of plain strings. *)

From S2P Require Import Prelude PyStr Json.

(** ** Fuel *)

(** A decoder that does not run out of fuel and, if it returns, leaves at most
    [n] characters. *)
Definition leaves {A} (r : decoded A) (n : nat) : Prop :=
  match r with
  | DVal _ rest => (length rest <= n)%nat
  | DFuel => False
  | _ => True
  end.

Lemma length_skip_ws l : (length (skip_ws l) <= length l)%nat.
Proof. induction l as [|c l IH]; simpl; [lia|]. destruct (json_space c); simpl; lia. Qed.

Lemma leaves_mono {A} (r : decoded A) n m : leaves r n -> (n <= m)%nat -> leaves r m.
Proof. destruct r; simpl; [lia|done..]. Qed.

Lemma scan_string_leaves acc l : leaves (scan_string acc l) (length l).
Proof.
  remember (length l) as n eqn:Hn. revert acc l Hn.
  induction n as [n IH] using lt_wf_ind. intros acc l ->.
  assert (Hrec : forall acc' l', (length l' < length l)%nat ->
    leaves (scan_string acc' l') (length l)).
  { intros acc' l' Hl. eapply leaves_mono; [by eapply IH|lia]. }
  destruct l as [|c l1]; [done|]. simpl.
  destruct (code c =? 34)%N; [simpl; lia|].
  destruct (code c <? 32)%N; [done|].
  destruct (negb (code c =? 92)%N); [apply Hrec; simpl; lia|].
  destruct l1 as [|e l2]; [done|].
  destruct (negb (code e =? 117)%N).
  { destruct (backslash e); [apply Hrec; simpl; lia|done]. }
  destruct l2 as [|h1 [|h2 [|h3 [|h4 l6]]]]; try done.
  destruct (hex4_val h1 h2 h3 h4) as [u|]; [|done].
  assert (Hp : leaves (scan_string (push_point u acc) l6)
                 (length (c :: e :: h1 :: h2 :: h3 :: h4 :: l6)))
    by (apply Hrec; simpl; lia).
  destruct l6 as [|b' [|e' [|g1 [|g2 [|g3 [|g4 l12]]]]]]; try exact Hp.
  destruct (is_high u && (code b' =? 92)%N && (code e' =? 117)%N); [|exact Hp].
  destruct (hex4_val g1 g2 g3 g4) as [u2|]; [|done].
  destruct (is_low u2); [apply Hrec; simpl; lia|exact Hp].
Qed.

Lemma length_span p l : (length (span p l).2 <= length l)%nat.
Proof.
  induction l as [|c l IH]; simpl; [lia|].
  destruct (p c); [|simpl; lia]. destruct (span p l); simpl in *; lia.
Qed.

Lemma scan_integer_length l ds l' :
  scan_integer l = Some (ds, l') -> (length l' < length l)%nat.
Proof.
  destruct l as [|c l]; [done|]. simpl. destruct (is_char 48 c); [intros; simplify_eq; lia|].
  destruct (byte_in 49 57 c); [|done]. pose proof (length_span is_digit l) as H.
  destruct (span is_digit l). intros. simplify_eq. simpl in H. lia.
Qed.

Lemma scan_fraction_length l : (length (scan_fraction l).2 <= length l)%nat.
Proof.
  destruct l as [|c l]; [done|]. simpl. destruct (is_char 46 c); [|done].
  pose proof (length_span is_digit l) as H.
  destruct (span is_digit l) as [[|d ds] l']; simpl in *; lia.
Qed.

Lemma scan_exponent_length l : (length (scan_exponent l).2 <= length l)%nat.
Proof.
  destruct l as [|c l]; [done|]. simpl. destruct (is_char 101 c || is_char 69 c); [|done].
  assert (Hs : forall sign l1, (length l1 <= length l)%nat ->
    (length (match span is_digit l1 with
             | ([], _) => ([], c :: l)
             | (ds, l2) => ((c :: sign ++ ds)%list, l2)
             end).2 <= Datatypes.S (length l))%nat).
  { intros sign l1 Hl. pose proof (length_span is_digit l1) as H.
    destruct (span is_digit l1) as [[|d ds] l2]; simpl in *; lia. }
  destruct l as [|s l1]; [by apply Hs|].
  destruct (is_char 43 s || is_char 45 s); apply Hs; simpl; lia.
Qed.

Lemma scan_number_leaves l : leaves (scan_number l) (length l - 1).
Proof.
  unfold scan_number.
  assert (H : forall sign l0, (length l0 <= length l)%nat ->
    leaves (match scan_integer l0 with
            | None => DValueError
            | Some (ds, l1) =>
                let '(frac, l2) := scan_fraction l1 in
                let '(exp, l3) := scan_exponent l2 in
                match frac, exp with
                | [], [] =>
                    if bool_decide (max_str_digits < length ds)%nat then DValueError
                    else DVal (JInt (match sign with [] => decimal ds
                                     | _ => - decimal ds end)) l3
                | _, _ => DVal (JFloat (string_of_list (sign ++ ds ++ frac ++ exp))) l3
                end
            end) (length l - 1)).
  { intros sign l0 Hl. destruct (scan_integer l0) as [[ds l1]|] eqn:E; [|done].
    apply scan_integer_length in E.
    pose proof (scan_fraction_length l1). destruct (scan_fraction l1) as [frac l2].
    pose proof (scan_exponent_length l2). destruct (scan_exponent l2) as [exp l3].
    simpl in *.
    destruct frac, exp; simpl; try lia. case_bool_decide; simpl; [done|lia]. }
  destruct l as [|c l0]; [done|].
  destruct (is_char 45 c); [apply (H [c])|apply (H [])]; simpl; lia.
Qed.

Lemma scan_literal_length ls l v l' :
  Forall (fun tv => tv.1 <> "") ls -> scan_literal ls l = Some (v, l') -> l <> [] ->
  (length l' < length l)%nat.
Proof.
  induction ls as [|[t v'] ls IH]; [done|]. intros Hls. simpl.
  apply Forall_cons_1 in Hls as [Ht Hls].
  destruct (startswith l (list_of_string t)); [|by apply IH].
  intros E Hl. simplify_eq. rewrite length_drop. destruct t; [done|].
  destruct l; [done|]. simpl. lia.
Qed.

Lemma scan_leaves fuel :
  (forall depth l, (2 * length l + 1 <= fuel)%nat ->
     leaves (scan_value fuel depth l) (length l - 1)) /\
  (forall depth acc l, (2 * length l + 2 <= fuel)%nat ->
     leaves (scan_members fuel depth acc l) (length l - 1)) /\
  (forall depth acc l, (2 * length l + 2 <= fuel)%nat ->
     leaves (scan_elements fuel depth acc l) (length l - 1)).
Proof.
  induction fuel as [|fuel (IHv & IHm & IHe)]; [split_and!; intros; lia|].
  split_and!.
  - intros depth [|c l1] Hf; [done|]. cbn [scan_value]. cbn [length] in *.
    pose proof (length_skip_ws l1) as Hws.
    destruct (is_char 34 c).
    { pose proof (scan_string_leaves [] l1) as H.
      destruct (scan_string [] l1); simpl in *; [lia|done..]. }
    destruct (is_char 123 c).
    { destruct depth as [|depth]; [done|]. destruct (skip_ws l1) as [|c2 l3] eqn:E; [done|].
      cbn [length] in *. destruct (is_char 125 c2); [simpl; lia|].
      eapply leaves_mono; [apply IHm|]; cbn [length]; lia. }
    destruct (is_char 91 c).
    { destruct depth as [|depth]; [done|]. destruct (skip_ws l1) as [|c2 l3] eqn:E; [done|].
      cbn [length] in *. destruct (is_char 93 c2); [simpl; lia|].
      eapply leaves_mono; [apply IHe|]; cbn [length]; lia. }
    destruct (scan_literal literals (c :: l1)) as [[v l2]|] eqn:E.
    + apply scan_literal_length in E; [simpl in *; lia|by repeat constructor|done].
    + eapply leaves_mono; [apply scan_number_leaves|]. simpl. lia.
  - intros depth acc [|q l1] Hf; [done|]. cbn [scan_members]. cbn [length] in *.
    destruct (is_char 34 q); [|done].
    pose proof (scan_string_leaves [] l1) as Hs.
    destruct (scan_string [] l1) as [k l2| | |]; try done. simpl in Hs.
    pose proof (length_skip_ws l2) as Hw2. destruct (skip_ws l2) as [|c l3]; [done|].
    cbn [length] in *. destruct (is_char 58 c); [|done].
    pose proof (length_skip_ws l3) as Hw3.
    assert (Hv : leaves (scan_value fuel depth (skip_ws l3)) (length (skip_ws l3) - 1))
      by (apply IHv; lia).
    destruct (scan_value fuel depth (skip_ws l3)) as [v l4| | |]; try done. simpl in Hv.
    pose proof (length_skip_ws l4) as Hw4. destruct (skip_ws l4) as [|d l5]; [done|].
    cbn [length] in *. destruct (is_char 125 d); [simpl; lia|].
    destruct (is_char 44 d); [|done]. pose proof (length_skip_ws l5).
    eapply leaves_mono; [apply IHm|]; lia.
  - intros depth acc l Hf. cbn [scan_elements].
    assert (Hv : leaves (scan_value fuel depth l) (length l - 1)) by (apply IHv; lia).
    destruct (scan_value fuel depth l) as [v l1| | |]; try done. simpl in Hv.
    pose proof (length_skip_ws l1) as Hw1. destruct (skip_ws l1) as [|d l2]; [done|].
    cbn [length] in *. destruct (is_char 93 d); [simpl; lia|].
    destruct (is_char 44 d); [|done]. pose proof (length_skip_ws l2).
    eapply leaves_mono; [apply IHe|]; lia.
Qed.

(** The fuel of [loads] is enough for every body. *)
Lemma loads_no_fuel limit body : loads limit body <> DFuel.
Proof.
  unfold loads. destruct (decode_body _) as [l|]; [|done]. unfold loads_text.
  pose proof (length_skip_ws l) as Hw.
  destruct (scan_leaves (fuel_for l)) as [Hv _].
  specialize (Hv limit (skip_ws l)). unfold fuel_for in *.
  destruct (scan_value _ limit (skip_ws l)) as [v l1| | |]; [|done..|].
  - by destruct (skip_ws l1).
  - destruct Hv. lia.
Qed.

(** ** Plain strings *)

(** Printable ASCII, without the two characters JSON escapes. *)
Definition plain_char (c : ascii) : bool :=
  byte_in 32 126 c && negb (is_char 34 c) && negb (is_char 92 c).

Definition plain_string (s : string) : Prop :=
  Forall (fun c => plain_char c = true) (list_of_string s).

Lemma plain_check s : forallb plain_char (list_of_string s) = true -> plain_string s.
Proof. intros H. unfold plain_string. apply List.Forall_forall. by apply forallb_forall. Qed.

Lemma plain_char_spec c :
  plain_char c = true ->
  (32 <= code c <= 126)%N /\ code c <> 34%N /\ code c <> 92%N.
Proof.
  unfold plain_char, byte_in, is_char. rewrite !andb_true_iff, !negb_true_iff.
  rewrite !N.leb_le, !N.eqb_neq. tauto.
Qed.

Lemma escape_plain c : plain_char c = true -> escape (code c) = [c].
Proof.
  intros Hc. apply plain_char_spec in Hc as ([Hl Hu] & H1 & H2). unfold escape.
  repeat match goal with
  | |- context [(code c =? ?n)%N] =>
      replace (code c =? n)%N with false by (symmetry; apply N.eqb_neq; lia)
  end.
  replace (32 <=? code c)%N with true by (symmetry; by apply N.leb_le).
  replace (code c <=? 126)%N with true by (symmetry; by apply N.leb_le).
  simpl. unfold chr. by rewrite ascii_N_embedding.
Qed.

Lemma dump_string_plain s :
  plain_string s -> dump_string s = (dquote :: list_of_string s ++ [dquote])%list.
Proof.
  intros Hs. unfold dump_string. rewrite utf8_decode_ascii.
  - assert (H : concat (map escape (map code (list_of_string s))) = list_of_string s).
    { unfold plain_string in Hs. induction Hs as [|c l Hc _ IH]; [done|].
      cbn [map concat]. by rewrite (escape_plain c Hc), IH. }
    cbn [from_option]. unfold id. by rewrite H.
  - eapply Forall_impl; [|exact Hs]. intros c Hc.
    apply plain_char_spec in Hc as ([Hl Hu] & _). unfold byte_in.
    apply andb_true_iff. rewrite !N.leb_le. lia.
Qed.

Lemma scan_string_plain acc l rest :
  Forall (fun c => plain_char c = true) l ->
  scan_string acc (l ++ dquote :: rest) = DVal (string_of_list (reverse acc ++ l)) rest.
Proof.
  intros Hl. revert acc. induction Hl as [|c l Hc _ IH]; intros acc.
  - cbn. by rewrite app_nil_r.
  - apply plain_char_spec in Hc as ([Hlo Hup] & H1 & H2). cbn [app scan_string].
    replace (code c =? 34)%N with false by (symmetry; by apply N.eqb_neq).
    replace (code c <? 32)%N with false by (symmetry; apply N.ltb_ge; lia).
    replace (code c =? 92)%N with false by (symmetry; by apply N.eqb_neq).
    cbn [negb]. rewrite IH, reverse_cons, <- app_assoc. done.
Qed.

Lemma scan_dump_string s rest :
  plain_string s -> scan_string [] (list_of_string s ++ dquote :: rest) = DVal s rest.
Proof.
  intros Hs. rewrite scan_string_plain by done. cbn. by rewrite string_of_list_of_string.
Qed.

(** ** The messages of the pipeline *)

(** A plain string, or an array of plain strings. *)
Inductive flat : json -> Prop :=
| FlatStr s : plain_string s -> flat (JStr s)
| FlatArr l : Forall plain_string l -> flat (JArr (map JStr l)).

Lemma dump_string_cons s tail :
  plain_string s ->
  (dump_string s ++ tail = dquote :: list_of_string s ++ dquote :: tail)%list.
Proof. intros Hs. rewrite dump_string_plain by done. cbn. by rewrite <- app_assoc. Qed.

Lemma skip_ws_string s tail :
  plain_string s -> skip_ws (dump_string s ++ tail) = (dump_string s ++ tail)%list.
Proof. intros Hs. by rewrite dump_string_cons. Qed.

Lemma scan_value_string fuel depth s tail :
  plain_string s ->
  scan_value (S fuel) depth (dump_string s ++ tail) = DVal (JStr s) tail.
Proof.
  intros Hs. rewrite dump_string_cons by done. cbn [scan_value].
  change (is_char 34 dquote) with true. cbn beta iota. by rewrite scan_dump_string.
Qed.

(** One step of an array or an object: the last item, or one before a comma. *)
Lemma scan_elements_last fuel depth acc x v rest :
  scan_value fuel depth x = DVal v ("]"%char :: rest) ->
  scan_elements (S fuel) depth acc x = DVal (JArr (reverse (v :: acc))) rest.
Proof. intros H. cbn [scan_elements]. by rewrite H. Qed.

Lemma scan_elements_next fuel depth acc x v y :
  scan_value fuel depth x = DVal v (","%char :: " "%char :: y) -> skip_ws y = y ->
  scan_elements (S fuel) depth acc x = scan_elements fuel depth (v :: acc) y.
Proof.
  intros H Hy. cbn [scan_elements]. rewrite H.
  change (skip_ws (","%char :: " "%char :: y)) with (","%char :: " "%char :: y)%list.
  change (is_char 93 ",") with false. change (is_char 44 ",") with true. cbn beta iota.
  change (skip_ws (" "%char :: y)) with (skip_ws y). by rewrite Hy.
Qed.

Lemma scan_members_last fuel depth acc k x v rest :
  plain_string k -> skip_ws x = x -> scan_value fuel depth x = DVal v ("}"%char :: rest) ->
  scan_members (S fuel) depth acc (dump_string k ++ ":"%char :: " "%char :: x)
  = DVal (JObj (reverse ((k, v) :: acc))) rest.
Proof.
  intros Hk Hx H. rewrite dump_string_cons by done. cbn [scan_members].
  change (is_char 34 dquote) with true. cbn beta iota. rewrite scan_dump_string by done.
  change (skip_ws (":"%char :: " "%char :: x)) with (":"%char :: " "%char :: x)%list.
  change (is_char 58 ":") with true. cbn beta iota.
  change (skip_ws (" "%char :: x)) with (skip_ws x). by rewrite Hx, H.
Qed.

Lemma scan_members_next fuel depth acc k x v y :
  plain_string k -> skip_ws x = x -> skip_ws y = y ->
  scan_value fuel depth x = DVal v (","%char :: " "%char :: y) ->
  scan_members (S fuel) depth acc (dump_string k ++ ":"%char :: " "%char :: x)
  = scan_members fuel depth ((k, v) :: acc) y.
Proof.
  intros Hk Hx Hy H. rewrite dump_string_cons by done. cbn [scan_members].
  change (is_char 34 dquote) with true. cbn beta iota. rewrite scan_dump_string by done.
  change (skip_ws (":"%char :: " "%char :: x)) with (":"%char :: " "%char :: x)%list.
  change (is_char 58 ":") with true. cbn beta iota.
  change (skip_ws (" "%char :: x)) with (skip_ws x). rewrite Hx, H.
  change (skip_ws (","%char :: " "%char :: y)) with (","%char :: " "%char :: y)%list.
  change (is_char 125 ",") with false. change (is_char 44 ",") with true. cbn beta iota.
  change (skip_ws (" "%char :: y)) with (skip_ws y). by rewrite Hy.
Qed.

Definition sep (x : list ascii) : list ascii := (","%char :: " "%char :: x)%list.

Lemma separate_cons x xs : separate (x :: xs) = (x ++ concat (map sep xs))%list.
Proof. done. Qed.

Lemma scan_elements_strings fuel depth acc s l rest :
  plain_string s -> Forall plain_string l -> (length l + 1 < fuel)%nat ->
  scan_elements fuel depth acc
    ((dump_string s ++ concat (map sep (map dump_string l))) ++ "]"%char :: rest)
  = DVal (JArr (reverse acc ++ map JStr (s :: l))) rest.
Proof.
  revert fuel acc s. induction l as [|s' l IH]; intros fuel acc s Hs Hl Hf;
    (destruct fuel as [|[|fuel]]; [simpl in Hf; lia..|]).
  - rewrite <- app_assoc. rewrite (scan_elements_last _ _ _ _ (JStr s) rest).
    + by rewrite reverse_cons.
    + by apply scan_value_string.
  - apply Forall_cons_1 in Hl as [Hs' Hl]. cbn [length] in Hf.
    rewrite <- app_assoc. cbn [map concat]. unfold sep at 1. cbn [app].
    rewrite (scan_elements_next _ _ _ _ (JStr s)
      ((dump_string s' ++ concat (map sep (map dump_string l))) ++ "]"%char :: rest)%list).
    + rewrite IH; [|done|done|lia]. by rewrite reverse_cons, <- app_assoc.
    + by rewrite scan_value_string.
    + rewrite <- !app_assoc. by apply skip_ws_string.
Qed.

(** The number of steps a flat value takes. *)
Definition flat_steps (j : json) : nat :=
  match j with JArr l => length l + 3 | _ => 1 end.

Lemma dump_array l : map dump (map JStr l) = map dump_string l.
Proof. rewrite map_map. done. Qed.

Lemma scan_value_flat fuel depth j tail :
  flat j -> (flat_steps j <= fuel)%nat ->
  scan_value fuel (S depth) (dump j ++ tail) = DVal j tail.
Proof.
  intros [s Hs|l Hl] Hf; (destruct fuel as [|fuel]; [simpl in Hf; lia|]).
  - by apply scan_value_string.
  - cbn [flat_steps dump] in *. rewrite length_map in Hf. rewrite dump_array.
    cbn [app scan_value]. change (is_char 34 "[") with false.
    change (is_char 123 "[") with false. change (is_char 91 "[") with true. cbn beta iota.
    destruct l as [|s l]; [done|]. apply Forall_cons_1 in Hl as [Hs Hl].
    cbn [map]. rewrite separate_cons, <- app_assoc. cbn [app].
    rewrite <- (app_assoc (dump_string s)), skip_ws_string by done.
    rewrite dump_string_cons by done. change (is_char 93 dquote) with false. cbn beta iota.
    rewrite <- dump_string_cons, app_assoc by done.
    cbn [length] in Hf. rewrite scan_elements_strings; [done..|lia].
Qed.

Lemma skip_ws_flat j tail : flat j -> skip_ws (dump j ++ tail) = (dump j ++ tail)%list.
Proof. intros [s Hs|l Hl]; [by apply skip_ws_string|done]. Qed.

(** An object with plain keys and flat values. *)
Definition flat_members (ms : list (string * json)) : Prop :=
  Forall (fun m => plain_string m.1 /\ flat m.2) ms.

Definition member (m : string * json) : list ascii :=
  (dump_string m.1 ++ ":"%char :: " "%char :: dump m.2)%list.

Fixpoint members_steps (ms : list (string * json)) : nat :=
  match ms with [] => 0 | m :: ms => S (flat_steps m.2 + members_steps ms) end.

Lemma member_app m tail :
  (member m ++ tail = dump_string m.1 ++ ":"%char :: " "%char :: dump m.2 ++ tail)%list.
Proof. unfold member. by rewrite <- app_assoc. Qed.

Lemma skip_ws_member m tail : plain_string m.1 ->
  skip_ws (member m ++ tail) = (member m ++ tail)%list.
Proof. intros Hm. rewrite member_app. by apply skip_ws_string. Qed.

Lemma scan_members_flat fuel depth acc m ms rest :
  flat_members (m :: ms) -> (members_steps (m :: ms) <= fuel)%nat ->
  scan_members fuel (S depth) acc
    ((member m ++ concat (map sep (map member ms))) ++ "}"%char :: rest)
  = DVal (JObj (reverse acc ++ m :: ms)) rest.
Proof.
  revert fuel acc m. induction ms as [|m' ms IH]; intros fuel acc [k v] Hms Hf;
    apply Forall_cons_1 in Hms as [[Hk Hv] Hms]; cbn [members_steps fst snd] in *;
    (destruct fuel as [|fuel]; [lia|]); rewrite <- app_assoc, member_app; cbn [fst snd].
  - rewrite (scan_members_last _ _ _ _ _ v rest); [by rewrite reverse_cons|done| |].
    + by apply skip_ws_flat.
    + apply scan_value_flat; [done|]. lia.
  - cbn [map concat]. unfold sep at 1. cbn [app].
    pose proof (Forall_inv Hms) as [Hm' _].
    rewrite (scan_members_next _ _ _ _ _ v
      ((member m' ++ concat (map sep (map member ms))) ++ "}"%char :: rest)%list); [|done| | |].
    + rewrite IH; [|done|cbn [members_steps]; lia]. by rewrite reverse_cons, <- app_assoc.
    + by apply skip_ws_flat.
    + rewrite <- app_assoc. by apply skip_ws_member.
    + apply scan_value_flat; [done|]. lia.
Qed.

(** ** The whole text *)

Definition ascii_chars (l : list ascii) : Prop := Forall (fun c => byte_in 0 127 c = true) l.

Lemma ascii_plain s : plain_string s -> ascii_chars (list_of_string s).
Proof.
  intros Hs. eapply Forall_impl; [|exact Hs]. intros c Hc.
  apply plain_char_spec in Hc as ([Hl Hu] & _). unfold byte_in.
  apply andb_true_iff. rewrite !N.leb_le. lia.
Qed.

Lemma ascii_dump_string s : plain_string s -> ascii_chars (dump_string s).
Proof.
  intros Hs. rewrite dump_string_plain by done. apply Forall_cons_2; [done|].
  apply Forall_app_2; [by apply ascii_plain|by apply Forall_cons_2].
Qed.

Lemma ascii_concat_sep ls : Forall ascii_chars ls -> ascii_chars (concat (map sep ls)).
Proof.
  induction 1 as [|l ls Hl _ IH]; [constructor|]. cbn [map concat]. unfold sep at 1. cbn [app].
  do 2 (apply Forall_cons_2; [done|]). by apply Forall_app_2.
Qed.

Lemma ascii_separate ls : Forall ascii_chars ls -> ascii_chars (separate ls).
Proof.
  intros [|l ls' Hl Hls]; [constructor|]. rewrite separate_cons.
  apply Forall_app_2; [done|by apply ascii_concat_sep].
Qed.

Lemma ascii_flat j : flat j -> ascii_chars (dump j).
Proof.
  intros [s Hs|l Hl]; [by apply ascii_dump_string|]. cbn [dump]. rewrite dump_array.
  apply Forall_cons_2; [done|]. apply Forall_app_2; [|by apply Forall_cons_2].
  apply ascii_separate. induction Hl; constructor; [by apply ascii_dump_string|done].
Qed.

Lemma ascii_member m : plain_string m.1 -> flat m.2 -> ascii_chars (member m).
Proof.
  intros Hk Hv. apply Forall_app_2; [by apply ascii_dump_string|].
  do 2 (apply Forall_cons_2; [done|]). by apply ascii_flat.
Qed.

Lemma length_dump_string s : plain_string s -> (2 <= length (dump_string s))%nat.
Proof. intros Hs. rewrite dump_string_plain by done. cbn [length]. rewrite length_app. simpl. lia. Qed.

Lemma length_concat_sep ls : (length ls <= length (concat (map sep ls)))%nat.
Proof. induction ls as [|l ls IH]; [done|]. cbn. rewrite length_app. lia. Qed.

Lemma flat_steps_length j : flat j -> (flat_steps j <= length (dump j) + 2)%nat.
Proof.
  intros [s Hs|l Hl]; [cbn; lia|]. cbn [flat_steps dump]. rewrite length_map, dump_array.
  cbn [length]. rewrite length_app. cbn [length]. destruct Hl as [|s l Hs Hl]; [cbn; lia|].
  cbn [map]. rewrite separate_cons, length_app.
  pose proof (length_dump_string s Hs). pose proof (length_concat_sep (map dump_string l)) as H'.
  rewrite length_map in H'. cbn [length]. lia.
Qed.

Lemma members_steps_length ms :
  flat_members ms -> (members_steps ms <= length (concat (map sep (map member ms))))%nat.
Proof.
  induction 1 as [|m ms [Hk Hv] _ IH]; [done|]. cbn [members_steps map concat].
  unfold sep at 1. cbn [app length]. rewrite length_app. unfold member at 1. rewrite length_app.
  cbn [length]. pose proof (length_dump_string _ Hk). pose proof (flat_steps_length _ Hv). lia.
Qed.

Lemma encode_points_ascii l : ascii_chars l -> encode_points (map code l) = l.
Proof.
  unfold encode_points. induction 1 as [|c l Hc _ IH]; [done|]. cbn [map concat]. rewrite IH.
  unfold utf8_encode. unfold byte_in in Hc. apply andb_true_iff in Hc as [_ Hc].
  apply N.leb_le in Hc. replace (code c <? 128)%N with true by (symmetry; apply N.ltb_lt; lia).
  unfold chr. by rewrite ascii_N_embedding.
Qed.

(** Text that starts with an object is read as UTF-8. *)
Lemma decode_body_ascii l :
  ascii_chars ("{"%char :: dquote :: l) ->
  decode_body ("{"%char :: dquote :: l) = Some ("{"%char :: dquote :: l)%list.
Proof.
  intros Ha. unfold decode_body.
  replace (detect_encoding _) with Utf8 by (by destruct l as [|c [|d l]]).
  cbv beta iota zeta. rewrite utf8_decode_ascii by exact Ha.
  change (Some (encode_points (map code ("{"%char :: dquote :: l)))
          = Some ("{"%char :: dquote :: l)).
  by rewrite encode_points_ascii.
Qed.

Lemma loads_dumps_flat limit m ms :
  flat_members (m :: ms) -> (2 <= limit)%nat ->
  loads limit (dumps (JObj (m :: ms))) = DVal (JObj (m :: ms)) [].
Proof.
  intros Hms Hl. pose proof (Forall_inv Hms) as [Hk Hv].
  pose proof (Forall_inv_tail Hms) as Hms'.
  set (inner := (member m ++ concat (map sep (map member ms)))%list).
  assert (Hdump : dump (JObj (m :: ms)) = ("{"%char :: inner ++ ["}"%char])%list) by done.
  assert (Hinner : ascii_chars (inner ++ ["}"%char])).
  { apply Forall_app_2; [|by apply Forall_cons_2]. apply Forall_app_2; [by apply ascii_member|].
    apply ascii_concat_sep. clear -Hms'.
    induction Hms' as [|m' ms [Hk Hv] _ IH]; constructor; [by apply ascii_member|done]. }
  assert (Hq : exists t, (inner ++ ["}"%char] = dquote :: t)%list).
  { unfold inner. rewrite <- app_assoc, member_app, dump_string_cons by done. by eexists. }
  unfold loads, dumps. rewrite list_of_string_of_list, Hdump.
  destruct Hq as [t Ht]. rewrite Ht in *.
  rewrite decode_body_ascii by (by apply Forall_cons_2).
  rewrite <- Ht. unfold loads_text.
  change (skip_ws ("{"%char :: inner ++ ["}"%char]))
    with ("{"%char :: inner ++ ["}"%char])%list.
  destruct limit as [|limit]; [lia|]. destruct limit as [|limit]; [lia|].
  unfold fuel_for. cbn [length]. set (len := length (inner ++ ["}"%char])).
  replace (2 * S len + 1)%nat with (S (2 * len + 2)) by lia.
  cbn [scan_value]. change (is_char 34 "{") with false. change (is_char 123 "{") with true.
  cbn beta iota. rewrite Ht. change (skip_ws (dquote :: t)) with (dquote :: t)%list.
  change (is_char 125 dquote) with false. cbn beta iota. rewrite <- Ht.
  unfold inner. rewrite scan_members_flat; [done|done|].
  cbn [members_steps]. unfold len, inner. rewrite !length_app.
  unfold member at 1. rewrite length_app. cbn [length].
  pose proof (length_dump_string _ Hk). pose proof (flat_steps_length _ Hv).
  pose proof (members_steps_length ms Hms'). lia.
Qed.
