(* ===== verification/Exceptions.v ===== *)
(** * Exceptions ([shared/core/exceptions.py])

    [AppException] and its subclasses carry class-level defaults that an
    instance may override.  [exn] is what a call of the pipeline can raise: an
    application exception, or an exception of one of the libraries, told apart
    as far as an [except] clause of the code does.  [BaseException]s that are
    not [Exception]s (cancellation) are not raised; a killed process simply
    stops. *)

From stdpp Require Import pretty.
From S2P Require Import Prelude Json.

(** The classes of [shared/core/exceptions.py]. *)
Inductive app_class : Type :=
| AppException
| DocumentNotFoundException
| DocumentNotUploadedException
| JobNotFoundException
| BackpressureException
| ActiveJobExistsException
| StorageException
| QueueException
| DatabaseException
| JobStateConflictException.

#[export] Instance app_class_eq_dec : EqDecision app_class.
Proof. solve_decision. Defined.

(** [_status_code] of the class. *)
Definition class_status_code (c : app_class) : Z :=
  match c with
  | AppException => 500
  | DocumentNotFoundException => 404
  | DocumentNotUploadedException => 409
  | JobNotFoundException => 404
  | BackpressureException => 429
  | ActiveJobExistsException => 409
  | StorageException => 503
  | QueueException => 503
  | DatabaseException => 503
  | JobStateConflictException => 409
  end.

(** [_message] of the class. *)
Definition class_message (c : app_class) : string :=
  match c with
  | AppException => "An unexpected error occurred."
  | DocumentNotFoundException => "Document not found."
  | DocumentNotUploadedException => "Document has not been uploaded."
  | JobNotFoundException => "Job not found."
  | BackpressureException => "Queue capacity exceeded. Retry later."
  | ActiveJobExistsException => "An active job already exists for this document."
  | StorageException => "Storage service unavailable."
  | QueueException => "Queue service unavailable."
  | DatabaseException => "Database service unavailable."
  | JobStateConflictException => "Job status conflict: concurrent write detected."
  end.

(** [_errors] of the class: no class overrides the [None] of the base. *)
Definition class_errors (c : app_class) : option (list (string * json)) := None.

(** [type(exc).__name__]. *)
Definition class_name (c : app_class) : string :=
  match c with
  | AppException => "AppException"
  | DocumentNotFoundException => "DocumentNotFoundException"
  | DocumentNotUploadedException => "DocumentNotUploadedException"
  | JobNotFoundException => "JobNotFoundException"
  | BackpressureException => "BackpressureException"
  | ActiveJobExistsException => "ActiveJobExistsException"
  | StorageException => "StorageException"
  | QueueException => "QueueException"
  | DatabaseException => "DatabaseException"
  | JobStateConflictException => "JobStateConflictException"
  end.

(** An instance: the arguments of [AppException.__init__]. *)
Record app_exc : Type := AppExc {
  exc_class : app_class;
  exc_status_code : option Z;
  exc_message : option string;
  exc_errors : option (list (string * json))
}.

(** Raising a class with no arguments. *)
Definition raise_class (c : app_class) : app_exc := AppExc c None None None.

(** The three accessors ([get_status_code], [get_message], [get_errors]). *)
Definition get_status_code (x : app_exc) : Z :=
  match exc_status_code x with
  | Some n => n
  | None => class_status_code (exc_class x)
  end.

Definition get_message (x : app_exc) : string :=
  match exc_message x with
  | Some m => m
  | None => class_message (exc_class x)
  end.

Definition get_errors (x : app_exc) : list (string * json) :=
  match exc_errors x with
  | Some e => e
  | None => default [] (class_errors (exc_class x))
  end.

(** [str(exc)]: [__init__] passes [message or self._message] to [Exception]. *)
Definition app_str (x : app_exc) : string :=
  match exc_message x with
  | Some m => if bool_decide (m = "") then class_message (exc_class x) else m
  | None => class_message (exc_class x)
  end.

(** ** Everything a call can raise *)

Inductive exn : Type :=
| EApp (x : app_exc)
| ESqlAlchemy (integrity : bool) (orig : string)
    (** [SQLAlchemyError]; [integrity] marks [IntegrityError], whose [str(e.orig)]
        is [orig]. *)
| EAmqp (channel_closed : bool) (msg : string)
    (** [aio_pika.exceptions.AMQPError]; [ChannelClosed] is one of them. *)
| EClient (error_code msg : string)
    (** [botocore.exceptions.ClientError] with its [Error.Code]. *)
| EHttp (status_code : Z) (detail : string)
    (** [fastapi.HTTPException]. *)
| ERecursion
    (** [RecursionError]. *)
| EOther (type_name msg : string).
    (** Any other exception. *)

(** [raise C()]. *)
Definition ERaise (c : app_class) : exn := EApp (raise_class c).

(** [str(exc)]. *)
Definition exn_str (x : exn) : string :=
  match x with
  | EApp x => app_str x
  | ESqlAlchemy _ m => m
  | EAmqp _ m => m
  | EClient _ m => m
  | EHttp n d => pretty n ++ ": " ++ d
  | ERecursion => "maximum recursion depth exceeded"
  | EOther _ m => m
  end.

(** [isinstance(exc, C)] for a leaf class [C]. *)
Definition is_app (c : app_class) (x : exn) : bool :=
  match x with
  | EApp a => bool_decide (exc_class a = c)
  | _ => false
  end.

Definition is_sqlalchemy (x : exn) : bool :=
  match x with ESqlAlchemy _ _ => true | _ => false end.

Definition is_amqp (x : exn) : bool :=
  match x with EAmqp _ _ => true | _ => false end.

Definition is_client (x : exn) : bool :=
  match x with EClient _ _ => true | _ => false end.
