(* ===== verification/Settings.v ===== *)
(** * Settings ([shared/core/settings/], [shared/core/config.py])

    The fields of the settings classes and the properties computed from them.
    How pydantic reads the fields from the process environment is outside the
    repository. *)

From stdpp Require Import pretty.
From S2P Require Import Prelude.

Module AppEnvTypes.
Definition production : string := "prod".
Definition development : string := "dev".
Definition testing : string := "test".
End AppEnvTypes.

Module BaseAppSettings.
Record t : Type := Make {
  app_env : string;
  log_level : string;
  log_format : string;
  postgres_host : string;
  postgres_port : Z;
  postgres_db : string;
  postgres_user : string;
  postgres_password : string;
  rabbitmq_user : string;
  rabbitmq_password : string;
  rabbitmq_host : string;
  rabbitmq_port : Z;
  rabbitmq_queue : string;
  backpressure_threshold : Z;
  s3_bucket : string;
  aws_region : string;
  s3_endpoint_url : option string;
  s3_public_endpoint_url : option string;
  s3_access_key : option string;
  s3_secret_key : option string
}.

(** [database_url]. *)
Definition database_url (self : t) : string :=
  "postgresql+asyncpg://" ++ postgres_user self ++ ":" ++ postgres_password self
  ++ "@" ++ postgres_host self ++ ":" ++ pretty (postgres_port self) ++ "/"
  ++ postgres_db self.

(** [rabbitmq_url]: TLS on the standard TLS port. *)
Definition rabbitmq_url (self : t) : string :=
  let scheme := if (rabbitmq_port self =? 5671)%Z then "amqps" else "amqp" in
  scheme ++ "://" ++ rabbitmq_user self ++ ":" ++ rabbitmq_password self
  ++ "@" ++ rabbitmq_host self ++ ":" ++ pretty (rabbitmq_port self) ++ "/".

(** [sqlalchemy_engine_props]. *)
Definition sqlalchemy_engine_props (self : t) : list (string * string) :=
  [("url", database_url self)].
End BaseAppSettings.

(** ** The classes and their defaults *)

Inductive settings_class : Type := BaseApp | DevApp | TestApp.

(** The defaults of [log_level] and [log_format], which the subclasses override,
    and the file the class reads. *)
Definition log_level_default (c : settings_class) : string :=
  match c with BaseApp => "INFO" | DevApp => "DEBUG" | TestApp => "WARNING" end.

Definition log_format_default (c : settings_class) : string :=
  match c with BaseApp => "json" | DevApp | TestApp => "pretty" end.

Definition env_file (c : settings_class) : string :=
  match c with BaseApp | DevApp => ".env" | TestApp => ".env.test" end.

(** [_environments]; [None] is the [KeyError] of an unknown name. *)
Definition _environments (app_env : string) : option settings_class :=
  if bool_decide (app_env = AppEnvTypes.production) then Some BaseApp
  else if bool_decide (app_env = AppEnvTypes.development) then Some DevApp
  else if bool_decide (app_env = AppEnvTypes.testing) then Some TestApp
  else None.
