(* ===== verification/Dtos.v ===== *)
(** * Data transfer objects ([shared/dtos/]) *)

From S2P Require Import Prelude PyUuid.

(** [datetime] values are microseconds since the epoch. *)
Abbreviation datetime := Z.

(** Byte strings; a [str] is its UTF-8 encoding. *)
Abbreviation bytes := string.

Inductive ArtifactType : Type := MARKDOWN.

Definition artifact_type_value (t : ArtifactType) : string :=
  match t with MARKDOWN => "markdown" end.

Inductive JobStatus : Type := QUEUED | STARTED | COMPLETED | FAILED.

Definition job_status_value (s : JobStatus) : string :=
  match s with
  | QUEUED => "queued"
  | STARTED => "started"
  | COMPLETED => "completed"
  | FAILED => "failed"
  end.

#[export] Instance artifact_type_eq_dec : EqDecision ArtifactType.
Proof. solve_decision. Defined.
#[export] Instance job_status_eq_dec : EqDecision JobStatus.
Proof. solve_decision. Defined.

(** [shared/dtos/account.py] *)
Module AccountDTO.
Record t : Type := Make { id : Z; api_key_hash : option string }.
End AccountDTO.

(** [shared/dtos/document.py] *)
Module DocumentDTO.
Record t : Type := Make {
  id : uuid; object_key : string; account_id : Z; created_at : datetime
}.
End DocumentDTO.

Module DocumentWithUploadUrlDTO.
Record t : Type := Make { document : DocumentDTO.t; upload_url : string }.
End DocumentWithUploadUrlDTO.

Module CreateDocumentDTO.
Record t : Type := Make { id : uuid; object_key : string; account_id : Z }.
End CreateDocumentDTO.

(** [shared/dtos/artifact.py] *)
Module ArtifactDTO.
Record t : Type := Make {
  id : uuid; job_id : uuid; document_id : uuid;
  artifact_type : ArtifactType; object_key : string; created_at : datetime
}.
End ArtifactDTO.

Module ArtifactWithUrlDTO.
Record t : Type := Make { artifact : ArtifactDTO.t; download_url : string }.
End ArtifactWithUrlDTO.

Module CreateArtifactDTO.
Record t : Type := Make {
  job_id : uuid; document_id : uuid; artifact_type : ArtifactType;
  object_key : string
}.
End CreateArtifactDTO.

(** [shared/dtos/job.py] *)
Module JobDTO.
Record t : Type := Make {
  id : uuid; account_id : Z; document_id : uuid; status : JobStatus;
  artifact_types : list ArtifactType; attempts : Z; max_attempts : Z;
  error_message : option string; created_at : datetime;
  queued_at : option datetime; started_at : option datetime;
  completed_at : option datetime; last_attempt_at : option datetime;
  failed_at : option datetime
}.
End JobDTO.

Module CreateJobDTO.
Record t : Type := Make {
  account_id : Z; document_id : uuid; artifact_types : list ArtifactType
}.
End CreateJobDTO.
