(* ===== verification/Models.v ===== *)
(** * Tables and their constraints ([shared/infrastructure/models.py])

    A row is a record with the columns of its model.  [tables] is the content
    of the database: the four tables keyed by primary key.  A [write] puts one
    row (an insert or an update); transactions are lists of writes.

    The column defaults that SQLAlchemy fills in on the client ([uuid4] ids,
    [attempts=0], [max_attempts=3]) are [JobRepository.new_row] and the [uuid4] calls of the
    repositories.  The unique constraints of the models and the partial index
    [one_active_job_per_document] of the migrations (at most one [QUEUED] or
    [STARTED] job per account and document) are [constraint]s; the [_violations]
    functions list those a statement breaks. *)

From S2P Require Import Prelude PyUuid Dtos.

Module Account.
Record t : Type := Make { id : Z; api_key_hash : option string }.
End Account.

Module Document.
Record t : Type := Make {
  id : uuid; object_key : string; account_id : Z; created_at : datetime
}.
End Document.

Module Job.
Record t : Type := Make {
  id : uuid; account_id : Z; document_id : uuid; status : JobStatus;
  artifact_types : list ArtifactType; attempts : Z; max_attempts : Z;
  error_message : option string; created_at : datetime;
  queued_at : option datetime; started_at : option datetime;
  completed_at : option datetime; last_attempt_at : option datetime;
  failed_at : option datetime
}.

(** Defaults of the columns an insert leaves out. *)
Definition default_attempts : Z := 0.
Definition default_max_attempts : Z := 3.

(** [status IN ('QUEUED', 'STARTED')], the predicate of the partial index. *)
Definition active (j : t) : bool :=
  match status j with QUEUED | STARTED => true | _ => false end.
End Job.

Module Artifact.
Record t : Type := Make {
  id : uuid; job_id : uuid; document_id : uuid;
  artifact_type : ArtifactType; object_key : string; created_at : datetime
}.
End Artifact.

(** ** The database *)

Record tables : Type := Tables {
  accounts : gmap Z Account.t;
  documents : gmap uuid Document.t;
  jobs : gmap uuid Job.t;
  artifacts : gmap uuid Artifact.t
}.

Inductive write : Type :=
| WDocument (d : Document.t)
| WJob (j : Job.t)
| WArtifact (a : Artifact.t).

Definition apply_write (d : tables) (w : write) : tables :=
  match w with
  | WDocument r =>
      Tables (accounts d) (<[Document.id r := r]> (documents d)) (jobs d) (artifacts d)
  | WJob r =>
      Tables (accounts d) (documents d) (<[Job.id r := r]> (jobs d)) (artifacts d)
  | WArtifact r =>
      Tables (accounts d) (documents d) (jobs d) (<[Artifact.id r := r]> (artifacts d))
  end.

Definition apply_writes (d : tables) (ws : list write) : tables :=
  fold_left apply_write ws d.

(** ** Constraints *)

Inductive constraint : Type :=
| DocumentsPkey | DocumentsObjectKey | DocumentsAccountFkey
| JobsPkey | OneActiveJobPerDocument | JobsAccountFkey | JobsDocumentFkey
| ArtifactsPkey | ArtifactsJobFkey | ArtifactsDocumentFkey.

#[export] Instance constraint_eq_dec : EqDecision constraint.
Proof. solve_decision. Defined.

(** The name the database reports in the error message. *)
Definition constraint_name (c : constraint) : string :=
  match c with
  | DocumentsPkey => "documents_pkey"
  | DocumentsObjectKey => "documents_object_key_key"
  | DocumentsAccountFkey => "documents_account_id_fkey"
  | JobsPkey => "jobs_pkey"
  | OneActiveJobPerDocument => "one_active_job_per_document"
  | JobsAccountFkey => "jobs_account_id_fkey"
  | JobsDocumentFkey => "jobs_document_id_fkey"
  | ArtifactsPkey => "artifacts_pkey"
  | ArtifactsJobFkey => "artifacts_job_id_fkey"
  | ArtifactsDocumentFkey => "artifacts_document_id_fkey"
  end.

Definition map_exists {K V} `{Countable K} (p : V -> bool) (m : gmap K V) : bool :=
  existsb (fun kv => p kv.2) (map_to_list m).

(** Two jobs compete for the same slot of the partial index. *)
Definition same_slot (a b : Job.t) : bool :=
  Job.active a && Job.active b && (Job.account_id a =? Job.account_id b)%Z
  && (Job.document_id a =? Job.document_id b)%N.

(** The conflict target of the artifact upsert: (document_id, artifact_type). *)
Definition same_artifact (doc : uuid) (t : ArtifactType) (a : Artifact.t) : bool :=
  (Artifact.document_id a =? doc)%N && bool_decide (Artifact.artifact_type a = t).

Definition violated (b : bool) (c : constraint) : list constraint :=
  if b then [c] else [].

Definition document_violations (d : tables) (r : Document.t) : list constraint :=
  (violated (bool_decide (is_Some (documents d !! Document.id r))) DocumentsPkey
   ++ violated (map_exists (fun x => String.eqb (Document.object_key x)
                                       (Document.object_key r)) (documents d))
        DocumentsObjectKey
   ++ violated (bool_decide (accounts d !! Document.account_id r = None))
        DocumentsAccountFkey)%list.

(** Another job holds the slot [r] wants. *)
Definition slot_taken (d : tables) (r : Job.t) : bool :=
  map_exists (fun x => negb (Job.id x =? Job.id r)%N && same_slot r x) (jobs d).

Definition job_violations (d : tables) (r : Job.t) : list constraint :=
  (violated (bool_decide (is_Some (jobs d !! Job.id r))) JobsPkey
   ++ violated (slot_taken d r) OneActiveJobPerDocument
   ++ violated (bool_decide (accounts d !! Job.account_id r = None)) JobsAccountFkey
   ++ violated (bool_decide (documents d !! Job.document_id r = None))
        JobsDocumentFkey)%list.

(** The row an upsert updates, if there is one. *)
Definition upsert_target (d : tables) (r : Artifact.t) : option Artifact.t :=
  option_map snd
    (List.find (fun kv => same_artifact (Artifact.document_id r)
                            (Artifact.artifact_type r) kv.2)
       (map_to_list (artifacts d))).

Definition artifact_violations (d : tables) (r : Artifact.t) : list constraint :=
  (violated (match upsert_target d r with
             | Some _ => false
             | None => bool_decide (is_Some (artifacts d !! Artifact.id r))
             end) ArtifactsPkey
   ++ violated (bool_decide (jobs d !! Artifact.job_id r = None)) ArtifactsJobFkey
   ++ violated (bool_decide (documents d !! Artifact.document_id r = None))
        ArtifactsDocumentFkey)%list.

(** An update of a job row keeps its key; the partial index is checked again. *)
Definition update_violations (d : tables) (r : Job.t) : list constraint :=
  violated (slot_taken d r) OneActiveJobPerDocument.

(** ** Well-formed databases *)

(** The job rows: keyed by id, at most one active row per account and document. *)
Record wf_jobs (m : gmap uuid Job.t) : Prop := WfJobs {
  wf_jobs_id : forall k r, m !! k = Some r -> Job.id r = k;
  wf_one_active : forall k1 k2 r1 r2,
    m !! k1 = Some r1 -> m !! k2 = Some r2 -> same_slot r1 r2 = true -> k1 = k2
}.

Record wf_tables (d : tables) : Prop := WfTables {
  wf_tables_jobs : wf_jobs (jobs d);
  wf_documents_id : forall k r, documents d !! k = Some r -> Document.id r = k;
  wf_artifacts_id : forall k r, artifacts d !! k = Some r -> Artifact.id r = k;
  wf_object_key : forall k1 k2 r1 r2,
    documents d !! k1 = Some r1 -> documents d !! k2 = Some r2 ->
    Document.object_key r1 = Document.object_key r2 -> k1 = k2;
  wf_artifact_type : forall k1 k2 r1 r2,
    artifacts d !! k1 = Some r1 -> artifacts d !! k2 = Some r2 ->
    same_artifact (Artifact.document_id r1) (Artifact.artifact_type r1) r2 = true ->
    k1 = k2;
  wf_job_document : forall k r,
    jobs d !! k = Some r -> is_Some (documents d !! Job.document_id r);
  wf_job_account : forall k r,
    jobs d !! k = Some r -> is_Some (accounts d !! Job.account_id r)
}.

(** The budget of attempts: never exceeded, and a queued job has one left. *)
Definition within_budget (j : Job.t) : Prop :=
  (0 <= Job.attempts j <= Job.max_attempts j)%Z /\
  (Job.status j = QUEUED -> Job.attempts j < Job.max_attempts j)%Z.

Definition budgets (m : gmap uuid Job.t) : Prop :=
  forall k j, m !! k = Some j -> within_budget j.

(** ** Lemmas on writes *)

Lemma apply_writes_app d ws1 ws2 :
  apply_writes d (ws1 ++ ws2) = apply_writes (apply_writes d ws1) ws2.
Proof. apply fold_left_app. Qed.

Lemma map_exists_true {K V} `{Countable K} (p : V -> bool) (m : gmap K V) :
  map_exists p m = true <-> exists k v, m !! k = Some v /\ p v = true.
Proof.
  unfold map_exists. rewrite existsb_exists. split.
  - intros ([k v] & Hin & Hp). exists k, v. split; [|done].
    by apply elem_of_map_to_list, list_elem_of_In.
  - intros (k & v & Hm & Hp). exists (k, v). split; [|done].
    by apply list_elem_of_In, elem_of_map_to_list.
Qed.

Lemma map_exists_false {K V} `{Countable K} (p : V -> bool) (m : gmap K V) :
  map_exists p m = false <-> forall k v, m !! k = Some v -> p v = false.
Proof.
  rewrite <- not_true_iff_false, map_exists_true. split.
  - intros Hn k v Hm. apply not_true_is_false. intros Hp. apply Hn. eauto.
  - intros Ha (k & v & Hm & Hp). rewrite (Ha k v Hm) in Hp. done.
Qed.

(** The job rows among the writes of a transaction. *)
Definition job_writes (ws : list write) : list Job.t :=
  omap (fun w => match w with WJob j => Some j | _ => None end) ws.

Lemma job_writes_app ws1 ws2 :
  job_writes (ws1 ++ ws2) = (job_writes ws1 ++ job_writes ws2)%list.
Proof. apply omap_app. Qed.

Definition put_jobs (m : gmap uuid Job.t) (js : list Job.t) : gmap uuid Job.t :=
  fold_left (fun m j => <[Job.id j := j]> m) js m.

Lemma jobs_apply_writes d ws :
  jobs (apply_writes d ws) = put_jobs (jobs d) (job_writes ws).
Proof.
  revert d. induction ws as [|w ws IH]; intros d; [done|].
  change (apply_writes d (w :: ws)) with (apply_writes (apply_write d w) ws).
  rewrite IH. by destruct w.
Qed.

Lemma accounts_apply_writes d ws : accounts (apply_writes d ws) = accounts d.
Proof.
  revert d. induction ws as [|w ws IH]; intros d; [done|].
  change (apply_writes d (w :: ws)) with (apply_writes (apply_write d w) ws).
  rewrite IH. by destruct w.
Qed.

(** ** Updates keep the rows well formed *)

Lemma same_slot_sym a b : same_slot a b = same_slot b a.
Proof.
  unfold same_slot. rewrite (Z.eqb_sym (Job.account_id b)), (N.eqb_sym (Job.document_id b)).
  by rewrite (andb_comm (Job.active b)).
Qed.

(** The row [j'] may replace [j]: same key, and in the partial index only if [j]
    was, for the same document. *)
Definition replaces (j j' : Job.t) : Prop :=
  Job.id j' = Job.id j /\
  (Job.active j' = true ->
   Job.active j = true /\ Job.account_id j' = Job.account_id j
   /\ Job.document_id j' = Job.document_id j).

Lemma replaces_same_slot j j' v :
  replaces j j' -> same_slot j' v = true -> same_slot j v = true.
Proof.
  intros [_ Hr] Hs. unfold same_slot in *.
  destruct (Job.active j'); [|done]. destruct (Hr eq_refl) as (Ha & E1 & E2).
  by rewrite Ha, <- E1, <- E2.
Qed.

Lemma replaces_no_violation d k j j' :
  wf_jobs (jobs d) -> jobs d !! k = Some j -> replaces j j' -> update_violations d j' = [].
Proof.
  intros Hwf Hj Hr. unfold update_violations, slot_taken.
  replace (map_exists _ _) with false; [done|]. symmetry. apply map_exists_false.
  intros k' v Hv. destruct (N.eqb_spec (Job.id v) (Job.id j')) as [E|E]; [done|].
  destruct (same_slot j' v) eqn:Hs; [|done]. destruct E.
  apply (replaces_same_slot j) in Hs; [|done].
  rewrite (wf_jobs_id _ Hwf _ _ Hv), (proj1 Hr), (wf_jobs_id _ Hwf _ _ Hj).
  symmetry. by eapply wf_one_active.
Qed.

Lemma wf_jobs_replace m k j j' :
  wf_jobs m -> m !! k = Some j -> replaces j j' -> wf_jobs (<[Job.id j' := j']> m).
Proof.
  intros Hwf Hj Hr. pose proof (wf_jobs_id _ Hwf _ _ Hj) as Hk.
  rewrite (proj1 Hr), Hk. split.
  - intros k' r. rewrite lookup_insert_Some. intros [[<- <-]|[_ H]].
    + by rewrite (proj1 Hr).
    + by eapply wf_jobs_id.
  - assert (Hone : forall k' r, m !! k' = Some r -> same_slot j' r = true -> k = k').
    { intros k' r H Hs. eapply (wf_one_active _ Hwf _ _ j r); [done..|].
      by apply (replaces_same_slot j j'). }
    intros k1 k2 r1 r2. rewrite !lookup_insert_Some.
    intros [[<- <-]|[_ H1]] [[<- <-]|[_ H2]] Hs; [done|by eapply Hone| |by eapply wf_one_active].
    symmetry. eapply Hone; [done|]. by rewrite same_slot_sym.
Qed.
