(* ===== verification/Program.v ===== *)
(** * Programs: the calls a coroutine makes, in order

    A coroutine of the pipeline is a [prog]: it returns, raises, or performs
    one [event] -- a call that leaves the process or reads the clock, randomness
    or object state -- and continues with what the call gave back, a value or
    an exception.  Programs are data: the same definition is run against an
    environment ([run], [Services]) and interleaved with others ([System]).

    [wp] is the program logic of the development: a precondition for every
    behaviour of the events that a transition system [lts] allows. *)

From S2P Require Import Prelude PyUuid Json Dtos Exceptions Models.

(** ** SQL statements, as the repositories build them *)

Inductive column : Type :=
| QueuedAt | StartedAt | CompletedAt | LastAttemptAt | FailedAt.

(** One entry of the [values] of an update. *)
Inductive assignment : Type :=
| SetStatus (s : JobStatus)
| SetColumn (c : column) (t : datetime)
| IncAttempts
| SetError (m : string).

Inductive stmt : Type :=
| SelectAccount (api_key_hash : string)
| SelectDocument (id : uuid) (account_id : Z)
| SelectJob (id : uuid) (account_id : option Z)
| SelectArtifacts (document_id : uuid) (account_id : Z)
| InsertDocument (r : Document.t)
| InsertJob (r : Job.t)
| UpdateJob (id : uuid) (expected : JobStatus) (values : list assignment)
| UpsertArtifact (r : Artifact.t).

(** What executing the statement gives: [scalar], [scalar_one],
    [scalar_one_or_none] or [scalars], as the repositories read it. *)
Definition rows (s : stmt) : Type :=
  match s with
  | SelectAccount _ => option Account.t
  | SelectDocument _ _ => option Document.t
  | SelectJob _ _ => option Job.t
  | SelectArtifacts _ _ => list Artifact.t
  | InsertDocument _ => Document.t
  | InsertJob _ => Job.t
  | UpdateJob _ _ _ => option Job.t
  | UpsertArtifact _ => Artifact.t
  end.

(** ** Events *)

Inductive log_level : Type := Debug | Info | Warning | Error.

Inductive log_value : Type :=
| LUuid (u : uuid)
| LInt (z : Z)
| LStr (s : string)
| LJson (j : json)
| LExn (x : exn)
| LSpan (start stop : Z).  (** milliseconds between two [perf_counter] reads *)

(** A boto3 client: the keyword arguments it was built with.  [path_style]
    marks the configuration with path addressing and [s3v4] signatures. *)
Record s3_client : Type := S3Client {
  region_name : string;
  endpoint_url : option string;
  path_style : bool;
  aws_access_key_id : option string;
  aws_secret_access_key : option string
}.

(** A message of the ASGI [send] callable: [http.response.start] with its status, or
    one of another type. *)
Inductive asgi_message : Type :=
| ResponseStart (status : Z)
| OtherMessage (type : string).

(** A message as the broker delivers it. *)
Record message : Type := Message { msg_tag : N; msg_body : bytes }.

(** What becomes of a consumer that waits for the next message: one is delivered, the
    iterator ends because its channel is closed, or nothing is delivered any more, and the
    consumer is left waiting. *)
Inductive delivery : Type :=
| Delivery (m : message)
| IteratorEnd
| NoDelivery.

Inductive event : Type :=
(* clock, randomness, logging *)
| Now
| Uuid4
| PerfCounter
| Log (level : log_level) (name : string) (fields : list (string * log_value))
| CtxClear
| CtxBind (key : string) (value : log_value)
(* the [send] callable of the ASGI server *)
| AsgiSend (m : asgi_message)
(* the session of the coroutine *)
| Exec (s : stmt)
| Commit
| Rollback
| Close
(* boto3 *)
| S3Presign (c : s3_client) (method bucket key : string) (expires_in : Z)
| S3Head (c : s3_client) (bucket key : string)
| S3Get (c : s3_client) (bucket key : string)
| S3Read (body : bytes)
| S3Put (c : s3_client) (bucket key : string) (content : bytes)
(* aio_pika, producer side; [MqCached] and [MqStore] are the [_connection]
   attribute of the service *)
| MqCached
| MqIsClosed (connection : N)
| MqConnect (url : string)
| MqStore (connection : N)
| MqChannel (connection : N)
| MqDeclare (channel : N) (queue : string) (durable passive : bool)
| MqPublish (channel : N) (routing_key : string) (body : bytes) (persistent : bool)
| MqCloseChannel (channel : N)
(* a delivered message *)
| MsgAck (tag : N)
| MsgNack (tag : N) (requeue : bool)
(* fitz and pymupdf4llm *)
| PdfOpen (content : bytes)
| PdfMarkdown (document : N)
(* the consumer's connection; [StopIsSet] reads the stop event *)
| ConsConnect (url : string)
| ConsChannel
| ConsQos (prefetch_count : Z)
| ConsDeclare (queue : string) (durable : bool)
| ConsNext
| ConsIterClose
| ConsClose
| StopIsSet.

Definition resp (e : event) : Type :=
  match e with
  | Now | PerfCounter => Z
  | Uuid4 => uuid
  | Exec s => rows s
  | S3Presign _ _ _ _ _ => string
  | S3Get _ _ _ | S3Read _ => bytes
  | MqCached => option N
  | MqIsClosed _ => bool
  | MqConnect _ | MqChannel _ => N
  | MqDeclare _ _ _ _ => option Z
  | PdfOpen _ => N
  | PdfMarkdown _ => string
  | ConsNext => delivery
  | StopIsSet => bool
  | _ => unit
  end.

(** ** Programs *)

Inductive prog (A : Type) : Type :=
| Ret (a : A)
| Raise (x : exn)
| Vis (e : event) (k : result exn (resp e) -> prog A).
Arguments Ret {A} a.
Arguments Raise {A} x.
Arguments Vis {A} e k.

(** Perform one event; its exception propagates. *)
Definition trigger (e : event) : prog (resp e) :=
  Vis e (fun r => match r with Ok v => Ret v | Exn x => Raise x end).

Fixpoint bind {A B} (p : prog A) (f : A -> prog B) : prog B :=
  match p with
  | Ret a => f a
  | Raise x => Raise x
  | Vis e k => Vis e (fun r => bind (k r) f)
  end.

(** [try: p except: h]; [h] is [None] on an exception no clause names. *)
Fixpoint catch {A} (p : prog A) (h : exn -> option (prog A)) : prog A :=
  match p with
  | Ret a => Ret a
  | Raise x => match h x with Some q => q | None => Raise x end
  | Vis e k => Vis e (fun r => catch (k r) h)
  end.

(** [try: p finally: f]. *)
Fixpoint finally {A} (p : prog A) (f : prog unit) : prog A :=
  match p with
  | Ret a => bind f (fun _ => Ret a)
  | Raise x => bind f (fun _ => Raise x)
  | Vis e k => Vis e (fun r => finally (k r) f)
  end.

(** [async with]: the exit [f] runs when the body is left, by a return or an exception; a
    body that is [suspended] inside has not been left. *)
Fixpoint leaving {A} (suspended : A -> bool) (p : prog A) (f : prog unit) : prog A :=
  match p with
  | Ret a => if suspended a then Ret a else bind f (fun _ => Ret a)
  | Raise x => bind f (fun _ => Raise x)
  | Vis e k => Vis e (fun r => leaving suspended (k r) f)
  end.

Definition raise_ {A} (c : app_class) : prog A := Raise (ERaise c).

(** [if b: p] with no value. *)
Definition when (b : bool) (p : prog unit) : prog unit := if b then p else Ret tt.

Declare Scope prog_scope.
Delimit Scope prog_scope with prog.
Bind Scope prog_scope with prog.
Notation "'let*' x := p 'in' q" := (bind p (fun x => q))
  (at level 10, x pattern, p at level 100, q at level 200) : prog_scope.
Notation "p ;;; q" := (bind p (fun _ => q))
  (at level 100, q at level 200, right associativity) : prog_scope.
#[global] Open Scope prog_scope.

(** ** The program logic *)

(** A transition system over events: which events may happen in a state, and
    what they may answer. *)
Record lts : Type := Lts {
  st : Type;
  allowed : st -> event -> Prop;
  trans : st -> forall e : event, result exn (resp e) -> st -> Prop
}.

Fixpoint wp (L : lts) {A} (p : prog A) (Q : result exn A -> st L -> Prop)
    (s : st L) : Prop :=
  match p with
  | Ret a => Q (Ok a) s
  | Raise x => Q (Exn x) s
  | Vis e k =>
      allowed L s e /\ forall r s', trans L s e r s' -> wp L (k r) Q s'
  end.

(** The postcondition of the first half of a sequence. *)
Definition then_ {L : lts} {A B} (f : A -> prog B)
    (Q : result exn B -> st L -> Prop) : result exn A -> st L -> Prop :=
  fun r s => match r with Ok a => wp L (f a) Q s | Exn x => Q (Exn x) s end.

Section wp_rules.
Context (L : lts).

Lemma wp_mono {A} (p : prog A) Q Q' s :
  (forall r s', Q r s' -> Q' r s') -> wp L p Q s -> wp L p Q' s.
Proof.
  intros HQ. revert s. induction p as [a|x|e k IH]; intros s; simpl; eauto.
  intros [Ha Hk]. split; [done|]. eauto.
Qed.

Lemma wp_bind {A B} (p : prog A) (f : A -> prog B) Q s :
  wp L (bind p f) Q s <-> wp L p (then_ f Q) s.
Proof.
  revert s. induction p as [a|x|e k IH]; intros s; simpl; [done..|].
  split; intros [Ha Hk]; (split; [done|]); intros r s' Ht; apply IH; eauto.
Qed.

Lemma wp_catch {A} (p : prog A) h Q s :
  wp L (catch p h) Q s <->
  wp L p (fun r s' => match r with
                      | Ok a => Q (Ok a) s'
                      | Exn x => match h x with
                                 | Some q => wp L q Q s'
                                 | None => Q (Exn x) s'
                                 end
                      end) s.
Proof.
  revert s. induction p as [a|x|e k IH]; intros s; simpl; [done| |].
  - by destruct (h x).
  - split; intros [Ha Hk]; (split; [done|]); intros r s' Ht; apply IH; eauto.
Qed.

Lemma wp_finally {A} (p : prog A) (f : prog unit) Q s :
  wp L (finally p f) Q s <->
  wp L p (fun r s' => wp L f (fun rf s'' => match rf with
                                            | Ok _ => Q r s''
                                            | Exn x => Q (Exn x) s''
                                            end) s') s.
Proof.
  revert s. induction p as [a|x|e k IH]; intros s; simpl.
  - rewrite wp_bind. split; apply wp_mono; intros [] s'; done.
  - rewrite wp_bind. split; apply wp_mono; intros [] s'; done.
  - split; intros [Ha Hk]; (split; [done|]); intros r s' Ht; apply IH; eauto.
Qed.

Lemma wp_leaving {A} (suspended : A -> bool) (p : prog A) (f : prog unit) Q s :
  wp L (leaving suspended p f) Q s <->
  wp L p (fun r s' =>
    if match r with Ok a => suspended a | Exn _ => false end then Q r s'
    else wp L f (fun rf s'' => match rf with
                               | Ok _ => Q r s''
                               | Exn x => Q (Exn x) s''
                               end) s') s.
Proof.
  revert s. induction p as [a|x|e k IH]; intros s; simpl.
  - destruct (suspended a); [done|]. rewrite wp_bind. split; apply wp_mono; intros [] s'; done.
  - rewrite wp_bind. split; apply wp_mono; intros [] s'; done.
  - split; intros [Ha Hk]; (split; [done|]); intros r s' Ht; apply IH; eauto.
Qed.

Lemma wp_trigger (e : event) Q s :
  allowed L s e ->
  (forall r s', trans L s e r s' -> Q r s') ->
  wp L (trigger e) Q s.
Proof. intros Ha Hk. split; [done|]. intros [v|x] s' Ht; simpl; eauto. Qed.

Lemma wp_ret {A} (a : A) (Q : result exn A -> st L -> Prop) s :
  Q (Ok a) s -> wp L (Ret a) Q s.
Proof. done. Qed.

Lemma wp_raise {A} x (Q : result exn A -> st L -> Prop) s :
  Q (Exn x) s -> wp L (Raise x) Q s.
Proof. done. Qed.
End wp_rules.

(** Postconditions may be rewritten up to equivalence. *)
#[export] Instance wp_proper L A (p : prog A) :
  Proper (pointwise_relation _ (pointwise_relation _ iff) ==> eq ==> iff) (wp L p).
Proof.
  intros Q Q' HQ s ? <-. split; apply wp_mono; intros r s'; apply HQ.
Qed.
