(* ===== verification/Interfaces.v ===== *)
(** * The abstract interfaces ([shared/interfaces/], [worker/interfaces/])

    The services are written against these classes, and so are their models:
    each interface is a type class whose fields are its abstract methods.  The
    session argument every repository method takes is the session of the
    coroutine, which the [Exec], [Commit], [Rollback] and [Close] events use. *)

From S2P Require Import Prelude PyUuid Json Dtos Exceptions Models Program.

Class IAccountRepository : Type := {
  account_get_by_api_key_hash : string -> prog (option AccountDTO.t)
}.

Class IDocumentRepository : Type := {
  document_create : CreateDocumentDTO.t -> prog DocumentDTO.t;
  document_get_by_id : uuid -> Z -> prog (option DocumentDTO.t)
}.

Class IJobRepository : Type := {
  job_create : CreateJobDTO.t -> prog JobDTO.t;
  job_get_by_id : uuid -> Z -> prog (option JobDTO.t);
  job_update_status :
    uuid -> JobStatus -> JobStatus (* expected_status *) ->
    option string (* error_message *) -> prog JobDTO.t;
  job_get_for_processing : uuid -> prog (option JobDTO.t)
}.

Class IArtifactRepository : Type := {
  artifact_create : CreateArtifactDTO.t -> prog ArtifactDTO.t;
  artifact_list_by_document_id : uuid -> Z -> prog (list ArtifactDTO.t)
}.

Class IStorageService : Type := {
  generate_upload_url : string -> prog string;
  generate_download_url : string -> prog string;
  object_exists : string -> prog bool;
  get_object : string -> prog bytes;
  put_object : string -> bytes -> prog unit
}.

Class IMessagingService : Type := {
  enqueue : string -> json -> prog unit;
  queue_depth : string -> prog Z
}.

Class IDocumentParser : Type := {
  parse : bytes -> prog string
}.

Class IProcessingService : Type := {
  process : uuid -> prog unit
}.

(** ** The services of the API ([shared/interfaces/services/]) *)

Class IAccountService : Type := {
  account_authenticate : string -> prog (option AccountDTO.t)
}.

Class IDocumentService : Type := {
  document_service_create : Z -> prog DocumentWithUploadUrlDTO.t;
  document_service_get : uuid -> Z -> prog (option DocumentDTO.t)
}.

Class IArtifactService : Type := {
  artifact_list_for_document : uuid -> Z -> prog (list ArtifactWithUrlDTO.t)
}.

Class IJobService : Type := {
  job_service_get : uuid -> Z -> prog (option JobDTO.t);
  job_service_create : CreateJobDTO.t -> prog JobDTO.t
}.
