(* ===== verification/Container.v ===== *)
(** * Sessions ([open_session] of [api/core/container.py] and
    [worker/core/container.py])

    The context manager commits when its body returns, rolls back and re-raises
    when the body or the commit raises, and closes the session either way.  The
    two containers define it alike. *)

From S2P Require Import Prelude Exceptions Program.

(** Every exception of [exn] is an [Exception], so the [except] clause always
    applies; an exception of [rollback] replaces the one being handled. *)
Definition open_session {A} (body : prog A) : prog A :=
  finally
    (catch
       (let* result := body in
        trigger Commit ;;;
        Ret result)
       (fun x => Some (trigger Rollback ;;; Raise x)))
    (trigger Close).
