(* ===== verification/Repositories.v ===== *)
(** * Repositories ([shared/infrastructure/repositories/]) *)

From S2P Require Import Prelude PyUuid Dtos Exceptions Models Program Interfaces.

(** [except SQLAlchemyError as e: raise DatabaseException() from e]. *)
Definition wrap_sqlalchemy {A} (p : prog A) : prog A :=
  catch p (fun x => if is_sqlalchemy x then Some (raise_ DatabaseException) else None).

Module AccountRepository.
Definition _to_dto (model : Account.t) : AccountDTO.t :=
  AccountDTO.Make (Account.id model) (Account.api_key_hash model).

Definition get_by_api_key_hash (api_key_hash : string) : prog (option AccountDTO.t) :=
  wrap_sqlalchemy
    (let* account := trigger (Exec (SelectAccount api_key_hash)) in
     Ret (_to_dto <$> account)).

#[export] Instance repository : IAccountRepository :=
  {| account_get_by_api_key_hash := get_by_api_key_hash |}.
End AccountRepository.

Module DocumentRepository.
Definition _to_dto (model : Document.t) : DocumentDTO.t :=
  DocumentDTO.Make (Document.id model) (Document.object_key model)
    (Document.account_id model) (Document.created_at model).

Definition create (dto : CreateDocumentDTO.t) : prog DocumentDTO.t :=
  wrap_sqlalchemy
    (let* created_at := trigger Now in
     let* row := trigger (Exec (InsertDocument
       (Document.Make (CreateDocumentDTO.id dto) (CreateDocumentDTO.object_key dto)
          (CreateDocumentDTO.account_id dto) created_at))) in
     Ret (_to_dto row)).

Definition get_by_id (document_id : uuid) (account_id : Z)
  : prog (option DocumentDTO.t) :=
  wrap_sqlalchemy
    (let* document := trigger (Exec (SelectDocument document_id account_id)) in
     Ret (_to_dto <$> document)).

#[export] Instance repository : IDocumentRepository :=
  {| document_create := create; document_get_by_id := get_by_id |}.
End DocumentRepository.

Module ArtifactRepository.
Definition _to_dto (model : Artifact.t) : ArtifactDTO.t :=
  ArtifactDTO.Make (Artifact.id model) (Artifact.job_id model)
    (Artifact.document_id model) (Artifact.artifact_type model)
    (Artifact.object_key model) (Artifact.created_at model).

(** Insert, or on a conflict on (document_id, artifact_type) update [job_id]
    and [object_key]; the id is the column default. *)
Definition create (dto : CreateArtifactDTO.t) : prog ArtifactDTO.t :=
  wrap_sqlalchemy
    (let* created_at := trigger Now in
     let* id := trigger Uuid4 in
     let* artifact := trigger (Exec (UpsertArtifact
       (Artifact.Make id (CreateArtifactDTO.job_id dto)
          (CreateArtifactDTO.document_id dto) (CreateArtifactDTO.artifact_type dto)
          (CreateArtifactDTO.object_key dto) created_at))) in
     Ret (_to_dto artifact)).

Definition list_by_document_id (document_id : uuid) (account_id : Z)
  : prog (list ArtifactDTO.t) :=
  wrap_sqlalchemy
    (let* result := trigger (Exec (SelectArtifacts document_id account_id)) in
     Ret (_to_dto <$> result)).

#[export] Instance repository : IArtifactRepository :=
  {| artifact_create := create;
     artifact_list_by_document_id := list_by_document_id |}.
End ArtifactRepository.

Module JobRepository.
Definition _to_dto (model : Job.t) : JobDTO.t :=
  JobDTO.Make (Job.id model) (Job.account_id model) (Job.document_id model)
    (Job.status model) (Job.artifact_types model) (Job.attempts model)
    (Job.max_attempts model) (Job.error_message model) (Job.created_at model)
    (Job.queued_at model) (Job.started_at model) (Job.completed_at model)
    (Job.last_attempt_at model) (Job.failed_at model).

(** [_STATUS_TIMESTAMP]. *)
Definition _STATUS_TIMESTAMP (s : JobStatus) : column :=
  match s with
  | QUEUED => QueuedAt
  | STARTED => StartedAt
  | COMPLETED => CompletedAt
  | FAILED => FailedAt
  end.

(** The row an insert makes, column defaults included. *)
Definition new_row (id : uuid) (dto : CreateJobDTO.t) (queued_at created_at : datetime)
  : Job.t :=
  Job.Make id (CreateJobDTO.account_id dto) (CreateJobDTO.document_id dto) QUEUED
    (CreateJobDTO.artifact_types dto) Job.default_attempts Job.default_max_attempts
    None created_at (Some queued_at) None None None None.

(** The two [except] clauses of [create]. *)
Definition create_except (x : exn) : option (prog JobDTO.t) :=
  match x with
  | ESqlAlchemy true orig =>
      Some (if contains "one_active_job_per_document" orig
            then raise_ ActiveJobExistsException
            else raise_ DatabaseException)
  | ESqlAlchemy false _ => Some (raise_ DatabaseException)
  | _ => None
  end.

Definition create (dto : CreateJobDTO.t) : prog JobDTO.t :=
  catch
    (let* queued_at := trigger Now in
     let* created_at := trigger Now in
     let* id := trigger Uuid4 in
     let* row := trigger (Exec (InsertJob (new_row id dto queued_at created_at))) in
     Ret (_to_dto row))
    create_except.

Definition get_by_id (job_id : uuid) (account_id : Z) : prog (option JobDTO.t) :=
  wrap_sqlalchemy
    (let* job := trigger (Exec (SelectJob job_id (Some account_id))) in
     Ret (_to_dto <$> job)).

(** The [values] dictionary of [update_status], in insertion order. *)
Definition update_values (status : JobStatus) (error_message : option string)
  : prog (list assignment) :=
  let* now := trigger Now in
  let values := [SetStatus status; SetColumn (_STATUS_TIMESTAMP status) now] in
  let* values :=
    if bool_decide (status = STARTED)
    then let* now' := trigger Now in
         Ret (values ++ [SetColumn LastAttemptAt now'; IncAttempts])%list
    else Ret values in
  Ret (match error_message with
       | Some m => values ++ [SetError m]
       | None => values
       end)%list.

Definition update_status (job_id : uuid) (status expected_status : JobStatus)
    (error_message : option string) : prog JobDTO.t :=
  catch
    (let* values := update_values status error_message in
     let* row := trigger (Exec (UpdateJob job_id expected_status values)) in
     match row with
     | None => raise_ JobStateConflictException
     | Some row => Ret (_to_dto row)
     end)
    (fun x => if is_app JobStateConflictException x then Some (Raise x)
              else if is_sqlalchemy x then Some (raise_ DatabaseException)
              else None).

Definition get_for_processing (job_id : uuid) : prog (option JobDTO.t) :=
  wrap_sqlalchemy
    (let* job := trigger (Exec (SelectJob job_id None)) in
     Ret (_to_dto <$> job)).

#[export] Instance repository : IJobRepository :=
  {| job_create := create; job_get_by_id := get_by_id;
     job_update_status := update_status;
     job_get_for_processing := get_for_processing |}.
End JobRepository.
