(* ===== verification/Storage.v ===== *)
(** * Object storage ([shared/infrastructure/storage/s3_client.py]) *)

From S2P Require Import Prelude Dtos Exceptions Models Program Interfaces.

Module S3StorageService.

(** The attributes [__init__] sets. *)
Record t : Type := Make {
  _bucket : string;
  _client : s3_client;
  _presign_client : s3_client
}.

(** [__init__]: path addressing when an endpoint is configured, explicit
    credentials when there is an access key, and a second client that signs
    against the public endpoint when there is one. *)
Definition init (bucket region : string)
    (endpoint_url public_endpoint_url access_key secret_key : option string) : t :=
  let client :=
    S3Client region endpoint_url
      (match endpoint_url with Some _ => true | None => false end)
      access_key
      (match access_key with Some _ => secret_key | None => None end) in
  let presign_client :=
    match public_endpoint_url with
    | Some url =>
        S3Client (region_name client) (Some url) (path_style client)
          (aws_access_key_id client) (aws_secret_access_key client)
    | None => client
    end in
  Make bucket client presign_client.

(** [except ClientError as e: raise StorageException() from e]. *)
Definition wrap_client_error {A} (p : prog A) : prog A :=
  catch p (fun x => if is_client x then Some (raise_ StorageException) else None).

Section methods.
Context (self : t).

Definition generate_upload_url (object_key : string) : prog string :=
  wrap_client_error
    (trigger (S3Presign (_presign_client self) "put_object" (_bucket self)
                object_key 3600)).

Definition generate_download_url (object_key : string) : prog string :=
  wrap_client_error
    (trigger (S3Presign (_presign_client self) "get_object" (_bucket self)
                object_key 3600)).

Definition object_exists (object_key : string) : prog bool :=
  catch
    (trigger (S3Head (_client self) (_bucket self) object_key) ;;; Ret true)
    (fun x => match x with
              | EClient error_code _ =>
                  Some (if bool_decide (error_code = "404") then Ret false
                        else raise_ StorageException)
              | _ => None
              end).

Definition get_object (object_key : string) : prog bytes :=
  wrap_client_error
    (let* body := trigger (S3Get (_client self) (_bucket self) object_key) in
     trigger (S3Read body)).

Definition put_object (object_key : string) (content : bytes) : prog unit :=
  wrap_client_error
    (trigger (S3Put (_client self) (_bucket self) object_key content)).

Definition storage : IStorageService :=
  {| Interfaces.generate_upload_url := generate_upload_url;
     Interfaces.generate_download_url := generate_download_url;
     Interfaces.object_exists := object_exists;
     Interfaces.get_object := get_object;
     Interfaces.put_object := put_object |}.
End methods.
End S3StorageService.
