(* ===== verification/Messaging.v ===== *)
(** * Messaging ([shared/infrastructure/messaging/rabbitmq_client.py]) *)

From S2P Require Import Prelude Json Dtos Exceptions Models Program Interfaces.

Module RabbitMQMessagingService.
Section methods.
Context (_url : string).

(** The cached connection, opened again when there is none or it closed. *)
Definition _get_connection : prog N :=
  let reconnect :=
    let* connection := trigger (MqConnect _url) in
    trigger (MqStore connection) ;;;
    Ret connection in
  let* cached := trigger MqCached in
  match cached with
  | None => reconnect
  | Some connection =>
      let* closed := trigger (MqIsClosed connection) in
      if closed then reconnect else Ret connection
  end.

(** [async with connection.channel() as channel]. *)
Definition with_channel {A} (connection : N) (body : N -> prog A) : prog A :=
  let* channel := trigger (MqChannel connection) in
  finally (body channel) (trigger (MqCloseChannel channel)).

(** [except aio_pika.exceptions.AMQPError as e: raise QueueException() from e]. *)
Definition wrap_amqp {A} (p : prog A) : prog A :=
  catch p (fun x => if is_amqp x then Some (raise_ QueueException) else None).

Definition enqueue (queue : string) (payload : json) : prog unit :=
  wrap_amqp
    (let* connection := _get_connection in
     with_channel connection (fun channel =>
       let* _ := trigger (MqDeclare channel queue true false) in
       trigger (MqPublish channel queue (dumps payload) true))).

Definition queue_depth (queue : string) : prog Z :=
  wrap_amqp
    (let* connection := _get_connection in
     with_channel connection (fun channel =>
       catch
         (let* message_count := trigger (MqDeclare channel queue false true) in
          Ret (default 0%Z message_count))
         (fun x => match x with
                   | EAmqp true _ => Some (Ret 0%Z)
                   | _ => None
                   end))).

Definition messaging : IMessagingService :=
  {| Interfaces.enqueue := enqueue; Interfaces.queue_depth := queue_depth |}.
End methods.
End RabbitMQMessagingService.
