(* ===== verification/Sha256.v ===== *)
(** * [hashlib.sha256(...).hexdigest()] of the Python standard library

    Accounts are looked up by the SHA-256 digest of their API key; the same
    digest is stored when an account is created.  The function is FIPS 180-4 on
    32-bit words, represented as [Z] between 0 and 2^32. *)

From S2P Require Import Prelude.

Local Open Scope Z_scope.

Definition w32 (x : Z) : Z := x mod 2 ^ 32.
Definition add32 (x y : Z) : Z := w32 (x + y).
Definition rotr (n x : Z) : Z := Z.lor (Z.shiftr x n) (w32 (Z.shiftl x (32 - n))).
Definition not32 (x : Z) : Z := Z.lxor x (2 ^ 32 - 1).

Definition ch (x y z : Z) : Z := Z.lxor (Z.land x y) (Z.land (not32 x) z).
Definition maj (x y z : Z) : Z :=
  Z.lxor (Z.lxor (Z.land x y) (Z.land x z)) (Z.land y z).
Definition big_sigma0 (x : Z) : Z := Z.lxor (Z.lxor (rotr 2 x) (rotr 13 x)) (rotr 22 x).
Definition big_sigma1 (x : Z) : Z := Z.lxor (Z.lxor (rotr 6 x) (rotr 11 x)) (rotr 25 x).
Definition small_sigma0 (x : Z) : Z :=
  Z.lxor (Z.lxor (rotr 7 x) (rotr 18 x)) (Z.shiftr x 3).
Definition small_sigma1 (x : Z) : Z :=
  Z.lxor (Z.lxor (rotr 17 x) (rotr 19 x)) (Z.shiftr x 10).

(** The constants are the first 32 bits of the fractional parts of the cube roots of
    the first 64 primes and of the square roots of the first 8 (FIPS 180-4, 4.2.2 and
    5.3.3). *)
Definition is_prime (n : Z) : bool :=
  forallb (fun k => negb (n mod (Z.of_nat k + 2) =? 0)) (List.seq 0 (Z.to_nat n - 2)).

Definition primes (count : nat) : list Z :=
  firstn count (List.filter is_prime (map (fun k => Z.of_nat k + 2) (List.seq 0 310))).

(** The integer [k]-th root of [n < 2^(36 k)], bit by bit. *)
Fixpoint root (k n : Z) (bits : nat) (r : Z) : Z :=
  match bits with
  | O => r
  | S bits =>
      let r' := r + 2 ^ Z.of_nat bits in
      root k n bits (if r' ^ k <=? n then r' else r)
  end.

Definition root_fraction (k p : Z) : Z := w32 (root k (p * 2 ^ (32 * k)) 36 0).

Definition round_constants : list Z :=
  Eval vm_compute in map (root_fraction 3) (primes 64).

Definition initial_hash : list Z :=
  Eval vm_compute in map (root_fraction 2) (primes 8).

(** The eight working variables. *)
Record vars : Type := Vars { va : Z; vb : Z; vc : Z; vd : Z; ve : Z; vf : Z; vg : Z; vh : Z }.

Definition round (v : vars) (kw : Z * Z) : vars :=
  let t1 := w32 (vh v + big_sigma1 (ve v) + ch (ve v) (vf v) (vg v) + kw.1 + kw.2) in
  let t2 := w32 (big_sigma0 (va v) + maj (va v) (vb v) (vc v)) in
  Vars (add32 t1 t2) (va v) (vb v) (vc v) (add32 (vd v) t1) (ve v) (vf v) (vg v).

(** The message schedule, built with the most recent word first. *)
Fixpoint schedule (n : nat) (ws : list Z) : list Z :=
  match n with
  | O => ws
  | S n =>
      let w k := nth k ws 0 in
      schedule n (w32 (small_sigma1 (w 1%nat) + w 6%nat
                       + small_sigma0 (w 14%nat) + w 15%nat) :: ws)
  end.

Definition compress (h : list Z) (block : list Z) : list Z :=
  match h with
  | [a; b; c; d; e; f; g; i] =>
      let ws := reverse (schedule 48 (reverse block)) in
      let v := fold_left round (combine round_constants ws) (Vars a b c d e f g i) in
      [add32 a (va v); add32 b (vb v); add32 c (vc v); add32 d (vd v);
       add32 e (ve v); add32 f (vf v); add32 g (vg v); add32 i (vh v)]
  | _ => h
  end.

(** Big-endian bytes of [x], [n] of them. *)
Fixpoint be_bytes (n : nat) (x : Z) : list Z :=
  match n with
  | O => []
  | S n => (be_bytes n (x / 256) ++ [x mod 256])%list
  end.

Definition pad (l : list Z) : list Z :=
  let len := Z.of_nat (length l) in
  let zeros := Z.to_nat ((55 - len) mod 64) in
  (l ++ 128 :: repeat 0 zeros ++ be_bytes 8 (8 * len))%list.

Fixpoint words (l : list Z) : list Z :=
  match l with
  | a :: b :: c :: d :: l' => (a * 2 ^ 24 + b * 2 ^ 16 + c * 2 ^ 8 + d) :: words l'
  | _ => []
  end.

Fixpoint blocks (n : nat) (ws : list Z) : list (list Z) :=
  match n with
  | O => []
  | S n => take 16 ws :: blocks n (drop 16 ws)
  end.

Definition sha256_words (l : list Z) : list Z :=
  let ws := words (pad l) in
  fold_left compress (blocks (length ws / 16) ws) initial_hash.

Definition hex_of_nibble (d : Z) : ascii :=
  ascii_of_N (Z.to_N (if d <? 10 then 48 + d else 87 + d)).

Definition hex_of_byte (b : Z) : list ascii :=
  [hex_of_nibble (b / 16); hex_of_nibble (b mod 16)].

(** [hashlib.sha256(data).hexdigest()]. *)
Definition sha256_hexdigest (data : string) : string :=
  let l := map (fun c => Z.of_N (code c)) (list_of_string data) in
  string_of_list (concat (map hex_of_byte
    (concat (map (be_bytes 4) (sha256_words l))))).

Example sha256_abc :
  sha256_hexdigest "abc" =
  "ba7816bf8f01cfea414140de5dae2223b00361a396177a9cb410ff61f20015ad".
Proof. vm_compute. reflexivity. Qed.

Example sha256_empty :
  sha256_hexdigest "" =
  "e3b0c44298fc1c149afbf4c8996fb92427ae41e4649b934ca495991b7852b855".
Proof. vm_compute. reflexivity. Qed.

(** The digest is 64 hexadecimal characters. *)
Lemma length_compress h b : length (compress h b) = length h.
Proof. by destruct h as [|? [|? [|? [|? [|? [|? [|? [|? [|? ?]]]]]]]]]. Qed.

Lemma length_concat_const {A} n (ls : list (list A)) :
  Forall (fun l => length l = n) ls -> length (concat ls) = (n * length ls)%nat.
Proof.
  induction 1 as [|l ls Hl _ IH]; simpl; [lia|]. rewrite length_app, IH, Hl. lia.
Qed.

Lemma length_be_bytes n x : length (be_bytes n x) = n.
Proof.
  revert x. induction n as [|n IH]; intros x; simpl; [done|].
  rewrite length_app, IH. simpl. lia.
Qed.

Lemma length_sha256_words l : length (sha256_words l) = 8%nat.
Proof.
  unfold sha256_words. generalize (words (pad l)). intros ws.
  generalize (length ws / 16)%nat. intros n.
  assert (H : forall bs h, length h = 8%nat -> length (fold_left compress bs h) = 8%nat).
  { induction bs as [|b bs IH]; intros h Hh; simpl; [done|].
    apply IH. by rewrite length_compress. }
  by apply H.
Qed.

Lemma length_sha256_hexdigest data : String.length (sha256_hexdigest data) = 64%nat.
Proof.
  unfold sha256_hexdigest. rewrite <- length_list_of_string, list_of_string_of_list.
  rewrite (length_concat_const 2).
  - rewrite length_map, (length_concat_const 4), length_map, length_sha256_words; [done|].
    apply Forall_map, Forall_true. intros x. apply length_be_bytes.
  - apply Forall_map, Forall_true. done.
Qed.
