(* ===== verification/ApiServices.v ===== *)
(** * API services ([api/services/])

    The services are parametric in the interfaces they are given, as their
    constructors are; [ApiContainer] supplies the implementations. *)

From stdpp Require Import pretty.
From S2P Require Import Prelude PyStr PyUuid Json Sha256 Dtos Exceptions Models Program.
From S2P Require Import Interfaces.

Module AccountService.
Section methods.
Context `{IAccountRepository}.

(** [hashlib.sha256(api_key.encode()).hexdigest()], then the lookup. *)
Definition authenticate (api_key : string) : prog (option AccountDTO.t) :=
  match encode api_key with
  | None => Raise (EOther "UnicodeEncodeError" "surrogates not allowed")
  | Some b => account_get_by_api_key_hash (sha256_hexdigest b)
  end.
End methods.
End AccountService.

Module DocumentService.
(** [f"raw/{account_id}/{document_id}.pdf"]. *)
Definition _raw_key (account_id : Z) (document_id : uuid) : string :=
  "raw/" ++ pretty account_id ++ "/" ++ uuid_str document_id ++ ".pdf".

Section methods.
Context `{IDocumentRepository} `{IStorageService}.

Definition create (account_id : Z) : prog DocumentWithUploadUrlDTO.t :=
  let* document_id := trigger Uuid4 in
  let dto := CreateDocumentDTO.Make document_id
               (_raw_key account_id document_id) account_id in
  let* document := document_create dto in
  let* upload_url := generate_upload_url (DocumentDTO.object_key document) in
  Ret (DocumentWithUploadUrlDTO.Make document upload_url).

Definition get (document_id : uuid) (account_id : Z) : prog (option DocumentDTO.t) :=
  document_get_by_id document_id account_id.
End methods.
End DocumentService.

Module ArtifactService.
Section methods.
Context `{IArtifactRepository} `{IStorageService} `{IDocumentRepository}.

(** The loop that signs a download URL per artifact. *)
Fixpoint sign_all (artifacts : list ArtifactDTO.t) : prog (list ArtifactWithUrlDTO.t) :=
  match artifacts with
  | [] => Ret []
  | artifact :: rest =>
      let* url := generate_download_url (ArtifactDTO.object_key artifact) in
      let* result := sign_all rest in
      Ret (ArtifactWithUrlDTO.Make artifact url :: result)
  end.

Definition list_for_document (document_id : uuid) (account_id : Z)
  : prog (list ArtifactWithUrlDTO.t) :=
  let* document := document_get_by_id document_id account_id in
  match document with
  | None => raise_ DocumentNotFoundException
  | Some _ =>
      let* artifacts := artifact_list_by_document_id document_id account_id in
      sign_all artifacts
  end.
End methods.
End ArtifactService.

Module JobService.
(** The payload of the message [create] publishes. *)
Definition message_payload (job : JobDTO.t) : json :=
  JObj [("job_id", JStr (uuid_str (JobDTO.id job)));
        ("document_id", JStr (uuid_str (JobDTO.document_id job)));
        ("artifact_types",
          JArr (map (fun t => JStr (artifact_type_value t))
                  (JobDTO.artifact_types job)))].

Section methods.
Context `{IJobRepository} `{IDocumentRepository} `{IMessagingService}
  `{IStorageService}.
Context (_queue : string) (_backpressure_threshold : Z).

Definition get (job_id : uuid) (account_id : Z) : prog (option JobDTO.t) :=
  job_get_by_id job_id account_id.

Definition create (dto : CreateJobDTO.t) : prog JobDTO.t :=
  let* document := document_get_by_id (CreateJobDTO.document_id dto)
                     (CreateJobDTO.account_id dto) in
  match document with
  | None => raise_ DocumentNotFoundException
  | Some document =>
      let* exists_ := object_exists (DocumentDTO.object_key document) in
      if negb exists_ then raise_ DocumentNotUploadedException
      else
        let* depth := queue_depth _queue in
        if (_backpressure_threshold <=? depth)%Z then raise_ BackpressureException
        else
          let* job := job_create dto in
          trigger Commit ;;;
          enqueue _queue (message_payload job) ;;;
          trigger (Log Debug "job.enqueued"
            [("job_id", LUuid (JobDTO.id job));
             ("document_id", LUuid (JobDTO.document_id job));
             ("queue_depth", LInt depth)]) ;;;
          Ret job
  end.
End methods.
End JobService.
