(* ===== verification/Worker.v ===== *)
(** * The worker ([worker/])

    [ProcessingService.process] turns a document into its Markdown artifact;
    [RabbitMQConsumer._handle] settles one delivered message, and
    [RabbitMQConsumer.start] is the consume loop. *)

From stdpp Require Import pretty.
From S2P Require Import Prelude PyStr PyUuid Json Dtos Exceptions Models Program.
From S2P Require Import Interfaces Container.

Module PyMuPDFParser.
(** [_parse_sync], run in a thread by [parse]. *)
Definition parse (content : bytes) : prog string :=
  let* doc := trigger (PdfOpen content) in
  trigger (PdfMarkdown doc).

#[export] Instance parser : IDocumentParser := {| Interfaces.parse := parse |}.
End PyMuPDFParser.

Module ProcessingService.
(** [f"artifacts/{job.account_id}/{document.id}.md"]. *)
Definition artifact_key (account_id : Z) (document_id : uuid) : string :=
  "artifacts/" ++ pretty account_id ++ "/" ++ uuid_str document_id ++ ".md".

Definition len (s : string) : Z := Z.of_nat (String.length s).

(** [len(markdown)]: code points. *)
Definition len_chars (s : string) : Z :=
  Z.of_nat (length (default [] (utf8_decode (list_of_string s)))).

Section methods.
Context `{IJobRepository} `{IDocumentRepository} `{IArtifactRepository}
  `{IStorageService} `{IDocumentParser}.

Definition process (job_id : uuid) : prog unit :=
  let* job := job_get_for_processing job_id in
  match job with
  | None => raise_ JobNotFoundException
  | Some job =>
    let* document := document_get_by_id (JobDTO.document_id job) (JobDTO.account_id job) in
    match document with
    | None => raise_ DocumentNotFoundException
    | Some document =>
      trigger (Log Debug "processing.fetch_start"
        [("object_key", LStr (DocumentDTO.object_key document))]) ;;;
      let* content := get_object (DocumentDTO.object_key document) in
      trigger (Log Debug "processing.fetch_complete"
        [("size_bytes", LInt (len content))]) ;;;
      trigger (Log Debug "processing.parse_start" []) ;;;
      let* markdown := parse content in
      trigger (Log Debug "processing.parse_complete"
        [("size_chars", LInt (len_chars markdown))]) ;;;
      let key := artifact_key (JobDTO.account_id job) (DocumentDTO.id document) in
      trigger (Log Debug "processing.upload_start" [("artifact_key", LStr key)]) ;;;
      match encode markdown with
      | None => Raise (EOther "UnicodeEncodeError" "surrogates not allowed")
      | Some encoded =>
        put_object key encoded ;;;
        trigger (Log Debug "processing.upload_complete" [("artifact_key", LStr key)]) ;;;
        artifact_create (CreateArtifactDTO.Make job_id (JobDTO.document_id job)
                           MARKDOWN key) ;;;
        job_update_status job_id COMPLETED STARTED None ;;;
        Ret tt
      end
    end
  end.

Definition service : IProcessingService := {| Interfaces.process := process |}.
End methods.
End ProcessingService.

Module RabbitMQConsumer.

(** [UUID(str(payload["job_id"]))] on a decoded value.  The [str] of a number
    with a fraction or exponent has a point, a sign inside or fewer than 32
    characters, the [str] of an array or object has brackets, quotes or fewer
    than 32 characters, so [UUID] refuses them. *)
Definition uuid_of_json (j : json) : option uuid :=
  match j with
  | JStr s => uuid_of_str s
  | JInt z => uuid_of_str (pretty z)
  | JBool true => uuid_of_str "True"
  | JBool false => uuid_of_str "False"
  | JNull => uuid_of_str "None"
  | JFloat _ | JArr _ | JObj _ => None
  end.

(** The first [try] of [_handle]: [Ok None] is the poison-message clause, and
    a [RecursionError] escapes it.  [limit] is the nesting the interpreter
    allows. *)
Definition parse_job_id (limit : nat) (body : bytes) : result exn (option uuid) :=
  match loads limit body with
  | DVal payload _ =>
      Ok (match get_item "job_id" payload with
          | Some v => uuid_of_json v
          | None => None
          end)
  | DValueError => Ok None
  | DRecursionError | DFuel => Exn ERecursion
  end.

Section methods.
Context `{IProcessingService} `{IMessagingService} `{IJobRepository}.
Context (_url _queue : string) (limit : nat).

Definition _handle_failure (job_id : uuid) (attempts max_attempts : Z) (exc : exn)
  : prog unit :=
  catch
    (if (attempts <? max_attempts)%Z then
       open_session
         (job_update_status job_id QUEUED STARTED (Some (exn_str exc))) ;;;
       catch
         (enqueue _queue (JObj [("job_id", JStr (uuid_str job_id))]) ;;;
          trigger (Log Warning "consumer.job_failed_requeued"
            [("attempt", LInt attempts); ("max_attempts", LInt max_attempts);
             ("exc_info", LExn exc)]))
         (fun queue_exc =>
            if is_app QueueException queue_exc
            then Some (trigger (Log Error "consumer.reenqueue_failed"
                         [("exc_info", LExn queue_exc)]))
            else None)
     else
       open_session
         (job_update_status job_id FAILED STARTED (Some (exn_str exc))) ;;;
       trigger (Log Error "consumer.job_terminal_failure"
         [("attempt", LInt attempts); ("max_attempts", LInt max_attempts);
          ("exc_info", LExn exc)]))
    (fun x => if is_app JobStateConflictException x
              then Some (trigger (Log Error "consumer.failure_handler_state_conflict" []))
              else None).

(** The session that looks at the job: [true] if it is [QUEUED]; otherwise
    the message is acknowledged and dropped. *)
Definition _check_queued (msg : message) (job_id : uuid) : prog bool :=
  open_session
    (let* job := job_get_for_processing job_id in
     match job with
     | None =>
         trigger (Log Warning "consumer.job_not_found" []) ;;;
         trigger (MsgAck (msg_tag msg)) ;;;
         Ret false
     | Some job =>
         trigger (CtxBind "document_id" (LUuid (JobDTO.document_id job))) ;;;
         if bool_decide (JobDTO.status job = QUEUED) then Ret true
         else
           trigger (Log Info "consumer.idempotency_drop"
             [("job_status", LStr (job_status_value (JobDTO.status job)))]) ;;;
           trigger (MsgAck (msg_tag msg)) ;;;
           Ret false
     end).

(** The session that claims the job; [None] if the message was settled. *)
Definition _claim (msg : message) (job_id : uuid) : prog (option JobDTO.t) :=
  open_session
    (catch
       (let* started := job_update_status job_id STARTED QUEUED None in
        Ret (Some started))
       (fun x =>
          if is_app JobStateConflictException x then
            Some (trigger (Log Info "consumer.concurrent_claim_dropped" []) ;;;
                  trigger (MsgAck (msg_tag msg)) ;;;
                  Ret None)
          else if is_app DatabaseException x then
            Some (trigger (Log Warning "consumer.start_failed_requeue" []) ;;;
                  trigger (MsgNack (msg_tag msg) true) ;;;
                  Ret None)
          else None)).

(** Processing of a claimed job. *)
Definition _process_claimed (msg : message) (job_id : uuid) (started : JobDTO.t)
  : prog unit :=
  trigger (Log Info "consumer.job_started"
    [("attempt", LInt (JobDTO.attempts started));
     ("max_attempts", LInt (JobDTO.max_attempts started))]) ;;;
  let* process_start := trigger PerfCounter in
  catch
    (open_session (process job_id) ;;;
     let* now := trigger PerfCounter in
     trigger (Log Info "consumer.job_completed"
       [("processing_ms", LSpan process_start now)]) ;;;
     trigger (MsgAck (msg_tag msg)))
    (fun e => Some
       (_handle_failure job_id (JobDTO.attempts started)
          (JobDTO.max_attempts started) e ;;;
        trigger (MsgAck (msg_tag msg)))).

Definition _handle (msg : message) : prog unit :=
  trigger CtxClear ;;;
  match parse_job_id limit (msg_body msg) with
  | Exn x => Raise x
  | Ok None =>
      trigger (Log Warning "consumer.poison_message_dropped" []) ;;;
      trigger (MsgAck (msg_tag msg))
  | Ok (Some job_id) =>
      trigger (CtxBind "job_id" (LUuid job_id)) ;;;
      let* queued := _check_queued msg job_id in
      if negb queued then Ret tt
      else
        let* started := _claim msg job_id in
        match started with
        | None => Ret tt
        | Some started => _process_claimed msg job_id started
        end
  end.

(** ** The consume loop *)

(** Where the loop is: left, or still running. *)
Inductive loop_state : Type :=
| Stopped        (** the stop event was set: [break] *)
| Exhausted      (** the iterator ended *)
| Waiting        (** nothing is delivered: the iterator waits for the next message *)
| MoreMessages.  (** the bound on the number of iterations was reached *)

(** The loop has not been left, and so neither has an [async with] around it. *)
Definition suspended (s : loop_state * option message) : bool :=
  match s.1 with Waiting | MoreMessages => true | Stopped | Exhausted => false end.

(** [async for msg in it], at most [n] iterations.  [in_flight] is the
    attribute [_in_flight]: the message whose task it holds. *)
Fixpoint _consume (n : nat) (in_flight : option message)
  : prog (loop_state * option message) :=
  match n with
  | O => Ret (MoreMessages, in_flight)
  | S n =>
      let* next := trigger ConsNext in
      match next with
      | NoDelivery => Ret (Waiting, in_flight)
      | IteratorEnd => Ret (Exhausted, in_flight)
      | Delivery msg =>
          let* stop := trigger StopIsSet in
          if stop then Ret (Stopped, in_flight)
          else
            (* self._in_flight = create_task(...); await shield(...) *)
            _handle msg ;;;
            (* self._in_flight = None *)
            _consume n None
      end
  end.

(** [start], for at most [n] messages, from the initial [_in_flight = None].
    It gives the state of the loop and the message whose task is awaited after the
    connection is closed, if any.  While the loop waits, [start] has not returned, and the
    iterator and the connection are open. *)
Definition start (n : nat) : prog (loop_state * option message) :=
  trigger (ConsConnect _url) ;;;
  leaving suspended
    (trigger ConsChannel ;;;
     trigger (ConsQos 1) ;;;
     trigger (ConsDeclare _queue true) ;;;
     leaving suspended (_consume n None) (trigger ConsIterClose))
    (trigger ConsClose).

(** What is left of a [start] that waits in its loop, or between two rounds of it. *)
Definition resume (n : nat) : prog (loop_state * option message) :=
  leaving suspended (leaving suspended (_consume n None) (trigger ConsIterClose))
    (trigger ConsClose).
End methods.
End RabbitMQConsumer.
