(* ===== verification/Keys.v ===== *)
(** * Object keys

    Every stored object has a key of the form [prefix/account/document.ext]; the
    account is printed in decimal and the document id as a UUID, so that distinct
    documents have distinct keys. *)

From stdpp Require Import pretty.
From S2P Require Import Prelude PyUuid ApiServices Worker.

Lemma length_uuid_chars u : length (uuid_chars u) = 36%nat.
Proof.
  unfold uuid_chars. set (h := hex_digits 32 u).
  assert (Hh : length h = 32%nat) by apply length_hex_digits.
  repeat first [rewrite length_app | rewrite length_cons | rewrite length_take
               | rewrite length_drop]. rewrite Hh. done.
Qed.

Lemma uuid_str_inj u v : valid_uuid u -> valid_uuid v -> uuid_str u = uuid_str v -> u = v.
Proof.
  intros Hu Hv E. apply (f_equal uuid_of_str) in E.
  rewrite !uuid_of_str_uuid_str in E by done. congruence.
Qed.

(** The common form of the two keys. *)
Definition object_key (prefix : string) (account_id : Z) (document_id : uuid) (ext : string)
  : string := prefix ++ pretty account_id ++ "/" ++ uuid_str document_id ++ ext.

Lemma object_key_inj prefix ext a u b v :
  valid_uuid u -> valid_uuid v ->
  object_key prefix a u ext = object_key prefix b v ext -> a = b /\ u = v.
Proof.
  intros Hu Hv E. apply (f_equal list_of_string) in E. unfold object_key in E.
  rewrite !list_of_string_app in E. apply app_inj_1 in E as [_ E]; [|done].
  apply app_inj_2 in E as [Ea E].
  - split; [apply list_of_string_inj in Ea; by apply (inj pretty)|].
    apply app_inj_1 in E as [_ E]; [|done]. apply app_inj_2 in E as [E _]; [|done].
    by apply uuid_str_inj; [..|apply list_of_string_inj].
  - rewrite !length_app. unfold uuid_str. rewrite !list_of_string_of_list, !length_uuid_chars.
    done.
Qed.

Lemma raw_key_inj a u b v :
  valid_uuid u -> valid_uuid v ->
  DocumentService._raw_key a u = DocumentService._raw_key b v -> a = b /\ u = v.
Proof. apply (object_key_inj "raw/" ".pdf"). Qed.

Lemma artifact_key_inj a u b v :
  valid_uuid u -> valid_uuid v ->
  ProcessingService.artifact_key a u = ProcessingService.artifact_key b v -> a = b /\ u = v.
Proof. apply (object_key_inj "artifacts/" ".md"). Qed.

(** Object keys do not collide: two documents share the key of an upload, or of
    an artifact, only if they are the same document of the same account, and no
    artifact is stored under the key of an upload. *)
Theorem object_keys_distinct a u b v :
  valid_uuid u -> valid_uuid v ->
  (DocumentService._raw_key a u = DocumentService._raw_key b v <-> a = b /\ u = v) /\
  (ProcessingService.artifact_key a u = ProcessingService.artifact_key b v
     <-> a = b /\ u = v) /\
  ProcessingService.artifact_key a u <> DocumentService._raw_key b v.
Proof.
  intros Hu Hv. split_and!.
  - split; [by apply raw_key_inj|by intros [-> ->]].
  - split; [by apply artifact_key_inj|by intros [-> ->]].
  - discriminate.
Qed.

Lemma object_keys_distinct_witness :
  (DocumentService._raw_key 1 5 = DocumentService._raw_key 11 5 <-> 1%Z = 11%Z /\ 5%N = 5%N) /\
  (ProcessingService.artifact_key 1 5 = ProcessingService.artifact_key 11 5
     <-> 1%Z = 11%Z /\ 5%N = 5%N) /\
  ProcessingService.artifact_key 1 5 <> DocumentService._raw_key 11 5.
Proof. apply object_keys_distinct; done. Defined.
