(* ===== verification/Wiring.v ===== *)
(** * The containers ([api/core/container.py], [worker/core/container.py])

    Which implementation each service is given, from the settings. *)

From S2P Require Import Prelude PyUuid Json Dtos Exceptions Models Program Interfaces.
From S2P Require Import Settings Container Repositories Storage Messaging ApiServices.
From S2P Require Import Worker.

Module ApiContainer.
Section methods.
Context (_settings : BaseAppSettings.t).

Definition s3 : S3StorageService.t :=
  S3StorageService.init (BaseAppSettings.s3_bucket _settings)
    (BaseAppSettings.aws_region _settings) (BaseAppSettings.s3_endpoint_url _settings)
    (BaseAppSettings.s3_public_endpoint_url _settings)
    (BaseAppSettings.s3_access_key _settings) (BaseAppSettings.s3_secret_key _settings).

Definition storage_service : IStorageService := S3StorageService.storage s3.

Definition messaging_service : IMessagingService :=
  RabbitMQMessagingService.messaging (BaseAppSettings.rabbitmq_url _settings).

(** The methods of the services the container builds. *)
Definition account_authenticate : string -> prog (option AccountDTO.t) :=
  @AccountService.authenticate AccountRepository.repository.

Definition document_create : Z -> prog DocumentWithUploadUrlDTO.t :=
  @DocumentService.create DocumentRepository.repository storage_service.

Definition document_get : uuid -> Z -> prog (option DocumentDTO.t) :=
  @DocumentService.get DocumentRepository.repository.

Definition job_create : CreateJobDTO.t -> prog JobDTO.t :=
  @JobService.create JobRepository.repository DocumentRepository.repository
    messaging_service storage_service (BaseAppSettings.rabbitmq_queue _settings)
    (BaseAppSettings.backpressure_threshold _settings).

Definition job_get : uuid -> Z -> prog (option JobDTO.t) :=
  @JobService.get JobRepository.repository.

Definition artifact_list_for_document : uuid -> Z -> prog (list ArtifactWithUrlDTO.t) :=
  @ArtifactService.list_for_document ArtifactRepository.repository storage_service
    DocumentRepository.repository.

(** The services, as the container gives them to the routes. *)
Definition account_service : IAccountService :=
  {| Interfaces.account_authenticate := account_authenticate |}.

Definition document_service : IDocumentService :=
  {| document_service_create := document_create; document_service_get := document_get |}.

Definition job_service : IJobService :=
  {| job_service_get := job_get; job_service_create := job_create |}.

Definition artifact_service : IArtifactService :=
  {| Interfaces.artifact_list_for_document := artifact_list_for_document |}.
End methods.
End ApiContainer.

Module WorkerContainer.
Section methods.
Context (_settings : BaseAppSettings.t) (limit : nat).

(** The worker signs no URLs for clients: no public endpoint. *)
Definition s3 : S3StorageService.t :=
  S3StorageService.init (BaseAppSettings.s3_bucket _settings)
    (BaseAppSettings.aws_region _settings) (BaseAppSettings.s3_endpoint_url _settings)
    None
    (BaseAppSettings.s3_access_key _settings) (BaseAppSettings.s3_secret_key _settings).

Definition storage_service : IStorageService := S3StorageService.storage s3.

Definition messaging_service : IMessagingService :=
  RabbitMQMessagingService.messaging (BaseAppSettings.rabbitmq_url _settings).

Definition processing_service : IProcessingService :=
  @ProcessingService.service JobRepository.repository DocumentRepository.repository
    ArtifactRepository.repository storage_service PyMuPDFParser.parser.

(** [consumer()._handle] and [consumer().start], and what is left of the
    latter while it waits; [limit] is the nesting depth the
    JSON decoder of the interpreter accepts. *)
Definition consumer_handle : message -> prog unit :=
  @RabbitMQConsumer._handle processing_service messaging_service
    JobRepository.repository (BaseAppSettings.rabbitmq_queue _settings) limit.

Definition consumer_start : nat -> prog (RabbitMQConsumer.loop_state * option message) :=
  @RabbitMQConsumer.start processing_service messaging_service
    JobRepository.repository (BaseAppSettings.rabbitmq_url _settings)
    (BaseAppSettings.rabbitmq_queue _settings) limit.

Definition consumer_resume : nat -> prog (RabbitMQConsumer.loop_state * option message) :=
  @RabbitMQConsumer.resume processing_service messaging_service
    JobRepository.repository (BaseAppSettings.rabbitmq_queue _settings) limit.

Definition consumer_handle_failure : uuid -> Z -> Z -> exn -> prog unit :=
  @RabbitMQConsumer._handle_failure messaging_service JobRepository.repository
    (BaseAppSettings.rabbitmq_queue _settings).
End methods.
End WorkerContainer.
