(* ===== verification/Http.v ===== *)
(** * The HTTP layer ([api/app.py], [api/middleware.py], [api/core/], [api/routes/],
    [api/schemas/])

    The exception handlers, the logging middleware, the dependencies of the routes
    and the route functions.  FastAPI and the ASGI server are not part of the
    repository: a route function is given arguments that are already validated,
    [send_response] stands for sending a response through [send], and [lower] for
    the Unicode tables of [str.lower]. *)

From stdpp Require Import pretty.
From S2P Require Import Prelude PyUuid Json Dtos Exceptions Models Program Interfaces.
From S2P Require Import Settings Container Wiring.

(** ** Schemas ([api/schemas/]) *)

Module ProcessDocumentRequest.
Record t : Type := Make { artifact_types : list ArtifactType }.
Definition default : t := Make [MARKDOWN].
End ProcessDocumentRequest.

Module HealthResponse.
Record t : Type := Make { status : string }.
End HealthResponse.

Module CreateDocumentResponse.
Record t : Type := Make { document_id : uuid; upload_url : string }.
End CreateDocumentResponse.

Module DocumentResponse.
Record t : Type := Make { id : uuid; created_at : datetime }.
End DocumentResponse.

Module ArtifactResponse.
Record t : Type := Make { id : uuid; artifact_type : ArtifactType; download_url : string }.
End ArtifactResponse.

Module ListArtifactsResponse.
Record t : Type := Make { artifacts : list ArtifactResponse.t }.
End ListArtifactsResponse.

Module JobResponse.
Record t : Type := Make {
  id : uuid; document_id : uuid; status : JobStatus;
  artifact_types : list ArtifactType; attempts : Z; max_attempts : Z;
  error_message : option string; created_at : datetime;
  queued_at : option datetime; started_at : option datetime;
  completed_at : option datetime; last_attempt_at : option datetime;
  failed_at : option datetime
}.
End JobResponse.

(** ** Exception handlers ([api/app.py]) *)

(** A [JSONResponse]. *)
Record json_response : Type := JSONResponse { status_code : Z; content : json }.

Definition _error_body (status_code : Z) (type_ message : string)
    (errors : list (string * json)) : json :=
  JObj [("status", JStr "error");
        ("status_code", JInt status_code);
        ("type", JStr type_);
        ("message", JStr message);
        ("errors", JObj errors)].

Definition internal_exception_handler (exc : app_exc) : prog json_response :=
  let status_code := get_status_code exc in
  (if (500 <=? status_code)%Z
   then trigger (Log Error "app.exception"
          [("exc_type", LStr (class_name (exc_class exc)));
           ("status_code", LInt status_code); ("exc_info", LExn (EApp exc))])
   else trigger (Log Warning "app.exception"
          [("exc_type", LStr (class_name (exc_class exc)));
           ("status_code", LInt status_code)])) ;;;
  Ret (JSONResponse status_code
         (_error_body status_code (class_name (exc_class exc)) (get_message exc)
            (get_errors exc))).

(** An [HTTPException]: its detail is any JSON value. *)
Record http_exc : Type := HTTPException { http_status_code : Z; http_detail : json }.

Definition http_exception_handler (exc : http_exc) : prog json_response :=
  let message := match http_detail exc with
                 | JStr s => s
                 | d => dumps d
                 end in
  trigger (Log Warning "http.exception"
    [("status_code", LInt (http_status_code exc)); ("detail", LStr message)]) ;;;
  Ret (JSONResponse (http_status_code exc)
         (_error_body (http_status_code exc) "HTTPException" message [])).

(** One of [exc.errors()]: its [loc], [msg] and [reason] of its [ctx], if any. *)
Inductive loc_item : Type := LocStr (s : string) | LocInt (z : Z).

Record validation_error : Type := ValidationError {
  loc : list loc_item;
  err_msg : string;
  ctx_reason : option string
}.

Definition loc_str (l : loc_item) : string :=
  match l with LocStr s => s | LocInt z => pretty z end.

Section validation.
Context (lower : string -> string).

(** [field]: the last item of the location. *)
Definition error_field (e : validation_error) : string :=
  match rev (loc e) with l :: _ => loc_str l | [] => "body" end.

(** [msg]: the reason of the context unless missing or empty. *)
Definition error_msg (e : validation_error) : string :=
  match ctx_reason e with
  | Some r => if bool_decide (r = "") then err_msg e else r
  | None => err_msg e
  end.

(** [errors.setdefault(field, []).append(m)] on a dictionary in insertion order. *)
Fixpoint append_at (field m : string) (errors : list (string * list string))
  : list (string * list string) :=
  match errors with
  | [] => [(field, [m])]
  | (f, ms) :: rest =>
      if bool_decide (f = field) then (f, (ms ++ [m])%list) :: rest
      else (f, ms) :: append_at field m rest
  end.

(** The loop over [exc.errors()]. *)
Definition collect_errors (errs : list validation_error) : list (string * list string) :=
  fold_left (fun errors e => append_at (error_field e) (lower (error_msg e)) errors) errs [].

Definition errors_json (errors : list (string * list string)) : list (string * json) :=
  (fun fm => (fm.1, JArr (JStr <$> fm.2))) <$> errors.

Definition validation_exception_handler (errs : list validation_error)
  : prog json_response :=
  let errors := errors_json (collect_errors errs) in
  trigger (Log Warning "request.validation_error" [("errors", LJson (JObj errors))]) ;;;
  Ret (JSONResponse 422
         (_error_body 422 "RequestValidationError" "Request validation failed." errors)).
End validation.

(** ** Security and dependencies ([api/core/]) *)

(** [APIKeyHeader.__call__]; [header] is the value of [X-API-KEY]. *)
Definition api_key_header (_raise_error : bool) (header : option string)
  : prog (option string) :=
  let missing :=
    if negb _raise_error then Ret None
    else Raise (EHttp 401 "Missing X-API-KEY header") in
  match header with
  | None => missing
  | Some key => if bool_decide (key = "") then missing else Ret (Some key)
  end.

Definition api_key_required := api_key_header true.
Definition api_key_optional := api_key_header false.

(** [get_db_session]: the session is open while [body], which uses it, runs. *)
Definition get_db_session {A} (body : prog A) : prog A := open_session body.

Definition get_current_account `{IAccountService} (raw_key : string) : prog AccountDTO.t :=
  let* account := account_authenticate raw_key in
  match account with
  | None => Raise (EHttp 401 "Invalid API key")
  | Some account =>
      trigger (CtxBind "account_id" (LStr (pretty (AccountDTO.id account)))) ;;;
      Ret account
  end.

(** ** Routes ([api/routes/]) *)

Definition health : prog HealthResponse.t := Ret (HealthResponse.Make "healthy").

Module documents.
Section routes.
Context `{IDocumentService} `{IArtifactService}.

Definition create_document (account : AccountDTO.t) : prog CreateDocumentResponse.t :=
  let* result := document_service_create (AccountDTO.id account) in
  let document := DocumentWithUploadUrlDTO.document result in
  trigger (CtxBind "document_id" (LUuid (DocumentDTO.id document))) ;;;
  Ret (CreateDocumentResponse.Make (DocumentDTO.id document)
         (DocumentWithUploadUrlDTO.upload_url result)).

Definition get_document (document_id : uuid) (account : AccountDTO.t)
  : prog DocumentResponse.t :=
  trigger (CtxBind "document_id" (LUuid document_id)) ;;;
  let* document := document_service_get document_id (AccountDTO.id account) in
  match document with
  | None => raise_ DocumentNotFoundException
  | Some document =>
      Ret (DocumentResponse.Make (DocumentDTO.id document)
             (DocumentDTO.created_at document))
  end.

Definition artifact_response (a : ArtifactWithUrlDTO.t) : ArtifactResponse.t :=
  ArtifactResponse.Make (ArtifactDTO.id (ArtifactWithUrlDTO.artifact a))
    (ArtifactDTO.artifact_type (ArtifactWithUrlDTO.artifact a))
    (ArtifactWithUrlDTO.download_url a).

Definition list_artifacts (document_id : uuid) (account : AccountDTO.t)
  : prog ListArtifactsResponse.t :=
  trigger (CtxBind "document_id" (LUuid document_id)) ;;;
  let* artifacts := artifact_list_for_document document_id (AccountDTO.id account) in
  Ret (ListArtifactsResponse.Make (artifact_response <$> artifacts)).
End routes.
End documents.

Module jobs.
Definition _to_response (job : JobDTO.t) : JobResponse.t :=
  JobResponse.Make (JobDTO.id job) (JobDTO.document_id job) (JobDTO.status job)
    (JobDTO.artifact_types job) (JobDTO.attempts job) (JobDTO.max_attempts job)
    (JobDTO.error_message job) (JobDTO.created_at job) (JobDTO.queued_at job)
    (JobDTO.started_at job) (JobDTO.completed_at job) (JobDTO.last_attempt_at job)
    (JobDTO.failed_at job).

Section routes.
Context `{IJobService}.

Definition process_document (document_id : uuid) (body : ProcessDocumentRequest.t)
    (account : AccountDTO.t) : prog JobResponse.t :=
  let dto := CreateJobDTO.Make (AccountDTO.id account) document_id
               (ProcessDocumentRequest.artifact_types body) in
  trigger (CtxBind "document_id" (LUuid document_id)) ;;;
  let* job := job_service_create dto in
  trigger (CtxBind "job_id" (LUuid (JobDTO.id job))) ;;;
  Ret (_to_response job).

Definition get_job (job_id : uuid) (account : AccountDTO.t) : prog JobResponse.t :=
  let* job := job_service_get job_id (AccountDTO.id account) in
  trigger (CtxBind "job_id" (LUuid job_id)) ;;;
  match job with
  | None => raise_ JobNotFoundException
  | Some job =>
      trigger (CtxBind "document_id" (LUuid (JobDTO.document_id job))) ;;;
      Ret (_to_response job)
  end.
End routes.
End jobs.

(** ** The middleware ([api/middleware.py]) *)

Module LoggingMiddleware.
(** [send_wrapper] keeps the status of a response that starts. *)
Definition send_wrapper (e : event) (status_code : Z) : Z :=
  match e with AsgiSend (ResponseStart s) => s | _ => status_code end.

(** [try: await self._app(scope, receive, send_wrapper)  finally: f]: every call of
    [send] by the application goes through [send_wrapper], which sets the variable
    [status_code] the [finally] block reads. *)
Fixpoint finally_status {A} (app : prog A) (status_code : Z) (f : Z -> prog unit)
  : prog A :=
  match app with
  | Ret a => bind (f status_code) (fun _ => Ret a)
  | Raise x => bind (f status_code) (fun _ => Raise x)
  | Vis e k => Vis e (fun r => finally_status (k r) (send_wrapper e status_code) f)
  end.

(** [__call__]. *)
Definition call (scope_type method path : string) (app : prog unit) : prog unit :=
  if negb (bool_decide (scope_type = "http")) then app
  else
    trigger CtxClear ;;;
    let* request_id := trigger Uuid4 in
    trigger (CtxBind "request_id" (LStr (uuid_str request_id))) ;;;
    trigger (CtxBind "method" (LStr method)) ;;;
    trigger (CtxBind "path" (LStr path)) ;;;
    let* start := trigger PerfCounter in
    finally_status app 500 (fun status_code =>
      let* now := trigger PerfCounter in
      trigger (Log Info "request.completed"
        [("status", LInt status_code); ("duration_ms", LSpan start now)])).
End LoggingMiddleware.

(** ** A request *)

(** What ASGI requires of sending a response: it starts with the status, and only
    messages of other types follow. *)
Fixpoint send_all (ms : list asgi_message) : prog unit :=
  match ms with
  | [] => Ret tt
  | m :: ms => trigger (AsgiSend m) ;;; send_all ms
  end.

Class AsgiResponse (send_response : Z -> prog unit) : Prop :=
  response_messages : forall status, exists types,
    send_response status = send_all (ResponseStart status :: map OtherMessage types).

Section request.
Context `{IAccountService}.
Context (send_response : Z -> prog unit).

(** A route that needs an account: its key, its session, its account, its body, and
    the response, which is sent before the session is closed. *)
Definition authenticated {A} (header : option string) (status : Z)
    (endpoint : AccountDTO.t -> prog A) : prog unit :=
  let* key := api_key_required header in
  match key with
  | None => Raise (EOther "AttributeError" "'NoneType' object has no attribute 'encode'")
  | Some raw_key =>
      get_db_session
        (let* account := get_current_account raw_key in
         let* _ := endpoint account in
         send_response status)
  end.

(** The handlers [app] registers, by class of exception. *)
Definition exception_handlers (x : exn) : option (prog json_response) :=
  match x with
  | EApp a => Some (internal_exception_handler a)
  | EHttp s d => Some (http_exception_handler (HTTPException s (JStr d)))
  | _ => None
  end.

(** An exception that leaves the route before its response has started. *)
Definition dispatch (route : prog unit) : prog unit :=
  catch route (fun x => option_map (fun h => let* r := h in send_response (status_code r))
                          (exception_handlers x)).

Definition request {A} (method path : string) (header : option string) (status : Z)
    (endpoint : AccountDTO.t -> prog A) : prog unit :=
  LoggingMiddleware.call "http" method path (dispatch (authenticated header status endpoint)).
End request.

(** The requests of the API, wired as [api/core/providers.py] wires them. *)
Section api.
Context (S : BaseAppSettings.t) (send_response : Z -> prog unit).
#[local] Existing Instance ApiContainer.account_service.

Definition get_document_service : IDocumentService := ApiContainer.document_service S.
Definition get_job_service : IJobService := ApiContainer.job_service S.
Definition get_artifact_service : IArtifactService := ApiContainer.artifact_service S.

Definition post_documents (path : string) (header : option string) : prog unit :=
  request send_response "POST" path header 201
    (@documents.create_document get_document_service).

Definition get_documents (path : string) (header : option string) (i : uuid) : prog unit :=
  request send_response "GET" path header 200
    (@documents.get_document get_document_service i).

Definition get_documents_artifacts (path : string) (header : option string) (i : uuid)
  : prog unit :=
  request send_response "GET" path header 200
    (@documents.list_artifacts get_artifact_service i).

Definition post_documents_process (path : string) (header : option string) (i : uuid)
    (body : ProcessDocumentRequest.t) : prog unit :=
  request send_response "POST" path header 201
    (@jobs.process_document get_job_service i body).

Definition get_jobs (path : string) (header : option string) (i : uuid) : prog unit :=
  request send_response "GET" path header 200 (@jobs.get_job get_job_service i).
End api.
