(* ===== verification/Environment.v ===== *)
(** * The services the pipeline calls

    Postgres (through SQLAlchemy), S3 (through boto3), RabbitMQ (through
    aio_pika) and the PDF libraries are not part of the repository.  The
    development takes them as an [environment], a function that answers every
    event and may depend on the number of the call and on the state of the
    [world].  [doc] states what their documentation promises of an answer; the
    theorems hold for every environment that keeps these promises
    ([Conforming]).

    A [world] is the committed database, the open transaction of the coroutine,
    the stored objects, the declared queues with their ready messages, the
    cached producer connection, the settled deliveries, the messages still to
    be delivered and the stop event.  Its [health] bounds the failures: a service is [Up]
    (it never fails; a PDF gives a text that encodes), [Flaky] (it may) or
    [Down] (it does); within these bounds
    every failure the libraries document can happen, ambiguous ones included: a
    commit, a put or a publish that reports an error may have taken place. *)

From S2P Require Import Prelude PyStr PyUuid Dtos Exceptions Models Program.

(** ** Statements on tables *)

Definition select {A} (p : A -> bool) (o : option A) : option A :=
  match o with Some x => if p x then Some x else None | None => None end.

Definition set_column (c : column) (t : datetime) (j : Job.t) : Job.t :=
  let '(Job.Make i acc doc s ty at_ mx em cr q st co la fa) := j in
  match c with
  | QueuedAt => Job.Make i acc doc s ty at_ mx em cr (Some t) st co la fa
  | StartedAt => Job.Make i acc doc s ty at_ mx em cr q (Some t) co la fa
  | CompletedAt => Job.Make i acc doc s ty at_ mx em cr q st (Some t) la fa
  | LastAttemptAt => Job.Make i acc doc s ty at_ mx em cr q st co (Some t) fa
  | FailedAt => Job.Make i acc doc s ty at_ mx em cr q st co la (Some t)
  end.

Definition assign (j : Job.t) (a : assignment) : Job.t :=
  let '(Job.Make i acc doc s ty at_ mx em cr q st co la fa) := j in
  match a with
  | SetStatus s' => Job.Make i acc doc s' ty at_ mx em cr q st co la fa
  | SetColumn c t => set_column c t j
  | IncAttempts => Job.Make i acc doc s ty (at_ + 1) mx em cr q st co la fa
  | SetError m => Job.Make i acc doc s ty at_ mx (Some m) cr q st co la fa
  end.

Definition assign_all (j : Job.t) (vs : list assignment) : Job.t := fold_left assign vs j.

Definition job_matches (account_id : option Z) (j : Job.t) : bool :=
  match account_id with Some a => (Job.account_id j =? a)%Z | None => true end.

Definition has_status (s : JobStatus) (j : Job.t) : bool :=
  bool_decide (Job.status j = s).

(** The artifacts of a document that belongs to the account: the join of
    [list_by_document_id]. *)
Definition document_artifacts (d : tables) (doc : uuid) (acc : Z) : list Artifact.t :=
  match select (fun r => (Document.account_id r =? acc)%Z) (documents d !! doc) with
  | Some _ => List.filter (fun a => (Artifact.document_id a =? doc)%N)
                (snd <$> map_to_list (artifacts d))
  | None => []
  end.

(** What the conflict clause of the artifact upsert leaves in place. *)
Definition upsert_row (old new : Artifact.t) : Artifact.t :=
  Artifact.Make (Artifact.id old) (Artifact.job_id new) (Artifact.document_id old)
    (Artifact.artifact_type old) (Artifact.object_key new) (Artifact.created_at old).

(** The answer to a statement that breaks no constraint, and the rows it writes. *)
Definition stmt_doc (d : tables) (s : stmt) : rows s -> list write -> Prop :=
  match s return rows s -> list write -> Prop with
  | SelectAccount h => fun r ws =>
      ws = [] /\
      match r with
      | Some a => exists k, accounts d !! k = Some a /\ Account.api_key_hash a = Some h
      | None => forall k a, accounts d !! k = Some a -> Account.api_key_hash a <> Some h
      end
  | SelectDocument i acc => fun r ws =>
      r = select (fun x => (Document.account_id x =? acc)%Z) (documents d !! i) /\ ws = []
  | SelectJob i acc => fun r ws =>
      r = select (job_matches acc) (jobs d !! i) /\ ws = []
  | SelectArtifacts doc acc => fun r ws =>
      Permutation r (document_artifacts d doc acc) /\ ws = []
  | InsertDocument x => fun r ws => r = x /\ ws = [WDocument x]
  | InsertJob x => fun r ws => r = x /\ ws = [WJob x]
  | UpdateJob i expected vs => fun r ws =>
      match select (has_status expected) (jobs d !! i) with
      | Some j => r = Some (assign_all j vs) /\ ws = [WJob (assign_all j vs)]
      | None => r = None /\ ws = []
      end
  | UpsertArtifact x => fun r ws =>
      r = match upsert_target d x with Some old => upsert_row old x | None => x end
      /\ ws = [WArtifact r]
  end.

(** The constraints a statement breaks. *)
Definition stmt_violations (d : tables) (s : stmt) : list constraint :=
  match s with
  | InsertDocument x => document_violations d x
  | InsertJob x => job_violations d x
  | UpdateJob i expected vs =>
      match select (has_status expected) (jobs d !! i) with
      | Some j => update_violations d (assign_all j vs)
      | None => []
      end
  | UpsertArtifact x => artifact_violations d x
  | _ => []
  end.

(** The error message of a violation names the constraint; the name of the
    partial index appears in no other message. *)
Definition mentions (c : constraint) (msg : string) : Prop :=
  contains (constraint_name c) msg = true /\
  (contains (constraint_name OneActiveJobPerDocument) msg = true ->
   c = OneActiveJobPerDocument).

(** Failures of a database call that are not constraint violations: an error of
    the SQLAlchemy hierarchy, or one the driver lets through. *)
Definition db_fault (x : exn) : Prop :=
  match x with
  | ESqlAlchemy integrity _ => integrity = false
  | EOther _ _ => True
  | _ => False
  end.

Definition s3_fault (x : exn) : Prop :=
  match x with EClient _ _ | EOther _ _ => True | _ => False end.

Definition amqp_fault (x : exn) : Prop :=
  match x with EAmqp _ _ | EOther _ _ => True | _ => False end.

Definition other_fault (x : exn) : Prop :=
  match x with EOther _ _ => True | _ => False end.

(** ** Transactions *)

Inductive txn : Type :=
| TxActive (ws : list write)  (** statements so far and their writes *)
| TxAborted.                  (** a statement failed: only a rollback helps *)

(** What a statement sees: committed rows and the writes of its transaction. *)
Definition view (db : tables) (ws : list write) : tables := apply_writes db ws.

Inductive svc : Type := Up | Flaky | Down.

#[export] Instance svc_eq_dec : EqDecision svc.
Proof. solve_decision. Defined.

Definition works (s : svc) : Prop := s <> Down.
Definition fails (s : svc) : Prop := s <> Up.

(** A statement executed in a transaction. *)
Definition exec_doc (h : svc) (db : tables) (tx : txn) (s : stmt)
    (r : result exn (rows s)) (tx' : txn) : Prop :=
  match tx with
  | TxActive ws =>
      (works h /\ stmt_violations (view db ws) s = [] /\
       exists v new, stmt_doc (view db ws) s v new /\ r = Ok v
                     /\ tx' = TxActive (ws ++ new))
      \/ (works h /\ exists c msg, c ∈ stmt_violations (view db ws) s /\ mentions c msg
                     /\ r = Exn (ESqlAlchemy true msg) /\ tx' = TxAborted)
      \/ (fails h /\ exists x, db_fault x /\ r = Exn x /\ tx' = TxAborted)
  | TxAborted => exists x, db_fault x /\ r = Exn x /\ tx' = TxAborted
  end.

(** A commit.  One that reports an error may have taken place; committing an
    aborted transaction rolls it back. *)
Definition commit_doc (h : svc) (db : tables) (tx : txn)
    (r : result exn unit) (db' : tables) (tx' : txn) : Prop :=
  match tx with
  | TxActive ws =>
      ((works h \/ ws = []) /\ r = Ok tt /\ db' = apply_writes db ws /\ tx' = TxActive [])
      \/ (fails h /\ (exists x, db_fault x /\ r = Exn x)
          /\ (db' = db \/ db' = apply_writes db ws) /\ tx' = TxAborted)
  | TxAborted =>
      db' = db /\
      ((r = Ok tt /\ tx' = TxActive [])
       \/ (fails h /\ (exists x, db_fault x /\ r = Exn x) /\ tx' = TxAborted))
  end.

(** A rollback or close: the writes are gone whether or not it reports an error. *)
Definition discard_doc (h : svc) (r : result exn unit) (tx' : txn) : Prop :=
  tx' = TxActive [] /\ (r = Ok tt \/ (fails h /\ exists x, db_fault x /\ r = Exn x)).

(** ** Worlds *)

Record health : Type := Health {
  h_sql : svc;     (** statements *)
  h_txn : svc;     (** commit, rollback, close *)
  h_s3 : svc;
  h_mq : svc;      (** producer side of the broker *)
  h_ack : svc;     (** ack and nack *)
  h_parser : svc;
  h_cons : svc;    (** the consumer's connection *)
  h_http : svc;    (** the connection to the client of a request *)
  h_ids : svc      (** [uuid4]: an id no row has ([Up]), or any id *)
}.

Definition all_up : health := Health Up Up Up Up Up Up Up Up Up.
Definition all_flaky : health := Health Flaky Flaky Flaky Flaky Flaky Flaky Flaky Flaky Flaky.

Inductive settlement : Type := Acked | Nacked (requeue : bool).

Record world : Type := World {
  w_db : tables;
  w_tx : txn;
  w_objects : gmap (string * string) bytes;
  w_queues : gmap string (list bytes);
  w_cached : option N;
  w_settled : list (N * settlement);
  w_inbox : list message;
  w_stop : bool;
  w_sent : list asgi_message;
  w_health : health
}.

Definition set_db (w : world) (db : tables) (tx : txn) : world :=
  World db tx (w_objects w) (w_queues w) (w_cached w) (w_settled w) (w_inbox w)
    (w_stop w) (w_sent w) (w_health w).
Definition set_objects (w : world) o : world :=
  World (w_db w) (w_tx w) o (w_queues w) (w_cached w) (w_settled w) (w_inbox w)
    (w_stop w) (w_sent w) (w_health w).
Definition set_queues (w : world) q : world :=
  World (w_db w) (w_tx w) (w_objects w) q (w_cached w) (w_settled w) (w_inbox w)
    (w_stop w) (w_sent w) (w_health w).
Definition set_cached (w : world) c : world :=
  World (w_db w) (w_tx w) (w_objects w) (w_queues w) c (w_settled w) (w_inbox w)
    (w_stop w) (w_sent w) (w_health w).
Definition settle (w : world) (tag : N) (s : settlement) : world :=
  World (w_db w) (w_tx w) (w_objects w) (w_queues w) (w_cached w)
    (w_settled w ++ [(tag, s)]) (w_inbox w) (w_stop w) (w_sent w) (w_health w).
Definition set_inbox (w : world) i : world :=
  World (w_db w) (w_tx w) (w_objects w) (w_queues w) (w_cached w) (w_settled w) i
    (w_stop w) (w_sent w) (w_health w).
Definition set_stop (w : world) b : world :=
  World (w_db w) (w_tx w) (w_objects w) (w_queues w) (w_cached w) (w_settled w)
    (w_inbox w) b (w_sent w) (w_health w).
Definition send_asgi (w : world) (m : asgi_message) : world :=
  World (w_db w) (w_tx w) (w_objects w) (w_queues w) (w_cached w) (w_settled w)
    (w_inbox w) (w_stop w) (w_sent w ++ [m]) (w_health w).

(** ** The documented behaviour of every event *)

(** A call without effect on the world that may fail. *)
Definition plain {A} (h : svc) (fault : exn -> Prop) (w : world)
    (r : result exn A) (w' : world) : Prop :=
  w' = w /\ ((works h /\ exists v, r = Ok v) \/ (fails h /\ exists x, fault x /\ r = Exn x)).

Definition never_fails {A} (w : world) (r : result exn A) (w' : world) : Prop :=
  w' = w /\ exists v, r = Ok v.

(** A call with an effect; one that fails leaves the world as [bad] says. *)
Definition effect {A} (h : svc) (fault : exn -> Prop) (good : A -> world -> Prop)
    (bad : world -> Prop) (r : result exn A) (w' : world) : Prop :=
  (works h /\ exists v, r = Ok v /\ good v w')
  \/ (fails h /\ exists x, fault x /\ r = Exn x /\ bad w').

Definition published (w : world) (queue : string) (body : bytes) : world :=
  match w_queues w !! queue with
  | Some l => set_queues w (<[queue := (l ++ [body])%list]> (w_queues w))
  | None => w
  end.

Definition declared (w : world) (queue : string) : world :=
  match w_queues w !! queue with
  | Some _ => w
  | None => set_queues w (<[queue := []]> (w_queues w))
  end.

Definition depth (w : world) (queue : string) : Z :=
  Z.of_nat (length (default [] (w_queues w !! queue))).

(** No row has the id. *)
Definition unused (d : tables) (u : uuid) : Prop :=
  documents d !! u = None /\ jobs d !! u = None /\ artifacts d !! u = None.

(** [uuid4] gives 128 bits; ids that repeat are a failure of their own. *)
Definition uuid4_doc (h : svc) (d : tables) (u : uuid) : Prop :=
  valid_uuid u /\ (h = Up -> (exists v, valid_uuid v /\ unused d v) -> unused d u).

Definition doc (w : world) (e : event) : result exn (resp e) -> world -> Prop :=
  let h := w_health w in
  match e return result exn (resp e) -> world -> Prop with
  | Now | PerfCounter => never_fails w
  | Uuid4 => fun r w' => w' = w /\ exists u, uuid4_doc (h_ids h) (w_db w) u /\ r = Ok u
  | Log _ _ _ | CtxClear | CtxBind _ _ => never_fails w
  | AsgiSend m =>
      effect (h_http h) other_fault (fun _ w' => w' = send_asgi w m) (fun w' => w' = w)
  | Exec s => fun r w' => exists tx',
      exec_doc (h_sql h) (w_db w) (w_tx w) s r tx' /\ w' = set_db w (w_db w) tx'
  | Commit => fun r w' => exists db' tx',
      commit_doc (h_txn h) (w_db w) (w_tx w) r db' tx' /\ w' = set_db w db' tx'
  | Rollback | Close => fun r w' => exists tx',
      discard_doc (h_txn h) r tx' /\ w' = set_db w (w_db w) tx'
  | S3Presign _ _ _ _ _ => plain (h_s3 h) s3_fault w
  | S3Head _ b k => fun r w' =>
      w' = w /\
      ((works (h_s3 h) /\
        match w_objects w !! (b, k) with
        | Some _ => r = Ok tt
        | None => exists m, r = Exn (EClient "404" m)
        end)
       \/ (fails (h_s3 h) /\ exists x, s3_fault x /\ r = Exn x))
  | S3Get _ b k => fun r w' =>
      w' = w /\
      ((works (h_s3 h) /\
        match w_objects w !! (b, k) with
        | Some c => r = Ok c
        | None => exists m, r = Exn (EClient "NoSuchKey" m)
        end)
       \/ (fails (h_s3 h) /\ exists x, s3_fault x /\ r = Exn x))
  | S3Read c => fun r w' =>
      w' = w /\
      ((works (h_s3 h) /\ r = Ok c)
       \/ (fails (h_s3 h) /\ exists x, other_fault x /\ r = Exn x))
  | S3Put _ b k c =>
      let w1 := set_objects w (<[(b, k) := c]> (w_objects w)) in
      effect (h_s3 h) s3_fault (fun _ w' => w' = w1) (fun w' => w' = w \/ w' = w1)
  | MqCached => fun r w' => w' = w /\ r = Ok (w_cached w)
  | MqIsClosed _ => never_fails w
  | MqConnect _ | MqChannel _ => plain (h_mq h) amqp_fault w
  | MqStore c => fun r w' => r = Ok tt /\ w' = set_cached w (Some c)
  | MqDeclare _ q _ passive =>
      if passive then fun r w' =>
        w' = w /\
        ((works (h_mq h) /\
          match w_queues w !! q with
          | Some _ => r = Ok (Some (depth w q))
          | None => exists m, r = Exn (EAmqp true m)
          end)
         \/ (fails (h_mq h) /\ exists x, amqp_fault x /\ r = Exn x))
      else
        effect (h_mq h) amqp_fault
          (fun v w' => v = Some (depth w q) /\ w' = declared w q)
          (fun w' => w' = w \/ w' = declared w q)
  | MqPublish _ q b _ =>
      effect (h_mq h) amqp_fault (fun _ w' => w' = published w q b)
        (fun w' => w' = w \/ w' = published w q b)
  | MqCloseChannel _ => plain (h_mq h) amqp_fault w
  | MsgAck tag =>
      effect (h_ack h) amqp_fault (fun _ w' => w' = settle w tag Acked) (fun w' => w' = w)
  | MsgNack tag requeue =>
      effect (h_ack h) amqp_fault (fun _ w' => w' = settle w tag (Nacked requeue))
        (fun w' => w' = w)
  | PdfOpen _ => plain (h_parser h) other_fault w
  | PdfMarkdown _ => fun r w' =>
      w' = w /\
      ((works (h_parser h) /\
        exists md, r = Ok md /\ (h_parser h = Up -> encode md = Some md))
       \/ (fails (h_parser h) /\ exists x, other_fault x /\ r = Exn x))
  | ConsConnect _ | ConsChannel | ConsQos _ | ConsDeclare _ _ | ConsIterClose
  | ConsClose => plain (h_cons h) amqp_fault w
  | ConsNext =>
      fun r w' =>
      (works (h_cons h) /\
       match w_inbox w with
       | m :: rest => r = Ok (Delivery m) /\ w' = set_inbox w rest
       | [] => r = Ok NoDelivery /\ w' = w
       end)
      \/ (fails (h_cons h) /\ w' = w /\
          ((exists x, amqp_fault x /\ r = Exn x) \/ r = Ok IteratorEnd \/ r = Ok NoDelivery))
  | StopIsSet => fun r w' =>
      exists b, r = Ok b /\ w' = set_stop w b /\ (w_stop w = true -> b = true)
  end.

(** ** Environments *)

(** The answers of the services: [env n w e] answers the [n]-th event, [e],
    performed in [w]. *)
Definition environment : Type :=
  nat -> world -> forall e : event, result exn (resp e) * world.

Class Conforming (env : environment) : Prop :=
  conforming : forall n w e, doc w e (env n w e).1 (env n w e).2.

(** Run a program: its result and the world it leaves. *)
Fixpoint run (env : environment) (n : nat) (w : world) {A} (p : prog A)
  : result exn A * world :=
  match p with
  | Ret a => (Ok a, w)
  | Raise x => (Exn x, w)
  | Vis e k => let '(r, w') := env n w e in run env (S n) w' (k r)
  end.

(** The events of the run, each with the world it is performed in. *)
Fixpoint trace (env : environment) (n : nat) (w : world) {A} (p : prog A)
  : list (world * event) :=
  match p with
  | Ret _ | Raise _ => []
  | Vis e k => let '(r, w') := env n w e in (w, e) :: trace env (S n) w' (k r)
  end.

(** The documented behaviours, with a condition on the events performed. *)
Definition monitored (P : world -> event -> Prop) : lts := Lts world P doc.
Definition documented : lts := monitored (fun _ _ => True).

(** A program proved correct for the documented behaviours is correct in every
    conforming environment. *)
Lemma wp_run_monitored env `{!Conforming env} P {A} (p : prog A) Q n w :
  wp (monitored P) p Q w ->
  Q (run env n w p).1 (run env n w p).2 /\
  Forall (fun we => P we.1 we.2) (trace env n w p).
Proof.
  revert n w. induction p as [a|x|e k IH]; intros n w; simpl; [by eauto..|].
  intros [Ha Hk]. pose proof (conforming n w e) as Hc.
  destruct (env n w e) as [r w']. simpl in Hc.
  destruct (IH r (S n) w' (Hk r w' Hc)) as [HQ Ht]. split; [done|]. by constructor.
Qed.

Lemma wp_run env `{!Conforming env} {A} (p : prog A) Q n w :
  wp documented p Q w -> Q (run env n w p).1 (run env n w p).2.
Proof. intros H. by apply (wp_run_monitored env (fun _ _ => True) p Q n w). Qed.

(** A monitor only adds obligations. *)
Lemma wp_monitored P {A} (p : prog A) Q w :
  wp (monitored P) p Q w -> wp documented p Q w.
Proof.
  revert w. induction p as [a|x|e k IH]; intros w; simpl; [done..|].
  intros [_ Hk]. split; [done|]. intros r w' Hd. apply IH. by apply Hk.
Qed.
