(* ===== verification/Logic.v ===== *)
(** * Reasoning about programs in the documented services

    The tactics that step through a program, the rule of a SQL statement and the
    rule of [open_session].  The rules hold under any monitor that restricts
    only the calls that matter to a caller ([restricted]): publishing, settling a
    message, storing an object, opening a PDF. *)

From S2P Require Import Prelude PyUuid Dtos Exceptions Models Program Environment.
From S2P Require Import Container.

(** The events a monitor may restrict. *)
Definition restricted (e : event) : bool :=
  match e with
  | MqPublish _ _ _ _ | MsgAck _ | MsgNack _ _ | S3Put _ _ _ _ | PdfOpen _ => true
  | _ => false
  end.

Class Lenient (P : world -> event -> Prop) : Prop :=
  lenient : forall w e, restricted e = false -> P w e.

#[export] Instance lenient_True : Lenient (fun _ _ => True).
Proof. by intros w e _. Qed.

(** ** Stepping through programs *)

Ltac wp_head :=
  lazymatch goal with
  | |- wp _ (bind _ _) _ _ => apply wp_bind
  | |- wp _ (catch _ _) _ _ => apply wp_catch
  | |- wp _ (finally _ _) _ _ => apply wp_finally
  | |- wp _ (leaving _ _ _) _ _ => apply wp_leaving
  | |- wp _ (Ret _) _ _ => apply wp_ret
  | |- wp _ (Raise _) _ _ => apply wp_raise
  | |- then_ _ _ _ _ => unfold then_
  end; cbn beta iota.

Ltac wp_norm := repeat wp_head.

(** Perform the event at the head; leaves its documented answers as [Hd]. *)
Ltac wp_event :=
  wp_norm;
  lazymatch goal with
  | |- wp _ (trigger ?e) _ _ =>
      apply (wp_trigger _ e); [try (apply lenient; reflexivity) | intros ? ? Hd; cbn in Hd]
  end.

(** Case analysis on documented answers. *)
Ltac answers :=
  repeat match goal with
  | H : never_fails _ _ _ |- _ => destruct H as [-> [? ->]]
  | H : plain _ _ _ _ _ |- _ =>
      destruct H as [-> [[? [? ->]]|[? (? & ? & ->)]]]
  | H : effect _ _ _ _ _ _ |- _ =>
      destruct H as [[? (? & -> & ?)]|[? (? & ? & -> & ?)]]
  | H : _ /\ _ |- _ => destruct H
  | H : exists _, _ |- _ => destruct H
  | H : _ \/ _ |- _ => destruct H
  end; subst; cbn beta iota.

(** An event whose answer is not used and that cannot fail. *)
Ltac wp_silent := wp_event; match goal with Hd : _ |- _ => destruct Hd as [-> [? ->]] end.

(** Decide which [except] clause a raised application exception takes. *)
Ltac except_clause :=
  unfold then_;
  repeat match goal with
  | |- context [is_app ?c (ERaise ?d)] =>
      let b := eval vm_compute in (is_app c (ERaise d)) in
      change (is_app c (ERaise d)) with b
  end; cbn beta iota.

(** The exceptions of a statement. *)
Definition exec_raises (h : svc) (d : tables) (s : stmt) (x : exn) : Prop :=
  (works h /\ exists c msg, c ∈ stmt_violations d s /\ mentions c msg
               /\ x = ESqlAlchemy true msg)
  \/ (fails h /\ db_fault x).

Definition set_tx (w : world) (tx : txn) : world := set_db w (w_db w) tx.

Section rules.
Context (P : world -> event -> Prop) `{!Lenient P}.
Abbreviation WP := (wp (monitored P)).

(** ** Logging *)

Lemma wp_log_event level name fields Q w :
  Q (Ok tt) w -> WP (trigger (Log level name fields)) Q w.
Proof. intros HQ. wp_event. by destruct Hd as [-> [[] ->]]. Qed.

Lemma wp_ctx_clear Q w : Q (Ok tt) w -> WP (trigger CtxClear) Q w.
Proof. intros HQ. wp_event. by destruct Hd as [-> [[] ->]]. Qed.

Lemma wp_ctx_bind key value Q w : Q (Ok tt) w -> WP (trigger (CtxBind key value)) Q w.
Proof. intros HQ. wp_event. by destruct Hd as [-> [[] ->]]. Qed.

(** ** Statements *)

Lemma wp_exec s Q w ws :
  w_tx w = TxActive ws ->
  (works (h_sql (w_health w)) -> stmt_violations (view (w_db w) ws) s = [] ->
   forall v new, stmt_doc (view (w_db w) ws) s v new ->
   Q (Ok v) (set_tx w (TxActive (ws ++ new)))) ->
  (forall x, exec_raises (h_sql (w_health w)) (view (w_db w) ws) s x ->
   Q (Exn x) (set_tx w TxAborted)) ->
  WP (trigger (Exec s)) Q w.
Proof.
  intros Htx Hok Hbad. wp_event. destruct Hd as (tx' & Hd & ->).
  rewrite Htx in Hd. unfold exec_raises in Hbad. unfold set_tx in *.
  destruct Hd as [(?&?&v&new&?&->&->)|[(?&c&msg&?&?&->&->)|(?&x&?&->&->)]];
    [apply Hok | apply Hbad | apply Hbad]; eauto 10.
Qed.

(** ** Sessions *)

(** [open_session]: the body runs in a fresh transaction; its writes are
    committed when it returns, and dropped when it raises.  [committed] are
    the outcomes of the commit. *)
Lemma open_session_spec {A} (body : prog A) Q w :
  WP body (fun r w1 =>
    match r with
    | Ok a =>
        forall rc db' tx', commit_doc (h_txn (w_health w1)) (w_db w1) (w_tx w1) rc db' tx' ->
        let w2 := set_db w1 db' (TxActive []) in
        match rc with
        | Ok _ =>
            Q (Ok a) w2 /\
            (fails (h_txn (w_health w1)) -> forall x, db_fault x -> Q (Exn x) w2)
        | Exn x => forall y, db_fault y -> Q (Exn y) w2
        end
    | Exn x =>
        let w2 := set_tx w1 (TxActive []) in
        Q (Exn x) w2 /\
        (fails (h_txn (w_health w1)) -> forall y, db_fault y -> Q (Exn y) w2)
    end) w ->
  WP (open_session body) Q w.
Proof.
  intros H. unfold open_session. wp_norm. revert H. apply wp_mono.
  intros [a|x] w1 HQ; cbn beta iota; wp_norm.
  - wp_event. destruct Hd as (db' & tx' & Hc & ->). specialize (HQ _ _ _ Hc).
    assert (Hf : forall x, r = Exn x -> fails (h_txn (w_health w1)) /\ db_fault x).
    { intros x ->. unfold commit_doc in Hc. clear HQ.
      destruct (w_tx w1); answers; simplify_eq; eauto. }
    destruct r as [[]|x]; wp_norm.
    + wp_event. destruct Hd as (tx'' & [-> Hd] & ->).
      destruct Hd as [->|(? & x & ? & ->)]; by apply HQ.
    + destruct (Hf x eq_refl) as [Hfl Hx]. wp_norm.
      wp_event. destruct Hd as (tx'' & [-> Hd] & ->).
      destruct Hd as [->|(? & y & ? & ->)]; wp_norm;
        wp_event; destruct Hd as (tx'' & [-> Hd] & ->);
        destruct Hd as [->|(? & z & ? & ->)]; by apply HQ.
  - destruct HQ as [HQ HQ'].
    wp_event. destruct Hd as (tx'' & [-> Hd] & ->).
    destruct Hd as [->|(? & y & ? & ->)]; wp_norm;
      wp_event; destruct Hd as (tx'' & [-> Hd] & ->);
      destruct Hd as [->|(? & z & ? & ->)]; auto.
Qed.

(** The writes a commit would make durable. *)
Definition pending (tx : txn) : list write :=
  match tx with TxActive ws => ws | TxAborted => [] end.

(** What a session needs of its body: the commit of its writes takes place, or it
    raises and may or may not have taken place. *)
Definition session_post {A} (Q : result exn A -> world -> Prop)
    (r : result exn A) (w1 : world) : Prop :=
  let rolled_back := set_tx w1 (TxActive []) in
  let ws := pending (w_tx w1) in
  let committed := set_db w1 (apply_writes (w_db w1) ws) (TxActive []) in
  match r with
  | Ok a =>
      (works (h_txn (w_health w1)) \/ ws = [] -> Q (Ok a) committed) /\
      (fails (h_txn (w_health w1)) -> forall y, db_fault y ->
       Q (Exn y) committed /\ Q (Exn y) rolled_back)
  | Exn x =>
      Q (Exn x) rolled_back /\
      (fails (h_txn (w_health w1)) -> forall y, db_fault y -> Q (Exn y) rolled_back)
  end.

Lemma session_rule {A} (body : prog A) Q w :
  WP body (session_post Q) w -> WP (open_session body) Q w.
Proof.
  intros H. apply open_session_spec. revert H. apply wp_mono.
  intros [a|x] w1; unfold session_post; cbn beta iota zeta; [|done].
  intros [Hok Hbad] rc db' tx' Hc. unfold commit_doc in Hc.
  destruct (w_tx w1) as [ws|]; cbn [pending] in *.
  - destruct Hc as [(Hw & -> & -> & ->)|(Hf & (x & Hx & ->) & Hdb & ->)].
    + split; [by apply Hok|]. intros Hf y Hy. by apply Hbad.
    + intros y Hy. destruct (Hbad Hf y Hy). by destruct Hdb as [->| ->].
  - destruct Hc as [-> [[-> ->]|(Hf & (x & Hx & ->) & ->)]].
    + split; [apply Hok; by right|]. intros Hf y Hy. by apply Hbad.
    + intros y Hy. by apply Hbad.
Qed.

(** A body that leaves no writes, or that raises. *)
Lemma session_quiet {A} (Q : result exn A -> world -> Prop) r w1 w2 :
  pending (w_tx w1) = [] \/ is_ok r = false -> set_tx w1 (TxActive []) = w2 -> Q r w2 ->
  (fails (h_txn (w_health w1)) -> forall y, db_fault y -> Q (Exn y) w2) ->
  session_post Q r w1.
Proof.
  intros Hp <- HQ Hbad. unfold session_post. destruct r as [a|x]; [|done].
  destruct Hp as [Hp|]; [|done]. rewrite Hp. split; [by intros _|].
  intros Hf y Hy. split; by apply Hbad.
Qed.

(** A body that leaves the writes [ws]. *)
Lemma session_writes {A} (Q : result exn A -> world -> Prop) a w1 w2 ws :
  w_tx w1 = TxActive ws -> ws <> [] ->
  set_db w1 (apply_writes (w_db w1) ws) (TxActive []) = w2 ->
  (works (h_txn (w_health w1)) -> Q (Ok a) w2) ->
  (fails (h_txn (w_health w1)) -> forall y, db_fault y ->
   Q (Exn y) w2 /\ Q (Exn y) (set_tx w1 (TxActive []))) ->
  session_post Q (Ok a) w1.
Proof.
  intros Htx Hws <- HQ Hbad. unfold session_post. rewrite Htx. cbn [pending].
  split; [|done]. intros [Hw|Hw]; [by apply HQ|done].
Qed.
End rules.

(** Step over a log entry. *)
Ltac wp_log :=
  wp_norm;
  lazymatch goal with
  | |- wp (monitored ?P) (trigger (Log ?l ?n ?f)) _ _ => apply (wp_log_event P l n f)
  | |- wp (monitored ?P) (trigger CtxClear) _ _ => apply (wp_ctx_clear P)
  | |- wp (monitored ?P) (trigger (CtxBind ?k ?v)) _ _ => apply (wp_ctx_bind P k v)
  end; cbn beta iota.
