(* ===== verification/Contracts.v ===== *)
(** * What the interfaces promise

    A contract is a set of rules of the program logic, one per method of an
    interface: from which states the method may be called, and what it leaves
    when it returns and when it raises, for every documented behaviour of the
    services.  The services are verified against these contracts; the
    repositories and clients are shown to keep them. *)

From stdpp Require Import pretty.
From S2P Require Import Prelude PyStr PyUuid Json Dtos Exceptions Models Program.
From S2P Require Import Interfaces Environment Logic.

(** ** Rows as the models show them *)

Definition account_dto (r : Account.t) : AccountDTO.t :=
  AccountDTO.Make (Account.id r) (Account.api_key_hash r).

Definition document_dto (r : Document.t) : DocumentDTO.t :=
  DocumentDTO.Make (Document.id r) (Document.object_key r) (Document.account_id r)
    (Document.created_at r).

Definition artifact_dto (r : Artifact.t) : ArtifactDTO.t :=
  ArtifactDTO.Make (Artifact.id r) (Artifact.job_id r) (Artifact.document_id r)
    (Artifact.artifact_type r) (Artifact.object_key r) (Artifact.created_at r).

Definition job_dto (r : Job.t) : JobDTO.t :=
  JobDTO.Make (Job.id r) (Job.account_id r) (Job.document_id r) (Job.status r)
    (Job.artifact_types r) (Job.attempts r) (Job.max_attempts r) (Job.error_message r)
    (Job.created_at r) (Job.queued_at r) (Job.started_at r) (Job.completed_at r)
    (Job.last_attempt_at r) (Job.failed_at r).

(** ** Rows the operations write *)

(** A new job: queued, no attempt made, three allowed. *)
Definition queued_job (i : uuid) (dto : CreateJobDTO.t) (queued_at created_at : datetime)
  : Job.t :=
  Job.Make i (CreateJobDTO.account_id dto) (CreateJobDTO.document_id dto) QUEUED
    (CreateJobDTO.artifact_types dto) 0 3 None created_at (Some queued_at)
    None None None None.

(** The row after a transition to [status] at [t] ([t'] the second clock read of
    a claim), with the error message when one is given. *)
Definition moved (j : Job.t) (status : JobStatus) (em : option string) (t t' : datetime)
  : Job.t :=
  let '(Job.Make i acc doc _ ty n mx e cr q st co la fa) := j in
  let e := match em with Some m => Some m | None => e end in
  match status with
  | QUEUED => Job.Make i acc doc QUEUED ty n mx e cr (Some t) st co la fa
  | STARTED => Job.Make i acc doc STARTED ty (n + 1) mx e cr q (Some t) co (Some t') fa
  | COMPLETED => Job.Make i acc doc COMPLETED ty n mx e cr q st (Some t) la fa
  | FAILED => Job.Make i acc doc FAILED ty n mx e cr q st co la (Some t)
  end.

(** Every transition of a job that holds its slot may replace its row. *)
Lemma moved_replaces j status em t t' :
  Job.active j = true -> replaces j (moved j status em t t').
Proof. intros Ha. split; [by destruct j, status|]. intros _. by destruct j, status. Qed.

Lemma started_active j : Job.status j = STARTED -> Job.active j = true.
Proof. unfold Job.active. by intros ->. Qed.

Lemma queued_active j : Job.status j = QUEUED -> Job.active j = true.
Proof. unfold Job.active. by intros ->. Qed.

(** The values of the update that makes the transition. *)
Definition status_values (status : JobStatus) (em : option string) (t t' : datetime)
  : list assignment :=
  ([SetStatus status;
    SetColumn match status with
              | QUEUED => QueuedAt | STARTED => StartedAt
              | COMPLETED => CompletedAt | FAILED => FailedAt
              end t]
   ++ (if bool_decide (status = STARTED) then [SetColumn LastAttemptAt t'; IncAttempts] else [])
   ++ match em with Some m => [SetError m] | None => [] end)%list.

Lemma assign_status_values j status em t t' :
  assign_all j (status_values status em t t') = moved j status em t t'.
Proof. by destruct j, status, em. Qed.

(** The artifact row of an upsert: a conflicting row keeps its id and creation
    time. *)
Definition upserted (d : tables) (r : Artifact.t) : Artifact.t :=
  match upsert_target d r with Some old => upsert_row old r | None => r end.

(** ** Exceptions *)

(** What the methods let through: their application exception, or an error
    outside the hierarchy of their library. *)
Definition repo_exn (x : exn) : Prop := x = ERaise DatabaseException \/ other_fault x.
Definition storage_exn (x : exn) : Prop := x = ERaise StorageException \/ other_fault x.
Definition queue_exn (x : exn) : Prop := x = ERaise QueueException \/ other_fault x.

(** What [enqueue] can leave when it raises: nothing, the declared queue, or the
    message. *)
Definition enqueue_outcome (w : world) (queue : string) (b : bytes) (w' : world) : Prop :=
  exists c, w' = set_cached w c \/ w' = set_cached (declared w queue) c
            \/ w' = set_cached (published (declared w queue) queue b) c.

(** ** What the messaging operations leave alone *)

Record mq_frame (w w' : world) : Prop := MqFrame {
  mq_db : w_db w' = w_db w;
  mq_tx : w_tx w' = w_tx w;
  mq_objects : w_objects w' = w_objects w;
  mq_settled : w_settled w' = w_settled w;
  mq_health : w_health w' = w_health w;
  mq_inbox : w_inbox w' = w_inbox w;
  mq_stop : w_stop w' = w_stop w;
  mq_sent : w_sent w' = w_sent w
}.

Lemma mq_frame_published w queue b c :
  mq_frame w (set_cached (published (declared w queue) queue b) c).
Proof.
  destruct w as [db tx o q c0 se inb stp snt h]. unfold published, declared. cbn.
  destruct (q !! queue) as [l|] eqn:E; cbn; [rewrite E|rewrite lookup_insert_eq];
    by split.
Qed.

Lemma mq_frame_declared w queue c : mq_frame w (set_cached (declared w queue) c).
Proof. unfold declared. destruct (w_queues w !! queue); by split. Qed.

Lemma mq_frame_cached w c : mq_frame w (set_cached w c).
Proof. by split. Qed.

Lemma mq_frame_outcome w queue b w' : enqueue_outcome w queue b w' -> mq_frame w w'.
Proof.
  intros [c [->|[->| ->]]];
    [apply mq_frame_cached|apply mq_frame_declared|apply mq_frame_published].
Qed.

#[export] Hint Resolve mq_frame_published mq_frame_declared mq_frame_cached
  mq_frame_outcome : frame.

Lemma mq_frame_trans w1 w2 w3 : mq_frame w1 w2 -> mq_frame w2 w3 -> mq_frame w1 w3.
Proof. intros [] []. split; congruence. Qed.

(** The exception [JobRepository.create] makes of a broken constraint. *)
Definition job_conflict (c : constraint) : exn :=
  if bool_decide (c = OneActiveJobPerDocument) then ERaise ActiveJobExistsException
  else ERaise DatabaseException.

(** How an insert fails: the database is unavailable, or a constraint is broken. *)
Definition insert_raises (h : svc) (raises : constraint -> exn) (vs : list constraint)
    (x : exn) : Prop :=
  (fails h /\ repo_exn x) \/ (works h /\ exists c, c ∈ vs /\ x = raises c).

Section contracts.
Context (P : world -> event -> Prop).
Abbreviation WP := (wp (monitored P)).
Abbreviation sql w := (h_sql (w_health w)).

(** ** Repositories

    A repository method runs in an active transaction.  When it raises because
    a statement failed, the transaction is aborted. *)

(** A query returns the answer [f] of the tables the transaction sees. *)
Definition reads {A} (m : prog A) (answer : tables -> A -> Prop) : Prop :=
  forall w ws Q, w_tx w = TxActive ws ->
  (works (sql w) -> forall r, answer (view (w_db w) ws) r ->
   Q (Ok r) (set_tx w (TxActive ws))) ->
  (fails (sql w) -> forall x, repo_exn x -> Q (Exn x) (set_tx w TxAborted)) ->
  WP m Q w.

(** An insert or upsert of a row made from clock reads and a new id. *)
Definition inserts {A I R} (m : prog A) (drawn : world -> I -> Prop) (row : I -> R)
    (violations : tables -> R -> list constraint) (raises : constraint -> exn)
    (stored : tables -> R -> R) (w_of : R -> write) (dto : R -> A) : Prop :=
  forall w ws Q, w_tx w = TxActive ws ->
  let d := view (w_db w) ws in
  (works (sql w) -> forall i, drawn w i -> violations d (row i) = [] ->
   Q (Ok (dto (stored d (row i))))
     (set_tx w (TxActive (ws ++ [w_of (stored d (row i))])))) ->
  (forall x i, drawn w i -> insert_raises (sql w) raises (violations d (row i)) x ->
   Q (Exn x) (set_tx w TxAborted)) ->
  WP m Q w.

(** An id and two clock reads. *)
Record draw : Type := Draw { drawn_id : uuid; drawn_t : datetime; drawn_t' : datetime }.

Definition id_drawn (w : world) (i : draw) : Prop :=
  uuid4_doc (h_ids (w_health w)) (w_db w) (drawn_id i).

Class AccountRepositoryContract (R : IAccountRepository) : Prop := {
  account_get_rule h :
    reads (account_get_by_api_key_hash h) (fun d r => exists a, r = (account_dto <$> a) /\
      match a with
      | Some a => exists k, accounts d !! k = Some a /\ Account.api_key_hash a = Some h
      | None => forall k a, accounts d !! k = Some a -> Account.api_key_hash a <> Some h
      end)
}.

Class DocumentRepositoryContract (R : IDocumentRepository) : Prop := {
  document_create_rule dto :
    inserts (document_create dto)
      (fun _ _ => True)
      (fun t => Document.Make (CreateDocumentDTO.id dto)
                      (CreateDocumentDTO.object_key dto) (CreateDocumentDTO.account_id dto) t)
      document_violations
      (fun _ => ERaise DatabaseException) (fun _ r => r) WDocument document_dto;
  document_get_rule i acc :
    reads (document_get_by_id i acc) (fun d r =>
      r = (document_dto <$>
           select (fun x => (Document.account_id x =? acc)%Z) (documents d !! i)))
}.

Class ArtifactRepositoryContract (R : IArtifactRepository) : Prop := {
  artifact_create_rule dto :
    inserts (artifact_create dto)
      id_drawn
      (fun i => Artifact.Make (drawn_id i) (CreateArtifactDTO.job_id dto)
                      (CreateArtifactDTO.document_id dto)
                      (CreateArtifactDTO.artifact_type dto)
                      (CreateArtifactDTO.object_key dto) (drawn_t i))
      artifact_violations
      (fun _ => ERaise DatabaseException) upserted WArtifact artifact_dto;
  artifact_list_rule i acc :
    reads (artifact_list_by_document_id i acc) (fun d r =>
      exists l, Permutation l (document_artifacts d i acc) /\ r = (artifact_dto <$> l))
}.

Class JobRepositoryContract (R : IJobRepository) : Prop := {
  job_create_rule dto :
    inserts (job_create dto) id_drawn
      (fun i => queued_job (drawn_id i) dto (drawn_t i) (drawn_t' i)) job_violations
      job_conflict (fun _ r => r) WJob job_dto;
  job_get_rule i acc :
    reads (job_get_by_id i acc) (fun d r =>
      r = (job_dto <$> select (job_matches (Some acc)) (jobs d !! i)));
  job_get_for_processing_rule i :
    reads (job_get_for_processing i) (fun d r => r = (job_dto <$> jobs d !! i));
  (** The compare-and-set: the row moves if it has the expected status. *)
  job_update_status_rule i status expected em w ws Q :
    w_tx w = TxActive ws ->
    let d := view (w_db w) ws in
    let row := select (has_status expected) (jobs d !! i) in
    (works (sql w) -> forall j t t', row = Some j ->
     update_violations d (moved j status em t t') = [] ->
     Q (Ok (job_dto (moved j status em t t')))
       (set_tx w (TxActive (ws ++ [WJob (moved j status em t t')])))) ->
    (works (sql w) -> row = None ->
     Q (Exn (ERaise JobStateConflictException)) (set_tx w (TxActive ws))) ->
    (forall x, fails (sql w) \/
       (exists j t t', row = Some j /\
          update_violations d (moved j status em t t') <> []) ->
     repo_exn x -> Q (Exn x) (set_tx w TxAborted)) ->
    WP (job_update_status i status expected em) Q w
}.

(** ** Storage, messaging, parsing *)

Class StorageContract (S : IStorageService) (client : s3_client) (bucket : string)
  : Prop := {
  generate_upload_url_rule k w Q :
    (works (h_s3 (w_health w)) -> forall u, Q (Ok u) w) ->
    (fails (h_s3 (w_health w)) -> forall x, storage_exn x -> Q (Exn x) w) ->
    WP (generate_upload_url k) Q w;
  generate_download_url_rule k w Q :
    (works (h_s3 (w_health w)) -> forall u, Q (Ok u) w) ->
    (fails (h_s3 (w_health w)) -> forall x, storage_exn x -> Q (Exn x) w) ->
    WP (generate_download_url k) Q w;
  object_exists_rule k w Q :
    (works (h_s3 (w_health w)) ->
     Q (Ok (bool_decide (is_Some (w_objects w !! (bucket, k))))) w) ->
    (fails (h_s3 (w_health w)) -> Q (Ok false) w) ->
    (fails (h_s3 (w_health w)) -> forall x, storage_exn x -> Q (Exn x) w) ->
    WP (object_exists k) Q w;
  get_object_rule k w Q :
    (works (h_s3 (w_health w)) -> forall c, w_objects w !! (bucket, k) = Some c ->
     Q (Ok c) w) ->
    (fails (h_s3 (w_health w)) \/ w_objects w !! (bucket, k) = None ->
     forall x, storage_exn x -> Q (Exn x) w) ->
    WP (get_object k) Q w;
  put_object_rule k c w Q :
    let stored := set_objects w (<[(bucket, k) := c]> (w_objects w)) in
    P w (S3Put client bucket k c) ->
    (works (h_s3 (w_health w)) -> Q (Ok tt) stored) ->
    (fails (h_s3 (w_health w)) -> forall x w', storage_exn x -> w' = w \/ w' = stored ->
     Q (Exn x) w') ->
    WP (put_object k c) Q w
}.

Class MessagingContract (M : IMessagingService) : Prop := {
  enqueue_rule queue payload w Q :
    (forall c ch, P (set_cached (declared w queue) c)
                    (MqPublish ch queue (dumps payload) true)) ->
    (works (h_mq (w_health w)) -> forall c,
     Q (Ok tt) (set_cached (published (declared w queue) queue (dumps payload)) c)) ->
    (fails (h_mq (w_health w)) -> forall x w', queue_exn x ->
     enqueue_outcome w queue (dumps payload) w' -> Q (Exn x) w') ->
    WP (enqueue queue payload) Q w;
  queue_depth_rule queue w Q :
    (works (h_mq (w_health w)) -> forall c, Q (Ok (depth w queue)) (set_cached w c)) ->
    (fails (h_mq (w_health w)) -> forall c, Q (Ok 0%Z) (set_cached w c)) ->
    (fails (h_mq (w_health w)) -> forall x c, queue_exn x -> Q (Exn x) (set_cached w c)) ->
    WP (queue_depth queue) Q w
}.

Class ParserContract (D : IDocumentParser) : Prop := {
  parse_rule content w Q :
    P w (PdfOpen content) ->
    (works (h_parser (w_health w)) ->
     forall md, (h_parser (w_health w) = Up -> encode md = Some md) -> Q (Ok md) w) ->
    (fails (h_parser (w_health w)) -> forall x, other_fault x -> Q (Exn x) w) ->
    WP (parse content) Q w
}.
End contracts.
