(* ===== verification/Specs.v ===== *)
(** * The implementations keep their contracts

    The repositories, the S3 and RabbitMQ clients and the PDF parser, verified
    against the contracts of their interfaces. *)

From S2P Require Import Prelude PyStr PyUuid Json Dtos Exceptions Models Program.
From S2P Require Import Interfaces Environment Container Logic Contracts Repositories.
From S2P Require Import Storage Messaging Worker.

Section implementations.
Context (P : world -> event -> Prop) `{!Lenient P}.
Abbreviation WP := (wp (monitored P)).

(** ** Repositories *)

Lemma exec_raises_wrapped {A} h d s x (Q : result exn A -> world -> Prop) w :
  exec_raises h d s x ->
  (forall y, insert_raises h (fun _ => ERaise DatabaseException) (stmt_violations d s) y ->
   Q (Exn y) w) ->
  match (if is_sqlalchemy x then Some (@raise_ A DatabaseException) else None) with
  | Some q => WP q Q w
  | None => Q (Exn x) w
  end.
Proof.
  intros [(Hw & c & msg & Hc & Hm & ->)|[Hf Hx]] HQ; simpl.
  - apply HQ. right. eauto.
  - destruct x; simpl in *; try done; apply HQ; left; (split; [done|]);
      unfold repo_exn; eauto.
Qed.

(** A query and a conversion, under [except SQLAlchemyError]. *)
Lemma query_reads {A} s (f : rows s -> A) (answer : tables -> A -> Prop) :
  (forall d, stmt_violations d s = []) ->
  (forall d v new, stmt_doc d s v new -> new = [] /\ answer d (f v)) ->
  reads P (wrap_sqlalchemy (let* r := trigger (Exec s) in Ret (f r))) answer.
Proof.
  intros Hv Hdoc w ws Q Htx Hok Hbad. unfold wrap_sqlalchemy. wp_norm.
  apply (wp_exec P s _ w ws Htx).
  - intros Hw _ v new Hd. destruct (Hdoc _ _ _ Hd) as [-> Ha].
    rewrite app_nil_r. by apply Hok.
  - intros x Hx. simpl. eapply exec_raises_wrapped; [done|].
    intros y [[Hf Hy]|(_ & c & Hc & _)]; [by apply Hbad|].
    rewrite Hv in Hc. by apply not_elem_of_nil in Hc.
Qed.

#[export] Instance account_repository_contract :
  AccountRepositoryContract P AccountRepository.repository.
Proof.
  split. intros h. apply query_reads; [done|].
  intros d v new [-> Hv]. split; [done|]. by exists v.
Qed.

#[export] Instance document_repository_contract :
  DocumentRepositoryContract P DocumentRepository.repository.
Proof.
  split.
  - intros dto w ws Q Htx d Hok Hbad.
    cbn [document_create DocumentRepository.repository].
    unfold DocumentRepository.create, wrap_sqlalchemy. wp_silent. wp_norm.
    apply (wp_exec P _ _ w ws Htx).
    + intros Hw Hv v new [-> ->]. by apply (Hok Hw x).
    + intros y Hy. simpl. eapply exec_raises_wrapped; [done|].
      intros z. by apply (Hbad z x).
  - intros i acc. apply query_reads; [done|]. by intros d v new [-> ->].
Qed.

#[export] Instance artifact_repository_contract :
  ArtifactRepositoryContract P ArtifactRepository.repository.
Proof.
  split.
  - intros dto w ws Q Htx d Hok Hbad.
    cbn [artifact_create ArtifactRepository.repository].
    unfold ArtifactRepository.create, wrap_sqlalchemy.
    wp_silent. wp_event. destruct Hd as (-> & i & Hi & ->). wp_norm.
    apply (wp_exec P _ _ w ws Htx).
    + intros Hw Hv v new [-> ->]. by apply (Hok Hw (Draw i x x)).
    + intros y Hy. simpl. eapply exec_raises_wrapped; [done|].
      intros z. by apply (Hbad z (Draw i x x)).
  - intros i acc. apply query_reads; [done|]. intros d v new [Hp ->].
    split; [done|]. by exists v.
Qed.

(** The two [except] clauses of [JobRepository.create] tell the partial index
    from the other constraints. *)
Lemma create_except_spec h d s x Q w :
  exec_raises h d s x ->
  (forall y, insert_raises h job_conflict (stmt_violations d s) y -> Q (Exn y) w) ->
  match JobRepository.create_except x with
  | Some q => WP q Q w
  | None => Q (Exn x) w
  end.
Proof.
  intros [(Hw & c & msg & Hc & [Hm Hu] & ->)|[Hf Hx]] HQ; simpl.
  - destruct (contains "one_active_job_per_document" msg) eqn:E; apply HQ; right;
      (split; [done|]); exists c; unfold job_conflict; (split; [done|]).
    + by rewrite (Hu E).
    + rewrite bool_decide_eq_false_2; [done|]. intros ->. simpl in Hm. congruence.
  - destruct x; simpl in *; subst; try done; apply HQ; left; (split; [done|]);
      unfold repo_exn; eauto.
Qed.

Lemma update_values_spec status em Q w :
  (forall t t', Q (Ok (status_values status em t t')) w) ->
  WP (JobRepository.update_values status em) Q w.
Proof.
  intros HQ. unfold JobRepository.update_values. wp_norm. wp_silent. wp_norm.
  unfold status_values in HQ. destruct (bool_decide (status = STARTED)).
  - wp_norm. wp_silent. wp_norm. destruct em, status; apply HQ.
  - wp_norm. destruct em, status; apply (HQ _ 0%Z).
Qed.

#[export] Instance job_repository_contract :
  JobRepositoryContract P JobRepository.repository.
Proof.
  split.
  - intros dto w ws Q Htx d Hok Hbad. cbn [job_create JobRepository.repository].
    unfold JobRepository.create. wp_norm. wp_silent. wp_silent. wp_event.
    destruct Hd as (-> & i & Hi & ->). wp_norm. apply (wp_exec P _ _ w ws Htx).
    + intros Hw Hv v new [-> ->]. by apply (Hok Hw (Draw i x x0)).
    + intros y Hy. simpl. eapply create_except_spec; [done|].
      intros z. by apply (Hbad z (Draw i x x0)).
  - intros i acc. apply query_reads; [done|]. by intros d v new [-> ->].
  - intros i. apply query_reads; [done|]. intros d v new [-> ->]. split; [done|].
    unfold select. by destruct (_ !! i).
  - intros i status expected em w ws Q Htx d row Hok Hnone Hbad.
    cbn [job_update_status JobRepository.repository].
    unfold JobRepository.update_status. wp_norm.
    apply update_values_spec. intros t t'. wp_norm. apply (wp_exec P _ _ w ws Htx).
    + intros Hw Hv v new Hd. cbn [stmt_violations stmt_doc] in Hv, Hd. fold d row in Hv, Hd.
      destruct row as [j|] eqn:Erow.
      * destruct Hd as [-> ->]. rewrite assign_status_values in *. by apply Hok.
      * destruct Hd as [-> ->]. rewrite app_nil_r. by apply Hnone.
    + intros y Hy. simpl.
      replace (is_app JobStateConflictException y) with false
        by (destruct Hy as [(_ & c & m & _ & _ & ->)|[_ Hy]]; [done|by destruct y]).
      cbn beta iota. eapply exec_raises_wrapped; [exact Hy|].
      intros z [[Hf Hz]|(Hw & c & Hc & ->)]; apply Hbad; [by left|done|right|by left].
      cbn [stmt_violations] in Hc. fold d row in Hc.
      destruct row as [j|]; [|by apply not_elem_of_nil in Hc].
      rewrite assign_status_values in Hc. exists j, t, t'. split; [done|].
      intros E. rewrite E in Hc. by apply not_elem_of_nil in Hc.
Qed.

(** ** Object storage *)

Lemma s3_fault_wrapped {A} x (Q : result exn A -> world -> Prop) w :
  s3_fault x -> (forall y, storage_exn y -> Q (Exn y) w) ->
  match (if is_client x then Some (@raise_ A StorageException) else None) with
  | Some q => WP q Q w
  | None => Q (Exn x) w
  end.
Proof. intros Hx HQ. destruct x; try done; apply HQ; unfold storage_exn; eauto. Qed.

Lemma amqp_fault_wrapped {A} x (Q : result exn A -> world -> Prop) w :
  amqp_fault x -> (forall y, queue_exn y -> Q (Exn y) w) ->
  match (if is_amqp x then Some (@raise_ A QueueException) else None) with
  | Some q => WP q Q w
  | None => Q (Exn x) w
  end.
Proof. intros Hx HQ. destruct x; try done; apply HQ; unfold queue_exn; eauto. Qed.

Section storage.
Context (s3 : S3StorageService.t) (w : world).
Let h := h_s3 (w_health w).
Let bk := S3StorageService._bucket s3.

Lemma presign_spec c m k n Q :
  (works h -> forall u, Q (Ok u) w) ->
  (fails h -> forall x, storage_exn x -> Q (Exn x) w) ->
  WP (S3StorageService.wrap_client_error (trigger (S3Presign c m bk k n))) Q w.
Proof.
  intros Hok Hbad. unfold S3StorageService.wrap_client_error. wp_event. answers.
  - by apply Hok.
  - apply s3_fault_wrapped; [done|]. intros y. by apply Hbad.
Qed.

Lemma generate_upload_url_spec k Q :
  (works h -> forall u, Q (Ok u) w) ->
  (fails h -> forall x, storage_exn x -> Q (Exn x) w) ->
  WP (S3StorageService.generate_upload_url s3 k) Q w.
Proof. apply presign_spec. Qed.

Lemma generate_download_url_spec k Q :
  (works h -> forall u, Q (Ok u) w) ->
  (fails h -> forall x, storage_exn x -> Q (Exn x) w) ->
  WP (S3StorageService.generate_download_url s3 k) Q w.
Proof. apply presign_spec. Qed.

Lemma object_exists_spec k Q :
  (works h -> Q (Ok (bool_decide (is_Some (w_objects w !! (bk, k))))) w) ->
  (fails h -> Q (Ok false) w) ->
  (fails h -> forall x, storage_exn x -> Q (Exn x) w) ->
  WP (S3StorageService.object_exists s3 k) Q w.
Proof.
  intros Hok Hno Hbad. unfold S3StorageService.object_exists. wp_event.
  destruct Hd as [-> Hd]; fold bk in Hd; destruct Hd as [[Hw Hd]|(Hf & x & Hx & ->)].
  - destruct (w_objects w !! (bk, k)) as [c|]; [subst r|destruct Hd as [m ->]];
      by apply Hok.
  - destruct x as [| | |ec m| | |]; try done; wp_norm.
    + destruct (bool_decide (ec = "404")); wp_norm; [by apply Hno|].
      by apply Hbad; [|left].
    + wp_norm. by apply Hbad; [|right].
Qed.

Lemma get_object_spec k Q :
  (works h -> forall c, w_objects w !! (bk, k) = Some c -> Q (Ok c) w) ->
  (fails h \/ w_objects w !! (bk, k) = None -> forall x, storage_exn x -> Q (Exn x) w) ->
  WP (S3StorageService.get_object s3 k) Q w.
Proof.
  intros Hok Hbad. unfold S3StorageService.get_object, S3StorageService.wrap_client_error.
  wp_event. destruct Hd as [-> Hd]; fold bk in Hd; destruct Hd as [[Hw Hd]|(Hf & x & Hx & ->)].
  - destruct (w_objects w !! (bk, k)) as [c|] eqn:E; [subst r|destruct Hd as [m ->]].
    + wp_event. destruct Hd as [-> [[_ ->]|(Hf & x & Hx & ->)]].
      * by apply Hok.
      * apply s3_fault_wrapped; [by destruct x|]. intros y. apply Hbad. by left.
    + apply Hbad; [by right|by left].
  - apply s3_fault_wrapped; [done|]. intros y. apply Hbad. by left.
Qed.

Lemma put_object_spec k c Q :
  let stored := set_objects w (<[(bk, k) := c]> (w_objects w)) in
  P w (S3Put (S3StorageService._client s3) bk k c) ->
  (works h -> Q (Ok tt) stored) ->
  (fails h -> forall x w', storage_exn x -> w' = w \/ w' = stored -> Q (Exn x) w') ->
  WP (S3StorageService.put_object s3 k c) Q w.
Proof.
  intros stored HP Hok Hbad.
  unfold S3StorageService.put_object, S3StorageService.wrap_client_error. wp_event; [done|].
  destruct Hd as [(Hw & [] & -> & ->)|(Hf & x & Hx & -> & Hs)].
  - by apply Hok.
  - apply s3_fault_wrapped; [done|]. intros y Hy. by eapply Hbad.
Qed.
End storage.

(** ** Messaging *)

Section messaging.
Context (url queue : string) (w : world).
Let h := h_mq (w_health w).

(** The cached connection is the only state [_get_connection] changes. *)
Lemma get_connection_spec Q :
  (works h -> forall c n, Q (Ok n) (set_cached w c)) ->
  (fails h -> forall x c, amqp_fault x -> Q (Exn x) (set_cached w c)) ->
  (forall n, Q (Ok n) w) ->
  WP (RabbitMQMessagingService._get_connection url) Q w.
Proof.
  intros Hok Hbad Hsame.
  assert (Hre : WP (let* connection := trigger (MqConnect url) in
                    trigger (MqStore connection) ;;; Ret connection) Q w).
  { wp_event. answers; wp_norm.
    - wp_event. destruct Hd as [-> ->]. wp_norm. by apply Hok.
    - replace w with (set_cached w (w_cached w)) by (by destruct w). by apply Hbad. }
  unfold RabbitMQMessagingService._get_connection. wp_event. destruct Hd as [-> ->].
  wp_norm. destruct (w_cached w); [|exact Hre].
  wp_silent. wp_norm. destruct x; [exact Hre|apply Hsame].
Qed.

(** [with_channel]: the body runs on an open channel, which is closed either way. *)
Lemma with_channel_spec {A} conn (body : N -> prog A) Q w1 :
  let h1 := h_mq (w_health w1) in
  (forall ch, WP (body ch) (fun r w2 =>
     Q r w2 /\ (fails (h_mq (w_health w2)) -> forall x, amqp_fault x -> Q (Exn x) w2)) w1) ->
  (fails h1 -> forall x, amqp_fault x -> Q (Exn x) w1) ->
  WP (RabbitMQMessagingService.with_channel conn body) Q w1.
Proof.
  intros h1 Hbody Hbad. unfold RabbitMQMessagingService.with_channel. wp_event. answers.
  - wp_norm. eapply wp_mono; [|apply Hbody]. intros r w2 [HQ Hf]. cbn beta.
    wp_event. answers; [done|by apply Hf].
  - by apply Hbad.
Qed.

Lemma declared_set_cached c : declared (set_cached w c) queue = set_cached (declared w queue) c.
Proof. unfold declared. simpl. by destruct (w_queues w !! queue). Qed.

Lemma published_set_cached w1 c b :
  published (set_cached w1 c) queue b = set_cached (published w1 queue b) c.
Proof. unfold published. simpl. by destruct (w_queues w1 !! queue). Qed.

Lemma health_declared w1 : w_health (declared w1 queue) = w_health w1.
Proof. unfold declared. by destruct (w_queues w1 !! queue). Qed.

Lemma health_published w1 b : w_health (published w1 queue b) = w_health w1.
Proof. unfold published. by destruct (w_queues w1 !! queue). Qed.

(** A client of [_get_connection] sees some cached connection. *)
Lemma get_connection_cached Q :
  (forall c n, Q (Ok n) (set_cached w c)) ->
  (fails h -> forall x c, amqp_fault x -> Q (Exn x) (set_cached w c)) ->
  WP (RabbitMQMessagingService._get_connection url) Q w.
Proof.
  intros Hok Hbad. apply get_connection_spec; [done..|].
  intros n. replace w with (set_cached w (w_cached w)) by (by destruct w). apply Hok.
Qed.

Lemma enqueue_spec payload Q :
  (forall c ch, P (set_cached (declared w queue) c)
                  (MqPublish ch queue (dumps payload) true)) ->
  (works h -> forall c,
   Q (Ok tt) (set_cached (published (declared w queue) queue (dumps payload)) c)) ->
  (fails h -> forall x w', queue_exn x -> enqueue_outcome w queue (dumps payload) w' ->
   Q (Exn x) w') ->
  WP (RabbitMQMessagingService.enqueue url queue payload) Q w.
Proof.
  intros HP Hok Hbad.
  unfold RabbitMQMessagingService.enqueue, RabbitMQMessagingService.wrap_amqp. wp_norm.
  assert (Hx : forall x w', fails h -> amqp_fault x -> enqueue_outcome w queue (dumps payload) w' ->
    match (if is_amqp x then Some (@raise_ unit QueueException) else None) with
    | Some q => WP q Q w'
    | None => Q (Exn x) w'
    end).
  { intros x w' Hf Hx Ho. apply amqp_fault_wrapped; [done|]. intros y Hy. by eapply Hbad. }
  unfold enqueue_outcome in Hx.
  apply get_connection_cached; cbn beta iota; [|intros Hf x c Hxf; by apply Hx; eauto].
  intros c n. wp_norm. apply with_channel_spec; cbn [w_health set_cached set_queues];
    [|intros Hf x Hxf; by apply Hx; eauto].
  intros ch. wp_event. destruct Hd as [(Hw & v & -> & -> & ->)|(Hf & x & Hxf & -> & Hs)].
  - wp_norm. rewrite declared_set_cached. wp_event; [apply HP|].
    rewrite published_set_cached in Hd. cbn [w_health set_cached set_queues] in Hd.
    rewrite health_declared in Hd.
    destruct Hd as [(Hw' & [] & -> & ->)|(Hf & x & Hxf & -> & Hs)].
    + cbn. rewrite health_published, health_declared. split; [by apply Hok|].
      intros Hf x Hxf. apply Hx; eauto 10.
    + assert (exists c0 : option N,
        s' = set_cached w c0 \/ s' = set_cached (declared w queue) c0
        \/ s' = set_cached (published (declared w queue) queue (dumps payload)) c0)
        by (destruct Hs; eauto).
      split; [by apply Hx|]. intros _ y Hy. by apply Hx.
  - wp_norm. rewrite declared_set_cached in Hs.
    assert (exists c0 : option N,
      s' = set_cached w c0 \/ s' = set_cached (declared w queue) c0
      \/ s' = set_cached (published (declared w queue) queue (dumps payload)) c0)
      by (destruct Hs; eauto).
    split; [by apply Hx|]. intros _ y Hy. by apply Hx.
Qed.

(** [queue_depth]: the number of ready messages; a closed channel reads as an
    empty queue. *)
Lemma queue_depth_spec Q :
  (works h -> forall c, Q (Ok (depth w queue)) (set_cached w c)) ->
  (fails h -> forall c, Q (Ok 0%Z) (set_cached w c)) ->
  (fails h -> forall x c, queue_exn x -> Q (Exn x) (set_cached w c)) ->
  WP (RabbitMQMessagingService.queue_depth url queue) Q w.
Proof.
  intros Hok Hzero Hbad.
  unfold RabbitMQMessagingService.queue_depth, RabbitMQMessagingService.wrap_amqp. wp_norm.
  assert (Hx : forall x c, fails h -> amqp_fault x ->
    match (if is_amqp x then Some (@raise_ Z QueueException) else None) with
    | Some q => WP q Q (set_cached w c)
    | None => Q (Exn x) (set_cached w c)
    end).
  { intros x c Hf Hx. apply amqp_fault_wrapped; [done|]. intros y Hy. by apply Hbad. }
  apply get_connection_cached; cbn beta iota; [|intros Hf x c Hxf; by apply Hx].
  intros c n. wp_norm. apply with_channel_spec; cbn [w_health set_cached];
    [|intros Hf x Hxf; by apply Hx].
  intros ch. wp_event. destruct Hd as [-> [[Hw Hd]|(Hf & x & Hxf & ->)]]; cbn in *.
  - unfold depth in *. cbn in Hd.
    destruct (w_queues w !! queue) as [l|] eqn:E; [subst r|destruct Hd as [m ->]];
      wp_norm; rewrite ?E in *; (split; [by apply Hok|]); intros Hf x Hxf; by apply Hx.
  - wp_norm. destruct x as [| |cc m| | | |]; try done; [destruct cc|]; wp_norm;
      (split; [first [by apply Hzero | by apply (Hx (EAmqp false m)) | by apply (Hx (EOther type_name msg))]|]);
      intros _ x Hxf'; by apply Hx.
Qed.
End messaging.

#[export] Instance storage_contract s3 :
  StorageContract P (S3StorageService.storage s3) (S3StorageService._client s3)
    (S3StorageService._bucket s3).
Proof.
  split; intros.
  - by apply generate_upload_url_spec.
  - by apply generate_download_url_spec.
  - by apply object_exists_spec.
  - by apply get_object_spec.
  - by apply put_object_spec.
Qed.

#[export] Instance messaging_contract url :
  MessagingContract P (RabbitMQMessagingService.messaging url).
Proof.
  split; intros.
  - by apply enqueue_spec.
  - by apply queue_depth_spec.
Qed.

#[export] Instance parser_contract : ParserContract P PyMuPDFParser.parser.
Proof.
  split. intros content w Q HP Hok Hbad.
  cbn [parse PyMuPDFParser.parser]. unfold PyMuPDFParser.parse.
  wp_event; [done|]. answers; wp_norm; [|by apply Hbad].
  wp_event. destruct Hd as [-> [(Hw & md & -> & Hmd)|(Hf & y & Hy & ->)]].
  - by apply Hok.
  - by apply Hbad.
Qed.
End implementations.
