(* ===== verification/ProcessingSpec.v ===== *)
(** * [ProcessingService.process] against the contracts it is given

    [process_spec] gives every outcome of [process] on a claimed job: the two
    rows it writes and the object it stores when it returns, and what it can
    leave behind when it raises.  [can_process] is the condition under which it
    cannot raise. *)

From S2P Require Import Prelude PyStr PyUuid Json Dtos Exceptions Models Program.
From S2P Require Import Interfaces Environment Logic Contracts Worker.

(** ** Worlds up to the transaction and the objects *)

Lemma set_tx_same w tx : w_tx w = tx -> set_tx w tx = w.
Proof. intros <-. by destruct w. Qed.

Definition with_tx_objects (w : world) (tx : txn) (o : gmap (string * string) bytes)
  : world := set_objects (set_tx w tx) o.

Lemma with_tx_objects_same w tx : with_tx_objects w tx (w_objects w) = set_tx w tx.
Proof. by destruct w. Qed.

(** ** Constraints of the rows [process] writes *)

Lemma jobs_view_artifact d a : jobs (view d [WArtifact a]) = jobs d.
Proof. done. Qed.

(** A row outside the partial index breaks no constraint of an update. *)
Lemma inactive_update d j : Job.active j = false -> update_violations d j = [].
Proof.
  intros Ha. unfold update_violations, slot_taken.
  replace (map_exists _ (jobs d)) with false; [done|]. symmetry.
  apply map_exists_false. intros k v _. unfold same_slot. rewrite Ha. apply andb_false_r.
Qed.

Lemma violated_false b c : b = false -> violated b c = [].
Proof. by intros ->. Qed.

Lemma artifact_no_violation d r :
  artifacts d !! Artifact.id r = None -> is_Some (jobs d !! Artifact.job_id r) ->
  is_Some (documents d !! Artifact.document_id r) -> artifact_violations d r = [].
Proof.
  intros Ha [j Hj] [x Hx]. unfold artifact_violations. rewrite Ha, Hj, Hx.
  rewrite !violated_false; [done|done..|]. by destruct (upsert_target d r).
Qed.

(** ** The contract *)

(** The document a job points to, as [document_repo.get_by_id] looks it up. *)
Definition job_document (d : tables) (j : Job.t) : option Document.t :=
  select (fun x => (Document.account_id x =? Job.account_id j)%Z)
    (documents d !! Job.document_id j).

(** The key and the row of the artifact. *)
Definition output_key (j : Job.t) (doc : Document.t) : string :=
  ProcessingService.artifact_key (Job.account_id j) (Document.id doc).

Definition output_row (job_id : uuid) (j : Job.t) (doc : Document.t) (i : draw)
  : Artifact.t :=
  Artifact.Make (drawn_id i) job_id (Job.document_id j) MARKDOWN (output_key j doc)
    (drawn_t i).

Section contract.
Context (P : world -> event -> Prop) (client : s3_client) (bucket : string).

(** The services work, the document is there and was uploaded. *)
Definition can_process (w : world) (j : Job.t) : Prop :=
  let h := w_health w in
  h_sql h = Up /\ h_s3 h = Up /\ h_parser h = Up /\ h_ids h = Up /\
  (exists v, valid_uuid v /\ unused (w_db w) v) /\
  exists doc content, job_document (w_db w) j = Some doc /\
    w_objects w !! (bucket, Document.object_key doc) = Some content.

(** What may have been stored when [process] raises. *)
Definition partial_output (w : world) (j : Job.t) (o : gmap (string * string) bytes)
  : Prop :=
  o = w_objects w \/
  exists doc content, job_document (w_db w) j = Some doc /\
    o = <[(bucket, output_key j doc) := content]> (w_objects w).

(** The row [a] that an upsert of [r] stores, which breaks no constraint. *)
Definition upserts (d : tables) (r a : Artifact.t) : Prop :=
  artifact_violations d r = [] /\ a = upserted d r.

(** What [process] writes and stores when it returns: the artifact row, the job
    completed, and the object under the artifact's key. *)
Definition full_output (job_id : uuid) (w : world) (j : Job.t) (a : Artifact.t)
    (jc : Job.t) (o : gmap (string * string) bytes) : Prop :=
  works (h_s3 (w_health w)) /\ works (h_parser (w_health w)) /\
  exists doc content md b i t t',
    job_document (w_db w) j = Some doc /\
    w_objects w !! (bucket, Document.object_key doc) = Some content /\
    encode md = Some b /\
    o = <[(bucket, output_key j doc) := b]> (w_objects w) /\
    upserts (w_db w) (output_row job_id j doc i) a /\
    jc = moved j COMPLETED None t t'.

Class ProcessingContract (S : IProcessingService) : Prop := {
  process_rule job_id j w Q :
    w_tx w = TxActive [] ->
    jobs (w_db w) !! job_id = Some j -> Job.status j = STARTED ->
    (forall w' c, w_db w' = w_db w -> P w' (PdfOpen c)) ->
    (forall w' k c, w_db w' = w_db w -> P w' (S3Put client bucket k c)) ->
    (forall a jc o, full_output job_id w j a jc o ->
     Q (Ok tt) (with_tx_objects w (TxActive [WArtifact a; WJob jc]) o)) ->
    (forall x tx o, ~ can_process w j -> partial_output w j o ->
     Q (Exn x) (with_tx_objects w tx o)) ->
    wp (monitored P) (process job_id) Q w
}.
End contract.

Section process.
Context (P : world -> event -> Prop) `{!Lenient P}.
Context (client : s3_client) (bucket : string).
Context `{HJ : !JobRepositoryContract P R_job} `{HD : !DocumentRepositoryContract P R_doc}
  `{HA : !ArtifactRepositoryContract P R_art}
  `{HS : !StorageContract P S_obj client bucket} `{HP : !ParserContract P D_pdf}.

#[export] Instance processing_contract : ProcessingContract P client bucket ProcessingService.service.
Proof.
  split. intros job_id j w Q Htx Hj Hst HPpdf HPput Hok Hbad.
  cbn [process ProcessingService.service]. pose proof (set_tx_same w _ Htx) as Hw.
  assert (Hraise : forall x tx, ~ can_process bucket w j -> Q (Exn x) (set_tx w tx)).
  { clear Hok. intros x tx Hc. rewrite <- with_tx_objects_same. apply Hbad; [done|by left]. }
  unfold ProcessingService.process. wp_norm.
  apply (job_get_for_processing_rule P job_id w [] _ Htx);
    [|intros Hf x Hx; apply Hraise; intros (E & _); exact (Hf E)].
  intros _ r ->. rewrite Hw. cbn [view apply_writes fold_left]. rewrite Hj.
  cbn [fmap option_fmap option_map job_dto]. wp_norm.
  apply (document_get_rule P _ _ w [] _ Htx);
    [|intros Hf x Hx; apply Hraise; intros (E & _); exact (Hf E)].
  intros _ r ->. rewrite Hw. cbn [view apply_writes fold_left].
  change (select _ _) with (job_document (w_db w) j).
  destruct (job_document (w_db w) j) as [doc|] eqn:Hdoc; cbn [fmap option_fmap option_map].
  2: { wp_norm. rewrite <- Hw. apply Hraise. intros (?&?&?&?&?&?&?&?&?). congruence. }
  cbn [document_dto]. wp_norm. wp_log. wp_norm.
  apply (get_object_rule P (bucket := bucket)).
  2: { intros Hf x Hx. rewrite <- Hw. apply Hraise.
       intros (?&E&?&?&?&doc'&c&Hd'&Hc). simplify_eq.
       destruct Hf as [Hf|Hf]; [exact (Hf E)|]. cbn in Hf. congruence. }
  intros Hw3 content Hc. wp_norm. wp_log. wp_norm. wp_log. wp_norm.
  apply (parse_rule P); [by apply HPpdf| |].
  2: { intros Hf x Hx. rewrite <- Hw. apply Hraise. intros (?&?&E&?). exact (Hf E). }
  intros Hwp md Hmd. wp_norm. wp_log. wp_norm. wp_log. wp_norm.
  destruct (encode md) as [b|] eqn:Hb.
  2: { wp_norm. rewrite <- Hw. apply Hraise. intros (?&?&E&?). by specialize (Hmd E). }
  wp_norm. apply (put_object_rule P (client := client) (bucket := bucket));
    [by apply HPput| |].
  2: { intros Hf x w' Hx Ho. cbn beta iota. rewrite <- Hw in Ho.
       assert (Hn : ~ can_process bucket w j) by (intros (?&E&?); exact (Hf E)).
       destruct Ho as [->| ->]; [by apply Hraise|]. apply (Hbad _ (TxActive [])); [done|].
       right. by exists doc, b. }
  intros _. cbn beta iota. wp_norm. wp_log. wp_norm.
  set (o := <[_ := b]> (w_objects w)). set (w1 := set_objects w o).
  assert (Htx1 : w_tx w1 = TxActive []) by done.
  assert (Hbad1 : forall x tx, ~ can_process bucket w j -> Q (Exn x) (set_tx w1 tx)).
  { intros x tx Hn. apply (Hbad x tx o Hn). right. by exists doc, b. }
  apply (artifact_create_rule P _ w1 [] _ Htx1).
  2: { intros x i Hi [[Hf _]|(_ & c & Hc' & _)]; apply Hbad1.
       - intros (E&_). exact (Hf E).
       - intros (_&_&_&Hids&Hex&_). destruct Hi as [_ Hu].
         destruct (Hu Hids Hex) as (_ & _ & Hart).
         cbn [view apply_writes fold_left] in Hc'.
         rewrite artifact_no_violation in Hc'; [by apply not_elem_of_nil in Hc'|done|eauto|].
         unfold job_document, select in Hdoc. cbn.
         by destruct (documents (w_db w) !! Job.document_id j). }
  intros _ i Hi Hvio. cbn beta iota. set (a := upserted _ _). wp_norm.
  set (w2 := set_tx w1 _).
  apply (job_update_status_rule P job_id COMPLETED STARTED None w2 [WArtifact a] _ eq_refl).
  - intros _ j' t t' Hj' _. unfold view in Hj'. change (w_db w2) with (w_db w) in Hj'.
    cbn in Hj'. rewrite Hj in Hj'. cbn in Hj'.
    unfold has_status in Hj'. rewrite bool_decide_eq_true_2 in Hj' by done. simplify_eq.
    wp_norm. apply Hok.
    split_and!; [done..|]. by exists doc, content, md, b, i, t, t'.
  - intros _ Hnone. exfalso. unfold view in Hnone. change (w_db w2) with (w_db w) in Hnone.
    cbn in Hnone. rewrite Hj in Hnone. cbn in Hnone.
    unfold has_status in Hnone. by rewrite bool_decide_eq_true_2 in Hnone.
  - intros x Hx _. apply (Hbad1 x). intros (E&_). destruct Hx as [Hf|(j'&t&t'&_&Hv)].
    + exact (Hf E).
    + apply Hv. apply inactive_update. by destruct j'.
Qed.
End process.
