(* ===== verification/ConsumerSpec.v ===== *)
(** * [RabbitMQConsumer] against the contracts it is given

    [failure_result] and [handle_result] describe every outcome of
    [_handle_failure] and of [_handle] under every documented behaviour of the
    services; [handle_failure_spec] and [handle_spec] prove that the code has no
    other. *)

From S2P Require Import Prelude PyStr PyUuid Json Dtos Exceptions Models Program.
From S2P Require Import Interfaces Environment Container Logic Contracts Worker.
From S2P Require Import ProcessingSpec.

(** ** Updating a job row *)

Definition put_job (w : world) (j : Job.t) : world :=
  set_db w (apply_write (w_db w) (WJob j)) (TxActive []).

(** The message that queues a job again. *)
Definition requeue_payload (job_id : uuid) : json := JObj [("job_id", JStr (uuid_str job_id))].

#[local] Hint Resolve moved_replaces started_active queued_active : pipeline.

(** ** [_handle_failure] *)

Definition unhealthy (w : world) : Prop :=
  fails (h_sql (w_health w)) \/ fails (h_txn (w_health w)) \/ fails (h_mq (w_health w))
  \/ fails (h_ack (w_health w)).

Section failure_result.
Context (queue : string) (job_id : uuid) (n mx : Z) (x : exn).

(** The status a failed attempt leads to, and its row. *)
Definition failure_status : JobStatus := if (n <? mx)%Z then QUEUED else FAILED.

Definition failure_row (j : Job.t) (t t' : datetime) : Job.t :=
  moved j failure_status (Some (exn_str x)) t t'.

Definition requeue_body : bytes := dumps (requeue_payload job_id).

Inductive failure_result (w : world) (j : Job.t) : result exn unit -> world -> Prop :=
| FR_conflict :
    Job.status j <> STARTED ->
    failure_result w j (Ok tt) (set_tx w (TxActive []))
| FR_terminal t t' :
    Job.status j = STARTED -> failure_status = FAILED ->
    failure_result w j (Ok tt) (put_job w (failure_row j t t'))
| FR_requeued t t' c :
    Job.status j = STARTED -> failure_status = QUEUED ->
    failure_result w j (Ok tt)
      (set_cached (published (declared (put_job w (failure_row j t t')) queue)
                     queue requeue_body) c)
| FR_unpublished t t' w' :
    Job.status j = STARTED -> failure_status = QUEUED -> fails (h_mq (w_health w)) ->
    enqueue_outcome (put_job w (failure_row j t t')) queue requeue_body w' ->
    failure_result w j (Ok tt) w'
| FR_raised y w' :
    unhealthy w ->
    (w' = set_tx w (TxActive []) \/
     Job.status j = STARTED /\ exists t t',
       w' = put_job w (failure_row j t t') \/
       failure_status = QUEUED /\
       enqueue_outcome (put_job w (failure_row j t t')) queue requeue_body w') ->
    failure_result w j (Exn y) w'.
End failure_result.

Lemma failure_result_health queue job_id n mx x w j r w' :
  failure_result queue job_id n mx x w j r w' -> w_health w' = w_health w.
Proof.
  intros [| |t t' c|t t' ? ? ? ? Ho|? ? ? [->|(_&t&t'&[->|[_ Ho]])]]; try done.
  - apply (mq_health _ _ (mq_frame_published (put_job w (failure_row n mx x j t t')) _ _ _)).
  - by rewrite (mq_health _ _ (mq_frame_outcome _ _ _ _ Ho)).
  - by rewrite (mq_health _ _ (mq_frame_outcome _ _ _ _ Ho)).
Qed.

(** ** [_handle] *)

Section handle_result.
Context (bucket queue : string) (job_id : uuid) (tag : N).

(** The job is absent or not [QUEUED]. *)
Definition not_queued (w : world) : Prop :=
  forall j, jobs (w_db w) !! job_id = Some j -> Job.status j <> QUEUED.

Definition claimed (j : Job.t) (t t' : datetime) : Job.t := moved j STARTED None t t'.

Definition completed_world (w : world) (a : Artifact.t) (jc : Job.t)
    (o : gmap (string * string) bytes) : world :=
  set_objects (set_db w (apply_writes (w_db w) [WArtifact a; WJob jc]) (TxActive [])) o.

(** The job's row and the world after the session of [process] on the row [j]
    claimed in [w]: nothing but an object may have changed, or the job may have
    been completed. *)
Inductive attempt (w : world) (j : Job.t) : Job.t -> world -> Prop :=
| AT_partial o :
    partial_output bucket w j o -> attempt w j j (set_objects w o)
| AT_completed a jc o :
    full_output bucket job_id w j a jc o -> attempt w j jc (completed_world w a jc o).

(** What is left when [_handle] raises. *)
Inductive aborted (w : world) : world -> Prop :=
| AB_unchanged : aborted w w
| AB_dropped : not_queued w -> aborted w (settle w tag Acked)
| AB_nacked : fails (h_sql (w_health w)) -> aborted w (settle w tag (Nacked true))
| AB_claimed j t t' :
    jobs (w_db w) !! job_id = Some j -> Job.status j = QUEUED ->
    aborted w (put_job w (claimed j t t'))
| AB_attempted j t t' jr wr x r w' :
    jobs (w_db w) !! job_id = Some j -> Job.status j = QUEUED ->
    works (h_txn (w_health w)) ->
    attempt (put_job w (claimed j t t')) (claimed j t t') jr wr ->
    failure_result queue job_id (Job.attempts j + 1) (Job.max_attempts j) x wr jr r w' ->
    aborted w w'.

Inductive handle_result (w : world) : result exn unit -> world -> Prop :=
| HR_dropped :
    not_queued w -> handle_result w (Ok tt) (settle w tag Acked)
| HR_nacked j :
    jobs (w_db w) !! job_id = Some j -> Job.status j = QUEUED ->
    fails (h_sql (w_health w)) ->
    handle_result w (Ok tt) (settle w tag (Nacked true))
| HR_completed j t t' a jc o :
    jobs (w_db w) !! job_id = Some j -> Job.status j = QUEUED ->
    works (h_txn (w_health w)) ->
    full_output bucket job_id (put_job w (claimed j t t')) (claimed j t t') a jc o ->
    handle_result w (Ok tt)
      (settle (completed_world (put_job w (claimed j t t')) a jc o) tag Acked)
| HR_failed j t t' jr wr x w' :
    jobs (w_db w) !! job_id = Some j -> Job.status j = QUEUED ->
    works (h_txn (w_health w)) ->
    attempt (put_job w (claimed j t t')) (claimed j t t') jr wr ->
    ~ can_process bucket (put_job w (claimed j t t')) (claimed j t t') \/ unhealthy w ->
    failure_result queue job_id (Job.attempts j + 1) (Job.max_attempts j) x wr jr
      (Ok tt) w' ->
    handle_result w (Ok tt) (settle w' tag Acked)
| HR_raised y w' :
    unhealthy w -> aborted w w' -> handle_result w (Exn y) w'.
End handle_result.

Section consumer.
Context (P : world -> event -> Prop) `{!Lenient P}.
Context (client : s3_client) (bucket queue : string) (limit : nat).
Context `{HJ : !JobRepositoryContract P R_job} `{HM : !MessagingContract P M_obj}
  `{HP : !ProcessingContract P client bucket S_obj}.
Abbreviation WP := (wp (monitored P)).

(** The session that moves a claimed job to its next status. *)
Lemma failure_session job_id n mx x j w (Q : result exn JobDTO.t -> world -> Prop) :
  wf_jobs (jobs (w_db w)) -> jobs (w_db w) !! job_id = Some j -> w_tx w = TxActive [] ->
  (forall t t', Job.status j = STARTED ->
   Q (Ok (job_dto (failure_row n mx x j t t'))) (put_job w (failure_row n mx x j t t'))) ->
  (Job.status j <> STARTED -> 
   Q (Exn (ERaise JobStateConflictException)) (set_tx w (TxActive []))) ->
  (forall y, unhealthy w -> is_app JobStateConflictException y = false ->
   Q (Exn y) (set_tx w (TxActive [])) /\
   (Job.status j = STARTED -> forall t t', Q (Exn y) (put_job w (failure_row n mx x j t t')))) ->
  WP (open_session (job_update_status job_id (failure_status n mx) STARTED
                      (Some (exn_str x)))) Q w.
Proof.
  intros Hwf Hj Htx Hok Hconf Hbad. apply (session_rule P).
  assert (Hfault : forall y, db_fault y -> is_app JobStateConflictException y = false).
  { by intros []. }
  assert (Hrepo : forall y, repo_exn y -> is_app JobStateConflictException y = false).
  { intros y [->|Hy]; [done|by destruct y]. }
  assert (Hsel : select (has_status STARTED) (jobs (w_db w) !! job_id)
                 = if bool_decide (Job.status j = STARTED) then Some j else None).
  { by rewrite Hj. }
  apply (job_update_status_rule P _ _ _ _ w [] _ Htx);
    cbn [view apply_writes fold_left]; rewrite Hsel.
  - intros _ j' t t' Hj' _. case_bool_decide as Hst; [|done]. simplify_eq.
    eapply session_writes; [done..|intros _; by apply Hok|]. intros Hf y Hy.
    destruct (Hbad y (or_intror (or_introl Hf)) (Hfault _ Hy)) as [H1 H2].
    split; [by apply H2|exact H1].
  - intros _ Hn. case_bool_decide as Hst; [done|].
    eapply session_quiet; [by left|done|by apply Hconf|].
    intros Hf y Hy. by destruct (Hbad y (or_intror (or_introl Hf)) (Hfault _ Hy)).
  - intros y Hy Hx. assert (unhealthy w) as Hu.
    { destruct Hy as [Hf|(j'&t&t'&Hj'&Hv)]; [by left|]. case_bool_decide as Hst; [|done].
      simplify_eq. destruct Hv. eapply replaces_no_violation; eauto with pipeline. }
    eapply session_quiet; [by left|done|by destruct (Hbad y Hu (Hrepo _ Hx))|].
    intros Hf z Hz. by destruct (Hbad z Hu (Hfault _ Hz)).
Qed.

Lemma put_job_lookup w j : jobs (w_db (put_job w j)) !! Job.id j = Some j.
Proof. apply lookup_insert_eq. Qed.

Lemma failure_row_id n mx x j t t' : Job.id (failure_row n mx x j t t') = Job.id j.
Proof. unfold failure_row. by destruct j, (failure_status n mx). Qed.

(** Publishing the message again: a [QueueException] is logged, and the job stays
    queued without a message. *)
Lemma requeue_spec job_id (n mx : Z) x w Q :
  (forall w' ch, w_db w' = w_db w -> P w' (MqPublish ch queue (requeue_body job_id) true)) ->
  (forall c, Q (Ok tt)
     (set_cached (published (declared w queue) queue (requeue_body job_id)) c)) ->
  (fails (h_mq (w_health w)) -> forall w', enqueue_outcome w queue (requeue_body job_id) w' ->
   Q (Ok tt) w' /\ forall y, other_fault y -> Q (Exn y) w') ->
  WP (catch
        (enqueue queue (requeue_payload job_id) ;;;
         trigger (Log Warning "consumer.job_failed_requeued"
           [("attempt", LInt n); ("max_attempts", LInt mx); ("exc_info", LExn x)]))
        (fun queue_exc =>
           if is_app QueueException queue_exc
           then Some (trigger (Log Error "consumer.reenqueue_failed"
                        [("exc_info", LExn queue_exc)]))
           else None)) Q w.
Proof.
  intros HP' Hok Hbad. wp_norm. apply (enqueue_rule P).
  - intros c ch. apply HP'. unfold declared. by destruct (w_queues w !! queue).
  - intros _ c. cbn beta iota. wp_log. apply Hok.
  - intros Hf y w' Hy Ho. destruct (Hbad Hf w' Ho) as [H1 H2]. cbn beta iota.
    destruct Hy as [->|Hy]; [except_clause; wp_log; exact H1|].
    destruct y; try done. by apply H2.
Qed.

(** Every outcome of [_handle_failure] on the row [j] of a job. *)
Lemma handle_failure_spec job_id n mx x j w Q :
  wf_jobs (jobs (w_db w)) -> jobs (w_db w) !! job_id = Some j -> w_tx w = TxActive [] ->
  (forall w' ch j', jobs (w_db w') !! job_id = Some j' -> Job.status j' = QUEUED ->
   P w' (MqPublish ch queue (requeue_body job_id) true)) ->
  (forall r w', failure_result queue job_id n mx x w j r w' -> Q r w') ->
  WP (RabbitMQConsumer._handle_failure queue job_id n mx x) Q w.
Proof.
  intros Hwf Hj Htx HP' HQ. pose proof (wf_jobs_id _ Hwf _ _ Hj) as Hid.
  unfold RabbitMQConsumer._handle_failure. wp_norm.
  pose proof (failure_session job_id n mx x j w) as Hsession.
  destruct (n <? mx)%Z eqn:Hlt;
    [assert (Hfs : failure_status n mx = QUEUED) by (unfold failure_status; by rewrite Hlt)
    |assert (Hfs : failure_status n mx = FAILED) by (unfold failure_status; by rewrite Hlt)];
    rewrite Hfs in Hsession; wp_norm; apply Hsession; clear Hsession; try done;
    cbn [then_] in *.
  - intros t t' Hst. apply requeue_spec; cbn beta iota.
    + intros w' ch Hw'. apply (HP' _ _ (failure_row n mx x j t t')).
      * rewrite Hw', <- Hid, <- (failure_row_id n mx x j t t'). apply put_job_lookup.
      * unfold failure_row. rewrite Hfs. by destruct j.
    + intros c. apply HQ. by apply FR_requeued.
    + intros Hf w' Ho. split; [apply HQ; by apply (FR_unpublished _ _ _ _ _ _ _ t t')|].
      intros y Hy. destruct y; try done. apply HQ. apply FR_raised; [by right; right; left|].
      right. split; [done|]. exists t, t'. by right.
  - intros Hst. except_clause. wp_log. apply HQ. by apply FR_conflict.
  - intros y Hu Hy. rewrite Hy. split; [|intros Hst t t']; apply HQ, FR_raised; try done.
    + by left.
    + right. split; [done|]. exists t, t'. by left.
  - intros t t' Hst. wp_log. apply HQ. by apply FR_terminal.
  - intros Hst. except_clause. wp_log. apply HQ. by apply FR_conflict.
  - intros y Hu Hy. rewrite Hy. split; [|intros Hst t t']; apply HQ, FR_raised; try done.
    + by left.
    + right. split; [done|]. exists t, t'. by left.
Qed.
(** ** The steps of [_handle] *)

Section handle.
Context (msg : message) (HPack : forall w', P w' (MsgAck (msg_tag msg))).
Abbreviation tag := (msg_tag msg).

Lemma check_queued_spec job_id w Q :
  w_tx w = TxActive [] ->
  (forall j, jobs (w_db w) !! job_id = Some j -> Job.status j = QUEUED -> Q (Ok true) w) ->
  (not_queued job_id w -> Q (Ok false) (settle w tag Acked)) ->
  (unhealthy w -> forall y w',
   w' = w \/ not_queued job_id w /\ w' = settle w tag Acked -> Q (Exn y) w') ->
  WP (RabbitMQConsumer._check_queued msg job_id) Q w.
Proof.
  intros Htx Hq Hdrop Hbad. pose proof (set_tx_same w _ Htx) as Hw.
  assert (Htxn : fails (h_txn (w_health w)) -> unhealthy w) by (by right; left).
  unfold RabbitMQConsumer._check_queued. apply (session_rule P). wp_norm.
  apply (job_get_for_processing_rule P job_id w [] _ Htx).
  2: { intros Hf x Hx. eapply session_quiet; [by left|exact Hw| |];
         intros; apply Hbad; by left. }
  intros _ r ->. rewrite Hw. cbn [view apply_writes fold_left].
  assert (Hack : not_queued job_id w ->
    WP (trigger (MsgAck tag)) (then_ (L := monitored P) (fun _ => Ret false) (session_post Q)) w).
  { intros Hn. wp_event; [apply HPack|].
    destruct Hd as [(_ & [] & -> & ->)|(Hf & x & Hx & -> & ->)]; wp_norm.
    - eapply (session_quiet _ _ _ (settle w tag Acked)); [left| |by apply Hdrop|].
      + cbn. by rewrite Htx.
      + rewrite <- Hw at 2. done.
      + intros; apply Hbad; [by right; left|by right].
    - eapply session_quiet; [by right|exact Hw| |]; intros; apply Hbad; try (by left).
      + by right; right; right.
      + by right; left. }
  destruct (jobs (w_db w) !! job_id) as [j|] eqn:Hj; cbn [fmap option_fmap option_map].
  - wp_norm. wp_log. wp_norm. cbn [job_dto JobDTO.status]. case_bool_decide as Hst.
    + wp_norm. eapply session_quiet; [left; by rewrite Htx|exact Hw|by eapply Hq|].
      intros; apply Hbad; [by right; left|by left].
    + wp_log. wp_norm. apply Hack. intros j' Hj'. congruence.
  - wp_norm. wp_log. wp_norm. apply Hack. intros j' Hj'. congruence.
Qed.

(** The claim of a queued job. *)
Lemma claim_spec job_id j w Q :
  wf_jobs (jobs (w_db w)) -> jobs (w_db w) !! job_id = Some j -> Job.status j = QUEUED ->
  w_tx w = TxActive [] -> (forall w', P w' (MsgNack tag true)) ->
  (works (h_txn (w_health w)) -> forall t t',
   Q (Ok (Some (job_dto (claimed j t t')))) (put_job w (claimed j t t'))) ->
  (fails (h_sql (w_health w)) -> Q (Ok None) (settle w tag (Nacked true))) ->
  (unhealthy w -> forall y w',
   w' = w \/ (exists t t', w' = put_job w (claimed j t t'))
   \/ fails (h_sql (w_health w)) /\ w' = settle w tag (Nacked true) -> Q (Exn y) w') ->
  WP (RabbitMQConsumer._claim msg job_id) Q w.
Proof.
  intros Hwf Hj Hst Htx HPn Hok Hnack Hbad. pose proof (set_tx_same w _ Htx) as Hw.
  assert (Hsel : select (has_status QUEUED) (jobs (w_db w) !! job_id) = Some j).
  { rewrite Hj. simpl. unfold has_status. by rewrite bool_decide_eq_true_2. }
  unfold RabbitMQConsumer._claim. apply (session_rule P). wp_norm.
  apply (job_update_status_rule P _ _ _ _ w [] _ Htx);
    cbn [view apply_writes fold_left]; rewrite Hsel.
  - intros _ j' t t' Hj' _. simplify_eq. wp_norm.
    eapply session_writes; [done..|intros Hwk; by apply Hok|]. intros Hf y Hy.
    split; apply Hbad; try (by right; left); [right; left; by exists t, t'|by left].
  - done.
  - intros y Hy Hx. assert (fails (h_sql (w_health w))) as Hf.
    { destruct Hy as [Hf|(j'&t&t'&Hj'&Hv)]; [done|]. simplify_eq. destruct Hv.
      eapply replaces_no_violation; eauto with pipeline. }
    assert (unhealthy w) as Hu by (by left).
    destruct Hx as [->|Hx].
    + except_clause. wp_log. wp_event; [apply HPn|].
      destruct Hd as [(_ & [] & -> & ->)|(_ & x & Hx & -> & ->)]; wp_norm.
      * eapply (session_quiet _ _ _ (settle w tag (Nacked true))); [by left| |by apply Hnack|].
        -- rewrite <- Hw at 2. done.
        -- intros; apply Hbad; [done|by right; right].
      * eapply session_quiet; [by right|exact Hw| |]; intros; apply Hbad; try done; by left.
    + destruct y; try done. cbn [is_app]. cbn beta iota. eapply session_quiet; [by right|exact Hw| |];
        intros; apply Hbad; try done; by left.
Qed.

(** ** Processing *)

Context (job_id : uuid).
Context (HPpdf : forall w' c j', jobs (w_db w') !! job_id = Some j' ->
  Job.status j' = STARTED -> P w' (PdfOpen c)).
Context (HPput : forall w' k c j', jobs (w_db w') !! job_id = Some j' ->
  Job.status j' = STARTED -> P w' (S3Put client bucket k c)).

(** The session of [process] on a claimed job. *)
Lemma process_session j w Q :
  jobs (w_db w) !! job_id = Some j -> Job.status j = STARTED -> w_tx w = TxActive [] ->
  (forall a jr o, full_output bucket job_id w j a jr o ->
   Q (Ok tt) (completed_world w a jr o)) ->
  (forall x jr wr, attempt bucket job_id w j jr wr ->
   ~ can_process bucket w j \/ unhealthy w -> Q (Exn x) wr) ->
  WP (open_session (process job_id)) Q w.
Proof.
  intros Hj Hst Htx Hok Hbad. pose proof (set_tx_same w _ Htx) as Hw.
  apply (session_rule P). apply (process_rule P client bucket job_id j w); try done.
  - intros w' c Hdb. apply (HPpdf _ _ j); [by rewrite Hdb|done].
  - intros w' k c Hdb. apply (HPput _ _ _ j); [by rewrite Hdb|done].
  - intros a jr o Hout. eapply session_writes; [done..|intros _; exact (Hok a jr o Hout)|].
    intros Hf y Hy. split; [apply (Hbad _ jr)|apply (Hbad _ j)]; try (right; by right; left).
    + exact (AT_completed bucket job_id w j a jr o Hout).
    + replace (set_tx _ _) with (set_objects w o) by (by rewrite <- Hw).
      apply AT_partial. right. destruct Hout as (_&_&doc&c&md&b&i&t&t'&?&?&?&->&?&?).
      by exists doc, b.
  - intros x tx o Hn Ho.
    assert (attempt bucket job_id w j j (set_objects w o)) as Hat by (by apply AT_partial).
    eapply (session_quiet _ _ _ (set_objects w o)); [by right| | |].
    + unfold with_tx_objects. by rewrite <- Hw at 2.
    + apply (Hbad _ j); [done|by left].
    + intros Hf y Hy. apply (Hbad _ j); [done|by left].
Qed.

(** The row of an attempt: still there, under the job's id. *)
Lemma attempt_row w j jr wr :
  wf_jobs (jobs (w_db w)) -> jobs (w_db w) !! job_id = Some j -> w_tx w = TxActive [] ->
  Job.active j = true -> attempt bucket job_id w j jr wr ->
  wf_jobs (jobs (w_db wr)) /\ jobs (w_db wr) !! job_id = Some jr /\ w_tx wr = TxActive []
  /\ w_health wr = w_health w.
Proof.
  intros Hwf Hj Htx Ha Hat. destruct Hat as [o Ho|a jc o Ho]; [done|].
  destruct Ho as (_&_&doc&c&md&b&i&t&t'&_&_&_&_&_&->).
  assert (Hr : replaces j (moved j COMPLETED None t t')) by eauto with pipeline.
  split_and!; [|cbn|done..].
  - by apply (wf_jobs_replace _ job_id j).
  - rewrite (proj1 Hr), (wf_jobs_id _ Hwf _ _ Hj). apply lookup_insert_eq.
Qed.

Context (HPpub : forall w' ch j', jobs (w_db w') !! job_id = Some j' ->
  Job.status j' = QUEUED -> P w' (MqPublish ch queue (requeue_body job_id) true)).

(** The [except] clause of [_handle]: the failure handler, then the ack. *)
Lemma except_spec n mx x jr wr Q :
  wf_jobs (jobs (w_db wr)) -> jobs (w_db wr) !! job_id = Some jr -> w_tx wr = TxActive [] ->
  (forall w', failure_result queue job_id n mx x wr jr (Ok tt) w' ->
   Q (Ok tt) (settle w' tag Acked)) ->
  (forall y r w', unhealthy wr -> failure_result queue job_id n mx x wr jr r w' ->
   Q (Exn y) w') ->
  WP (RabbitMQConsumer._handle_failure queue job_id n mx x ;;; trigger (MsgAck tag)) Q wr.
Proof.
  intros Hwf Hj Htx Hok Hbad. wp_norm. apply (handle_failure_spec job_id n mx x jr); try done.
  intros r w' Hr.
  pose proof (failure_result_health _ _ _ _ _ _ _ _ _ Hr) as Hh.
  destruct r as [[]|y]; cbn beta iota; unfold then_.
  - wp_event; [apply HPack|].
    destruct Hd as [(_ & [] & -> & ->)|(Hf & z & Hz & -> & ->)]; [by apply Hok|].
    rewrite Hh in Hf. eapply Hbad; [by right; right; right|done].
  - eapply Hbad; [|done]. by inversion Hr.
Qed.

Lemma process_claimed_spec j w Q :
  wf_jobs (jobs (w_db w)) -> jobs (w_db w) !! job_id = Some j -> Job.status j = STARTED ->
  w_tx w = TxActive [] ->
  (forall a jc o, full_output bucket job_id w j a jc o ->
   Q (Ok tt) (settle (completed_world w a jc o) tag Acked)) ->
  (forall jr wr x w', attempt bucket job_id w j jr wr ->
   ~ can_process bucket w j \/ unhealthy w ->
   failure_result queue job_id (Job.attempts j) (Job.max_attempts j) x wr jr (Ok tt) w' ->
   Q (Ok tt) (settle w' tag Acked)) ->
  (forall y jr wr x r w', unhealthy w -> attempt bucket job_id w j jr wr ->
   failure_result queue job_id (Job.attempts j) (Job.max_attempts j) x wr jr r w' ->
   Q (Exn y) w') ->
  WP (RabbitMQConsumer._process_claimed queue msg job_id (job_dto j)) Q w.
Proof.
  intros Hwf Hj Hst Htx Hok Hfail Hbad. unfold RabbitMQConsumer._process_claimed.
  assert (Hexc : forall x jr wr, attempt bucket job_id w j jr wr ->
    ~ can_process bucket w j \/ unhealthy w ->
    WP (RabbitMQConsumer._handle_failure queue job_id (JobDTO.attempts (job_dto j))
          (JobDTO.max_attempts (job_dto j)) x ;;; trigger (MsgAck tag)) Q wr).
  { intros x jr wr Hat Hcause.
    destruct (attempt_row w j jr wr) as (Hwf' & Hj' & Htx' & Hh); eauto with pipeline.
    apply (except_spec _ _ x jr); try done.
    - intros w' Hr. by apply (Hfail jr wr x).
    - intros y r w' Hu Hr. apply (Hbad y jr wr x r); try done.
      unfold unhealthy in *. by rewrite <- Hh. }
  wp_log. wp_event. destruct Hd as [-> [start ->]]. wp_norm.
  apply (process_session j w); [done..| |exact Hexc].
  intros a jr o Ho. cbn beta iota. wp_event. destruct Hd as [-> [now ->]]. wp_log.
  wp_event; [apply HPack|].
  destruct Hd as [(_ & [] & -> & ->)|(Hf & z & Hz & -> & ->)]; [by apply Hok|].
  cbn beta iota. apply (Hexc z jr (completed_world w a jr o)); [by apply AT_completed|].
  right. by right; right; right.
Qed.

(** Every outcome of [_handle] on a message with a job id. *)
Lemma handle_spec w Q :
  wf_jobs (jobs (w_db w)) -> w_tx w = TxActive [] ->
  (forall w', P w' (MsgNack tag true)) ->
  RabbitMQConsumer.parse_job_id limit (msg_body msg) = Ok (Some job_id) ->
  (forall r w', handle_result bucket queue job_id tag w r w' -> Q r w') ->
  WP (RabbitMQConsumer._handle queue limit msg) Q w.
Proof.
  intros Hwf Htx HPn Hparse HQ. unfold RabbitMQConsumer._handle. rewrite Hparse.
  wp_log. wp_log. wp_norm. apply check_queued_spec; [done| | |].
  - intros j Hj Hst. cbn [then_ negb]. wp_norm.
    apply (claim_spec job_id j); try done.
    + intros Hwk t t'. cbn beta iota. wp_norm.
      assert (Hr : replaces j (claimed j t t')) by (apply moved_replaces; auto with pipeline).
      assert (Hj' : jobs (w_db (put_job w (claimed j t t'))) !! job_id
                    = Some (claimed j t t')).
      { rewrite <- (wf_jobs_id _ Hwf _ _ Hj), <- (proj1 Hr). apply put_job_lookup. }
      assert (Hatt : Job.attempts (claimed j t t') = (Job.attempts j + 1)%Z) by (by destruct j).
      assert (Hmax : Job.max_attempts (claimed j t t') = Job.max_attempts j) by (by destruct j).
      apply process_claimed_spec; rewrite ?Hatt, ?Hmax; try done.
      * by apply (wf_jobs_replace _ job_id j).
      * by destruct j.
      * intros a jc o Ho. apply HQ. by apply HR_completed.
      * intros jr wr x w' Hat Hc Hr'. apply HQ. by eapply HR_failed.
      * intros y jr wr x r w' Hu Hat Hr'. apply HQ, HR_raised; [done|]. by eapply AB_attempted.
    + intros Hf. cbn beta iota. apply HQ. by eapply HR_nacked.
    + intros Hu y w' Hw'. cbn beta iota. apply HQ, HR_raised; [done|].
      destruct Hw' as [->|[(t & t' & ->)|[Hf ->]]]; [apply AB_unchanged| |by apply AB_nacked].
      by eapply AB_claimed.
  - intros Hn. cbn [then_ negb]. apply HQ. by apply HR_dropped.
  - intros Hu y w' Hw'. cbn [then_]. apply HQ, HR_raised; [done|].
    destruct Hw' as [->|[Hn ->]]; [apply AB_unchanged|by apply AB_dropped].
Qed.

(** A body that is not a job message. *)
Lemma handle_poison_spec w Q :
  RabbitMQConsumer.parse_job_id limit (msg_body msg) = Ok None ->
  Q (Ok tt) (settle w tag Acked) ->
  (fails (h_ack (w_health w)) -> forall x, Q (Exn x) w) ->
  WP (RabbitMQConsumer._handle queue limit msg) Q w.
Proof.
  intros Hparse Hok Hbad. unfold RabbitMQConsumer._handle. rewrite Hparse.
  wp_log. wp_log. wp_event; [apply HPack|].
  destruct Hd as [(_ & [] & -> & ->)|(Hf & x & Hx & -> & ->)]; [done|by apply Hbad].
Qed.
End handle.
End consumer.
