(* ===== verification/ApiSpec.v ===== *)
(** * The API services against the contracts they are given

    [create_result] describes every outcome of [JobService.create] in the session
    of a request; the other services read, or insert one row. *)

From S2P Require Import Prelude PyStr PyUuid Json Sha256 Dtos Exceptions Models Program.
From S2P Require Import Interfaces Environment Container Logic Contracts ApiServices.
From S2P Require Import ProcessingSpec ConsumerSpec.

Section create_result.
Context (bucket queue : string) (threshold : Z) (dto : CreateJobDTO.t).

(** The document the request names, if it belongs to the account. *)
Definition requested_document (d : tables) : option Document.t :=
  select (fun x => (Document.account_id x =? CreateJobDTO.account_id dto)%Z)
    (documents d !! CreateJobDTO.document_id dto).

Definition uploaded (w : world) (doc : Document.t) : Prop :=
  is_Some (w_objects w !! (bucket, Document.object_key doc)).

(** Another job of the account for the document is queued or started. *)
Definition active_job (d : tables) : Prop :=
  exists k j, jobs d !! k = Some j /\ Job.active j = true /\
    Job.account_id j = CreateJobDTO.account_id dto /\
    Job.document_id j = CreateJobDTO.document_id dto.

(** A service fails, or the ids or the account are missing. *)
Definition create_trouble (w : world) : Prop :=
  let h := w_health w in
  fails (h_sql h) \/ fails (h_txn h) \/ fails (h_mq h) \/ fails (h_s3 h)
  \/ fails (h_ids h) \/ ~ (exists v, valid_uuid v /\ unused (w_db w) v)
  \/ accounts (w_db w) !! CreateJobDTO.account_id dto = None.

Definition job_body (j : Job.t) : bytes := dumps (JobService.message_payload (job_dto j)).

(** The row of the job [create] inserts. *)
Definition created_row (i : draw) : Job.t :=
  queued_job (drawn_id i) dto (drawn_t i) (drawn_t' i).

Inductive create_result (w : world) : result exn JobDTO.t -> world -> Prop :=
| CR_no_document :
    requested_document (w_db w) = None ->
    create_result w (Exn (ERaise DocumentNotFoundException)) w
| CR_not_uploaded doc :
    requested_document (w_db w) = Some doc -> ~ uploaded w doc ->
    create_result w (Exn (ERaise DocumentNotUploadedException)) w
| CR_backpressure doc c :
    requested_document (w_db w) = Some doc -> uploaded w doc ->
    (threshold <= depth w queue)%Z ->
    create_result w (Exn (ERaise BackpressureException)) (set_cached w c)
| CR_active doc c :
    requested_document (w_db w) = Some doc -> uploaded w doc ->
    (depth w queue < threshold)%Z \/ fails (h_mq (w_health w)) -> active_job (w_db w) ->
    create_result w (Exn (ERaise ActiveJobExistsException)) (set_cached w c)
| CR_created doc i c c' :
    requested_document (w_db w) = Some doc -> uploaded w doc ->
    (depth w queue < threshold)%Z \/ fails (h_mq (w_health w)) ->
    ~ active_job (w_db w) ->
    jobs (w_db w) !! drawn_id i = None -> valid_uuid (drawn_id i) ->
    create_result w (Ok (job_dto (created_row i)))
      (set_cached (published (declared (put_job (set_cached w c) (created_row i)) queue)
                     queue (job_body (created_row i))) c')
| CR_trouble y w' :
    create_trouble w ->
    (exists c, w' = set_cached w c \/
       ~ active_job (w_db w) /\ exists i,
         jobs (w_db w) !! drawn_id i = None /\
         (w' = put_job (set_cached w c) (created_row i) \/
          enqueue_outcome (put_job (set_cached w c) (created_row i)) queue
            (job_body (created_row i)) w')) ->
    create_result w (Exn y) w'.
End create_result.

(** ** Constraints of a new job *)

Lemma slot_taken_active_job d dto i :
  wf_jobs (jobs d) -> jobs d !! drawn_id i = None ->
  slot_taken d (created_row dto i) = true <-> active_job dto d.
Proof.
  intros Hwf Hnone. unfold slot_taken, active_job. rewrite map_exists_true.
  split.
  - intros (k & j & Hj & Hs). exists k, j.
    apply andb_true_iff in Hs as [_ Hs]. unfold same_slot in Hs.
    rewrite !andb_true_iff, Z.eqb_eq, N.eqb_eq in Hs. cbn in Hs.
    destruct Hs as [[[_ Ha] E1] E2]. by rewrite E1, E2.
  - intros (k & j & Hj & Ha & E1 & E2). exists k, j. split; [done|].
    rewrite andb_true_iff. split.
    + rewrite negb_true_iff, N.eqb_neq, (wf_jobs_id _ Hwf _ _ Hj). cbn.
      intros ->. by rewrite Hnone in Hj.
    + unfold same_slot. rewrite Ha, E1, E2, Z.eqb_refl, N.eqb_refl. done.
Qed.

Lemma elem_of_violated b c c' : c' ∈ violated b c <-> b = true /\ c' = c.
Proof.
  unfold violated. destruct b; [|split; [intros H; by apply not_elem_of_nil in H|by intros []]].
  rewrite list_elem_of_singleton. naive_solver.
Qed.

Lemma violated_nil b c : violated b c = [] <-> b = false.
Proof. by destruct b. Qed.

(** The constraints a new job can break. *)
Lemma job_violations_none d dto i :
  wf_jobs (jobs d) -> job_violations d (created_row dto i) = [] ->
  jobs d !! drawn_id i = None /\ ~ active_job dto d.
Proof.
  intros Hwf Hv. unfold job_violations in Hv.
  apply app_eq_nil in Hv as [Hp Hv]. apply app_eq_nil in Hv as [Hs _].
  apply violated_nil in Hp. apply violated_nil in Hs.
  apply bool_decide_eq_false in Hp. rewrite <- eq_None_not_Some in Hp.
  split; [exact Hp|]. intros Ha. apply (slot_taken_active_job _ _ i) in Ha; [|done..].
  congruence.
Qed.

Lemma job_violations_cause w dto i doc c :
  wf_jobs (jobs (w_db w)) -> id_drawn w i ->
  requested_document dto (w_db w) = Some doc ->
  c ∈ job_violations (w_db w) (created_row dto i) ->
  (c = OneActiveJobPerDocument /\ active_job dto (w_db w)) \/ create_trouble dto w.
Proof.
  intros Hwf [_ Hi] Hdoc Hc. unfold create_trouble.
  destruct (decide (h_ids (w_health w) = Up)) as [Hup|]; [|by right; do 4 right; left].
  destruct (jobs (w_db w) !! drawn_id i) as [j|] eqn:Hj.
  { right. do 5 right. left. intros Hex. destruct (Hi Hup Hex) as (_ & Hn & _). congruence. }
  unfold job_violations in Hc.
  rewrite !elem_of_app, !elem_of_violated in Hc.
  destruct Hc as [[Hc _]|[[Hc ->]|[[Hc _]|[Hc _]]]].
  - apply bool_decide_eq_true in Hc. cbn in Hc. rewrite Hj in Hc. by destruct Hc.
  - left. split; [done|]. by apply (slot_taken_active_job _ _ i) in Hc.
  - right. do 6 right. by apply bool_decide_eq_true in Hc.
  - apply bool_decide_eq_true in Hc. cbn in Hc. unfold requested_document in Hdoc.
    by rewrite Hc in Hdoc.
Qed.

Section api.
Context (P : world -> event -> Prop) `{!Lenient P}.
Context (client : s3_client) (bucket queue : string) (threshold : Z).
Context `{HA : !AccountRepositoryContract P R_acc} `{HD : !DocumentRepositoryContract P R_doc}
  `{HR : !ArtifactRepositoryContract P R_art} `{HJ : !JobRepositoryContract P R_job}
  `{HM : !MessagingContract P M_obj} `{HS : !StorageContract P S_obj client bucket}.
Abbreviation WP := (wp (monitored P)).

(** The second half of [create]: the insert, the commit and the message. *)
Lemma insert_and_publish_spec dto depth_read doc w c Q :
  wf_jobs (jobs (w_db w)) -> w_tx w = TxActive [] ->
  requested_document dto (w_db w) = Some doc -> uploaded bucket w doc ->
  (depth w queue < threshold)%Z \/ fails (h_mq (w_health w)) ->
  (forall w' ch i, jobs (w_db w') !! drawn_id i = Some (created_row dto i) ->
   P w' (MqPublish ch queue (job_body (created_row dto i)) true)) ->
  (forall r w', create_result bucket queue threshold dto w r w' -> Q r w') ->
  WP (let* job := job_create dto in
      trigger Commit ;;;
      enqueue queue (JobService.message_payload job) ;;;
      trigger (Log Debug "job.enqueued"
        [("job_id", LUuid (JobDTO.id job)); ("document_id", LUuid (JobDTO.document_id job));
         ("queue_depth", LInt depth_read)]) ;;;
      Ret job) (session_post Q) (set_cached w c).
Proof.
  intros Hwf Htx Hdoc Hup Hdepth HPpub HQ. set (w0 := set_cached w c).
  assert (Htx0 : w_tx w0 = TxActive []) by done. pose proof (set_tx_same w0 _ Htx0) as Hw0.
  assert (Htrouble : forall y, create_trouble dto w -> Q (Exn y) w0).
  { intros y Ht. apply HQ, CR_trouble; [done|]. exists c. by left. }
  assert (Hraise : forall y tx, create_trouble dto w -> session_post Q (Exn y) (set_tx w0 tx)).
  { intros y tx Ht. eapply (session_quiet _ _ _ w0); [by right|exact Hw0|by apply Htrouble|].
    intros; by apply Htrouble. }
  wp_norm. apply (job_create_rule P dto w0 [] _ Htx0); cbn [view apply_writes fold_left].
  2: { intros x i Hi [[Hf _]|(_ & v & Hv & ->)].
       - cbn beta iota. apply Hraise. by left.
       - destruct (job_violations_cause w dto i doc v) as [[-> Ha]|Ht]; try done;
           [|cbn beta iota; by apply Hraise].
         cbn beta iota.
         eapply (session_quiet _ _ _ w0); [by right|exact Hw0| |].
         + unfold job_conflict. rewrite bool_decide_eq_true_2 by done.
           apply HQ. by apply (CR_active _ _ _ _ _ doc).
         + intros Hf y Hy. apply Htrouble. by right; left. }
  intros _ i Hi Hv. cbn beta iota. change (queued_job _ dto _ _) with (created_row dto i) in *.
  destruct (job_violations_none _ _ _ Hwf Hv) as [Hfresh Hna].
  assert (Hid : valid_uuid (drawn_id i)) by apply Hi.
  set (w1 := put_job w0 (created_row dto i)).
  assert (Hput : forall y w', create_trouble dto w ->
    w' = w1 \/ enqueue_outcome w1 queue (job_body (created_row dto i)) w' -> Q (Exn y) w').
  { intros y w' Ht Hw'. apply HQ, CR_trouble; [done|]. exists c. right. split; [done|].
    exists i. by split. }
  wp_event. destruct Hd as (db' & tx' & Hc & ->).
  destruct Hc as [(_ & -> & -> & ->)|(Hf & (y & Hy & ->) & Hdb & ->)].
  2: { cbn beta iota.
       assert (Ht : create_trouble dto w) by (by right; left).
       destruct Hdb as [->| ->]; [by apply (Hraise _ TxAborted)|].
       eapply (session_quiet _ _ _ w1); [by right|done| |]; intros; apply Hput; auto. }
  wp_norm. change (set_db _ _ _) with w1.
  apply (enqueue_rule P).
  - intros c' ch. apply HPpub. rewrite (mq_db _ _ (mq_frame_declared w1 queue c')).
    apply (put_job_lookup w0 (created_row dto i)).
  - intros _ c'. wp_norm. wp_log. wp_norm.
    set (w2 := set_cached _ c'). assert (Hw2 : mq_frame w1 w2) by apply mq_frame_published.
    eapply (session_quiet _ _ _ w2); [left| |by apply HQ, (CR_created _ _ _ _ _ doc)|].
    + by rewrite (mq_tx _ _ Hw2).
    + apply set_tx_same. by rewrite (mq_tx _ _ Hw2).
    + intros Hf y Hy. rewrite (mq_health _ _ Hw2) in Hf. apply Hput; [by right; left|].
      right. exists c'. by right; right.
  - intros Hf x w' Hx Ho. cbn beta iota.
    assert (Ht : create_trouble dto w) by (by right; right; left).
    assert (Hw' : set_tx w' (TxActive []) = w').
    { apply set_tx_same. by rewrite (mq_tx _ _ (mq_frame_outcome _ _ _ _ Ho)). }
    eapply (session_quiet _ _ _ w'); [by right|exact Hw'| |]; intros; apply Hput; auto.
Qed.

(** Every outcome of [create] in the session of its request. *)
Lemma job_create_spec dto w Q :
  wf_jobs (jobs (w_db w)) -> w_tx w = TxActive [] ->
  (forall w' ch i, jobs (w_db w') !! drawn_id i = Some (created_row dto i) ->
   P w' (MqPublish ch queue (job_body (created_row dto i)) true)) ->
  (forall r w', create_result bucket queue threshold dto w r w' -> Q r w') ->
  WP (open_session (JobService.create queue threshold dto)) Q w.
Proof.
  intros Hwf Htx HPpub HQ. pose proof (set_tx_same w _ Htx) as Hw.
  apply (session_rule P). unfold JobService.create. wp_norm.
  assert (Hw' : set_cached w (w_cached w) = w) by (by destruct w).
  assert (Htrouble : forall c y, create_trouble dto w -> Q (Exn y) (set_cached w c)).
  { intros c y Ht. apply HQ, CR_trouble; [done|]. exists c. by left. }
  assert (Hraise : forall c y tx, Q (Exn y) (set_cached w c) ->
     session_post Q (Exn y) (set_tx (set_cached w c) tx)).
  { intros c y tx HQy. eapply (session_quiet _ _ _ (set_cached w c)); [by right| |done|].
    - rewrite <- Hw at 2. done.
    - intros Hf z _. apply Htrouble. by right; left. }
  assert (Hstay : forall y tx, Q (Exn y) w -> session_post Q (Exn y) (set_tx w tx)).
  { intros y tx. rewrite <- Hw' at 1 2. apply Hraise. }
  apply (document_get_rule P _ _ w [] _ Htx).
  2: { intros Hf x Hx. apply Hstay. rewrite <- Hw'. apply Htrouble. by left. }
  intros _ r ->. rewrite Hw. cbn [view apply_writes fold_left then_].
  change (select _ _) with (requested_document dto (w_db w)).
  destruct (requested_document dto (w_db w)) as [doc|] eqn:Hdoc;
    cbn [fmap option_fmap option_map].
  2: { rewrite <- Hw. apply Hstay, HQ. by apply CR_no_document. }
  cbn [document_dto]. wp_norm.
  assert (Hno : ~ uploaded bucket w doc ->
    session_post Q (Exn (ERaise DocumentNotUploadedException)) w).
  { intros Hn. rewrite <- Hw. apply Hstay, HQ. by apply (CR_not_uploaded _ _ _ _ _ doc). }
  assert (Hs3 : fails (h_s3 (w_health w)) -> forall y, session_post Q (Exn y) w).
  { intros Hf y. rewrite <- Hw. apply Hstay. rewrite <- Hw'. apply Htrouble.
    by right; right; right; left. }
  apply (object_exists_rule P (bucket := bucket));
    [|intros Hf; by apply Hs3|intros Hf x Hx; by apply Hs3].
  intros _. cbn [then_]. case_bool_decide as Hup; cbn [negb]; [|by apply Hno].
  assert (Hmq : fails (h_mq (w_health w)) -> forall c y, session_post Q (Exn y) (set_cached w c)).
  { intros Hf c y. rewrite <- Hw at 1. apply (Hraise c y (TxActive [])), Htrouble.
    by right; right; left. }
  wp_norm. apply (queue_depth_rule P); cbn [then_].
  - intros _ c. destruct (Z.leb_spec threshold (depth w queue)) as [Hle|Hgt].
    + wp_norm. rewrite <- Hw at 1. apply (Hraise c _ (TxActive [])), HQ.
      by apply (CR_backpressure _ _ _ _ _ doc).
    + apply (insert_and_publish_spec dto _ doc); auto.
  - intros Hf c. destruct (threshold <=? 0)%Z.
    + wp_norm. by apply Hmq.
    + apply (insert_and_publish_spec dto _ doc); auto.
  - intros Hf x c Hx. by apply Hmq.
Qed.

(** ** The other services *)

(** A request that only reads one answer of the database. *)
Lemma reads_session {A} (m : prog A) (answer : tables -> A -> Prop) w Q :
  reads P m answer -> w_tx w = TxActive [] ->
  (works (h_sql (w_health w)) -> forall r, answer (w_db w) r -> Q (Ok r) w) ->
  (fails (h_sql (w_health w)) \/ fails (h_txn (w_health w)) -> forall x, Q (Exn x) w) ->
  WP (open_session m) Q w.
Proof.
  intros Hm Htx Hok Hbad. pose proof (set_tx_same w _ Htx) as Hw.
  apply (session_rule P). apply (Hm w [] _ Htx).
  - intros Hs r Hr. eapply (session_quiet _ _ _ w); [by left|exact Hw|by apply Hok|]. auto.
  - intros Hf x Hx. eapply (session_quiet _ _ _ w); [by right|exact Hw|auto|auto].
Qed.

(** [DocumentService.create]: the row and the upload URL. *)
Definition new_document (acc : Z) (u : uuid) (t : datetime) : Document.t :=
  Document.Make u (DocumentService._raw_key acc u) acc t.

Definition put_document (w : world) (r : Document.t) : world :=
  set_db w (apply_write (w_db w) (WDocument r)) (TxActive []).

Lemma document_create_spec acc w Q :
  w_tx w = TxActive [] ->
  (works (h_sql (w_health w)) -> works (h_s3 (w_health w)) ->
   forall u t url, uuid4_doc (h_ids (w_health w)) (w_db w) u ->
   document_violations (w_db w) (new_document acc u t) = [] ->
   Q (Ok (DocumentWithUploadUrlDTO.Make (document_dto (new_document acc u t)) url))
     (put_document w (new_document acc u t))) ->
  (forall x u t, uuid4_doc (h_ids (w_health w)) (w_db w) u ->
   fails (h_sql (w_health w)) \/ fails (h_s3 (w_health w)) \/ fails (h_txn (w_health w))
   \/ document_violations (w_db w) (new_document acc u t) <> [] -> Q (Exn x) w) ->
  (forall x u t, uuid4_doc (h_ids (w_health w)) (w_db w) u -> fails (h_txn (w_health w)) ->
   document_violations (w_db w) (new_document acc u t) = [] ->
   Q (Exn x) (put_document w (new_document acc u t))) ->
  WP (open_session (DocumentService.create acc)) Q w.
Proof.
  intros Htx Hok Hbad Hamb. pose proof (set_tx_same w _ Htx) as Hw.
  apply (session_rule P). unfold DocumentService.create.
  wp_event. destruct Hd as (-> & u & Hu & ->). wp_norm.
  apply (document_create_rule P _ w [] _ Htx); cbn [view apply_writes fold_left];
    change (fun t => Document.Make _ _ _ t) with (new_document acc u).
  - intros Hs t _ Hv. wp_norm. apply (generate_upload_url_rule P (bucket := bucket)).
    + intros H3 url. wp_norm.
      eapply session_writes; [done..|intros _; by apply Hok|].
      intros Hf y Hy. split; [by apply Hamb|].
      unfold set_tx. cbn. change (set_db _ _ _) with (set_tx w (TxActive [])). rewrite Hw.
      apply (Hbad _ u t Hu). by right; right; left.
    + intros Hf x Hx. cbn [then_].
      eapply (session_quiet _ _ _ w); [by right|exact Hw| |]; intros;
        apply (Hbad _ u t Hu); by right; left.
  - intros x t _ Hx. cbn [then_].
    assert (Hc : fails (h_sql (w_health w)) \/
                 document_violations (w_db w) (new_document acc u t) <> []).
    { destruct Hx as [[Hf _]|(_ & c & Hc & _)]; [by left|right].
      intros E. change (c ∈ document_violations (w_db w) (new_document acc u t)) in Hc.
      rewrite E in Hc. by apply not_elem_of_nil in Hc. }
    eapply (session_quiet _ _ _ w); [by right|exact Hw| |]; intros;
      apply (Hbad _ u t Hu); tauto.
Qed.

(** [ArtifactService.list_for_document]: one signed URL per artifact of the
    document, in the order of the rows. *)
Lemma sign_all_spec l w Q :
  (forall l', ArtifactWithUrlDTO.artifact <$> l' = l -> Q (Ok l') w) ->
  (fails (h_s3 (w_health w)) -> forall x, Q (Exn x) w) ->
  WP (ArtifactService.sign_all l) Q w.
Proof.
  intros Hok Hbad. revert Q Hok Hbad. induction l as [|a l IH]; intros Q Hok Hbad.
  - by apply (Hok []).
  - cbn [ArtifactService.sign_all]. wp_norm.
    apply (generate_download_url_rule P (bucket := bucket)); [|intros; by apply Hbad].
    intros _ url. wp_norm. apply IH; [|by intros; apply Hbad].
    intros l' <-. wp_norm. by apply Hok.
Qed.

Lemma list_for_document_spec doc acc w Q :
  w_tx w = TxActive [] ->
  (select (fun x => (Document.account_id x =? acc)%Z) (documents (w_db w) !! doc) = None ->
   Q (Exn (ERaise DocumentNotFoundException)) w) ->
  (forall rows l,
   is_Some (select (fun x => (Document.account_id x =? acc)%Z) (documents (w_db w) !! doc)) ->
   Permutation rows (document_artifacts (w_db w) doc acc) ->
   ArtifactWithUrlDTO.artifact <$> l = artifact_dto <$> rows -> Q (Ok l) w) ->
  (fails (h_sql (w_health w)) \/ fails (h_s3 (w_health w)) \/ fails (h_txn (w_health w)) ->
   forall x, Q (Exn x) w) ->
  WP (open_session (ArtifactService.list_for_document doc acc)) Q w.
Proof.
  intros Htx Hno Hok Hbad. pose proof (set_tx_same w _ Htx) as Hw.
  assert (Hquiet : forall r tx, (is_ok r = true -> tx = TxActive []) -> Q r w ->
    session_post Q r (set_tx w tx)).
  { intros r tx Hr HQ. eapply (session_quiet _ _ _ w); [|exact Hw|done|].
    - destruct r; [left; by rewrite Hr|by right].
    - intros. apply Hbad. auto. }
  apply (session_rule P). unfold ArtifactService.list_for_document. wp_norm.
  apply (document_get_rule P _ _ w [] _ Htx); cbn [view apply_writes fold_left];
    [|intros; apply Hquiet; [done|]; apply Hbad; auto].
  intros _ r ->. cbn [then_]. rewrite Hw.
  destruct (select _ _) as [x|] eqn:Hx; cbn [fmap option_fmap option_map].
  2: { wp_norm. rewrite <- Hw. apply Hquiet; [done|by apply Hno]. }
  wp_norm. apply (artifact_list_rule P _ _ w [] _ Htx); cbn [view apply_writes fold_left];
    [|intros; apply Hquiet; [done|]; apply Hbad; auto].
  intros _ r (rows & Hp & ->). cbn [then_]. rewrite Hw. apply sign_all_spec.
  - intros l Hl. rewrite <- Hw. apply Hquiet; [done|]. by apply (Hok rows).
  - intros Hf y. rewrite <- Hw. apply Hquiet; [done|]. apply Hbad. auto.
Qed.
End api.
