(* ===== verification/Reference.v ===== *)
(** * A concrete environment

    [reference plan] answers every event by computation: it is the environment
    the examples of the development are run in.  A flaky service works at the
    [n]-th event when [plan n] says so.  [reference_conforming] shows that it
    keeps the documented promises, so these can be kept. *)

From stdpp Require Import pretty.
From S2P Require Import Prelude PyStr PyUuid Dtos Exceptions Models Program Environment.

Section reference.
Context (plan : nat -> bool).

Definition works_at (h : svc) (n : nat) : bool :=
  match h with Up => true | Down => false | Flaky => plan n end.

(** The exceptions of failing services. *)
Definition db_error : exn := ESqlAlchemy false "connection lost".
Definition s3_error : exn := EClient "500" "internal error".
Definition amqp_error : exn := EAmqp false "connection lost".
Definition other_error : exn := EOther "RuntimeError" "cannot open document".

Definition select_account (d : tables) (h : string) : option Account.t :=
  option_map snd
    (List.find (fun kv => bool_decide (Account.api_key_hash kv.2 = Some h))
       (map_to_list (accounts d))).

(** The answer and the writes of a statement that breaks no constraint. *)
Definition stmt_result (d : tables) (s : stmt) : rows s * list write :=
  match s return rows s * list write with
  | SelectAccount h => (select_account d h, [])
  | SelectDocument i acc =>
      (select (fun x => (Document.account_id x =? acc)%Z) (documents d !! i), [])
  | SelectJob i acc => (select (job_matches acc) (jobs d !! i), [])
  | SelectArtifacts doc acc => (document_artifacts d doc acc, [])
  | InsertDocument x => (x, [WDocument x])
  | InsertJob x => (x, [WJob x])
  | UpdateJob i expected vs =>
      match select (has_status expected) (jobs d !! i) with
      | Some j => (Some (assign_all j vs), [WJob (assign_all j vs)])
      | None => (None, [])
      end
  | UpsertArtifact x =>
      let r := match upsert_target d x with Some old => upsert_row old x | None => x end in
      (r, [WArtifact r])
  end.

Definition exec_result (h : svc) (n : nat) (db : tables) (tx : txn) (s : stmt)
  : result exn (rows s) * txn :=
  match tx with
  | TxAborted => (Exn db_error, TxAborted)
  | TxActive ws =>
      if works_at h n then
        match stmt_violations (view db ws) s with
        | [] => let '(v, new) := stmt_result (view db ws) s in
                (Ok v, TxActive (ws ++ new))
        | c :: _ => (Exn (ESqlAlchemy true (constraint_name c)), TxAborted)
        end
      else (Exn db_error, TxAborted)
  end.

Definition commit_result (h : svc) (n : nat) (db : tables) (tx : txn)
  : result exn unit * (tables * txn) :=
  match tx with
  | TxAborted => (Ok tt, (db, TxActive []))
  | TxActive [] => (Ok tt, (db, TxActive []))
  | TxActive ws =>
      if works_at h n then (Ok tt, (apply_writes db ws, TxActive []))
      else (Exn db_error, (db, TxAborted))
  end.

(** The least id no row has. *)
Definition used_ids (d : tables) : gset uuid := dom (documents d) ∪ dom (jobs d) ∪ dom (artifacts d).

Fixpoint first_unused (X : gset uuid) (fuel : nat) (u : uuid) : uuid :=
  match fuel with
  | O => u
  | S fuel => if bool_decide (u ∈ X) then first_unused X fuel (N.succ u) else u
  end.

Definition fresh_uuid (d : tables) : uuid :=
  let u := first_unused (used_ids d) (size (used_ids d)) 0%N in
  if (u <? 2 ^ 128)%N then u else 0%N.

(** An answer or a failure. *)
Definition answer {A} (h : svc) (n : nat) (w : world) (fault : exn) (v : A) (w' : world)
  : result exn A * world :=
  if works_at h n then (Ok v, w') else (Exn fault, w).

Definition respond (n : nat) (w : world) (e : event) : result exn (resp e) * world :=
  let h := w_health w in
  match e return result exn (resp e) * world with
  | Now | PerfCounter => (Ok (Z.of_nat n), w)
  | Uuid4 => (Ok (fresh_uuid (w_db w)), w)
  | Log _ _ _ | CtxClear | CtxBind _ _ => (Ok tt, w)
  | AsgiSend m => answer (h_http h) n w other_error tt (send_asgi w m)
  | Exec s =>
      let '(r, tx') := exec_result (h_sql h) n (w_db w) (w_tx w) s in
      (r, set_db w (w_db w) tx')
  | Commit =>
      let '(r, (db', tx')) := commit_result (h_txn h) n (w_db w) (w_tx w) in
      (r, set_db w db' tx')
  | Rollback | Close => (Ok tt, set_db w (w_db w) (TxActive []))
  | S3Presign _ m b k _ => answer (h_s3 h) n w s3_error (m ++ ":" ++ b ++ "/" ++ k)%string w
  | S3Head _ b k =>
      if works_at (h_s3 h) n then
        match w_objects w !! (b, k) with
        | Some _ => (Ok tt, w)
        | None => (Exn (EClient "404" "Not Found"), w)
        end
      else (Exn s3_error, w)
  | S3Get _ b k =>
      if works_at (h_s3 h) n then
        match w_objects w !! (b, k) with
        | Some c => (Ok c, w)
        | None => (Exn (EClient "NoSuchKey" "Not Found"), w)
        end
      else (Exn s3_error, w)
  | S3Read c => if works_at (h_s3 h) n then (Ok c, w) else (Exn other_error, w)
  | S3Put _ b k c =>
      answer (h_s3 h) n w s3_error tt (set_objects w (<[(b, k) := c]> (w_objects w)))
  | MqCached => (Ok (w_cached w), w)
  | MqIsClosed _ => (Ok false, w)
  | MqConnect _ | MqChannel _ => answer (h_mq h) n w amqp_error (N.of_nat n) w
  | MqStore c => (Ok tt, set_cached w (Some c))
  | MqDeclare _ q _ passive =>
      if passive then
        if works_at (h_mq h) n then
          match w_queues w !! q with
          | Some _ => (Ok (Some (depth w q)), w)
          | None => (Exn (EAmqp true "no queue"), w)
          end
        else (Exn amqp_error, w)
      else answer (h_mq h) n w amqp_error (Some (depth w q)) (declared w q)
  | MqPublish _ q b _ => answer (h_mq h) n w amqp_error tt (published w q b)
  | MqCloseChannel _ => answer (h_mq h) n w amqp_error tt w
  | MsgAck tag => answer (h_ack h) n w amqp_error tt (settle w tag Acked)
  | MsgNack tag requeue =>
      answer (h_ack h) n w amqp_error tt (settle w tag (Nacked requeue))
  | PdfOpen _ => answer (h_parser h) n w other_error 0%N w
  | PdfMarkdown _ => answer (h_parser h) n w other_error "# Title" w
  | ConsConnect _ | ConsChannel | ConsQos _ | ConsDeclare _ _ | ConsIterClose
  | ConsClose => answer (h_cons h) n w amqp_error tt w
  | ConsNext =>
      match w_inbox w with
      | m :: rest => answer (h_cons h) n w amqp_error (Delivery m) (set_inbox w rest)
      | [] => answer (h_cons h) n w amqp_error NoDelivery w
      end
  | StopIsSet => (Ok (w_stop w), set_stop w (w_stop w))
  end.

Definition reference : environment := respond.

(** ** It conforms *)

Lemma works_at_true h n : works_at h n = true -> works h.
Proof. by destruct h. Qed.

Lemma works_at_false h n : works_at h n = false -> fails h.
Proof. by destruct h. Qed.

Lemma answer_effect {A} h n w fault (fault_ok : exn -> Prop) (v : A) w'
    (good : A -> world -> Prop) (bad : world -> Prop) :
  fault_ok fault -> good v w' -> bad w ->
  effect h fault_ok good bad (answer h n w fault v w').1 (answer h n w fault v w').2.
Proof.
  intros Hf Hg Hb. unfold answer.
  destruct (works_at h n) eqn:E; simpl.
  - left. split; [by eapply works_at_true|eauto].
  - right. split; [by eapply works_at_false|eauto].
Qed.

Lemma answer_plain {A} h n w fault (fault_ok : exn -> Prop) (v : A) :
  fault_ok fault -> plain h fault_ok w (answer h n w fault v w).1 (answer h n w fault v w).2.
Proof.
  intros Hf. unfold answer, plain.
  destruct (works_at h n) eqn:E; simpl; (split; [done|]).
  - left. split; [by eapply works_at_true|eauto].
  - right. split; [by eapply works_at_false|eauto].
Qed.

Lemma mentions_name c : mentions c (constraint_name c).
Proof. by destruct c. Qed.

Lemma select_account_doc d h :
  stmt_doc d (SelectAccount h) (select_account d h) [].
Proof.
  simpl. split; [done|]. unfold select_account.
  destruct (List.find _ _) as [[k a]|] eqn:E; simpl.
  - apply find_some in E as [Hin Ha]. exists k. split.
    + by apply elem_of_map_to_list, list_elem_of_In.
    + by apply bool_decide_eq_true in Ha.
  - intros k a Hk Ha.
    pose proof (find_none _ _ E (k, a)) as Hn. simpl in Hn.
    rewrite bool_decide_eq_true_2 in Hn by done.
    discriminate Hn. by apply list_elem_of_In, elem_of_map_to_list.
Qed.

Lemma stmt_result_doc d s : stmt_doc d s (stmt_result d s).1 (stmt_result d s).2.
Proof.
  destruct s; try (by split).
  - apply select_account_doc.
  - simpl. by destruct (select _ _).
Qed.

Lemma exec_result_doc h n db tx s :
  exec_doc h db tx s (exec_result h n db tx s).1 (exec_result h n db tx s).2.
Proof.
  unfold exec_result. destruct tx as [ws|]; simpl; [|by exists db_error].
  destruct (works_at h n) eqn:E.
  - apply works_at_true in E. destruct (stmt_violations _ s) as [|c cs] eqn:Ev.
    + left. pose proof (stmt_result_doc (view db ws) s) as Hd.
      destruct (stmt_result _ s) as [v new]. split_and!; eauto.
    + right; left. split; [done|]. exists c, (constraint_name c).
      split_and!; [apply elem_of_cons; by left|apply mentions_name|done..].
  - right; right. apply works_at_false in E. split; [done|]. by exists db_error.
Qed.

Lemma commit_result_doc h n db tx :
  let r := commit_result h n db tx in commit_doc h db tx r.1 r.2.1 r.2.2.
Proof.
  destruct tx as [[|x ws]|]; simpl; [left; eauto| |by eauto].
  destruct (works_at h n) eqn:E; simpl.
  - left. apply works_at_true in E. by eauto.
  - right. apply works_at_false in E. split_and!; [done|by exists db_error|by left|done].
Qed.

(** The search stops at an unused id: the ids below it are all used. *)
Lemma first_unused_spec X fuel u :
  (forall v, (v < u)%N -> v ∈ X) -> size X = (N.to_nat u + fuel)%nat ->
  let r := first_unused X fuel u in (r ∉ X) /\ forall v, (v < r)%N -> v ∈ X.
Proof.
  revert u. induction fuel as [|fuel IH]; intros u Hlt Hsz; simpl.
  - split; [|done]. intros Hu.
    pose (l := N.of_nat <$> seq 0 (S (N.to_nat u))).
    assert ((list_to_set l : gset uuid) ⊆ X) as Hsub.
    { intros v Hv. apply elem_of_list_to_set, list_elem_of_fmap in Hv as (k & -> & Hk).
      apply elem_of_seq in Hk.
      destruct (decide (N.of_nat k = u)) as [->|]; [done|]. apply Hlt. lia. }
    apply subseteq_size in Hsub. rewrite size_list_to_set in Hsub.
    + unfold l in Hsub. rewrite length_fmap, length_seq in Hsub. lia.
    + apply NoDup_fmap_2; [intros ??; lia|apply NoDup_seq].
  - case_bool_decide as Hu; [|done]. apply IH; [|lia].
    intros v Hv. destruct (decide (v = u)) as [->|]; [done|]. apply Hlt. lia.
Qed.

Lemma fresh_uuid_doc h d : uuid4_doc h d (fresh_uuid d).
Proof.
  unfold uuid4_doc, fresh_uuid.
  destruct (first_unused_spec (used_ids d) (size (used_ids d)) 0%N) as [Hr Hlt]; [lia..|].
  set (u := first_unused _ _ _) in *. destruct (N.ltb_spec u (2 ^ 128)) as [Hu|Hu].
  - split; [done|]. intros _ _. unfold used_ids in Hr.
    rewrite !not_elem_of_union, !not_elem_of_dom in Hr. unfold unused. tauto.
  - split; [done|]. intros _ (v & Hv & Hn1 & Hn2 & Hn3).
    assert (v ∈ used_ids d) as Hin by (apply Hlt; unfold valid_uuid in Hv; lia).
    unfold used_ids in Hin. rewrite !elem_of_union, !elem_of_dom, Hn1, Hn2, Hn3 in Hin.
    by destruct Hin as [[[]|[]]|[]].
Qed.

#[export] Instance reference_conforming : Conforming reference.
Proof.
  intros n w e. unfold reference.
  destruct e; simpl;
    try (first [apply answer_plain; done | apply answer_effect; eauto; done]);
    try (split; [done|eauto]; done).
  - split; [done|]. eexists. split; [apply fresh_uuid_doc|done].
  - pose proof (exec_result_doc (h_sql (w_health w)) n (w_db w) (w_tx w) s) as H.
    destruct (exec_result _ _ _ _ _) as [r tx']. by exists tx'.
  - pose proof (commit_result_doc (h_txn (w_health w)) n (w_db w) (w_tx w)) as H.
    destruct (commit_result _ _ _ _) as [r [db' tx']]. by exists db', tx'.
  - exists (TxActive []). by repeat split; [..|left].
  - exists (TxActive []). by repeat split; [..|left].
  - destruct (works_at _ n) eqn:E; [apply works_at_true in E|apply works_at_false in E];
      [destruct (w_objects w !! _) eqn:Ew|]; simpl; rewrite ?Ew;
      (split; [done|]); eauto.
    right. split; [done|]. by exists s3_error.
  - destruct (works_at _ n) eqn:E; [apply works_at_true in E|apply works_at_false in E];
      [destruct (w_objects w !! _) eqn:Ew|]; simpl; rewrite ?Ew;
      (split; [done|]); eauto.
    right. split; [done|]. by exists s3_error.
  - destruct (works_at _ n) eqn:E; [apply works_at_true in E|apply works_at_false in E];
      (split; [done|]); eauto.
    right. split; [done|]. by exists other_error.
  - destruct passive; [|apply answer_effect; by eauto].
    destruct (works_at _ n) eqn:E; [apply works_at_true in E|apply works_at_false in E];
      [destruct (w_queues w !! _) eqn:Ew|]; simpl; rewrite ?Ew;
      (split; [done|]); eauto.
    right. split; [done|]. by exists amqp_error.
  - unfold answer.
    destruct (works_at _ n) eqn:E; [apply works_at_true in E|apply works_at_false in E];
      (split; [done|]); [left; by eauto|right; split; [done|]; by exists other_error].
  - unfold answer. destruct (w_inbox w) as [|m rest]; destruct (works_at _ n) eqn:E;
      [apply works_at_true in E; by left|right|apply works_at_true in E; by left|right];
      (split; [by eapply works_at_false|]); (split; [done|]); left; by exists amqp_error.
  - exists (w_stop w). by destruct w.
Qed.
End reference.
