(* ===== verification/WorkerOutcomes.v ===== *)
(** * Outcomes of the worker

    [RabbitMQConsumer._handle], wired as [worker/core/container.py] wires it, and
    what each of its outcomes does to the settled messages and to the rows. *)

From S2P Require Import Prelude PyStr PyUuid Json Dtos Exceptions Models Program.
From S2P Require Import Interfaces Settings Environment Container Logic Contracts.
From S2P Require Import Repositories Storage Messaging Worker Wiring Specs.
From S2P Require Import ProcessingSpec ConsumerSpec Reference.

(** ** The wired consumer *)

Section wired.
Context (P : world -> event -> Prop) `{!Lenient P}.
Context (S : BaseAppSettings.t) (limit : nat).
Abbreviation bucket := (BaseAppSettings.s3_bucket S).
Abbreviation queue := (BaseAppSettings.rabbitmq_queue S).
Abbreviation client := (S3StorageService._client (WorkerContainer.s3 S)).

#[export] Instance wired_processing :
  ProcessingContract P client bucket (WorkerContainer.processing_service S).
Proof.
  apply (processing_contract P client bucket).
Qed.

Lemma consumer_handle_spec msg job_id w Q :
  wf_jobs (jobs (w_db w)) -> w_tx w = TxActive [] ->
  RabbitMQConsumer.parse_job_id limit (msg_body msg) = Ok (Some job_id) ->
  (forall w' a, P w' (MsgAck a)) -> (forall w' a, P w' (MsgNack a true)) ->
  (forall w' c j', jobs (w_db w') !! job_id = Some j' -> Job.status j' = STARTED ->
   P w' (PdfOpen c)) ->
  (forall w' k c j', jobs (w_db w') !! job_id = Some j' -> Job.status j' = STARTED ->
   P w' (S3Put client bucket k c)) ->
  (forall w' ch j', jobs (w_db w') !! job_id = Some j' -> Job.status j' = QUEUED ->
   P w' (MqPublish ch queue (requeue_body job_id) true)) ->
  (forall r w', handle_result bucket queue job_id (msg_tag msg) w r w' -> Q r w') ->
  wp (monitored P) (WorkerContainer.consumer_handle S limit msg) Q w.
Proof.
  intros. unfold WorkerContainer.consumer_handle.
  apply (handle_spec P client bucket queue limit msg) with (job_id := job_id); auto.
Qed.

Lemma consumer_poison_spec msg w Q :
  RabbitMQConsumer.parse_job_id limit (msg_body msg) = Ok None ->
  (forall w' a, P w' (MsgAck a)) ->
  Q (Ok tt) (settle w (msg_tag msg) Acked) ->
  (fails (h_ack (w_health w)) -> forall x, Q (Exn x) w) ->
  wp (monitored P) (WorkerContainer.consumer_handle S limit msg) Q w.
Proof.
  intros Hp HPack Hok Hbad. unfold WorkerContainer.consumer_handle.
  by apply (handle_poison_spec P queue limit msg (fun w' => HPack w' _)).
Qed.

Lemma consumer_raise_spec msg x w Q :
  RabbitMQConsumer.parse_job_id limit (msg_body msg) = Exn x ->
  Q (Exn x) w -> wp (monitored P) (WorkerContainer.consumer_handle S limit msg) Q w.
Proof.
  intros Hp HQ. unfold WorkerContainer.consumer_handle, RabbitMQConsumer._handle.
  rewrite Hp. wp_log. wp_norm. exact HQ.
Qed.
End wired.

(** The outcome of handling one message. *)
Definition handled (env : environment) (S : BaseAppSettings.t) (limit n : nat) (w : world)
    (msg : message) : result exn unit * world :=
  run env n w (WorkerContainer.consumer_handle S limit msg).

(** A state in which the worker takes a message: a well-formed database and no
    open transaction. *)
Record ready (w : world) : Prop := Ready {
  ready_wf : wf_jobs (jobs (w_db w));
  ready_tx : w_tx w = TxActive []
}.

Lemma handled_result env `{!Conforming env} S limit n w msg job_id :
  ready w ->
  RabbitMQConsumer.parse_job_id limit (msg_body msg) = Ok (Some job_id) ->
  let out := handled env S limit n w msg in
  handle_result (BaseAppSettings.s3_bucket S) (BaseAppSettings.rabbitmq_queue S) job_id
    (msg_tag msg) w out.1 out.2.
Proof.
  intros [Hwf Htx] Hp.
  apply (wp_run env _ (handle_result _ _ job_id (msg_tag msg) w) n w). apply (consumer_handle_spec _ S limit msg job_id); auto.
Qed.

(** ** What an outcome leaves alone *)

(** The deliveries, and whether a transaction is open. *)
Record same_inbox (w w' : world) : Prop := SameInbox {
  si_settled : w_settled w' = w_settled w;
  si_health : w_health w' = w_health w;
  si_inbox : w_inbox w' = w_inbox w;
  si_stop : w_stop w' = w_stop w;
  si_tx : w_tx w = TxActive [] -> w_tx w' = TxActive []
}.

Lemma mq_same_inbox w w' : mq_frame w w' -> same_inbox w w'.
Proof. intros []. split; congruence. Qed.

Lemma put_job_same_inbox w j : same_inbox w (put_job w j).
Proof. by split. Qed.

Lemma same_inbox_trans w1 w2 w3 : same_inbox w1 w2 -> same_inbox w2 w3 -> same_inbox w1 w3.
Proof. intros [] []. split; [congruence..|auto]. Qed.

(** A published message is at the end of its queue. *)
Lemma published_queue w queue b c :
  w_queues (set_cached (published (declared w queue) queue b) c) !! queue
  = Some (default [] (w_queues w !! queue) ++ [b])%list.
Proof.
  destruct w as [db tx o q c0 se inb stp h]. unfold published, declared. cbn.
  destruct (q !! queue) as [l|] eqn:E; cbn.
  - rewrite E. cbn. by rewrite lookup_insert_eq.
  - rewrite lookup_insert_eq. cbn. by rewrite lookup_insert_eq.
Qed.

Section outcomes.
Context (bucket queue : string) (job_id : uuid) (tag : N).

Lemma failure_same_inbox n mx x w j r w' :
  failure_result queue job_id n mx x w j r w' -> same_inbox w w'.
Proof.
  intros [| |t t' c|t t' ? ? ? ? Ho|? ? ? [->|(_&t&t'&[->|[_ Ho]])]]; try by split.
  - eapply same_inbox_trans; [|apply mq_same_inbox, mq_frame_published]. by split.
  - eapply same_inbox_trans; [|by eapply mq_same_inbox, mq_frame_outcome]. by split.
  - eapply same_inbox_trans; [|by eapply mq_same_inbox, mq_frame_outcome]. by split.
Qed.

Lemma attempt_same_inbox w j jr wr : attempt bucket job_id w j jr wr -> same_inbox w wr.
Proof. intros []; by split. Qed.

Lemma attempted_same_inbox w j0 j jr wr n mx x r w' :
  attempt bucket job_id (put_job w j0) j jr wr ->
  failure_result queue job_id n mx x wr jr r w' -> same_inbox w w'.
Proof.
  intros Hat Hr. eapply same_inbox_trans; [apply (put_job_same_inbox w j0)|].
  eapply same_inbox_trans; [by eapply attempt_same_inbox|by eapply failure_same_inbox].
Qed.

(** At most one settlement, exactly one when the handler returns. *)
Lemma handle_result_settled w r w' :
  handle_result bucket queue job_id tag w r w' ->
  (exists s, w_settled w' = (w_settled w ++ [(tag, s)])%list)
  \/ is_ok r = false /\ w_settled w' = w_settled w.
Proof.
  intros [Hn|j Hj Hst Hf|j t t' a jc o Hj Hst Hwk Ho|j t t' jr wr x w2 Hj Hst Hwk Hat _ Hr
         |y w2 Hu [|Hn|Hf|j t t' Hj Hst|j t t' jr wr x r2 w3 Hj Hst Hwk Hat Hr]].
  - left. by exists Acked.
  - left. by exists (Nacked true).
  - left. by exists Acked.
  - left. exists Acked. cbn. by rewrite (si_settled _ _ (attempted_same_inbox _ _ _ _ _ _ _ _ _ _ Hat Hr)).
  - by right.
  - left. by exists Acked.
  - left. by exists (Nacked true).
  - by right.
  - right. split; [done|].
    exact (si_settled _ _ (attempted_same_inbox _ _ _ _ _ _ _ _ _ _ Hat Hr)).
Qed.

(** The messages still to come, and the stop event, are not touched. *)
Lemma handle_result_inbox w r w' :
  handle_result bucket queue job_id tag w r w' ->
  w_inbox w' = w_inbox w /\ w_stop w' = w_stop w /\ w_health w' = w_health w /\
  (w_tx w = TxActive [] -> w_tx w' = TxActive []).
Proof.
  intros [Hn|j Hj Hst Hf|j t t' a jc o Hj Hst Hwk Ho|j t t' jr wr x w2 Hj Hst Hwk Hat _ Hr
         |y w2 Hu [|Hn|Hf|j t t' Hj Hst|j t t' jr wr x r2 w3 Hj Hst Hwk Hat Hr]];
    try by split_and!.
  - by destruct (attempted_same_inbox _ _ _ _ _ _ _ _ _ _ Hat Hr).
  - by destruct (attempted_same_inbox _ _ _ _ _ _ _ _ _ _ Hat Hr).
Qed.

(** ** The rows *)

(** What one delivery can make of a queued row. *)
Inductive handled_row (j : Job.t) : Job.t -> Prop :=
| RowClaimed t t' : handled_row j (claimed j t t')
| RowCompleted t t' u u' : handled_row j (moved (claimed j t t') COMPLETED None u u')
| RowRetried t t' u u' m :
    (Job.attempts j + 1 < Job.max_attempts j)%Z ->
    handled_row j (moved (claimed j t t') QUEUED (Some m) u u')
| RowFailed t t' u u' m :
    (Job.max_attempts j <= Job.attempts j + 1)%Z ->
    handled_row j (moved (claimed j t t') FAILED (Some m) u u').

Lemma failure_row_handled j t t' x u u' :
  handled_row j (failure_row (Job.attempts j + 1) (Job.max_attempts j) x (claimed j t t') u u').
Proof.
  unfold failure_row, failure_status.
  destruct (Z.ltb_spec (Job.attempts j + 1) (Job.max_attempts j)).
  - by apply RowRetried.
  - by apply RowFailed.
Qed.

Lemma failure_jobs n mx x w j r w' :
  failure_result queue job_id n mx x w j r w' ->
  w_db w' = w_db w \/
  Job.status j = STARTED /\ exists t t',
    w_db w' = apply_write (w_db w) (WJob (failure_row n mx x j t t')).
Proof.
  intros [| t t' Hst _|t t' c Hst _|t t' ? Hst _ _ Ho|? ? ? [->|(Hst&t&t'&[->|[_ Ho]])]];
    [by left| | | |by left| |]; right; (split; [done|]); exists t, t'; try done.
  - exact (mq_db _ _ (mq_frame_published (put_job w (failure_row n mx x j t t')) _ _ _)).
  - exact (mq_db _ _ (mq_frame_outcome _ _ _ _ Ho)).
  - exact (mq_db _ _ (mq_frame_outcome _ _ _ _ Ho)).
Qed.

Lemma claimed_id j t t' : Job.id (claimed j t t') = Job.id j.
Proof. by destruct j. Qed.

Lemma attempted_rows w j t t' jr wr x r w' :
  wf_jobs (jobs (w_db w)) -> jobs (w_db w) !! job_id = Some j ->
  attempt bucket job_id (put_job w (claimed j t t')) (claimed j t t') jr wr ->
  failure_result queue job_id (Job.attempts j + 1) (Job.max_attempts j) x wr jr r w' ->
  exists j', handled_row j j' /\ jobs (w_db w') = <[job_id := j']> (jobs (w_db w)).
Proof.
  intros Hwf Hj Hat Hr. pose proof (wf_jobs_id _ Hwf _ _ Hj) as Hid.
  destruct Hat as [o Ho|a jc o (_&_&doc&c&md&b&i&u&u'&_&_&_&_&_&->)].
  - destruct (failure_jobs _ _ _ _ _ _ _ Hr) as [->|(_&v&v'&->)]; cbn.
    + exists (claimed j t t'). split; [apply RowClaimed|]. by rewrite claimed_id, Hid.
    + eexists. split; [apply failure_row_handled|].
      rewrite failure_row_id, claimed_id, Hid. by rewrite insert_insert_eq.
  - exists (moved (claimed j t t') COMPLETED None u u'). split; [apply RowCompleted|].
    destruct (failure_jobs _ _ _ _ _ _ _ Hr) as [->|(Hst&_)]; [|by destruct j].
    cbn. replace (Job.id (moved _ _ _ _ _)) with job_id by (rewrite <- Hid; by destruct j).
    by rewrite claimed_id, Hid, insert_insert_eq.
Qed.

(** Only the job of the message changes, and only as [handled_row] says. *)
Lemma handle_result_rows w r w' :
  wf_jobs (jobs (w_db w)) -> handle_result bucket queue job_id tag w r w' ->
  jobs (w_db w') = jobs (w_db w) \/
  exists j j', jobs (w_db w) !! job_id = Some j /\ Job.status j = QUEUED /\
    handled_row j j' /\ jobs (w_db w') = <[job_id := j']> (jobs (w_db w)).
Proof.
  intros Hwf [Hn|j Hj Hst Hf|j t t' a jc o Hj Hst Hwk Ho|j t t' jr wr x w2 Hj Hst Hwk Hat _ Hr
         |y w2 Hu [|Hn|Hf|j t t' Hj Hst|j t t' jr wr x r2 w3 Hj Hst Hwk Hat Hr]];
    try (by left); right.
  - exists j. destruct Ho as (_&_&doc&c&md&b&i&u&u'&_&_&_&_&_&->).
    exists (moved (claimed j t t') COMPLETED None u u').
    split_and!; try done; [apply RowCompleted|]. cbn.
    replace (Job.id (moved _ _ _ _ _)) with job_id
      by (rewrite <- (wf_jobs_id _ Hwf _ _ Hj); by destruct j).
    by rewrite claimed_id, (wf_jobs_id _ Hwf _ _ Hj), insert_insert_eq.
  - destruct (attempted_rows w j t t' jr wr x (Ok tt) w2) as (j' & Hr' & Hm); try done.
    by exists j, j'.
  - exists j, (claimed j t t'). split_and!; try done; [apply RowClaimed|].
    cbn. by rewrite claimed_id, (wf_jobs_id _ Hwf _ _ Hj).
  - destruct (attempted_rows w j t t' jr wr x r2 w3) as (j' & Hr' & Hm); try done.
    by exists j, j'.
Qed.
End outcomes.

(** Every row a delivery makes may replace the queued one. *)
Lemma handled_row_replaces j j' :
  Job.status j = QUEUED -> handled_row j j' -> replaces j j'.
Proof.
  intros Hst Hr. pose proof (queued_active _ Hst) as Ha.
  split; [by destruct Hr, j|]. intros _. by destruct Hr, j.
Qed.

Lemma handle_result_ready bucket queue job_id tag w r w' :
  ready w -> handle_result bucket queue job_id tag w r w' -> ready w'.
Proof.
  intros [Hwf Htx] Hr. split; [|by apply (handle_result_inbox _ _ _ _ _ _ _ Hr)].
  destruct (handle_result_rows _ _ _ _ _ _ _ Hwf Hr) as [->|(j & j' & Hj & Hst & Hrow & ->)];
    [done|].
  pose proof (handled_row_replaces _ _ Hst Hrow) as Hrep.
  pose proof (wf_jobs_replace _ _ _ _ Hwf Hj Hrep) as H.
  by rewrite (proj1 Hrep), (wf_jobs_id _ Hwf _ _ Hj) in H.
Qed.
