(* ===== verification/Examples.v ===== *)
(** * Concrete states

    One account, one uploaded document and one job, with the settings of a local
    deployment: the states the theorems are instantiated at. *)

From S2P Require Import Prelude PyUuid Json Dtos Exceptions Models Program Settings.
From S2P Require Import Environment ApiServices Worker ProcessingSpec ConsumerSpec.
From S2P Require Import WorkerOutcomes.

Definition demo_settings : BaseAppSettings.t := {|
  BaseAppSettings.app_env := "prod";
  BaseAppSettings.log_level := "INFO";
  BaseAppSettings.log_format := "json";
  BaseAppSettings.postgres_host := "db";
  BaseAppSettings.postgres_port := 5432;
  BaseAppSettings.postgres_db := "docs";
  BaseAppSettings.postgres_user := "app";
  BaseAppSettings.postgres_password := "secret";
  BaseAppSettings.rabbitmq_user := "app";
  BaseAppSettings.rabbitmq_password := "secret";
  BaseAppSettings.rabbitmq_host := "mq";
  BaseAppSettings.rabbitmq_port := 5672;
  BaseAppSettings.rabbitmq_queue := "jobs";
  BaseAppSettings.backpressure_threshold := 24;
  BaseAppSettings.s3_bucket := "docs";
  BaseAppSettings.aws_region := "us-east-1";
  BaseAppSettings.s3_endpoint_url := None;
  BaseAppSettings.s3_public_endpoint_url := None;
  BaseAppSettings.s3_access_key := None;
  BaseAppSettings.s3_secret_key := None
|}.

Definition demo_document : Document.t :=
  Document.Make 5%N (DocumentService._raw_key 1 5) 1 0.

(** A job of the document, in some status and after some attempts. *)
Definition demo_job (status : JobStatus) (attempts : Z) : Job.t :=
  Job.Make 7%N 1 5%N status [MARKDOWN] attempts 3 None 0 (Some 0%Z) None None None None.

Definition demo_message : message := Message 1 (dumps (requeue_payload 7)).

(** The PDF is stored and the queue is empty. *)
Definition demo_world (h : health) (js : gmap uuid Job.t) : world := {|
  w_db := Tables {[1%Z := Account.Make 1 (Some "hash")]} {[5%N := demo_document]} js ∅;
  w_tx := TxActive [];
  w_objects := {[("docs", Document.object_key demo_document) := "%PDF-1.7"]};
  w_queues := {["jobs" := []]};
  w_cached := None;
  w_settled := [];
  w_inbox := [demo_message];
  w_stop := false;
  w_sent := [];
  w_health := h
|}.

Definition one_job (status : JobStatus) (attempts : Z) : gmap uuid Job.t :=
  {[7%N := demo_job status attempts]}.

(** Healths of the examples. *)
Definition parser_down : health := Health Up Up Up Up Up Down Up Up Up.
Definition commits_down : health := Health Up Down Up Up Up Up Up Up Up.

Lemma wf_jobs_singleton k j : Job.id j = k -> wf_jobs {[k := j]}.
Proof.
  intros <-. split.
  - intros k' r H. by apply lookup_singleton_Some in H as [<- <-].
  - intros k1 k2 r1 r2 H1 H2 _.
    apply lookup_singleton_Some in H1 as [<- _]. by apply lookup_singleton_Some in H2 as [<- _].
Qed.

Lemma demo_ready h status attempts : ready (demo_world h (one_job status attempts)).
Proof. split; [by apply wf_jobs_singleton|done]. Qed.

Lemma demo_parse : RabbitMQConsumer.parse_job_id 100 (msg_body demo_message) = Ok (Some 7%N).
Proof. vm_compute. reflexivity. Qed.

Lemma demo_unused h status attempts :
  exists v, valid_uuid v /\ unused (w_db (demo_world h (one_job status attempts))) v.
Proof. exists 9%N. split; [done|]. by repeat split. Qed.

Lemma demo_lookup h status attempts k j :
  jobs (w_db (demo_world h (one_job status attempts))) !! k = Some j ->
  k = 7%N /\ j = demo_job status attempts.
Proof.
  change (one_job status attempts !! k = Some j -> k = 7%N /\ j = demo_job status attempts).
  unfold one_job. rewrite lookup_singleton_Some. by intros [<- <-].
Qed.
