(* ===== verification/WorkerTheorems.v ===== *)
(** * Theorems about the worker, one message at a time

    What [RabbitMQConsumer._handle] does to a delivered message, in every
    environment that keeps the documented promises. *)

From S2P Require Import Prelude PyStr PyUuid Json Dtos Exceptions Models Program.
From S2P Require Import Interfaces Settings Environment Container Logic Contracts.
From S2P Require Import Repositories Storage Messaging Worker Wiring Specs.
From S2P Require Import ProcessingSpec ConsumerSpec Reference WorkerOutcomes Examples.

(** C5: [_handle] on a message that names a job has no outcome but those of
    [handle_result], whatever the services do: the message is dropped, requeued, or
    the job is claimed and completed, retried or failed; an exception escapes only
    if a service failed, and leaves one of the states [aborted] lists. *)
Theorem handle_refines_spec env `{!Conforming env} S limit n w msg job_id :
  ready w ->
  RabbitMQConsumer.parse_job_id limit (msg_body msg) = Ok (Some job_id) ->
  let out := handled env S limit n w msg in
  handle_result (BaseAppSettings.s3_bucket S) (BaseAppSettings.rabbitmq_queue S) job_id
    (msg_tag msg) w out.1 out.2.
Proof. apply handled_result; auto. Qed.

Lemma handle_refines_spec_witness :
  let w := demo_world all_flaky (one_job QUEUED 0) in
  let out := handled (reference (fun n => negb (Nat.eqb n 20))) demo_settings 100 0 w
               demo_message in
  handle_result "docs" "jobs" 7 1 w out.1 out.2.
Proof.
  apply (handle_refines_spec (reference _) demo_settings 100 0
           (demo_world all_flaky (one_job QUEUED 0)) demo_message).
  - apply demo_ready.
  - apply demo_parse.
Defined.

(** C14: a delivered message is settled exactly once when [_handle] returns, and at
    most once when it raises, whatever its body and whatever the services do. *)
Theorem handle_settles_once env `{!Conforming env} S limit n w msg :
  ready w ->
  let out := handled env S limit n w msg in
  (exists s, w_settled out.2 = (w_settled w ++ [(msg_tag msg, s)])%list)
  \/ is_ok out.1 = false /\ w_settled out.2 = w_settled w.
Proof.
  intros Hr out.
  destruct (RabbitMQConsumer.parse_job_id limit (msg_body msg)) as [[job_id|]|x] eqn:Hp.
  - apply (handle_result_settled _ _ job_id _ _ _ _ (handled_result env S limit n w msg job_id Hr Hp)).
  - apply (wp_run env _ (fun r w' => (exists s, w_settled w' = (w_settled w ++ [(msg_tag msg, s)])%list)
      \/ is_ok r = false /\ w_settled w' = w_settled w) n w).
    apply consumer_poison_spec; auto; [apply lenient_True|]. left. by exists Acked.
  - apply (wp_run env _ (fun r w' => (exists s, w_settled w' = (w_settled w ++ [(msg_tag msg, s)])%list)
      \/ is_ok r = false /\ w_settled w' = w_settled w) n w).
    apply (consumer_raise_spec _ _ _ _ x); auto.
Qed.

Lemma handle_settles_once_witness :
  let w := demo_world all_flaky (one_job QUEUED 0) in
  let out := handled (reference (fun n => negb (Nat.eqb n 20))) demo_settings 100 0 w
               demo_message in
  (exists s, w_settled out.2 = (w_settled w ++ [(1%N, s)])%list)
  \/ is_ok out.1 = false /\ w_settled out.2 = w_settled w.
Proof.
  apply (handle_settles_once (reference _) demo_settings 100 0
           (demo_world all_flaky (one_job QUEUED 0)) demo_message).
  apply demo_ready.
Defined.

(** ** Success and failure of processing *)

Lemma claimed_document w j t t' :
  job_document (w_db (put_job w (claimed j t t'))) (claimed j t t')
  = job_document (w_db w) j.
Proof. by destruct j. Qed.

Lemma claimed_unused w j t t' :
  jobs (w_db w) !! Job.id j = Some j -> (exists v, valid_uuid v /\ unused (w_db w) v) ->
  exists v, valid_uuid v /\ unused (w_db (put_job w (claimed j t t'))) v.
Proof.
  intros Hj (v & Hv & Hd & Hn & Ha). exists v. split; [done|]. split_and!; [done| |done].
  cbn. rewrite claimed_id, lookup_insert_ne; [done|]. intros E. congruence.
Qed.

Lemma healthy_can_process bucket w j doc content t t' :
  w_health w = all_up -> jobs (w_db w) !! Job.id j = Some j ->
  (exists v, valid_uuid v /\ unused (w_db w) v) ->
  job_document (w_db w) j = Some doc ->
  w_objects w !! (bucket, Document.object_key doc) = Some content ->
  can_process bucket (put_job w (claimed j t t')) (claimed j t t').
Proof.
  intros Hh Hj Hu Hdoc Hc. unfold can_process. cbn [w_health put_job set_db]. rewrite Hh.
  split_and!; try done; [by apply claimed_unused|]. exists doc, content.
  by rewrite claimed_document.
Qed.

Lemma healthy_not_unhealthy w : w_health w = all_up -> ~ unhealthy w.
Proof. unfold unhealthy. intros ->. by intros [H|[H|[H|H]]]; apply H. Qed.

(** The upsert keeps the document of the row. *)
Lemma upserted_document d r : Artifact.document_id (upserted d r) = Artifact.document_id r.
Proof.
  unfold upserted, upsert_target. destruct (List.find _ _) as [[k old]|] eqn:E; [|done].
  apply find_some in E as [_ E]. cbn in *. unfold same_artifact in E.
  apply andb_true_iff in E as [E _]. by apply N.eqb_eq in E.
Qed.

(** The outcome of one healthy delivery of a queued job. *)
Lemma handled_completes env `{!Conforming env} S limit n w msg job_id j doc content :
  ready w -> w_health w = all_up ->
  RabbitMQConsumer.parse_job_id limit (msg_body msg) = Ok (Some job_id) ->
  jobs (w_db w) !! job_id = Some j -> Job.status j = QUEUED ->
  job_document (w_db w) j = Some doc ->
  w_objects w !! (BaseAppSettings.s3_bucket S, Document.object_key doc) = Some content ->
  (exists v, valid_uuid v /\ unused (w_db w) v) ->
  let out := handled env S limit n w msg in
  out.1 = Ok tt /\
  w_settled out.2 = (w_settled w ++ [(msg_tag msg, Acked)])%list /\
  w_queues out.2 = w_queues w /\
  (w_health out.2 = w_health w /\ w_tx out.2 = TxActive [] /\
   documents (w_db out.2) = documents (w_db w)) /\
  exists t t' u u' a b,
    jobs (w_db out.2)
      = <[job_id := moved (claimed j t t') COMPLETED None u u']> (jobs (w_db w)) /\
    artifacts (w_db out.2) = <[Artifact.id a := a]> (artifacts (w_db w)) /\
    Artifact.job_id a = job_id /\ Artifact.document_id a = Job.document_id j /\
    Artifact.object_key a = output_key j doc /\
    w_objects out.2
      = <[(BaseAppSettings.s3_bucket S, output_key j doc) := b]> (w_objects w).
Proof.
  intros Hr Hh Hp Hj Hst Hdoc Hc Hu out.
  pose proof (handled_result env S limit n w msg job_id Hr Hp) as Hres. fold out in Hres.
  clearbody out. destruct out as [r w']. cbn [fst snd] in *.
  assert (Hid : Job.id j = job_id) by exact (wf_jobs_id _ (ready_wf _ Hr) _ _ Hj).
  pose proof (healthy_not_unhealthy w Hh) as Hnu.
  destruct Hres as [Hn|j' Hj' Hst' Hf|j' t t' a jc o Hj' Hst' Hwk Ho
                   |j' t t' jr wr x w2 Hj' Hst' Hwk Hat Hc' Hres|]; [| | | |by destruct Hnu].
  - by destruct (Hn j Hj).
  - rewrite Hh in Hf. by destruct Hf.
  - assert (j' = j) as -> by congruence.
    destruct Ho as (_&_&doc'&c&md&b&i&u&u'&Hdoc'&_&Hb&->&[_ Ea]&->).
    rewrite claimed_document in Hdoc'. assert (doc' = doc) as -> by congruence.
    split_and!; try done.
    exists t, t', u, u', a, b. split_and!; try reflexivity.
    + cbn. replace (Job.id (moved _ _ _ _ _)) with job_id by (rewrite <- Hid; by destruct j).
      by rewrite claimed_id, Hid, insert_insert_eq.
    + rewrite Ea. unfold upserted. by destruct (upsert_target _ _).
    + rewrite Ea, upserted_document. by destruct j.
    + rewrite Ea. unfold upserted. destruct (upsert_target _ _); by destruct j.
    + cbn. by destruct j.
  - assert (j' = j) as -> by congruence. destruct Hc' as [Hc'|]; [|done].
    destruct Hc'. eapply healthy_can_process; eauto. by rewrite Hid.
Qed.

(** C15: when every service works and the document was uploaded, a queued job is
    completed by one delivery: the attempt is counted, the artifact row and object
    are written under the key of the account and document, nothing is published,
    and the message is acknowledged. *)
Theorem handle_completes env `{!Conforming env} S limit n w msg job_id j doc content :
  ready w -> w_health w = all_up ->
  RabbitMQConsumer.parse_job_id limit (msg_body msg) = Ok (Some job_id) ->
  jobs (w_db w) !! job_id = Some j -> Job.status j = QUEUED ->
  job_document (w_db w) j = Some doc ->
  w_objects w !! (BaseAppSettings.s3_bucket S, Document.object_key doc) = Some content ->
  (exists v, valid_uuid v /\ unused (w_db w) v) ->
  let out := handled env S limit n w msg in
  out.1 = Ok tt /\
  w_settled out.2 = (w_settled w ++ [(msg_tag msg, Acked)])%list /\
  w_queues out.2 = w_queues w /\
  exists t t' u u' a b,
    jobs (w_db out.2)
      = <[job_id := moved (claimed j t t') COMPLETED None u u']> (jobs (w_db w)) /\
    artifacts (w_db out.2) = <[Artifact.id a := a]> (artifacts (w_db w)) /\
    Artifact.job_id a = job_id /\ Artifact.object_key a = output_key j doc /\
    w_objects out.2
      = <[(BaseAppSettings.s3_bucket S, output_key j doc) := b]> (w_objects w).
Proof.
  intros Hr Hh Hp Hj Hst Hdoc Hc Hu out.
  destruct (handled_completes env S limit n w msg job_id j doc content)
    as (? & ? & ? & _ & t & t' & u & u' & a & b & ? & ? & ? & _ & ? & ?); try done.
  split_and!; [done..|]. by exists t, t', u, u', a, b.
Qed.

Lemma handle_completes_witness :
  let w := demo_world all_up (one_job QUEUED 0) in
  let out := handled (reference (fun _ => true)) demo_settings 100 0 w demo_message in
  out.1 = Ok tt /\
  w_settled out.2 = (w_settled w ++ [(1%N, Acked)])%list /\
  w_queues out.2 = w_queues w /\
  exists t t' u u' a b,
    jobs (w_db out.2)
      = <[7%N := moved (claimed (demo_job QUEUED 0) t t') COMPLETED None u u']> (jobs (w_db w)) /\
    artifacts (w_db out.2) = <[Artifact.id a := a]> (artifacts (w_db w)) /\
    Artifact.job_id a = 7%N /\
    Artifact.object_key a = output_key (demo_job QUEUED 0) demo_document /\
    w_objects out.2
      = <[("docs", output_key (demo_job QUEUED 0) demo_document) := b]> (w_objects w).
Proof.
  apply (handle_completes (reference _) demo_settings 100 0
           (demo_world all_up (one_job QUEUED 0)) demo_message 7 (demo_job QUEUED 0)
           demo_document "%PDF-1.7");
    [apply demo_ready|done|apply demo_parse|done|done|done|vm_compute; done|apply demo_unused].
Defined.

(** The document or the parser is not there: [process] cannot return. *)
Definition blocked (bucket : string) (w : world) (j : Job.t) : Prop :=
  h_parser (w_health w) = Down \/ h_s3 (w_health w) = Down \/
  forall doc, job_document (w_db w) j = Some doc ->
    w_objects w !! (bucket, Document.object_key doc) = None.

Lemma blocked_no_output bucket job_id w j t t' a jc o :
  blocked bucket w j ->
  ~ full_output bucket job_id (put_job w (claimed j t t')) (claimed j t t') a jc o.
Proof.
  intros Hb (H3&Hp&doc&c&md&b&i&u&u'&Hdoc&Hc&_). rewrite claimed_document in Hdoc.
  destruct Hb as [Hb|[Hb|Hb]]; [done|done|]. specialize (Hb doc Hdoc). cbn in Hc. congruence.
Qed.

(** What a failed attempt makes of the row and of the queue. *)
Definition retried (S : BaseAppSettings.t) (job_id : uuid) (j : Job.t) (w w' : world) : Prop :=
  exists t t' u u' m,
    jobs (w_db w') = <[job_id := moved (claimed j t t') QUEUED (Some m) u u']> (jobs (w_db w)) /\
    w_queues w' !! BaseAppSettings.rabbitmq_queue S
      = Some (default [] (w_queues w !! BaseAppSettings.rabbitmq_queue S)
              ++ [requeue_body job_id])%list.

Definition failed_for_good (job_id : uuid) (j : Job.t) (w w' : world) : Prop :=
  w_queues w' = w_queues w /\
  exists t t' u u' m,
    jobs (w_db w') = <[job_id := moved (claimed j t t') FAILED (Some m) u u']> (jobs (w_db w)).

Lemma attempt_blocked bucket queue job_id w j t t' jr wr x w' :
  wf_jobs (jobs (w_db w)) -> jobs (w_db w) !! job_id = Some j -> blocked bucket w j ->
  ~ unhealthy w -> attempt bucket job_id (put_job w (claimed j t t')) (claimed j t t') jr wr ->
  failure_result queue job_id (Job.attempts j + 1) (Job.max_attempts j) x wr jr (Ok tt) w' ->
  exists u u', let r := failure_row (Job.attempts j + 1) (Job.max_attempts j) x (claimed j t t') u u' in
    jobs (w_db w') = <[job_id := r]> (jobs (w_db w)) /\
    if (Job.attempts j + 1 <? Job.max_attempts j)%Z
    then w_queues w' !! queue
         = Some (default [] (w_queues w !! queue) ++ [requeue_body job_id])%list
    else w_queues w' = w_queues w.
Proof.
  intros Hwf Hj Hb Hnu Hat Hr. pose proof (wf_jobs_id _ Hwf _ _ Hj) as Hid.
  destruct Hat as [o Ho|a jc o Ho]; [|by destruct (blocked_no_output _ _ _ _ _ _ _ _ _ Hb Ho)].
  assert (Hrow : forall u u', <[Job.id (failure_row (Job.attempts j + 1) (Job.max_attempts j) x
      (claimed j t t') u u') := failure_row (Job.attempts j + 1) (Job.max_attempts j) x
      (claimed j t t') u u']> (<[Job.id (claimed j t t') := claimed j t t']> (jobs (w_db w)))
    = <[job_id := failure_row (Job.attempts j + 1) (Job.max_attempts j) x
      (claimed j t t') u u']> (jobs (w_db w))).
  { intros u u'. by rewrite failure_row_id, claimed_id, Hid, insert_insert_eq. }
  inversion Hr as [Hst|u u' Hst Hfs|u u' c Hst Hfs|u u' ? Hst Hfs Hf|]; subst; try done.
  - by destruct j.
  - exists u, u'. cbn zeta. split; [apply Hrow|].
    unfold failure_status in Hfs. by destruct (_ <? _)%Z.
  - exists u, u'. cbn zeta. unfold failure_status in Hfs. split.
    + rewrite (mq_db _ _ (mq_frame_published _ _ _ _)). apply Hrow.
    + destruct (_ <? _)%Z; [|done]. by rewrite published_queue.
  - destruct Hnu. by right; right; left.
Qed.

(** C16: when the database and the broker work but processing must fail (the PDF
    cannot be parsed, or the document is missing), a delivery of a queued job
    records the error, acknowledges the message, and either queues the job again
    with a new message, while attempts remain, or marks it failed and publishes
    nothing. *)
Theorem handle_retries_or_fails env `{!Conforming env} S limit n w msg job_id j :
  ready w -> ~ unhealthy w ->
  RabbitMQConsumer.parse_job_id limit (msg_body msg) = Ok (Some job_id) ->
  jobs (w_db w) !! job_id = Some j -> Job.status j = QUEUED ->
  blocked (BaseAppSettings.s3_bucket S) w j ->
  let out := handled env S limit n w msg in
  out.1 = Ok tt /\
  w_settled out.2 = (w_settled w ++ [(msg_tag msg, Acked)])%list /\
  if (Job.attempts j + 1 <? Job.max_attempts j)%Z
  then retried S job_id j w out.2 else failed_for_good job_id j w out.2.
Proof.
  intros Hr Hnu Hp Hj Hst Hb out.
  pose proof (handled_result env S limit n w msg job_id Hr Hp) as Hres. fold out in Hres.
  clearbody out. destruct out as [r w']. cbn [fst snd] in *.
  destruct Hres as [Hn|j' Hj' Hst' Hf|j' t t' a jc o Hj' Hst' Hwk Ho
                   |j' t t' jr wr x w2 Hj' Hst' Hwk Hat Hc' Hres|]; [| | | |by destruct Hnu].
  - by destruct (Hn j Hj).
  - destruct Hnu. by left.
  - assert (j' = j) as -> by congruence. by destruct (blocked_no_output _ _ _ _ _ _ _ _ _ Hb Ho).
  - assert (j' = j) as -> by congruence.
    destruct (attempt_blocked _ _ _ _ _ _ _ _ _ _ _ (ready_wf _ Hr) Hj Hb Hnu Hat Hres)
      as (u & u' & Hjobs & Hq).
    split_and!; [done| |].
    + cbn. assert (same_inbox w w2) as Hs by (eapply attempted_same_inbox; eassumption).
      by rewrite (si_settled _ _ Hs).
    + unfold failure_row, failure_status in Hjobs.
      destruct (_ <? _)%Z; [|split; [exact Hq|]]; by exists t, t', u, u', (exn_str x).
Qed.

Lemma handle_retries_or_fails_witness :
  (let w := demo_world parser_down (one_job QUEUED 0) in
   let out := handled (reference (fun _ => true)) demo_settings 100 0 w demo_message in
   out.1 = Ok tt /\ w_settled out.2 = (w_settled w ++ [(1%N, Acked)])%list /\
   retried demo_settings 7 (demo_job QUEUED 0) w out.2) /\
  (let w := demo_world parser_down (one_job QUEUED 2) in
   let out := handled (reference (fun _ => true)) demo_settings 100 0 w demo_message in
   out.1 = Ok tt /\ w_settled out.2 = (w_settled w ++ [(1%N, Acked)])%list /\
   failed_for_good 7 (demo_job QUEUED 2) w out.2).
Proof.
  split;
  [apply (handle_retries_or_fails (reference _) demo_settings 100 0
            (demo_world parser_down (one_job QUEUED 0)) demo_message 7 (demo_job QUEUED 0))
  |apply (handle_retries_or_fails (reference _) demo_settings 100 0
            (demo_world parser_down (one_job QUEUED 2)) demo_message 7 (demo_job QUEUED 2))];
  first [apply demo_ready | apply demo_parse | by left | done
        | by intros [H|[H|[H|H]]]; apply H].
Defined.

(** ** Messages that are dropped *)

(** The events of a dropped message: nothing but logging and the ack. *)
Definition only_acks (tag : N) (w : world) (e : event) : Prop :=
  match e with
  | Log _ _ _ | CtxClear | MsgAck _ => True
  | _ => False
  end.

Lemma only_acks_poison env `{!Conforming env} S limit n w msg :
  RabbitMQConsumer.parse_job_id limit (msg_body msg) = Ok None ->
  let Q (r : result exn unit) w' :=
    (h_ack (w_health w) = Up -> r = Ok tt /\ w' = settle w (msg_tag msg) Acked) /\
    w_db w' = w_db w in
  let out := handled env S limit n w msg in
  Q out.1 out.2 /\
  Forall (fun we => only_acks (msg_tag msg) we.1 we.2)
    (trace env n w (WorkerContainer.consumer_handle S limit msg)).
Proof.
  intros Hp Q. apply (wp_run_monitored env (only_acks (msg_tag msg)) _ Q n w).
  unfold WorkerContainer.consumer_handle, RabbitMQConsumer._handle. rewrite Hp. wp_norm.
  apply wp_trigger; [done|]. intros r1 w1 [-> [[] ->]]. wp_norm.
  apply wp_trigger; [done|]. intros r2 w2 [-> [[] ->]]. wp_norm.
  apply wp_trigger; [done|].
  intros r3 w3 [(_ & [] & -> & ->)|(Hf & x & Hx & -> & ->)]; [done|].
  split; [|done]. by intros E.
Qed.

(** A message whose body is not a JSON object with a [job_id] UUID is
    acknowledged and dropped: it never blocks the queue, and handling it performs
    no call but logging and the ack. *)
Theorem handle_drops_poison env `{!Conforming env} S limit n w msg :
  RabbitMQConsumer.parse_job_id limit (msg_body msg) = Ok None ->
  h_ack (w_health w) = Up ->
  handled env S limit n w msg = (Ok tt, settle w (msg_tag msg) Acked) /\
  Forall (fun we => only_acks (msg_tag msg) we.1 we.2)
    (trace env n w (WorkerContainer.consumer_handle S limit msg)).
Proof.
  intros Hp Hack. destruct (only_acks_poison env S limit n w msg Hp) as [[HQ _] Ht].
  destruct (HQ Hack) as [H1 H2]. split; [|exact Ht].
  rewrite <- H1, <- H2. by destruct (handled env S limit n w msg).
Qed.

Lemma handle_drops_poison_witness :
  let w := demo_world all_up (one_job QUEUED 0) in
  let msg := Message 4 "not json" in
  handled (reference (fun _ => true)) demo_settings 100 0 w msg
    = (Ok tt, settle w 4 Acked) /\
  Forall (fun we => only_acks 4 we.1 we.2)
    (trace (reference (fun _ => true)) 0 w
       (WorkerContainer.consumer_handle demo_settings 100 msg)).
Proof.
  apply (handle_drops_poison (reference _) demo_settings 100 0
           (demo_world all_up (one_job QUEUED 0)) (Message 4 "not json")).
  - vm_compute. reflexivity.
  - done.
Defined.

(** Redelivery is harmless: a message whose job is absent, claimed, completed
    or failed changes no row, object or queue, whatever the services do; when they
    work it is acknowledged. *)
Theorem handle_drops_settled_job env `{!Conforming env} S limit n w msg job_id :
  ready w ->
  RabbitMQConsumer.parse_job_id limit (msg_body msg) = Ok (Some job_id) ->
  not_queued job_id w ->
  let out := handled env S limit n w msg in
  w_db out.2 = w_db w /\ w_objects out.2 = w_objects w /\ w_queues out.2 = w_queues w /\
  (~ unhealthy w -> out = (Ok tt, settle w (msg_tag msg) Acked)).
Proof.
  intros Hr Hp Hn out.
  pose proof (handled_result env S limit n w msg job_id Hr Hp) as Hres. fold out in Hres.
  clearbody out. destruct out as [r w']. cbn [fst snd] in *.
  destruct Hres as [_|j Hj Hst|j t t' a jc o Hj Hst|j t t' jr wr x w2 Hj Hst
                   |y w2 Hu [|_|Hf|j t t' Hj Hst|j t t' jr wr x r2 w3 Hj Hst]];
    try (by destruct (Hn j Hj)); by split_and!.
Qed.

Lemma handle_drops_settled_job_witness :
  let w := demo_world all_up (one_job COMPLETED 1) in
  let out := handled (reference (fun _ => true)) demo_settings 100 0 w demo_message in
  w_db out.2 = w_db w /\ w_objects out.2 = w_objects w /\ w_queues out.2 = w_queues w /\
  (~ unhealthy w -> out = (Ok tt, settle w 1 Acked)).
Proof.
  apply (handle_drops_settled_job (reference _) demo_settings 100 0
           (demo_world all_up (one_job COMPLETED 1)) demo_message 7).
  - apply demo_ready.
  - apply demo_parse.
  - intros j Hj. by apply demo_lookup in Hj as [_ ->].
Defined.

(** ** The order of effects *)

(** A PDF is parsed and an artifact stored only while the committed row of the job
    is [STARTED]; the message is published again only once the committed row is
    [QUEUED], and with the job's id. *)
Definition claimed_first (S : BaseAppSettings.t) (job_id : uuid) (w : world) (e : event)
  : Prop :=
  match e with
  | PdfOpen _ | S3Put _ _ _ _ =>
      exists j, jobs (w_db w) !! job_id = Some j /\ Job.status j = STARTED
  | MqPublish _ q b _ =>
      q = BaseAppSettings.rabbitmq_queue S /\ b = requeue_body job_id /\
      exists j, jobs (w_db w) !! job_id = Some j /\ Job.status j = QUEUED
  | _ => True
  end.

(** C17: under every behaviour of the services, the worker parses the document and
    stores the artifact only after its claim of the job is committed, and publishes
    the retry only after the job's return to the queue is committed. *)
Theorem handle_claims_first env `{!Conforming env} S limit n w msg job_id :
  ready w ->
  RabbitMQConsumer.parse_job_id limit (msg_body msg) = Ok (Some job_id) ->
  Forall (fun we => claimed_first S job_id we.1 we.2)
    (trace env n w (WorkerContainer.consumer_handle S limit msg)).
Proof.
  intros [Hwf Htx] Hp.
  assert (Hl : Lenient (claimed_first S job_id)) by (by intros w' []).
  refine (proj2 (wp_run_monitored env _ _ (fun _ _ => True) n w _)).
  apply (consumer_handle_spec _ S limit msg job_id); try done.
  - intros w' c j Hj Hst. by exists j.
  - intros w' k c j Hj Hst. by exists j.
  - intros w' ch j Hj Hst. split_and!; [done..|]. by exists j.
Qed.

Lemma handle_claims_first_witness :
  let w := demo_world parser_down (one_job QUEUED 0) in
  Forall (fun we => claimed_first demo_settings 7 we.1 we.2)
    (trace (reference (fun _ => true)) 0 w
       (WorkerContainer.consumer_handle demo_settings 100 demo_message)).
Proof.
  apply (handle_claims_first (reference _) demo_settings 100 0
           (demo_world parser_down (one_job QUEUED 0)) demo_message 7).
  - apply demo_ready.
  - apply demo_parse.
Defined.

(** ** Rows and attempts *)

(** Handling a message touches no job but its own, and that one only if it was
    queued: the row ends claimed, completed, queued again with an attempt left, or
    failed with none left. *)
Theorem handle_moves_one_job env `{!Conforming env} S limit n w msg job_id :
  ready w ->
  RabbitMQConsumer.parse_job_id limit (msg_body msg) = Ok (Some job_id) ->
  let out := handled env S limit n w msg in
  jobs (w_db out.2) = jobs (w_db w) \/
  exists j j', jobs (w_db w) !! job_id = Some j /\ Job.status j = QUEUED /\
    handled_row j j' /\ jobs (w_db out.2) = <[job_id := j']> (jobs (w_db w)).
Proof.
  intros Hr Hp. eapply handle_result_rows; [apply (ready_wf _ Hr)|].
  exact (handled_result env S limit n w msg job_id Hr Hp).
Qed.

Lemma handle_moves_one_job_witness :
  let w := demo_world all_flaky (one_job QUEUED 0) in
  let out := handled (reference (fun n => negb (Nat.eqb n 20))) demo_settings 100 0 w
               demo_message in
  jobs (w_db out.2) = jobs (w_db w) \/
  exists j j', jobs (w_db w) !! 7%N = Some j /\ Job.status j = QUEUED /\
    handled_row j j' /\ jobs (w_db out.2) = <[7%N := j']> (jobs (w_db w)).
Proof.
  apply (handle_moves_one_job (reference _) demo_settings 100 0
           (demo_world all_flaky (one_job QUEUED 0)) demo_message 7).
  - apply demo_ready.
  - apply demo_parse.
Defined.

Lemma handled_row_budget j j' :
  within_budget j -> Job.status j = QUEUED -> handled_row j j' -> within_budget j'.
Proof.
  intros [Hb Hq] Hst Hr. specialize (Hq Hst). unfold within_budget.
  destruct Hr; destruct j; cbn in *; (split; [lia|done || lia]).
Qed.

(** no job is attempted more often than its [max_attempts]: the budget of
    attempts is an invariant of handling any message, whatever the services do. *)
Theorem handle_keeps_budget env `{!Conforming env} S limit n w msg :
  ready w -> budgets (jobs (w_db w)) ->
  budgets (jobs (w_db (handled env S limit n w msg).2)).
Proof.
  intros Hr Hb.
  destruct (RabbitMQConsumer.parse_job_id limit (msg_body msg)) as [[job_id|]|x] eqn:Hp.
  - destruct (handle_result_rows _ _ job_id _ _ _ _ (ready_wf _ Hr)
                (handled_result env S limit n w msg job_id Hr Hp))
      as [->|(j & j' & Hj & Hst & Hrow & ->)]; [done|].
    intros k i. rewrite lookup_insert_Some. intros [[<- <-]|[_ Hi]]; [|by eapply Hb].
    eapply handled_row_budget; [by eapply Hb|done..].
  - destruct (only_acks_poison env S limit n w msg Hp) as [[_ ->] _]. done.
  - apply (wp_run env _ (fun _ w' => budgets (jobs (w_db w'))) n w).
    by apply (consumer_raise_spec _ S limit msg x).
Qed.

Lemma demo_budgets h status attempts :
  (0 <= attempts < 3)%Z -> budgets (jobs (w_db (demo_world h (one_job status attempts)))).
Proof.
  intros Ha k j Hj. apply demo_lookup in Hj as [_ ->].
  unfold within_budget. cbn. lia.
Qed.

Lemma handle_keeps_budget_witness :
  budgets (jobs (w_db (handled (reference (fun _ => true)) demo_settings 100 0
    (demo_world parser_down (one_job QUEUED 2)) demo_message).2)).
Proof.
  apply (handle_keeps_budget (reference _) demo_settings 100 0
           (demo_world parser_down (one_job QUEUED 2)) demo_message).
  - apply demo_ready.
  - apply demo_budgets. lia.
Defined.

(** ** A claim that cannot be committed *)

(** C39: when commits fail and the job is queued, [_handle] raises and the message
    is neither acknowledged nor returned to the queue: the commit of the claim is
    outside the [try] whose handler returns the message. *)
Theorem claim_commit_failure_escapes env `{!Conforming env} S limit n w msg job_id j :
  ready w ->
  RabbitMQConsumer.parse_job_id limit (msg_body msg) = Ok (Some job_id) ->
  jobs (w_db w) !! job_id = Some j -> Job.status j = QUEUED ->
  h_sql (w_health w) = Up -> h_txn (w_health w) = Down ->
  let out := handled env S limit n w msg in
  is_ok out.1 = false /\ w_settled out.2 = w_settled w /\
  (jobs (w_db out.2) = jobs (w_db w) \/
   exists t t', jobs (w_db out.2) = <[job_id := claimed j t t']> (jobs (w_db w))).
Proof.
  intros Hr Hp Hj Hst Hsql Htxn out.
  pose proof (handled_result env S limit n w msg job_id Hr Hp) as Hres. fold out in Hres.
  clearbody out. destruct out as [r w']. cbn [fst snd] in *.
  destruct Hres as [Hn|j' Hj' Hst' Hf|j' t t' a jc o Hj' Hst' Hwk
                   |j' t t' jr wr x w2 Hj' Hst' Hwk
                   |y w2 Hu [|Hn|Hf|j' t t' Hj' Hst'|j' t t' jr wr x r2 w3 Hj' Hst' Hwk]];
    try (by destruct (Hn j Hj)); try (by destruct (Hwk Htxn)); try (by destruct (Hf Hsql)).
  - by split_and!; [..|left].
  - assert (j' = j) as -> by congruence. split_and!; [done..|right].
    exists t, t'. cbn. by rewrite claimed_id, (wf_jobs_id _ (ready_wf _ Hr) _ _ Hj).
Qed.

Lemma claim_commit_failure_escapes_witness :
  let w := demo_world commits_down (one_job QUEUED 0) in
  let out := handled (reference (fun _ => true)) demo_settings 100 0 w demo_message in
  is_ok out.1 = false /\ w_settled out.2 = w_settled w /\
  (jobs (w_db out.2) = jobs (w_db w) \/
   exists t t', jobs (w_db out.2) = <[7%N := claimed (demo_job QUEUED 0) t t']> (jobs (w_db w))).
Proof.
  apply (claim_commit_failure_escapes (reference _) demo_settings 100 0
           (demo_world commits_down (one_job QUEUED 0)) demo_message 7 (demo_job QUEUED 0));
    first [apply demo_ready | apply demo_parse | done].
Defined.
