(* ===== verification/LoopTheorems.v ===== *)
(** * The consume loop ([RabbitMQConsumer.start])

    The loop delivers messages one at a time; these theorems describe how it ends
    and what it has done by then. *)

From S2P Require Import Prelude PyStr PyUuid Json Dtos Exceptions Models Program.
From S2P Require Import Interfaces Settings Environment Container Logic Contracts.
From S2P Require Import Worker Wiring ProcessingSpec ConsumerSpec Reference.
From S2P Require Import WorkerOutcomes Examples.

Lemma wp_any {A} (p : prog A) w : wp documented p (fun _ _ => True) w.
Proof. revert w. induction p as [a|x|e k IH]; intros w; simpl; auto. Qed.

Section loop.
Context (S : BaseAppSettings.t) (limit : nat).
Abbreviation handle := (WorkerContainer.consumer_handle S limit).
Abbreviation consume := (@RabbitMQConsumer._consume (WorkerContainer.processing_service S)
  (WorkerContainer.messaging_service S) Repositories.JobRepository.repository
  (BaseAppSettings.rabbitmq_queue S) limit).

(** ** [_in_flight] *)

Lemma consume_in_flight n in_flight w :
  wp documented (consume n in_flight) (fun r _ =>
    match r with Ok (_, x) => x = in_flight \/ x = None | Exn _ => True end) w.
Proof.
  revert in_flight w. induction n as [|n IH]; intros in_flight w; [by left|].
  cbn [RabbitMQConsumer._consume]. wp_norm. apply wp_trigger; [done|].
  intros [[msg| |]|x] w1 _; wp_norm; [|by left..|done].
  apply wp_trigger; [done|]. intros [[]|x] w2 _; wp_norm; [by left| |done].
  eapply wp_mono; [|apply wp_any]. intros [[]|x] w3 _; [|done]. cbn [then_].
  eapply wp_mono; [|apply IH]. intros [[e x]|x] w4; [|done]. intros [->| ->]; by right.
Qed.

(** No task is left to be awaited. *)
Definition none_left (r : result exn (RabbitMQConsumer.loop_state * option message)) : Prop :=
  match r with Ok (_, in_flight) => in_flight = None | Exn _ => True end.

Lemma leaving_none p f w :
  wp documented p (fun r _ => none_left r) w ->
  wp documented (leaving RabbitMQConsumer.suspended p f) (fun r _ => none_left r) w.
Proof.
  intros H. apply wp_leaving. eapply wp_mono; [|exact H]. intros r w' Hr. cbn beta.
  destruct (match r with Ok _ => _ | Exn _ => _ end); [done|].
  eapply wp_mono; [|apply wp_any]. by intros [] w'' _.
Qed.

(** ** One healthy delivery *)

Record delivered (w : world) (msg : message) (w' : world) : Prop := Delivered {
  dl_ready : ready w';
  dl_inbox : w_inbox w' = w_inbox w;
  dl_stop : w_stop w' = w_stop w;
  dl_health : w_health w' = w_health w;
  dl_settled : exists s, w_settled w' = (w_settled w ++ [(msg_tag msg, s)])%list
}.

Lemma healthy_delivery msg w Q :
  ready w -> w_health w = all_up ->
  is_ok (RabbitMQConsumer.parse_job_id limit (msg_body msg)) = true ->
  (forall w', delivered w msg w' -> Q (Ok tt) w') -> wp documented (handle msg) Q w.
Proof.
  intros Hr Hh Hp HQ. pose proof Hr as [Hwf Htx].
  assert (Hnu : ~ unhealthy w).
  { unfold unhealthy. rewrite Hh. by intros [H|[H|[H|H]]]; apply H. }
  destruct (RabbitMQConsumer.parse_job_id _ _) as [[job_id|]|x] eqn:E; [| |done].
  - apply (consumer_handle_spec _ S limit msg job_id); try done.
    intros r w' Hres. destruct r as [[]|x]; [|by inversion Hres].
    apply HQ. pose proof (handle_result_inbox _ _ _ _ _ _ _ Hres) as (?&?&?&?).
    split; [by eapply handle_result_ready|done..|].
    by destruct (handle_result_settled _ _ _ _ _ _ _ Hres) as [|[]].
  - apply consumer_poison_spec; try done.
    + apply HQ. split; [by split|done..|]. by exists Acked.
    + intros Hf. rewrite Hh in Hf. by destruct Hf.
Qed.
End loop.

(** Whatever the services do, when [start] returns it does so with no message in flight: the
    [await self._in_flight] after the connection is closed is never reached. *)
Theorem start_leaves_none_in_flight env `{!Conforming env} S limit k n w :
  match (run env n w (WorkerContainer.consumer_start S limit k)).1 with
  | Ok (_, in_flight) => in_flight = None
  | Exn _ => True
  end.
Proof.
  refine (wp_run env _ (fun r _ => none_left r) n w _).
  unfold WorkerContainer.consumer_start, RabbitMQConsumer.start.
  wp_norm. apply wp_trigger; [done|]. intros [[]|x] w1 _; cbn [then_]; [|done].
  apply leaving_none.
  do 3 (wp_norm; apply wp_trigger; [done|]; intros [[]|?] ? _; [|done]).
  cbn [then_]. apply leaving_none. eapply wp_mono; [|apply consume_in_flight].
  intros [[e x]|x] w2 Hr; [by destruct Hr|done].
Qed.

Lemma start_leaves_none_in_flight_witness :
  match (run (reference (fun _ => true)) 0 (demo_world all_up (one_job QUEUED 0))
           (WorkerContainer.consumer_start demo_settings 100 5)).1 with
  | Ok (_, in_flight) => in_flight = None
  | Exn _ => True
  end.
Proof. apply (start_leaves_none_in_flight (reference (fun _ => true))). Defined.

(** ** Healthy runs *)

(** What [start] has done after handling [k] messages: either it has handled them all and
    waits for the next, or it has seen the stop event, and returned. *)
Record drained (w : world) (e : RabbitMQConsumer.loop_state) (k : nat) (w' : world)
  : Prop := Drained {
  dr_count : (k <= length (w_inbox w))%nat;
  dr_settled : (w_settled w').*1
    = ((w_settled w).*1 ++ (msg_tag <$> take k (w_inbox w)))%list;
  dr_exit : e = RabbitMQConsumer.Waiting /\ k = length (w_inbox w) /\ w_inbox w' = []
    \/ e = RabbitMQConsumer.Stopped /\ (k < length (w_inbox w))%nat
       /\ w_inbox w' = drop (S k) (w_inbox w)
}.

Section healthy.
Context (S : BaseAppSettings.t) (limit : nat).
Abbreviation consume := (@RabbitMQConsumer._consume (WorkerContainer.processing_service S)
  (WorkerContainer.messaging_service S) Repositories.JobRepository.repository
  (BaseAppSettings.rabbitmq_queue S) limit).

Definition parses (msg : message) : Prop :=
  is_ok (RabbitMQConsumer.parse_job_id limit (msg_body msg)) = true.

Lemma consume_drains n in_flight w :
  ready w -> w_health w = all_up -> Forall parses (w_inbox w) ->
  (length (w_inbox w) < n)%nat ->
  wp documented (consume n in_flight) (fun r w' =>
    exists e x k, r = Ok (e, x) /\ drained w e k w' /\ w_health w' = all_up
      /\ (w_stop w = true -> k = 0%nat) /\ (x = in_flight \/ x = None)) w.
Proof.
  revert in_flight w. induction n as [|n IH]; intros in_flight w Hr Hh Hp Hn; [lia|].
  cbn [RabbitMQConsumer._consume]. wp_norm. apply wp_trigger; [done|].
  intros r w1 [(_ & Hd)|(Hf & _)]; [|by rewrite Hh in Hf; destruct Hf].
  destruct (w_inbox w) as [|msg rest] eqn:Hin; destruct Hd as [-> ->]; wp_norm.
  { exists RabbitMQConsumer.Waiting, in_flight, 0%nat. split_and!; try done; [|by left].
    split; rewrite ?Hin; [done|by rewrite app_nil_r|by left]. }
  apply wp_trigger; [done|]. intros r w2 (b & -> & -> & Hb). destruct b; wp_norm.
  { exists RabbitMQConsumer.Stopped, in_flight, 0%nat. split_and!; try done; [|by left].
    split; rewrite ?Hin; [cbn; lia|by rewrite app_nil_r|]. right. cbn. split_and!; [done|lia|done]. }
  apply Forall_cons_1 in Hp as [Hp Hps]. cbn in Hn.
  apply (healthy_delivery S limit); [by destruct Hr; split|done|done|].
  intros w3 [Hr3 Hin3 Hst3 Hh3 [s Hs]]. cbn in Hin3, Hst3, Hh3, Hs.
  eapply wp_mono; [|apply IH]; [|done|congruence|by rewrite Hin3|rewrite Hin3; lia].
  intros r w4 (e & x & k & -> & [Hk Hset Hexit] & Hh4 & Hstop & Hx).
  exists e, x, (Datatypes.S k). split_and!; try done; [| |by right; destruct Hx].
  - rewrite Hin3 in *. split; rewrite ?Hin.
    + cbn. lia.
    + rewrite Hset, Hs, fmap_app. cbn. by rewrite <- app_assoc.
    + destruct Hexit as [(-> & -> & ->)|(-> & Hlt & ->)]; [left|right]; cbn; auto with lia.
  - intros Hw. specialize (Hb Hw). done.
Qed.

Lemma healthy_up {A} (r : result exn A) w w' :
  w_health w = all_up -> plain (h_cons (w_health w)) amqp_fault w r w' ->
  w' = w /\ exists v, r = Ok v.
Proof. intros H1 [-> [[_ Hv]|[Hf _]]]; [done|]. rewrite H1 in Hf. by destruct Hf. Qed.

(** What [start] and [resume] do from the loop on. *)
Definition drains (w : world) (r : result exn (RabbitMQConsumer.loop_state * option message))
    (w' : world) : Prop :=
  exists e m, r = Ok (e, None) /\ drained w e m w' /\ w_health w' = all_up /\
    (w_stop w = true -> m = 0%nat).

(** A healthy exit changes nothing. *)
Lemma leaving_drains p f w w0 :
  (forall w', w_health w' = all_up -> wp documented f (fun r w'' => r = Ok tt /\ w'' = w') w') ->
  wp documented p (drains w) w0 ->
  wp documented (leaving RabbitMQConsumer.suspended p f) (drains w) w0.
Proof.
  intros Hf H. apply wp_leaving. eapply wp_mono; [|exact H]. intros r w1 Hd. cbn beta.
  destruct (match r with Ok _ => _ | Exn _ => _ end); [done|].
  assert (Hh : w_health w1 = all_up) by by destruct Hd as (e & m & _ & _ & Hh & _).
  eapply wp_mono; [|exact (Hf w1 Hh)]. by intros r2 w2 [-> ->].
Qed.

Lemma close_changes_nothing (f : prog unit) w :
  f = trigger ConsIterClose \/ f = trigger ConsClose -> w_health w = all_up ->
  wp documented f (fun r w' => r = Ok tt /\ w' = w) w.
Proof.
  intros [-> | ->] Hh;
    [apply (wp_trigger _ ConsIterClose); [done|]|apply (wp_trigger _ ConsClose); [done|]];
    intros r w' Hd; by apply healthy_up in Hd as [-> [[] ->]].
Qed.

Lemma loop_drains k w :
  ready w -> w_health w = all_up -> Forall parses (w_inbox w) ->
  (length (w_inbox w) < k)%nat -> wp documented (consume k None) (drains w) w.
Proof.
  intros Hr Hh Hp Hn. eapply wp_mono; [|by apply (consume_drains k None w)].
  intros r w1 (e & x & m & -> & Hdr & Hh1 & Hs & Hx). exists e, m. by destruct Hx as [->| ->].
Qed.

Lemma resume_drains k w :
  ready w -> w_health w = all_up -> Forall parses (w_inbox w) ->
  (length (w_inbox w) < k)%nat ->
  wp documented (WorkerContainer.consumer_resume S limit k) (drains w) w.
Proof.
  intros Hr Hh Hp Hn. unfold WorkerContainer.consumer_resume, RabbitMQConsumer.resume.
  apply leaving_drains; [intros w'; apply close_changes_nothing; by right|].
  apply leaving_drains; [intros w'; apply close_changes_nothing; by left|].
  by apply loop_drains.
Qed.

Lemma start_drains k w :
  ready w -> w_health w = all_up -> Forall parses (w_inbox w) ->
  (length (w_inbox w) < k)%nat ->
  wp documented (WorkerContainer.consumer_start S limit k) (drains w) w.
Proof.
  intros Hr Hh Hp Hn. unfold WorkerContainer.consumer_start, RabbitMQConsumer.start.
  wp_norm. apply wp_trigger; [done|]. intros r w1 Hd. apply healthy_up in Hd as [-> [[] ->]]; [|done].
  cbn [then_]. apply leaving_drains; [intros w'; apply close_changes_nothing; by right|].
  do 3 (wp_norm; apply wp_trigger; [done|]; intros r w1 Hd;
        apply healthy_up in Hd as [-> [[] ->]]; [|done]).
  cbn [then_]. apply leaving_drains; [intros w'; apply close_changes_nothing; by left|].
  by apply loop_drains.
Qed.
End healthy.

(** C20: when the services work, [start] handles the delivered messages one at a time and in
    order, settling each exactly once, until it sees the stop event.  Then it returns, and the
    message whose delivery precedes that check is pulled from the queue but not settled.  If
    it does not see the event, it has settled everything that is delivered and has not
    returned: it waits for the next message, and goes on in the same way with what is
    delivered later. *)
Theorem start_settles_in_order env `{!Conforming env} S limit k n w :
  ready w -> w_health w = all_up -> Forall (parses limit) (w_inbox w) ->
  (length (w_inbox w) < k)%nat ->
  Forall (fun loop => let out := run env n w (loop k) in
      exists e m, out.1 = Ok (e, None) /\ drained w e m out.2 /\ (w_stop w = true -> m = 0%nat))
    [WorkerContainer.consumer_start S limit; WorkerContainer.consumer_resume S limit].
Proof.
  intros Hr Hh Hp Hk.
  assert (H : forall p, wp documented p (drains w) w -> let out := run env n w p in
    exists e m, out.1 = Ok (e, None) /\ drained w e m out.2 /\ (w_stop w = true -> m = 0%nat)).
  { intros p Hw. destruct (wp_run env p (drains w) n w Hw) as (e & m & ? & ? & _ & ?).
    by exists e, m. }
  apply Forall_cons_2; [|apply Forall_cons_2; [|apply Forall_nil_2]]; apply H.
  - by apply start_drains.
  - by apply resume_drains.
Qed.

Lemma start_settles_in_order_witness :
  let w := demo_world all_up (one_job QUEUED 0) in
  (run (reference (fun _ => true)) 0 w (WorkerContainer.consumer_start demo_settings 100 5)).1
    = Ok (RabbitMQConsumer.Waiting, None) /\
  Forall (fun loop => let out := run (reference (fun _ => true)) 0 w (loop 5%nat) in
      exists e m, out.1 = Ok (e, None) /\ drained w e m out.2 /\ (w_stop w = true -> m = 0%nat))
    [WorkerContainer.consumer_start demo_settings 100;
     WorkerContainer.consumer_resume demo_settings 100].
Proof.
  split; [by vm_compute|].
  apply (start_settles_in_order (reference _) demo_settings 100 5 0
           (demo_world all_up (one_job QUEUED 0))).
  - apply demo_ready.
  - done.
  - apply Forall_cons_2; [|apply Forall_nil_2]. unfold parses. by rewrite demo_parse.
  - cbn. lia.
Defined.
