(* ===== verification/ApiTheorems.v ===== *)
(** * Theorems about the API services

    [JobService.create], [DocumentService], [ArtifactService] and
    [AccountService], wired as [api/core/container.py] wires them, each in the
    session of one request. *)

From S2P Require Import Prelude PyStr PyUuid Json Sha256 Dtos Exceptions Models Program.
From S2P Require Import Interfaces Settings Environment Container Logic Contracts.
From S2P Require Import Repositories Storage Messaging ApiServices Worker Keys Wiring.
From S2P Require Import Specs ProcessingSpec ConsumerSpec ApiSpec Reference.
From S2P Require Import WorkerOutcomes Examples.

(** ** The wired services *)

Section wired.
Context (P : world -> event -> Prop) `{!Lenient P}.
Context (S : BaseAppSettings.t).
Abbreviation bucket := (BaseAppSettings.s3_bucket S).
Abbreviation queue := (BaseAppSettings.rabbitmq_queue S).
Abbreviation client := (S3StorageService._client (ApiContainer.s3 S)).

#[export] Instance wired_storage :
  StorageContract P (ApiContainer.storage_service S) client bucket.
Proof. exact (storage_contract P (ApiContainer.s3 S)). Qed.

#[export] Instance wired_messaging :
  MessagingContract P (ApiContainer.messaging_service S).
Proof. exact (messaging_contract P _). Qed.

Lemma wired_create_spec dto w Q :
  ready w ->
  (forall w' ch i, jobs (w_db w') !! drawn_id i = Some (created_row dto i) ->
   P w' (MqPublish ch queue (job_body (created_row dto i)) true)) ->
  (forall r w', create_result bucket queue (BaseAppSettings.backpressure_threshold S) dto w r w' ->
   Q r w') ->
  wp (monitored P) (open_session (ApiContainer.job_create S dto)) Q w.
Proof.
  intros [Hwf Htx] HP HQ. unfold ApiContainer.job_create.
  apply (job_create_spec P client bucket); by try apply _.
Qed.
End wired.

(** One request that creates a job. *)
Definition create_job (env : environment) (S : BaseAppSettings.t) (n : nat) (w : world)
    (dto : CreateJobDTO.t) : result exn JobDTO.t * world :=
  run env n w (open_session (ApiContainer.job_create S dto)).

Lemma create_job_result env `{!Conforming env} S n w dto :
  ready w ->
  let out := create_job env S n w dto in
  create_result (BaseAppSettings.s3_bucket S) (BaseAppSettings.rabbitmq_queue S)
    (BaseAppSettings.backpressure_threshold S) dto w out.1 out.2.
Proof.
  intros Hr. apply (wp_run env _ (create_result _ _ _ dto w) n w).
  by apply (wired_create_spec _ S).
Qed.

Definition demo_request : CreateJobDTO.t := CreateJobDTO.Make 1 5%N [MARKDOWN].

(** C6: [JobService.create] has no outcome but those of [create_result], whatever
    the services do: the request is refused, or one job is inserted, committed and
    published; a failure after the commit leaves the job queued. *)
Theorem create_refines_spec env `{!Conforming env} S n w dto :
  ready w ->
  let out := create_job env S n w dto in
  create_result (BaseAppSettings.s3_bucket S) (BaseAppSettings.rabbitmq_queue S)
    (BaseAppSettings.backpressure_threshold S) dto w out.1 out.2.
Proof. apply create_job_result; auto. Qed.

Lemma create_refines_spec_witness :
  let w := demo_world all_flaky ∅ in
  let out := create_job (reference (fun n => negb (Nat.eqb n 13))) demo_settings 0 w demo_request in
  create_result "docs" "jobs" 24 demo_request w out.1 out.2.
Proof.
  apply (create_refines_spec (reference _) demo_settings 0 (demo_world all_flaky ∅)).
  split; [split|]; done.
Defined.

(** ** The decision *)

(** Another job holds the document's slot. *)
Definition has_active_job (d : tables) (dto : CreateJobDTO.t) : bool :=
  map_exists (fun j => Job.active j && (Job.account_id j =? CreateJobDTO.account_id dto)%Z
                       && (Job.document_id j =? CreateJobDTO.document_id dto)%N) (jobs d).

(** The exception [create] raises, or [None] if it creates the job. *)
Definition create_decision (S : BaseAppSettings.t) (w : world) (dto : CreateJobDTO.t)
  : option app_class :=
  match requested_document dto (w_db w) with
  | None => Some DocumentNotFoundException
  | Some doc =>
      if bool_decide (is_Some (w_objects w !! (BaseAppSettings.s3_bucket S,
                                               Document.object_key doc)))
      then if (BaseAppSettings.backpressure_threshold S
               <=? depth w (BaseAppSettings.rabbitmq_queue S))%Z
           then Some BackpressureException
           else if has_active_job (w_db w) dto then Some ActiveJobExistsException else None
      else Some DocumentNotUploadedException
  end.

Lemma has_active_job_spec d dto : has_active_job d dto = true <-> active_job dto d.
Proof.
  unfold has_active_job, active_job. rewrite map_exists_true. split.
  - intros (k & j & Hj & Ha). rewrite !andb_true_iff, Z.eqb_eq, N.eqb_eq in Ha.
    destruct Ha as [[Ha E1] E2]. by exists k, j.
  - intros (k & j & Hj & Ha & E1 & E2). exists k, j. split; [done|].
    by rewrite Ha, E1, E2, Z.eqb_refl, N.eqb_refl.
Qed.

Lemma healthy_no_trouble dto w :
  w_health w = all_up -> (exists v, valid_uuid v /\ unused (w_db w) v) ->
  is_Some (accounts (w_db w) !! CreateJobDTO.account_id dto) -> ~ create_trouble dto w.
Proof.
  intros Hh Hu [a Ha]. unfold create_trouble. rewrite Hh, Ha.
  intros [H|[H|[H|[H|[H|[H|H]]]]]]; try done; by apply H.
Qed.

Lemma create_decision_result env `{!Conforming env} S n w dto :
  ready w -> w_health w = all_up -> (exists v, valid_uuid v /\ unused (w_db w) v) ->
  is_Some (accounts (w_db w) !! CreateJobDTO.account_id dto) ->
  let out := create_job env S n w dto in
  match create_decision S w dto with
  | Some c => out.1 = Exn (ERaise c) /\ w_db out.2 = w_db w /\ w_queues out.2 = w_queues w
  | None => exists i, out.1 = Ok (job_dto (created_row dto i)) /\
      jobs (w_db w) !! drawn_id i = None /\
      jobs (w_db out.2) = <[drawn_id i := created_row dto i]> (jobs (w_db w)) /\
      w_queues out.2 !! BaseAppSettings.rabbitmq_queue S
        = Some (default [] (w_queues w !! BaseAppSettings.rabbitmq_queue S)
                ++ [job_body (created_row dto i)])%list
  end.
Proof.
  intros Hr Hh Hu Hacc out. pose proof (create_job_result env S n w dto Hr) as Hres.
  fold out in Hres. clearbody out. destruct out as [r w']. cbn [fst snd] in *.
  pose proof (healthy_no_trouble dto w Hh Hu Hacc) as Hnt.
  assert (Hmq : ~ fails (h_mq (w_health w))) by (rewrite Hh; intros H; by apply H).
  unfold create_decision, uploaded in *.
  destruct Hres as [Hd|doc Hd Hup|doc c Hd Hup Hq|doc c Hd Hup Hq Ha|doc i c c' Hd Hup Hq Ha Hf Hid|];
    [| | | | |done]; rewrite Hd; [done| | | |].
  - by rewrite bool_decide_eq_false_2.
  - rewrite bool_decide_eq_true_2 by done. by apply Z.leb_le in Hq as ->.
  - rewrite bool_decide_eq_true_2 by done. destruct Hq as [Hq|]; [|done].
    apply Z.leb_gt in Hq as ->. by apply has_active_job_spec in Ha as ->.
  - rewrite bool_decide_eq_true_2 by done. destruct Hq as [Hq|]; [|done].
    apply Z.leb_gt in Hq as ->.
    destruct (has_active_job (w_db w) dto) eqn:E; [by apply has_active_job_spec in E|].
    exists i. split_and!; [done..| |].
    + by rewrite (mq_db _ _ (mq_frame_published _ _ _ _)).
    + rewrite published_queue. done.
Qed.

(** C13: when the services work, the outcome of [create] is decided by the document,
    its upload, the queue depth and the active job, in this order: a refused
    request changes nothing but the cached connection, an accepted one adds exactly
    one queued row and one message with its id. *)
Theorem create_decides env `{!Conforming env} S n w dto :
  ready w -> w_health w = all_up -> (exists v, valid_uuid v /\ unused (w_db w) v) ->
  is_Some (accounts (w_db w) !! CreateJobDTO.account_id dto) ->
  let out := create_job env S n w dto in
  match create_decision S w dto with
  | Some c => out.1 = Exn (ERaise c) /\ w_db out.2 = w_db w /\ w_queues out.2 = w_queues w
  | None => exists i, out.1 = Ok (job_dto (created_row dto i)) /\
      jobs (w_db w) !! drawn_id i = None /\
      jobs (w_db out.2) = <[drawn_id i := created_row dto i]> (jobs (w_db w)) /\
      w_queues out.2 !! BaseAppSettings.rabbitmq_queue S
        = Some (default [] (w_queues w !! BaseAppSettings.rabbitmq_queue S)
                ++ [job_body (created_row dto i)])%list
  end.
Proof. by apply create_decision_result. Qed.

Lemma create_decides_witness :
  let w := demo_world all_up ∅ in
  let out := create_job (reference (fun _ => true)) demo_settings 0 w demo_request in
  match create_decision demo_settings w demo_request with
  | Some c => out.1 = Exn (ERaise c) /\ w_db out.2 = w_db w /\ w_queues out.2 = w_queues w
  | None => exists i, out.1 = Ok (job_dto (created_row demo_request i)) /\
      jobs (w_db w) !! drawn_id i = None /\
      jobs (w_db out.2) = <[drawn_id i := created_row demo_request i]> (jobs (w_db w)) /\
      w_queues out.2 !! "jobs" = Some (default [] (w_queues w !! "jobs")
                ++ [job_body (created_row demo_request i)])%list
  end.
Proof.
  apply (create_decides (reference _) demo_settings 0 (demo_world all_up ∅) demo_request).
  - split; [split|]; done.
  - done.
  - exists 9%N. split; [done|]. by repeat split.
  - by exists (Account.Make 1 (Some "hash")).
Defined.

(** ** Publishing after the commit *)

(** A message is published only for a job whose committed row is queued, and its
    body is the payload of that row. *)
Definition committed_first (S : BaseAppSettings.t) (w : world) (e : event) : Prop :=
  match e with
  | MqPublish _ q b _ =>
      q = BaseAppSettings.rabbitmq_queue S /\
      exists j, jobs (w_db w) !! Job.id j = Some j /\ Job.status j = QUEUED /\ b = job_body j
  | _ => True
  end.

(** C18: under every behaviour of the services, [create] publishes a message only
    after the row of its job is committed as queued. *)
Theorem create_commits_first env `{!Conforming env} S n w dto :
  ready w ->
  Forall (fun we => committed_first S we.1 we.2)
    (trace env n w (open_session (ApiContainer.job_create S dto))).
Proof.
  intros Hr. assert (Hl : Lenient (committed_first S)) by (by intros w' []).
  refine (proj2 (wp_run_monitored env _ _ (fun _ _ => True) n w _)).
  apply (wired_create_spec _ S); [done| |done].
  intros w' ch i Hi. split; [done|]. by exists (created_row dto i).
Qed.

Lemma create_commits_first_witness :
  Forall (fun we => committed_first demo_settings we.1 we.2)
    (trace (reference (fun _ => true)) 0 (demo_world all_up ∅)
       (open_session (ApiContainer.job_create demo_settings demo_request))).
Proof.
  apply (create_commits_first (reference _) demo_settings 0 (demo_world all_up ∅)).
  split; [split|]; done.
Defined.

(** ** The active job *)

Lemma wf_jobs_created d dto i :
  wf_jobs (jobs d) -> jobs d !! drawn_id i = None -> ~ active_job dto d ->
  wf_jobs (<[drawn_id i := created_row dto i]> (jobs d)).
Proof.
  intros Hwf Hnone Hna. split.
  - intros k r. rewrite lookup_insert_Some. intros [[<- <-]|[_ H]]; [done|].
    by eapply wf_jobs_id.
  - assert (Hone : forall k r, jobs d !! k = Some r -> same_slot (created_row dto i) r = false).
    { intros k r Hk. apply not_true_is_false. intros Hs. apply Hna. exists k, r.
      unfold same_slot in Hs. rewrite !andb_true_iff, Z.eqb_eq, N.eqb_eq in Hs.
      cbn in Hs. destruct Hs as [[[_ Ha] E1] E2]. by rewrite E1, E2. }
    intros k1 k2 r1 r2. rewrite !lookup_insert_Some.
    intros [[<- <-]|[_ H1]] [[<- <-]|[_ H2]] Hs; [done| | |by eapply wf_one_active].
    + by rewrite (Hone _ _ H2) in Hs.
    + rewrite same_slot_sym in Hs. by rewrite (Hone _ _ H1) in Hs.
Qed.

Lemma create_result_jobs bucket queue threshold dto w r w' :
  create_result bucket queue threshold dto w r w' ->
  jobs (w_db w') = jobs (w_db w) \/
  ~ active_job dto (w_db w) /\ exists i, jobs (w_db w) !! drawn_id i = None /\
    jobs (w_db w') = <[drawn_id i := created_row dto i]> (jobs (w_db w)).
Proof.
  intros [| | | |doc i c c' Hd Hup Hq Ha Hf Hid|y w1 Ht (c & [->|(Ha & i & Hf & Hw)])];
    try (by left); right; (split; [done|]); exists i; (split; [done|]).
  - by rewrite (mq_db _ _ (mq_frame_published _ _ _ _)).
  - destruct Hw as [->|Ho]; [done|]. by rewrite (mq_db _ _ (mq_frame_outcome _ _ _ _ Ho)).
Qed.

(** A request never gives a document two active jobs of one account and never touches an
    existing row, whatever the services do: the job table stays well formed, and
    every row that was there is still there. *)
Theorem create_keeps_one_active env `{!Conforming env} S n w dto :
  ready w ->
  let out := create_job env S n w dto in
  wf_jobs (jobs (w_db out.2)) /\
  forall k j, jobs (w_db w) !! k = Some j -> jobs (w_db out.2) !! k = Some j.
Proof.
  intros Hr out.
  destruct (create_result_jobs _ _ _ _ _ _ _ (create_job_result env S n w dto Hr))
    as [E|(Hna & i & Hf & E)]; fold out in E; rewrite E.
  - by destruct Hr.
  - split; [apply wf_jobs_created; [by destruct Hr|done..]|].
    intros k j Hk. rewrite lookup_insert_ne; [done|]. congruence.
Qed.

Lemma create_keeps_one_active_witness :
  let out := create_job (reference (fun _ => true)) demo_settings 0
               (demo_world all_up (one_job COMPLETED 1)) demo_request in
  wf_jobs (jobs (w_db out.2)) /\
  forall k j, jobs (w_db (demo_world all_up (one_job COMPLETED 1))) !! k = Some j ->
    jobs (w_db out.2) !! k = Some j.
Proof.
  apply (create_keeps_one_active (reference _) demo_settings 0
           (demo_world all_up (one_job COMPLETED 1)) demo_request).
  apply demo_ready.
Defined.

(** A later request for the same document of the same account. *)
Definition same_document (dto dto' : CreateJobDTO.t) : Prop :=
  CreateJobDTO.account_id dto' = CreateJobDTO.account_id dto /\
  CreateJobDTO.document_id dto' = CreateJobDTO.document_id dto.

(** The messages of the queue of jobs. *)
Definition job_queue (S : BaseAppSettings.t) (w : world) : list bytes :=
  default [] (w_queues w !! BaseAppSettings.rabbitmq_queue S).

Lemma declared_queue w q : default [] (w_queues (declared w q) !! q) = default [] (w_queues w !! q).
Proof.
  unfold declared. destruct (w_queues w !! q) as [l|] eqn:E; [by rewrite E|].
  cbn. by rewrite lookup_insert_eq.
Qed.

(** What a request that raises has done when its job is in the table. *)
Lemma raised_after_commit bucket S threshold dto w x w' :
  create_result bucket (BaseAppSettings.rabbitmq_queue S) threshold dto w (Exn x) w' ->
  jobs (w_db w') <> jobs (w_db w) ->
  exists i, jobs (w_db w) !! drawn_id i = None /\
    jobs (w_db w') = <[drawn_id i := created_row dto i]> (jobs (w_db w)) /\
    (job_queue S w' = job_queue S w \/
     job_queue S w' = job_queue S w ++ [job_body (created_row dto i)])%list.
Proof.
  intros Hres Hne. inversion Hres as [| | | | |y w1 _ (c & Hc)]; subst; try done.
  destruct Hc as [->|(_ & i & Hf & Hw)]; [done|]. exists i. split; [done|].
  destruct Hw as [->|Ho]; [split; [done|by left]|].
  split; [by rewrite (mq_db _ _ (mq_frame_outcome _ _ _ _ Ho))|].
  unfold job_queue. destruct Ho as (c' & [->|[->| ->]]).
  - by left.
  - left. by apply (declared_queue (put_job (set_cached w c) (created_row dto i))).
  - right. by rewrite published_queue.
Qed.

(** A request for a document with an active job fails and adds no job. *)
Lemma active_job_refused env `{!Conforming env} S n w dto :
  ready w -> active_job dto (w_db w) ->
  let out := create_job env S n w dto in
  is_ok out.1 = false /\ jobs (w_db out.2) = jobs (w_db w).
Proof.
  intros Hr Ha out. pose proof (create_job_result env S n w dto Hr) as Hres. fold out in Hres.
  destruct (create_result_jobs _ _ _ _ _ _ _ Hres) as [E|[Hna _]]; [|done]. split; [|done].
  by inversion Hres.
Qed.

(** C40: a request that raises although its job is in the table, as when the broker fails
    after the commit, leaves the job queued, and its message only if it was published all
    the same.  While the row is there, whatever the services do, every further request for
    the document raises and adds no job; when they work and the queue has room, it is refused
    because of this job. *)
Theorem enqueue_failure_strands_job env `{!Conforming env} S n w dto :
  ready w ->
  let out := create_job env S n w dto in
  is_ok out.1 = false -> jobs (w_db out.2) <> jobs (w_db w) ->
  exists i, let j := created_row dto i in
    jobs (w_db out.2) = <[Job.id j := j]> (jobs (w_db w)) /\ Job.status j = QUEUED /\
    (job_queue S out.2 = job_queue S w \/ job_queue S out.2 = job_queue S w ++ [job_body j])%list /\
    forall env' n' w' dto', Conforming env' -> ready w' -> same_document dto dto' ->
      jobs (w_db w') !! Job.id j = Some j ->
      let again := create_job env' S n' w' dto' in
      is_ok again.1 = false /\ jobs (w_db again.2) = jobs (w_db w') /\
      (w_health w' = all_up -> (exists v, valid_uuid v /\ unused (w_db w') v) ->
       is_Some (accounts (w_db w') !! CreateJobDTO.account_id dto') ->
       (exists doc, requested_document dto' (w_db w') = Some doc /\
          uploaded (BaseAppSettings.s3_bucket S) w' doc) ->
       (depth w' (BaseAppSettings.rabbitmq_queue S) < BaseAppSettings.backpressure_threshold S)%Z ->
       again.1 = Exn (ERaise ActiveJobExistsException)).
Proof.
  intros Hr out Hx Hne. pose proof (create_job_result env S n w dto Hr) as Hres. fold out in Hres.
  destruct out as [[a|x] w1]; [done|]. cbn [fst snd] in *.
  destruct (raised_after_commit _ _ _ _ _ _ _ Hres Hne) as (i & Hf & Hj & Hq).
  exists i. cbn zeta. split; [exact Hj|]. split; [done|]. split; [exact Hq|].
  intros env' n' w' dto' Henv Hr' [Ha Hd] Hrow.
  assert (Hact : active_job dto' (w_db w')).
  { exists (drawn_id i), (created_row dto i). by split_and!. }
  destruct (active_job_refused env' S n' w' dto' Hr' Hact) as [H1 H2].
  split; [exact H1|]. split; [exact H2|]. intros Hh Hu Hacc (doc & Hdoc & Hup) Hdepth.
  pose proof (create_decision_result env' S n' w' dto' Hr' Hh Hu Hacc) as Hdec.
  unfold create_decision in Hdec. rewrite Hdoc, bool_decide_eq_true_2 in Hdec by done.
  apply Z.leb_gt in Hdepth. rewrite Hdepth in Hdec. apply has_active_job_spec in Hact.
  rewrite Hact in Hdec. by destruct Hdec.
Qed.

(** The broker works until the message is published. *)
Definition publish_fails (k : nat) : bool := negb (Nat.eqb k 17).
Definition broker_flaky : health := Health Up Up Up Flaky Up Up Up Up Up.

Lemma enqueue_failure_strands_job_witness :
  let w := demo_world broker_flaky ∅ in
  let out := create_job (reference publish_fails) demo_settings 0 w demo_request in
  out.1 = Exn (ERaise QueueException) /\ job_queue demo_settings out.2 = [] /\
  exists i, let j := created_row demo_request i in
    jobs (w_db out.2) = <[Job.id j := j]> (jobs (w_db w)) /\ Job.status j = QUEUED /\
    let again := create_job (reference (fun _ => true)) demo_settings 0
                   (demo_world all_up {[Job.id j := j]}) demo_request in
    again.1 = Exn (ERaise ActiveJobExistsException).
Proof.
  set (w := demo_world broker_flaky ∅).
  set (out := create_job (reference publish_fails) demo_settings 0 w demo_request).
  assert (H1 : out.1 = Exn (ERaise QueueException)) by by vm_compute.
  assert (H2 : job_queue demo_settings out.2 = []) by by vm_compute.
  cbn zeta. split; [exact H1|]. split; [exact H2|].
  destruct (enqueue_failure_strands_job (reference publish_fails) demo_settings 0 w demo_request)
    as (i & Hj & Hs & _ & Hagain).
  - split; [split|]; done.
  - fold out. by rewrite H1.
  - intros E. assert (H : size (jobs (w_db out.2)) = 1%nat) by by vm_compute.
    fold out in E. rewrite E in H. done.
  - exists i. split; [exact Hj|]. split; [exact Hs|].
    apply (Hagain (reference (fun _ => true)) 0%nat (demo_world all_up _) demo_request).
    + apply _.
    + split; [by apply wf_jobs_singleton|done].
    + done.
    + apply lookup_insert_eq.
    + done.
    + destruct (decide (drawn_id i = 9%N)) as [E|E]; [exists 8%N|exists 9%N];
        (split; [done|]); (split_and!; [done| |done]);
        apply lookup_singleton_ne; change (Job.id _) with (drawn_id i); congruence.
    + by exists (Account.Make 1 (Some "hash")).
    + exists demo_document. split; [done|by eexists].
    + done.
Defined.

(** ** Reads *)

(** An account only ever reads its own rows: the answer of a request that reads. *)
Definition reads_only {A} (w : world) (out : result exn A * world) (answer : A) : Prop :=
  out.2 = w /\
  (out.1 = Ok answer \/
   is_ok out.1 = false /\ (fails (h_sql (w_health w)) \/ fails (h_txn (w_health w)))).

Lemma reads_only_session env `{!Conforming env} {A} (m : prog A) answer n w :
  ready w -> reads (fun _ _ => True) m (fun d r => r = answer d) ->
  reads_only w (run env n w (open_session m)) (answer (w_db w)).
Proof.
  intros [_ Htx] Hm.
  apply (wp_run env _ (fun r w' => reads_only w (r, w') (answer (w_db w))) n w).
  apply (reads_session _ m _ w _ Hm Htx).
  - intros _ r ->. split; [done|by left].
  - intros Hf x. split; [done|]. by right.
Qed.

(** A request for a job or a document answers with the row of that id if, and
    only if, it belongs to the account of the request, and changes nothing. *)
Theorem get_is_scoped env `{!Conforming env} n w id account_id :
  ready w ->
  reads_only w (run env n w (open_session (ApiContainer.job_get id account_id)))
    (job_dto <$> select (fun j => (Job.account_id j =? account_id)%Z) (jobs (w_db w) !! id)) /\
  reads_only w (run env n w (open_session (ApiContainer.document_get id account_id)))
    (document_dto <$> select (fun d => (Document.account_id d =? account_id)%Z)
                        (documents (w_db w) !! id)).
Proof.
  intros Hr. split.
  - apply (reads_only_session env _ (fun d => job_dto <$> select _ (jobs d !! id)) n w Hr).
    exact (job_get_rule _ id account_id).
  - apply (reads_only_session env _ (fun d => document_dto <$> select _ (documents d !! id)) n w Hr).
    exact (document_get_rule _ id account_id).
Qed.

Lemma get_is_scoped_witness :
  let w := demo_world all_up (one_job QUEUED 0) in
  reads_only w (run (reference (fun _ => true)) 0 w (open_session (ApiContainer.job_get 7 2)))
    None /\
  reads_only w (run (reference (fun _ => true)) 0 w (open_session (ApiContainer.document_get 7 2)))
    None.
Proof.
  apply (get_is_scoped (reference (fun _ => true)) 0
           (demo_world all_up (one_job QUEUED 0)) 7 2). apply demo_ready.
Defined.

(** The answer of a listing. *)
Lemma list_for_document_result env `{!Conforming env} S n w document_id account_id :
  ready w ->
  let owned := select (fun d => (Document.account_id d =? account_id)%Z)
                 (documents (w_db w) !! document_id) in
  let out := run env n w (open_session
               (ApiContainer.artifact_list_for_document S document_id account_id)) in
  out.2 = w /\
  match out.1 with
  | Ok l => is_Some owned /\ exists rows,
      Permutation rows (document_artifacts (w_db w) document_id account_id) /\
      ArtifactWithUrlDTO.artifact <$> l = artifact_dto <$> rows
  | Exn x => x = ERaise DocumentNotFoundException /\ owned = None
      \/ w_health w <> all_up
  end.
Proof.
  intros [Hwf Htx] owned out.
  apply (wp_run env _ (fun r w' => w' = w /\ match r with
    | Ok l => is_Some owned /\ exists rows,
        Permutation rows (document_artifacts (w_db w) document_id account_id) /\
        ArtifactWithUrlDTO.artifact <$> l = artifact_dto <$> rows
    | Exn x => x = ERaise DocumentNotFoundException /\ owned = None \/ w_health w <> all_up
    end) n w).
  unfold ApiContainer.artifact_list_for_document.
  apply (list_for_document_spec (fun _ _ => True) (S3StorageService._client (ApiContainer.s3 S))
           (BaseAppSettings.s3_bucket S)); try apply _; try done.
  - intros Hn. split; [done|]. by left.
  - intros rows l Ho Hp Hl. split_and!; [done..|]. by exists rows.
  - intros Hf x. split; [done|]. right. intros E. rewrite E in Hf.
    by destruct Hf as [H|[H|H]]; apply H.
Qed.

(** The artifacts of a document are listed only to the account that owns it,
    each row once and with its own signed URL; for anyone else the document does
    not exist. *)
Theorem list_for_document_is_scoped env `{!Conforming env} S n w document_id account_id :
  ready w ->
  let owned := select (fun d => (Document.account_id d =? account_id)%Z)
                 (documents (w_db w) !! document_id) in
  let out := run env n w (open_session
               (ApiContainer.artifact_list_for_document S document_id account_id)) in
  out.2 = w /\
  match out.1 with
  | Ok l => is_Some owned /\ exists rows,
      Permutation rows (document_artifacts (w_db w) document_id account_id) /\
      ArtifactWithUrlDTO.artifact <$> l = artifact_dto <$> rows
  | Exn x => x = ERaise DocumentNotFoundException /\ owned = None
      \/ w_health w <> all_up
  end.
Proof. by apply list_for_document_result. Qed.

Lemma list_for_document_is_scoped_witness :
  let w := demo_world all_up (one_job COMPLETED 1) in
  let out := run (reference (fun _ => true)) 0 w (open_session
               (ApiContainer.artifact_list_for_document demo_settings 5 2)) in
  out.2 = w /\
  match out.1 with
  | Ok l => is_Some (None : option Document.t) /\ exists rows,
      Permutation rows (document_artifacts (w_db w) 5 2) /\
      ArtifactWithUrlDTO.artifact <$> l = artifact_dto <$> rows
  | Exn x => x = ERaise DocumentNotFoundException /\ (None : option Document.t) = None
      \/ w_health w <> all_up
  end.
Proof.
  apply (list_for_document_is_scoped (reference (fun _ => true)) demo_settings 0
           (demo_world all_up (one_job COMPLETED 1)) 5 2). apply demo_ready.
Defined.

(** ** Documents *)

(** Every document is stored under its own id and key. *)
Definition document_keys (d : tables) : Prop :=
  forall k r, documents d !! k = Some r ->
    valid_uuid k /\ Document.id r = k /\
    Document.object_key r = DocumentService._raw_key (Document.account_id r) k.

Lemma new_document_no_violation d acc u t :
  document_keys d -> valid_uuid u -> documents d !! u = None -> is_Some (accounts d !! acc) ->
  document_violations d (new_document acc u t) = [].
Proof.
  intros Hk Hu Hn [a Ha]. unfold document_violations. cbn. rewrite Hn, Ha.
  rewrite !violated_false; [done|done| |done].
  apply map_exists_false. intros k r Hr. destruct (Hk k r Hr) as (Hv & _ & ->).
  apply String.eqb_neq. intros E. apply raw_key_inj in E as [_ ->]; [|done..]. congruence.
Qed.

Lemma document_keys_insert d acc u t :
  document_keys d -> valid_uuid u ->
  document_keys (apply_write d (WDocument (new_document acc u t))).
Proof.
  intros Hk Hu k r. cbn. rewrite lookup_insert_Some.
  intros [[<- <-]|[_ H]]; [done|by apply Hk].
Qed.

(** When the services work, [DocumentService.create] always succeeds for an
    existing account: it adds one row under a new id, whose key is derived from the
    account and the id, and every document keeps its own key. *)
Theorem document_create_adds_one env `{!Conforming env} S n w account_id :
  ready w -> w_health w = all_up -> document_keys (w_db w) ->
  (exists v, valid_uuid v /\ unused (w_db w) v) ->
  is_Some (accounts (w_db w) !! account_id) ->
  let out := run env n w (open_session (ApiContainer.document_create S account_id)) in
  document_keys (w_db out.2) /\
  exists u t url,
    documents (w_db w) !! u = None /\
    out.1 = Ok (DocumentWithUploadUrlDTO.Make (document_dto (new_document account_id u t)) url) /\
    documents (w_db out.2) = <[u := new_document account_id u t]> (documents (w_db w)).
Proof.
  intros [Hwf Htx] Hh Hk Hex Hacc out.
  apply (wp_run env _ (fun r w' => document_keys (w_db w') /\ exists u t url,
    documents (w_db w) !! u = None /\
    r = Ok (DocumentWithUploadUrlDTO.Make (document_dto (new_document account_id u t)) url) /\
    documents (w_db w') = <[u := new_document account_id u t]> (documents (w_db w))) n w).
  assert (Hnew : forall u, uuid4_doc (h_ids (w_health w)) (w_db w) u ->
    valid_uuid u /\ documents (w_db w) !! u = None).
  { intros u [Hu Hf]. rewrite Hh in Hf. by destruct (Hf eq_refl Hex). }
  unfold ApiContainer.document_create.
  apply (document_create_spec (fun _ _ => True) (S3StorageService._client (ApiContainer.s3 S))
           (BaseAppSettings.s3_bucket S)); try apply _; try done.
  - intros _ _ u t url Hu _. destruct (Hnew u Hu) as [Hv Hn].
    split; [by apply document_keys_insert|]. by exists u, t, url.
  - intros x u t Hu Hf. destruct (Hnew u Hu) as [Hv Hn]. exfalso.
    rewrite Hh in Hf. destruct Hf as [H|[H|[H|H]]]; [by apply H..|].
    apply H. by apply new_document_no_violation.
  - intros x u t _ Hf. exfalso. rewrite Hh in Hf. by apply Hf.
Qed.

Lemma document_create_adds_one_witness :
  let w := demo_world all_up ∅ in
  let out := run (reference (fun _ => true)) 0 w
               (open_session (ApiContainer.document_create demo_settings 1)) in
  document_keys (w_db out.2) /\
  exists u t url,
    documents (w_db w) !! u = None /\
    out.1 = Ok (DocumentWithUploadUrlDTO.Make (document_dto (new_document 1 u t)) url) /\
    documents (w_db out.2) = <[u := new_document 1 u t]> (documents (w_db w)).
Proof.
  apply (document_create_adds_one (reference (fun _ => true)) demo_settings 0
           (demo_world all_up ∅) 1).
  - split; [split|]; done.
  - done.
  - intros k r Hk. change (({[5%N := demo_document]} : gmap uuid Document.t) !! k = Some r) in Hk.
    apply lookup_singleton_Some in Hk as [<- <-]. done.
  - exists 9%N. split; [done|]. by repeat split.
  - by exists (Account.Make 1 (Some "hash")).
Defined.

(** ** Authentication *)

(** An API key is accepted exactly when some account stores its SHA-256 digest,
    and the account found is one that stores it: the key itself is never compared
    or stored. *)
Theorem authenticate_by_digest env `{!Conforming env} n w api_key b :
  ready w -> w_health w = all_up -> encode api_key = Some b ->
  let out := run env n w (open_session (ApiContainer.account_authenticate api_key)) in
  out.2 = w /\
  match out.1 with
  | Ok (Some a) => exists k r, accounts (w_db w) !! k = Some r /\
      Account.api_key_hash r = Some (sha256_hexdigest b) /\ a = account_dto r
  | Ok None => forall k r, accounts (w_db w) !! k = Some r ->
      Account.api_key_hash r <> Some (sha256_hexdigest b)
  | Exn _ => False
  end.
Proof.
  intros [Hwf Htx] Hh Hb out.
  apply (wp_run env _ (fun r w' => w' = w /\ match r with
    | Ok (Some a) => exists k r, accounts (w_db w) !! k = Some r /\
        Account.api_key_hash r = Some (sha256_hexdigest b) /\ a = account_dto r
    | Ok None => forall k r, accounts (w_db w) !! k = Some r ->
        Account.api_key_hash r <> Some (sha256_hexdigest b)
    | Exn _ => False
    end) n w).
  unfold ApiContainer.account_authenticate, AccountService.authenticate. rewrite Hb.
  apply (reads_session _ _ _ w _ (account_get_rule _ (sha256_hexdigest b)) Htx).
  - intros _ r (a & -> & Ha). split; [done|]. destruct a as [a|]; [|done].
    destruct Ha as (k & Hk & Hd). by exists k, a.
  - intros Hf. exfalso. rewrite Hh in Hf. by destruct Hf as [H|H]; apply H.
Qed.

Lemma authenticate_by_digest_witness :
  let w := demo_world all_up ∅ in
  let out := run (reference (fun _ => true)) 0 w
               (open_session (ApiContainer.account_authenticate "key")) in
  out.2 = w /\
  match out.1 with
  | Ok (Some a) => exists k r, accounts (w_db w) !! k = Some r /\
      Account.api_key_hash r = Some (sha256_hexdigest "key") /\ a = account_dto r
  | Ok None => forall k r, accounts (w_db w) !! k = Some r ->
      Account.api_key_hash r <> Some (sha256_hexdigest "key")
  | Exn _ => False
  end.
Proof.
  apply (authenticate_by_digest (reference (fun _ => true)) 0 (demo_world all_up ∅) "key" "key").
  - split; [split|]; done.
  - done.
  - vm_compute. reflexivity.
Defined.
