(* ===== verification/MessageTheorems.v ===== *)
(** * The messages on the queue

    What the API and the worker publish is what the worker reads back; what else
    can arrive is told apart by [parse_job_id]. *)

From S2P Require Import Prelude PyStr PyUuid Json JsonFacts Dtos Exceptions Models.
From S2P Require Import Program Settings Environment Logic ApiServices Worker Wiring.
From S2P Require Import ConsumerSpec Reference WorkerOutcomes Examples.

(** ** Round trips *)

Lemma plain_uuid u : plain_string (uuid_str u).
Proof.
  unfold plain_string, uuid_str. rewrite list_of_string_of_list.
  apply (hex_or_dash_check plain_char); [done|done|apply uuid_chars_hex].
Qed.

Lemma get_job_id id ms :
  get_item "job_id" (JObj (("job_id", JStr (uuid_str id)) :: ms))
  = match List.find (fun m => bool_decide (m.1 = "job_id")) (reverse ms) with
    | Some m => Some m.2
    | None => Some (JStr (uuid_str id))
    end.
Proof.
  unfold get_item. rewrite reverse_cons.
  induction (reverse ms) as [|m l IH]; [done|]. simpl.
  destruct (bool_decide (m.1 = "job_id")); [done|exact IH].
Qed.

Lemma parse_flat limit id ms :
  valid_uuid id -> (2 <= limit)%nat -> flat_members ms ->
  Forall (fun m => m.1 <> "job_id") ms ->
  RabbitMQConsumer.parse_job_id limit (dumps (JObj (("job_id", JStr (uuid_str id)) :: ms)))
  = Ok (Some id).
Proof.
  intros Hid Hl Hms Hk. unfold RabbitMQConsumer.parse_job_id.
  rewrite loads_dumps_flat; [|constructor; [split; [by apply plain_check|]|done]|done].
  - rewrite get_job_id.
    replace (List.find _ _) with (@None (string * json)).
    + unfold RabbitMQConsumer.uuid_of_json. by rewrite uuid_of_str_uuid_str.
    + symmetry. destruct (List.find _ _) as [m|] eqn:E; [|done].
      apply find_some in E as [Hin Hm]. apply bool_decide_eq_true in Hm.
      rewrite List.Forall_forall in Hk. destruct (Hk m); [|done].
      apply list_elem_of_In. apply list_elem_of_In in Hin. by rewrite elem_of_reverse in Hin.
  - constructor. apply plain_uuid.
Qed.

(** The message of a request. *)
Lemma parse_payload limit job :
  (2 <= limit)%nat -> valid_uuid (JobDTO.id job) ->
  RabbitMQConsumer.parse_job_id limit (dumps (JobService.message_payload job))
  = Ok (Some (JobDTO.id job)).
Proof.
  intros Hl Hjob. apply parse_flat; [done..| |by repeat constructor].
  apply Forall_cons_2; [split; [by apply plain_check|constructor; apply plain_uuid]|].
  apply Forall_cons_2; [split; [by apply plain_check|]|constructor].
  cbn [snd]. rewrite <- map_map. constructor.
  induction (JobDTO.artifact_types job) as [|[] l IH]; constructor; [|done].
  by apply plain_check.
Qed.

(** C19: the worker reads back the job id of every message the pipeline publishes:
    that of a request ([JobService.create]) and that of a retry
    ([_handle_failure]). *)
Theorem message_round_trip limit id job :
  (2 <= limit)%nat -> valid_uuid id -> valid_uuid (JobDTO.id job) ->
  RabbitMQConsumer.parse_job_id limit (requeue_body id) = Ok (Some id) /\
  RabbitMQConsumer.parse_job_id limit (dumps (JobService.message_payload job))
    = Ok (Some (JobDTO.id job)).
Proof.
  intros Hl Hid Hjob. split; [|by apply parse_payload].
  apply parse_flat; [done..|constructor|constructor].
Qed.

Lemma message_round_trip_witness :
  RabbitMQConsumer.parse_job_id 2 (requeue_body 7) = Ok (Some 7%N) /\
  RabbitMQConsumer.parse_job_id 2
    (dumps (JobService.message_payload (Contracts.job_dto (demo_job QUEUED 0)))) = Ok (Some 7%N).
Proof.
  apply (message_round_trip 2 7 (Contracts.job_dto (demo_job QUEUED 0))); [lia|done|done].
Defined.

(** The textual form of an id is read back by [UUID(...)], for every 128-bit
    id: the id in a message or an object key identifies the row it came from. *)
Theorem uuid_round_trip u : valid_uuid u -> uuid_of_str (uuid_str u) = Some u.
Proof. apply uuid_of_str_uuid_str. Qed.

Lemma uuid_round_trip_witness : uuid_of_str (uuid_str 12345678901234567890) = Some 12345678901234567890%N.
Proof. apply uuid_round_trip. done. Defined.

(** ** Bodies that are not job messages *)

(** Decoding a body always ends; it gives a job id, or the body is dropped as
    a poison message, or -- and only when the decoder of the interpreter refuses its
    nesting -- [RecursionError] is raised, which no [except] clause names. *)
Theorem parse_outcomes limit body :
  match RabbitMQConsumer.parse_job_id limit body with
  | Ok (Some id) => exists payload v,
      loads limit body = DVal payload [] /\ get_item "job_id" payload = Some v /\
      RabbitMQConsumer.uuid_of_json v = Some id
  | Ok None => loads limit body = DValueError \/ exists payload,
      loads limit body = DVal payload [] /\
      match get_item "job_id" payload with
      | Some v => RabbitMQConsumer.uuid_of_json v = None
      | None => True
      end
  | Exn x => x = ERecursion /\ loads limit body = DRecursionError
  end.
Proof.
  unfold RabbitMQConsumer.parse_job_id. pose proof (loads_no_fuel limit body) as Hf.
  assert (Hrest : forall payload rest, loads limit body = DVal payload rest -> rest = []).
  { intros payload rest. unfold loads, loads_text.
    destruct (decode_body _) as [l|]; [|done].
    destruct (scan_value _ _ _) as [v l1| | |]; try done. by destruct (skip_ws l1); intros; simplify_eq. }
  destruct (loads limit body) as [payload rest| | |] eqn:E; [|by left|done|done].
  rewrite (Hrest _ _ eq_refl). destruct (get_item "job_id" payload) as [v|] eqn:Ev.
  - destruct (RabbitMQConsumer.uuid_of_json v) as [id|] eqn:Eu.
    + by exists payload, v.
    + right. exists payload. by rewrite Ev.
  - right. exists payload. by rewrite Ev.
Qed.

(** [n] opening brackets. *)
Definition nested (n : nat) : bytes := string_of_list (replicate n "["%char).

Lemma scan_nested fuel depth :
  (2 * depth + 1 <= fuel)%nat ->
  scan_value fuel depth (replicate (S depth) "["%char) = DRecursionError.
Proof.
  revert fuel. induction depth as [|depth IH]; intros fuel Hf.
  - by destruct fuel as [|fuel]; [lia|].
  - destruct fuel as [|[|fuel]]; [lia..|]. specialize (IH fuel).
    cbn [replicate] in *. cbn [scan_value].
    change (is_char 34 "[") with false. change (is_char 123 "[") with false.
    change (is_char 91 "[") with true. cbn beta iota.
    change (skip_ws ("["%char :: replicate depth "["%char))
      with ("["%char :: replicate depth "["%char).
    change (is_char 93 "[") with false. cbn beta iota. cbn [scan_elements].
    rewrite IH; [done|lia].
Qed.

Lemma decode_nested n :
  decode_body (replicate n "["%char) = Some (replicate n "["%char).
Proof.
  assert (Ha : ascii_chars (replicate n "["%char))
    by (induction n; constructor; done).
  unfold decode_body.
  replace (detect_encoding _) with Utf8 by (by destruct n as [|[|[|[|n]]]]).
  cbv beta iota zeta. rewrite utf8_decode_ascii by exact Ha.
  change (Some (encode_points (map code (replicate n "["%char))) = Some (replicate n "["%char)).
  by rewrite encode_points_ascii.
Qed.

(** A message that nests deeper than the decoder allows is not dropped as
    poison: [_handle] raises [RecursionError] and the message is neither
    acknowledged nor returned. *)
Theorem deep_nesting_escapes env `{!Conforming env} S limit n w tag :
  let msg := Message tag (nested (Datatypes.S limit)) in
  let out := handled env S limit n w msg in
  out = (Exn ERecursion, w).
Proof.
  intros msg out.
  assert (Hp : RabbitMQConsumer.parse_job_id limit (msg_body msg) = Exn ERecursion).
  { unfold RabbitMQConsumer.parse_job_id, loads, msg, nested. cbn [msg_body].
    rewrite list_of_string_of_list, decode_nested. unfold loads_text.
    change (skip_ws (replicate (Datatypes.S limit) "["%char))
      with (replicate (Datatypes.S limit) "["%char).
    rewrite scan_nested; [done|]. unfold fuel_for. rewrite length_replicate. lia. }
  assert (H : out.1 = Exn ERecursion /\ out.2 = w).
  { apply (wp_run env _ (fun r w' => r = Exn ERecursion /\ w' = w) n w).
    by apply (consumer_raise_spec _ S limit msg ERecursion). }
  destruct out as [r w']. cbn in H. by destruct H as [-> ->].
Qed.

Lemma deep_nesting_escapes_witness :
  handled (reference (fun _ => true)) demo_settings 100 0 (demo_world all_up (one_job QUEUED 0))
    (Message 1 (nested 101)) = (Exn ERecursion, demo_world all_up (one_job QUEUED 0)).
Proof.
  apply (deep_nesting_escapes (reference (fun _ => true)) demo_settings 100 0
           (demo_world all_up (one_job QUEUED 0)) 1).
Defined.
