(* ===== verification/Protocol.v ===== *)
(** * The claim protocol

    What a coroutine may do to job rows when others run beside it, and what it may
    rely on.  A coroutine claims a queued job, owns it once the claim is committed,
    and leaves it by completing, retrying or failing it; it parses and stores only
    for a job it owns.  [protocol] states this as a transition system over the ghost
    state of one coroutine: what its open transaction would do to a job
    ([pend]) and whether it owns one ([own]).  Everything else a service answers
    is arbitrary.  The coroutines of the pipeline keep the protocol
    ([entries_keep_protocol]); [System] shows what follows when they run
    concurrently. *)

From S2P Require Import Prelude PyStr PyUuid Json Dtos Exceptions Models Program.
From S2P Require Import Interfaces Settings Environment Container Logic Contracts.
From S2P Require Import Repositories Storage Messaging ApiServices Worker Wiring.

(** ** Ghost state *)

Inductive own : Type :=
| Free
| Owns (j : Job.t)   (** the committed row is [j], claimed by this coroutine *)
| Left (j : Job.t).  (** a commit of [j]'s completion was tried: it took place, or
                         the row is still [j] *)

Inductive pend : Type :=
| Clean
| Claim (r : Job.t)      (** the open transaction claims the job: its new row is [r] *)
| Exit (j r : Job.t)     (** the open transaction moves the owned row [j] to [r] *)
| Insert (r : Job.t)     (** the open transaction inserts [r] *)
| Broken.                (** the transaction is aborted *)

Record ghost : Type := Ghost { g_pend : pend; g_own : own }.

Definition clean (g : ghost) : ghost := Ghost Clean (g_own g).
Definition broken (g : ghost) : ghost := Ghost Broken (g_own g).

(** The rows an owned row may be moved to: completed; queued again while attempts
    remain; failed when none does. *)
Inductive exit_row (j : Job.t) : Job.t -> Prop :=
| ExitCompleted t t' : exit_row j (moved j COMPLETED None t t')
| ExitRetried m t t' :
    (Job.attempts j < Job.max_attempts j)%Z -> exit_row j (moved j QUEUED (Some m) t t')
| ExitFailed m t t' :
    (Job.max_attempts j <= Job.attempts j)%Z -> exit_row j (moved j FAILED (Some m) t t').

(** What is left of the ownership once a commit of the row [r] was tried. *)
Definition leave (j r : Job.t) : own :=
  match Job.status r with COMPLETED => Left j | _ => Free end.

Definition owned (o : own) (j : Job.t) : Prop := o = Owns j \/ o = Left j.

(** No job row is written by the open transaction. *)
Definition idle (p : pend) : Prop := p = Clean \/ p = Broken.

(** ** The protocol of a coroutine that may claim the job [i], or, when [i] is
    [None], insert a new job *)

Definition keeps (i : option uuid) (g : ghost) (e : event) : Prop :=
  match e with
  | Exec (UpdateJob k QUEUED vs) =>
      i = Some k /\ idle (g_pend g) /\ exists t t', vs = status_values STARTED None t t'
  | Exec (UpdateJob k STARTED vs) =>
      idle (g_pend g) /\ exists j status em t t',
        owned (g_own g) j /\ Job.id j = k /\ vs = status_values status em t t' /\
        exit_row j (moved j status em t t')
  | Exec (UpdateJob _ _ _) => False
  | Exec (InsertJob x) =>
      i = None /\ idle (g_pend g) /\ exists u dto t t', x = queued_job u dto t t'
  | PdfOpen _ | S3Put _ _ _ _ => exists j, g_own g = Owns j
  | _ => True
  end.

Definition relies (g : ghost) (e : event) : result exn (resp e) -> ghost -> Prop :=
  match e return result exn (resp e) -> ghost -> Prop with
  | Exec s =>
      match s return result exn (rows s) -> ghost -> Prop with
      | UpdateJob k QUEUED vs => fun r g' =>
          (exists x, r = Exn x /\ g' = broken g)
          \/ g_pend g = Clean /\ r = Ok None /\ g' = g
          \/ g_pend g = Clean /\ exists j, Job.status j = QUEUED /\ Job.id j = k /\
               r = Ok (Some (assign_all j vs)) /\ g' = Ghost (Claim (assign_all j vs)) (g_own g)
      | UpdateJob k STARTED vs => fun r g' =>
          (exists x, r = Exn x /\ g' = broken g)
          \/ g_pend g = Clean /\ r = Ok None /\ g' = g
          \/ g_pend g = Clean /\ exists j, owned (g_own g) j /\
               r = Ok (Some (assign_all j vs)) /\ g' = Ghost (Exit j (assign_all j vs)) (g_own g)
      | InsertJob x => fun r g' =>
          (exists x, r = Exn x /\ g' = broken g)
          \/ g_pend g = Clean /\ r = Ok x /\ g' = Ghost (Insert x) (g_own g)
      | _ => fun r g' =>
          (exists x, r = Exn x /\ g' = broken g) \/ (exists v, r = Ok v) /\ g' = g
      end
  | Commit => fun r g' =>
      let o := match g_pend g, r with
               | Claim r0, Ok _ => Owns r0
               | Claim _, Exn _ => Free
               | Exit j r0, _ => leave j r0
               | _, _ => g_own g
               end in
      g' = match r with Ok _ => Ghost Clean o | Exn _ => Ghost Broken o end
  | Rollback | Close => fun _ g' => g' = clean g
  | _ => fun _ g' => g' = g
  end.

Definition protocol (i : option uuid) : lts := Lts ghost (keeps i) relies.

(** ** Quiet programs: no statement, no transaction, no processing *)

Definition quiet (e : event) : bool :=
  match e with
  | Exec _ | Commit | Rollback | Close | PdfOpen _ | S3Put _ _ _ _ => false
  | _ => true
  end.

Fixpoint only (E : event -> bool) {A} (p : prog A) : Prop :=
  match p with
  | Ret _ | Raise _ => True
  | Vis e k => E e = true /\ forall r, only E (k r)
  end.

Section only.
Context (E : event -> bool).

Lemma only_trigger e : E e = true -> only E (trigger e).
Proof. intros He. split; [done|]. by intros []. Qed.

Lemma only_bind {A B} (p : prog A) (f : A -> prog B) :
  only E p -> (forall a, only E (f a)) -> only E (bind p f).
Proof. intros Hp Hf. induction p as [a|x|e k IH]; simpl in *; [apply Hf|done|].
  destruct Hp as [He Hk]. split; eauto.
Qed.

Lemma only_catch {A} (p : prog A) h :
  only E p -> (forall x q, h x = Some q -> only E q) -> only E (catch p h).
Proof.
  intros Hp Hh. induction p as [a|x|e k IH]; simpl in *; [done| |by destruct Hp; split; eauto].
  destruct (h x) eqn:E1; [by eapply Hh|done].
Qed.

Lemma only_finally {A} (p : prog A) f : only E p -> only E f -> only E (finally p f).
Proof.
  intros Hp Hf. induction p as [a|x|e k IH]; simpl in *; [| |by destruct Hp; split; eauto];
    apply only_bind; by try intros [].
Qed.
End only.

#[export] Hint Resolve only_trigger only_bind only_catch only_finally : neutral.

Section protocol.
Context (i : option uuid).
Abbreviation WP := (wp (protocol i)).

Lemma quiet_keeps g e : quiet e = true -> keeps i g e.
Proof. by destruct e. Qed.

Lemma quiet_relies g e r g' : quiet e = true -> relies g e r g' -> g' = g.
Proof. by destruct e. Qed.

Lemma wp_quiet {A} (p : prog A) Q g :
  only quiet p -> (forall r, Q r g) -> WP p Q g.
Proof.
  intros Hp HQ. induction p as [a|x|e k IH]; simpl in *; [done..|].
  destruct Hp as [He Hk]. split; [by apply quiet_keeps|].
  intros r g' Ht. apply (quiet_relies _ _ _ _ He) in Ht as ->. by apply IH.
Qed.

(** ** Statements and sessions *)

Lemma wp_read {A} s (f : rows s -> A) Q g :
  match s with UpdateJob _ _ _ | InsertJob _ => False | _ => True end ->
  (forall v, Q (Ok (f v)) g) -> (forall x, Q (Exn x) (broken g)) ->
  WP (wrap_sqlalchemy (let* r := trigger (Exec s) in Ret (f r))) Q g.
Proof.
  intros Hs Hok Hbad. unfold wrap_sqlalchemy. wp_norm. apply wp_trigger; [by destruct s|].
  intros r g' Ht.
  assert (H : (exists x, r = Exn x /\ g' = broken g) \/ (exists v, r = Ok v) /\ g' = g)
    by (by destruct s).
  destruct H as [(x & -> & ->)|[(v & ->) ->]]; wp_norm; [|apply Hok].
  destruct (is_sqlalchemy x); apply Hbad.
Qed.

Lemma wp_session {A} (body : prog A) Q g :
  WP body (fun r g1 =>
    match r with
    | Ok a => forall rc g2, relies g1 Commit rc g2 ->
        (is_ok rc = true -> Q (Ok a) (clean g2)) /\ forall y, Q (Exn y) (clean g2)
    | Exn x => forall y, Q (Exn y) (clean g1)
    end) g ->
  WP (open_session body) Q g.
Proof.
  intros H. unfold open_session. wp_norm. revert H. apply wp_mono.
  assert (Hclose : forall g1 (r : result exn A), Q r (clean g1) -> (forall y, Q (Exn y) (clean g1)) ->
    WP (trigger Close) (fun rf g2 => match rf with Ok _ => Q r g2 | Exn y => Q (Exn y) g2 end) g1).
  { intros g1 r Hr Hy. apply wp_trigger; [done|]. intros [[]|y] g2 ->; [done|apply Hy]. }
  assert (Hroll : forall x g1, (forall y, Q (Exn y) (clean g1)) ->
    WP (trigger Rollback) (then_ (fun _ => Raise x) (fun r g2 =>
      WP (trigger Close) (fun rf g3 => match rf with Ok _ => Q r g3 | Exn y => Q (Exn y) g3 end) g2)) g1).
  { intros x g1 Hy. apply wp_trigger; [done|]. intros [[]|y] g2 ->; wp_norm; by apply Hclose. }
  intros [a|x] g1 HQ; cbn beta iota; wp_norm; [|by apply Hroll].
  apply wp_trigger; [done|]. intros [[]|y] g2 Hc; wp_norm.
  - destruct (HQ (Ok tt) g2 Hc) as [H1 H2]. apply Hclose; [by apply H1|done].
  - apply Hroll. by destruct (HQ (Exn y) g2 Hc).
Qed.

Lemma wp_update_values status em Q g :
  (forall t t', Q (Ok (status_values status em t t')) g) ->
  (forall x, Q (Exn x) g) ->
  WP (JobRepository.update_values status em) Q g.
Proof.
  intros HQ Hx. unfold JobRepository.update_values. wp_norm. apply wp_trigger; [done|].
  intros [t|x] g' ->; wp_norm; [|apply Hx]. unfold status_values in HQ.
  destruct (bool_decide (status = STARTED)); wp_norm.
  - apply wp_trigger; [done|]. intros [t'|x] g' ->; wp_norm; [|apply Hx].
    destruct em, status; apply HQ.
  - destruct em, status; apply (HQ _ 0%Z).
Qed.

(** A claim. *)
Lemma wp_claim k Q g :
  i = Some k -> idle (g_pend g) ->
  (forall j t t', Job.status j = QUEUED -> Job.id j = k ->
   let r := moved j STARTED None t t' in Q (Ok (job_dto r)) (Ghost (Claim r) (g_own g))) ->
  (forall x, Q (Exn x) g /\ Q (Exn x) (broken g)) ->
  WP (JobRepository.update_status k STARTED QUEUED None) Q g.
Proof.
  intros Hi Hp Hok Hbad. unfold JobRepository.update_status. wp_norm.
  assert (Hexc : forall x g', Q (Exn x) g' ->
    (forall y, Q (Exn y) g') ->
    match (if is_app JobStateConflictException x then Some (Raise x)
           else if is_sqlalchemy x then Some (raise_ DatabaseException) else None) with
    | Some q => WP q Q g'
    | None => Q (Exn x) g'
    end).
  { intros x g' Hx Hy. destruct (is_app _ x); [exact Hx|].
    destruct (is_sqlalchemy x); [apply Hy|exact Hx]. }
  apply wp_update_values; [|intros x; apply Hexc; [|intros y]; by apply Hbad].
  intros t t'. wp_norm. apply wp_trigger; [by split_and!; [..|exists t, t']|].
  intros r g' [(x & -> & ->)|[(_ & -> & ->)|(_ & j & Hst & Hid & -> & ->)]]; wp_norm.
  - apply Hexc; [|intros y]; by apply Hbad.
  - by apply Hbad.
  - rewrite assign_status_values. by apply Hok.
Qed.

(** Leaving an owned job. *)
Lemma wp_exit k j status em Q g :
  owned (g_own g) j -> Job.id j = k -> idle (g_pend g) ->
  (forall t t', exit_row j (moved j status em t t')) ->
  (forall d t t', Q (Ok d) (Ghost (Exit j (moved j status em t t')) (g_own g))) ->
  (forall x, Q (Exn x) g /\ Q (Exn x) (broken g)) ->
  WP (JobRepository.update_status k status STARTED em) Q g.
Proof.
  intros Ho Hid Hp Hrow Hok Hbad. unfold JobRepository.update_status. wp_norm.
  assert (Hexc : forall x g', Q (Exn x) g' -> (forall y, Q (Exn y) g') ->
    match (if is_app JobStateConflictException x then Some (Raise x)
           else if is_sqlalchemy x then Some (raise_ DatabaseException) else None) with
    | Some q => WP q Q g'
    | None => Q (Exn x) g'
    end).
  { intros x g' Hx Hy. destruct (is_app _ x); [exact Hx|].
    destruct (is_sqlalchemy x); [apply Hy|exact Hx]. }
  apply wp_update_values; [|intros x; apply Hexc; [|intros y]; by apply Hbad].
  intros t t'. wp_norm. apply wp_trigger; [split; [done|]; by exists j, status, em, t, t'|].
  intros r g' [(x & -> & ->)|[(_ & -> & ->)|(_ & j' & Ho' & -> & ->)]]; wp_norm.
  - apply Hexc; [|intros y]; by apply Hbad.
  - by apply Hbad.
  - assert (j' = j) as -> by (unfold owned in *; naive_solver congruence).
    rewrite assign_status_values. apply Hok.
Qed.

(** ** Clients: they leave the ghost state alone *)

(** Events that leave the ghost state alone and are always allowed for the owner of
    a job; [quiet] ones are allowed for everyone. *)
Definition working (e : event) : bool :=
  quiet e || match e with PdfOpen _ | S3Put _ _ _ _ => true | _ => false end.

Lemma wp_working {A} (p : prog A) Q g :
  only working p -> (exists j, g_own g = Owns j) -> (forall r, Q r g) -> WP p Q g.
Proof.
  intros Hp Ho HQ. induction p as [a|x|e k IH]; simpl in *; [done..|].
  destruct Hp as [He Hk]. split; [by destruct e|].
  intros r g' Ht. assert (g' = g) as -> by (by destruct e). by apply IH.
Qed.

Lemma quiet_working e : quiet e = true -> working e = true.
Proof. unfold working. by intros ->. Qed.
End protocol.

Lemma only_mono (E E' : event -> bool) {A} (p : prog A) :
  (forall e, E e = true -> E' e = true) -> only E p -> only E' p.
Proof.
  intros HE. induction p as [a|x|e k IH]; simpl; [done..|].
  intros [He Hk]. split; eauto.
Qed.

(** Prove that a program performs only certain events, by its structure. *)
Ltac quietly :=
  repeat (cbn beta iota zeta;
    lazymatch goal with
    | |- only _ (Ret _) => exact I
    | |- only _ (Raise _) => exact I
    | |- only _ (raise_ _) => exact I
    | |- only _ (trigger ?e) => apply (only_trigger _ e); reflexivity
    | |- only _ (bind _ _) => apply only_bind; [|intros ?]
    | |- only _ (finally _ _) => apply only_finally
    | |- only _ (catch _ _) => apply only_catch; [|intros ? ? ?]
    | H : None = Some _ |- _ => discriminate H
    | H : Some _ = Some _ |- _ => injection H as <-
    | H : match ?x with _ => _ end = Some _ |- _ => destruct x; simplify_eq
    | |- only _ (match ?x with _ => _ end) => destruct x
    end).

Lemma quiet_enqueue url queue payload :
  only quiet (@enqueue (RabbitMQMessagingService.messaging url) queue payload).
Proof.
  unfold enqueue, RabbitMQMessagingService.messaging, RabbitMQMessagingService.enqueue,
    RabbitMQMessagingService.wrap_amqp, RabbitMQMessagingService._get_connection,
    RabbitMQMessagingService.with_channel. quietly.
Qed.

Lemma quiet_queue_depth url queue :
  only quiet (@queue_depth (RabbitMQMessagingService.messaging url) queue).
Proof.
  unfold queue_depth, RabbitMQMessagingService.messaging, RabbitMQMessagingService.queue_depth,
    RabbitMQMessagingService.wrap_amqp, RabbitMQMessagingService._get_connection,
    RabbitMQMessagingService.with_channel. quietly.
Qed.
