(* ===== verification/Processes.v ===== *)
(** * The coroutines of the pipeline keep the claim protocol

    The handler of a message keeps the protocol of a coroutine that may claim the
    job the message names; every request of the API keeps the protocol of a
    coroutine that may insert a job. *)

From S2P Require Import Prelude PyStr PyUuid Json Dtos Exceptions Models Program.
From S2P Require Import Interfaces Settings Environment Container Logic Contracts.
From S2P Require Import Repositories Storage Messaging ApiServices Worker Wiring Http.
From S2P Require Import Protocol.

(** ** Programs that leave the job rows alone *)

Definition tame (e : event) : bool :=
  match e with
  | Exec (UpdateJob _ _ _) | Exec (InsertJob _) => false
  | Exec _ => true
  | _ => quiet e
  end.

(** ... and parse and store, when [b] is true. *)
Definition tame_or (b : bool) (e : event) : bool := tame e || (b && working e).

Lemma tame_tame_or b e : tame e = true -> tame_or b e = true.
Proof. unfold tame_or. by intros ->. Qed.

Lemma quiet_tame_or b e : quiet e = true -> tame_or b e = true.
Proof. intros H. apply tame_tame_or. by destruct e. Qed.

Section rules.
Context (i : option uuid).
Abbreviation WP := (wp (protocol i)).

Lemma wp_tame b {A} (p : prog A) Q g :
  only (tame_or b) p -> (b = true -> exists j, g_own g = Owns j) -> idle (g_pend g) ->
  (forall r p', idle p' -> Q r (Ghost p' (g_own g))) -> WP p Q g.
Proof.
  intros Hp Hb Hi HQ. revert g Hb Hi HQ.
  induction p as [a|x|e k IH]; intros [pd o] Hb Hi HQ; simpl in *; [by apply HQ..|].
  destruct Hp as [He Hk]. split.
  - destruct e; try exact I; [destruct s; try exact I; by destruct b|..];
      destruct b; try done; by apply Hb.
  - intros r g' Ht. assert (g' = Ghost pd o \/ g' = Ghost Broken o) as [-> | ->].
    { destruct e; try (left; exact Ht); try done; try (by destruct b).
      destruct s; try (by destruct b);
        (destruct Ht as [(x & _ & ->)|[_ ->]]; [by right|by left]). }
    + by apply IH.
    + apply IH; [done..|by right|done].
Qed.

(** A session whose body writes no job row. *)
Lemma wp_session_idle {A} (body : prog A) Q g :
  WP body (fun _ g1 => idle (g_pend g1) /\ g_own g1 = g_own g) g ->
  (forall r, Q r (clean g)) -> WP (open_session body) Q g.
Proof.
  intros H HQ. apply wp_session. revert H. apply wp_mono.
  intros r [pd o] [Hi Ho]. cbn in Hi, Ho. subst o.
  assert (HQ' : forall r', Q r' (Ghost Clean (g_own g))) by apply HQ.
  destruct r as [a|x]; [|intros y; apply HQ'].
  intros rc g2 Hc. assert (clean g2 = Ghost Clean (g_own g)) as ->; [|by split].
  destruct Hi as [-> | ->], rc; by simplify_eq/=.
Qed.

Lemma wp_insert dto Q g :
  i = None -> idle (g_pend g) ->
  (forall x, Q (Ok (job_dto x)) (Ghost (Insert x) (g_own g))) ->
  (forall x, Q (Exn x) g /\ Q (Exn x) (broken g)) ->
  WP (JobRepository.create dto) Q g.
Proof.
  intros Hi Hp Hok Hbad. unfold JobRepository.create. wp_norm.
  assert (Hexc : forall x g', (forall y, Q (Exn y) g') ->
    match JobRepository.create_except x with
    | Some q => WP q Q g'
    | None => Q (Exn x) g'
    end).
  { intros x g' Hx. destruct x as [|[] m| | | | |]; simpl; try apply Hx.
    destruct (contains _ m); apply Hx. }
  apply wp_trigger; [done|]. intros [t|x] g' ->; wp_norm; [|apply Hexc; intros; apply Hbad].
  apply wp_trigger; [done|]. intros [t'|x] g' ->; wp_norm; [|apply Hexc; intros; apply Hbad].
  apply wp_trigger; [done|]. intros [u|x] g' ->; wp_norm; [|apply Hexc; intros; apply Hbad].
  apply wp_trigger; [split_and!; [done..|]; by exists u, dto, t, t'|].
  intros r g' [(x & -> & ->)|(_ & -> & ->)]; wp_norm;
    [apply Hexc; intros; apply Hbad|apply Hok].
Qed.

(** A program that only talks and logs. *)
Lemma wp_silent {A} (p : prog A) Q g :
  only quiet p -> (forall r, Q r g) -> WP p Q g.
Proof. apply wp_quiet. Qed.
End rules.

(** ** The wired services *)

Section services.
Context (S : BaseAppSettings.t).

Lemma quiet_object_exists s3 k : only quiet (S3StorageService.object_exists s3 k).
Proof. unfold S3StorageService.object_exists. quietly. Qed.

Lemma quiet_download_url s3 k : only quiet (S3StorageService.generate_download_url s3 k).
Proof. unfold S3StorageService.generate_download_url, S3StorageService.wrap_client_error. quietly. Qed.

Lemma quiet_upload_url s3 k : only quiet (S3StorageService.generate_upload_url s3 k).
Proof. unfold S3StorageService.generate_upload_url, S3StorageService.wrap_client_error. quietly. Qed.

Lemma quiet_get_object s3 k : only quiet (S3StorageService.get_object s3 k).
Proof. unfold S3StorageService.get_object, S3StorageService.wrap_client_error. quietly. Qed.

Lemma working_put_object s3 k c : only working (S3StorageService.put_object s3 k c).
Proof. unfold S3StorageService.put_object, S3StorageService.wrap_client_error. quietly. Qed.

Lemma working_parse c : only working (PyMuPDFParser.parse c).
Proof. unfold PyMuPDFParser.parse. quietly. Qed.

Lemma tame_account_get h : only tame (AccountRepository.get_by_api_key_hash h).
Proof. unfold AccountRepository.get_by_api_key_hash, wrap_sqlalchemy. quietly. Qed.

Lemma tame_document_get k acc : only tame (DocumentRepository.get_by_id k acc).
Proof. unfold DocumentRepository.get_by_id, wrap_sqlalchemy. quietly. Qed.

Lemma tame_document_create dto : only tame (DocumentRepository.create dto).
Proof. unfold DocumentRepository.create, wrap_sqlalchemy. quietly. Qed.

Lemma tame_artifact_list k acc : only tame (ArtifactRepository.list_by_document_id k acc).
Proof. unfold ArtifactRepository.list_by_document_id, wrap_sqlalchemy. quietly. Qed.

Lemma tame_artifact_create dto : only tame (ArtifactRepository.create dto).
Proof. unfold ArtifactRepository.create, wrap_sqlalchemy. quietly. Qed.

Lemma tame_job_get k acc : only tame (JobRepository.get_by_id k acc).
Proof. unfold JobRepository.get_by_id, wrap_sqlalchemy. quietly. Qed.

Lemma tame_job_get_for_processing k : only tame (JobRepository.get_for_processing k).
Proof. unfold JobRepository.get_for_processing, wrap_sqlalchemy. quietly. Qed.
End services.

#[export] Hint Resolve quiet_object_exists quiet_download_url quiet_upload_url
  quiet_get_object quiet_enqueue quiet_queue_depth working_put_object working_parse
  tame_account_get tame_document_get tame_document_create tame_artifact_list
  tame_artifact_create tame_job_get tame_job_get_for_processing : neutral.

(** ** The handler of a message *)

Section handler.
Context (S : BaseAppSettings.t) (limit : nat) (k : uuid).
Abbreviation WP := (wp (protocol (Some k))).
Abbreviation queue := (BaseAppSettings.rabbitmq_queue S).

Lemma check_keeps msg Q o :
  (forall r, Q r (Ghost Clean o)) ->
  WP (@RabbitMQConsumer._check_queued JobRepository.repository msg k) Q (Ghost Clean o).
Proof.
  intros HQ. unfold RabbitMQConsumer._check_queued.
  apply wp_session_idle; [|apply HQ].
  apply (wp_tame (Some k) false); [|done|by left|done].
  apply (only_mono tame); [apply tame_tame_or|].
  apply only_bind; [apply tame_job_get_for_processing|intros [job|]]; quietly.
Qed.

Lemma claim_keeps msg Q :
  (forall r, Job.id r = k -> Q (Ok (Some (job_dto r))) (Ghost Clean (Owns r))) ->
  (forall r o, (forall d, r <> Ok (Some d)) -> Q r (Ghost Clean o)) ->
  WP (@RabbitMQConsumer._claim JobRepository.repository msg k) Q (Ghost Clean Free).
Proof.
  intros Hok Hno. unfold RabbitMQConsumer._claim. apply wp_session. wp_norm.
  assert (Hdone : forall (r : result exn (option JobDTO.t)) g', (forall d, r <> Ok (Some d)) ->
    g_own g' = Free -> idle (g_pend g') ->
    match r with
    | Ok a => forall rc g2, relies g' Commit rc g2 ->
        (is_ok rc = true -> Q (Ok a) (clean g2)) /\ forall y, Q (Exn y) (clean g2)
    | Exn x => forall y, Q (Exn y) (clean g')
    end).
  { intros r [pd o] Hr Ho Hp. cbn in Ho, Hp. subst o. destruct r as [a|x]; [|intros y; by apply Hno].
    intros rc g2 Hc. assert (clean g2 = Ghost Clean Free) as ->.
    { destruct Hp as [-> | ->], rc; by simplify_eq/=. }
    split; intros; by apply Hno. }
  apply wp_claim; [done|by left|..].
  - intros j t t' _ Hid r. wp_norm. intros rc g2 Hc. cbn in Hc.
    assert (Job.id r = k) as Hr by (by destruct j).
    destruct rc as [[]|x]; subst g2; cbn; (split; [intros [=]|intros y]);
      by first [apply Hok | apply Hno].
  - assert (Hx : forall x g', g_own g' = Free -> idle (g_pend g') ->
      match
        (if is_app JobStateConflictException x then
           Some (trigger (Log Info "consumer.concurrent_claim_dropped" []) ;;;
                 trigger (MsgAck (msg_tag msg)) ;;; Ret None)
         else if is_app DatabaseException x then
           Some (trigger (Log Warning "consumer.start_failed_requeue" []) ;;;
                 trigger (MsgNack (msg_tag msg) true) ;;; Ret None)
         else None)%prog
      with
      | Some q => WP q (fun r g1 => match r with
          | Ok a => forall rc g2, relies g1 Commit rc g2 ->
              (is_ok rc = true -> Q (Ok a) (clean g2)) /\ forall y, Q (Exn y) (clean g2)
          | Exn x => forall y, Q (Exn y) (clean g1)
          end) g'
      | None => forall y : exn, Q (Exn y) (clean g')
      end).
    { intros x g' Ho Hp. pose proof (fun r Hr => Hdone r g' Hr Ho Hp) as Hd.
      destruct (is_app JobStateConflictException x); [|destruct (is_app DatabaseException x)].
      - repeat (wp_norm; apply wp_trigger; [done|]; intros [[]|?] ? ->);
          wp_norm; by first [apply (Hd (Exn x)) | apply (Hd (Ok None))].
      - repeat (wp_norm; apply wp_trigger; [done|]; intros [[]|?] ? ->);
          wp_norm; by first [apply (Hd (Exn x)) | apply (Hd (Ok None))].
      - by apply (Hd (Exn x)). }
    intros x. split; wp_norm; apply Hx; [done|by left|done|by right].
Qed.

Lemma process_keeps r Q :
  Job.id r = k ->
  (forall t t', Q (Ok tt) (Ghost (Exit r (moved r COMPLETED None t t')) (Owns r))) ->
  (forall x p, idle p -> Q (Exn x) (Ghost p (Owns r))) ->
  WP (@process (WorkerContainer.processing_service S) k) Q (Ghost Clean (Owns r)).
Proof.
  intros Hid Hok Hbad.
  unfold process, WorkerContainer.processing_service, ProcessingService.service,
    ProcessingService.process. wp_norm.
  assert (Hstep : forall A (p : prog A) Q' pd, idle pd ->
    only tame p \/ only working p ->
    (forall a p', idle p' -> Q' (Ok a) (Ghost p' (Owns r))) ->
    (forall x p', idle p' -> Q' (Exn x) (Ghost p' (Owns r))) ->
    WP p Q' (Ghost pd (Owns r))).
  { intros A p Q' pd Hp Ho Ha Hx. apply (wp_tame (Some k) true).
    - destruct Ho as [Ho|Ho]; revert Ho; apply only_mono; intros e He.
      + by apply tame_tame_or.
      + unfold tame_or. rewrite He. apply orb_true_r.
    - intros _. by exists r.
    - done.
    - intros [a|x]; [apply Ha|apply Hx]. }
  apply Hstep; [by left|left; apply tame_job_get_for_processing| |done].
  intros [job|] p1 Hp1; wp_norm; [|by apply Hbad].
  apply Hstep; [done|left; apply tame_document_get| |done].
  intros [document|] p2 Hp2; wp_norm; [|by apply Hbad].
  apply Hstep; [done|by left; apply only_trigger| |done]. intros [] p3 Hp3; wp_norm.
  apply Hstep; [done|right; eapply only_mono; [apply quiet_working|apply quiet_get_object]| |done].
  intros content p4 Hp4; wp_norm.
  apply Hstep; [done|by left; apply only_trigger| |done]. intros [] p5 Hp5; wp_norm.
  apply Hstep; [done|by left; apply only_trigger| |done]. intros [] p6 Hp6; wp_norm.
  apply Hstep; [done|right; apply working_parse| |done]. intros markdown p7 Hp7; wp_norm.
  apply Hstep; [done|by left; apply only_trigger| |done]. intros [] p8 Hp8; wp_norm.
  apply Hstep; [done|by left; apply only_trigger| |done]. intros [] p9 Hp9; wp_norm.
  destruct (encode markdown) as [encoded|]; wp_norm; [|by apply Hbad].
  apply Hstep; [done|right; apply working_put_object| |done]. intros [] p10 Hp10; wp_norm.
  apply Hstep; [done|by left; apply only_trigger| |done]. intros [] p11 Hp11; wp_norm.
  apply Hstep; [done|left; apply tame_artifact_create| |done]. intros a p12 Hp12; wp_norm.
  apply (wp_exit _ _ r); [by left|done|done|by constructor|..].
  - intros d t t'. wp_norm. apply Hok.
  - intros x. split; apply Hbad; [done|by right].
Qed.

Lemma failure_keeps r em g Q :
  Job.id r = k -> owned (g_own g) r -> g_pend g = Clean -> (forall x g', Q x g') ->
  WP (WorkerContainer.consumer_handle_failure S k (Job.attempts r) (Job.max_attempts r) em) Q g.
Proof.
  intros Hid Ho Hg HQ.
  assert (Htail : forall A (p : prog A) (Q' : result exn A -> ghost -> Prop) g',
    only quiet p -> (forall r g1, Q' r g1) -> WP p Q' g').
  { intros A p Q' g' Hp HQ'. by apply (wp_quiet (Some k)). }
  unfold WorkerContainer.consumer_handle_failure, RabbitMQConsumer._handle_failure. wp_norm.
  assert (Hexc : forall x g', match (if is_app JobStateConflictException x
      then Some (trigger (Log Error "consumer.failure_handler_state_conflict" []))
      else None) with Some q => WP q Q g' | None => Q (Exn x) g' end).
  { intros x g'. destruct (is_app _ x); [|apply HQ]. by apply Htail; [apply only_trigger|]. }
  destruct (Z.ltb_spec (Job.attempts r) (Job.max_attempts r)) as [Hlt|Hge]; wp_norm;
    apply wp_session;
    (apply (wp_exit (Some k) k r); [done|done|by left| | |]; [by constructor| |];
      [intros d t t' rc g2 _; (split; [intros _; unfold then_|intros y; apply Hexc])
      |intros x; split; intros y; apply Hexc]).
  - apply Htail; [|intros [[]|y] g1; [apply HQ|apply Hexc]].
    unfold WorkerContainer.messaging_service. quietly. apply quiet_enqueue.
  - apply Htail; [by apply only_trigger|]. intros [[]|y] g1; [apply HQ|apply Hexc].
Qed.

Lemma process_claimed_keeps msg r Q :
  Job.id r = k -> (forall x g', Q x g') ->
  WP (@RabbitMQConsumer._process_claimed (WorkerContainer.processing_service S)
        (WorkerContainer.messaging_service S) JobRepository.repository queue msg k (job_dto r))
    Q (Ghost Clean (Owns r)).
Proof.
  intros Hid HQ. unfold RabbitMQConsumer._process_claimed.
  repeat (wp_norm; apply wp_trigger; [done|]; intros [?|?] ? ->; [|by wp_norm]). wp_norm.
  assert (Hfail : forall e g, owned (g_own g) r -> g_pend g = Clean ->
    WP (@RabbitMQConsumer._handle_failure (WorkerContainer.messaging_service S)
          JobRepository.repository queue k (JobDTO.attempts (job_dto r))
          (JobDTO.max_attempts (job_dto r)) e ;;; trigger (MsgAck (msg_tag msg))) Q g).
  { intros e g Ho Hg. wp_norm. apply failure_keeps; [done..|].
    intros [[]|x] g'; [|apply HQ]. by apply (wp_quiet (Some k)); [apply only_trigger|]. }
  apply wp_session, process_keeps; [done|..].
  - intros t t' rc g2 Hc.
    assert (clean g2 = Ghost Clean (Left r)) as ->.
    { cbn in Hc. assert (leave r (moved r COMPLETED None t t') = Left r) as E by (by destruct r).
      rewrite E in Hc. destruct rc; by subst g2. }
    split; [intros _|by intros y; apply Hfail; [right|]].
    repeat (wp_norm; apply wp_trigger; [done|]; intros [?|?] ? ->;
      [|cbn beta iota; by apply Hfail; [right|]]).
    wp_norm; apply HQ.
  - intros x p Hp y. by apply Hfail; [left|].
Qed.
End handler.

Theorem handle_keeps S limit msg Q :
  (forall x g', Q x g') ->
  let i := match RabbitMQConsumer.parse_job_id limit (msg_body msg) with
           | Ok i => i | Exn _ => None end in
  wp (protocol i) (WorkerContainer.consumer_handle S limit msg) Q (Ghost Clean Free).
Proof.
  intros HQ i. unfold WorkerContainer.consumer_handle, RabbitMQConsumer._handle. wp_norm.
  apply wp_trigger; [done|]. intros [[]|x] g' ->; wp_norm; [|apply HQ]. unfold i. clear i.
  destruct (RabbitMQConsumer.parse_job_id limit (msg_body msg)) as [[k|]|x]; [| |apply HQ].
  - wp_norm. apply wp_trigger; [done|]. intros [[]|x] g' ->; wp_norm; [|apply HQ].
    apply check_keeps. intros [[]|x]; wp_norm; [cbn [negb]; wp_norm|cbn [negb]; wp_norm; apply HQ|apply HQ].
    apply claim_keeps.
    + intros r Hid. wp_norm. apply process_claimed_keeps; [done|apply HQ].
    + intros [[d|]|x] o Hr; wp_norm; [by destruct (Hr d)|apply HQ..].
  - apply (wp_quiet None); [quietly|intros r; apply HQ].
Qed.

(** ** The requests of the API *)

Lemma wp_finally_status L {A} (app : prog A) status f Q s :
  wp L app (fun r s' => forall status', wp L (f status') (fun rf s'' =>
    match rf with Ok _ => Q r s'' | Exn x => Q (Exn x) s'' end) s') s ->
  wp L (LoggingMiddleware.finally_status app status f) Q s.
Proof.
  revert status s. induction app as [a|x|e k IH]; intros status s; simpl.
  - intros H. apply wp_bind. revert H. intros H. generalize (H status). apply wp_mono. by intros [].
  - intros H. apply wp_bind. generalize (H status). apply wp_mono. by intros [].
  - intros [Ha Hk]. split; [done|]. intros r s' Ht. apply IH; eauto.
Qed.

Lemma quiet_send_all ms : only quiet (send_all ms).
Proof. induction ms; simpl; [done|]. by split; [|intros []]. Qed.

Section requests.
Context (S : BaseAppSettings.t) (send_response : Z -> prog unit) `{!AsgiResponse send_response}.
Abbreviation WP := (wp (protocol None)).

Lemma quiet_send_response status : only quiet (send_response status).
Proof. destruct (response_messages status) as [types ->]. apply quiet_send_all. Qed.

(** From and to transactions that write no job row. *)
Definition idles {A} (p : prog A) : Prop := forall pd Q,
  idle pd -> (forall r p', idle p' -> Q r (Ghost p' Free)) -> WP p Q (Ghost pd Free).

Lemma idles_tame {A} (p : prog A) : only tame p -> idles p.
Proof.
  intros Hp pd Q Hi HQ. apply (wp_tame None false); [|done..].
  revert Hp. apply only_mono, tame_tame_or.
Qed.

Lemma idles_quiet {A} (p : prog A) : only quiet p -> idles p.
Proof. intros Hp. apply idles_tame. revert Hp. apply only_mono. by intros []. Qed.

Lemma idles_bind {A B} (p : prog A) (f : A -> prog B) :
  idles p -> (forall a, idles (f a)) -> idles (bind p f).
Proof.
  intros Hp Hf pd Q Hi HQ. wp_norm. apply Hp; [done|].
  intros [a|x] p' Hp'; [by apply Hf|by apply HQ].
Qed.

Lemma idles_commit : idles (trigger Commit).
Proof.
  intros pd Q Hi HQ. apply wp_trigger; [done|]. intros rc g' Hc.
  destruct Hi as [-> | ->], rc; simplify_eq/=; apply HQ; by (left + right).
Qed.

(** The insertion of a job and the commit after it. *)
Lemma idles_insert_commit dto {A} (f : JobDTO.t -> prog A) :
  (forall d, idles (f d)) ->
  idles (let* job := JobRepository.create dto in trigger Commit ;;; f job).
Proof.
  intros Hf pd Q Hi HQ. wp_norm. apply (wp_insert None); [done..| |].
  - intros x. wp_norm. apply wp_trigger; [done|]. intros rc g' Hc. cbn in Hc.
    destruct rc as [[]|y]; subst g'; [apply Hf; [by left|done]|apply HQ; by right].
  - intros x. split; apply HQ; [done|by right].
Qed.

Lemma idles_job_create dto : idles (ApiContainer.job_create S dto).
Proof.
  unfold ApiContainer.job_create, JobService.create.
  apply idles_bind; [apply idles_tame, tame_document_get|]. intros [document|]; [|by apply idles_quiet].
  apply idles_bind; [apply idles_quiet, quiet_object_exists|]. intros [];
    cbn [negb]; [|by apply idles_quiet].
  apply idles_bind; [apply idles_quiet, quiet_queue_depth|]. intros depth.
  destruct (_ <=? _)%Z; [by apply idles_quiet|].
  apply idles_insert_commit. intros job. apply idles_quiet. quietly. apply quiet_enqueue.
Qed.

Lemma authenticated_keeps {A} header status (endpoint : AccountDTO.t -> prog A) :
  (forall account, idles (endpoint account)) ->
  WP (@authenticated ApiContainer.account_service send_response A header status endpoint)
    (fun _ _ => True) (Ghost Clean Free).
Proof.
  intros Hend. unfold authenticated. wp_norm.
  apply (wp_quiet None); [unfold api_key_required, api_key_header; quietly|].
  intros [[raw_key|]|x]; [|done..]. unfold get_db_session, then_.
  apply wp_session_idle; [|done].
  enough (idles (let* account := @get_current_account ApiContainer.account_service raw_key in
                 let* _ := endpoint account in send_response status)) as Hb.
  { apply Hb; [by left|done]. }
  apply idles_bind; [|intros account; apply idles_bind; [apply Hend|intros _]].
  - apply idles_tame. unfold get_current_account. quietly.
    unfold account_authenticate, ApiContainer.account_service, ApiContainer.account_authenticate,
      AccountService.authenticate. quietly. apply tame_account_get.
  - apply idles_quiet, quiet_send_response.
Qed.

Lemma dispatch_keeps (route : prog unit) g :
  WP route (fun _ _ => True) g -> WP (dispatch send_response route) (fun _ _ => True) g.
Proof.
  intros H. unfold dispatch. wp_norm. revert H. apply wp_mono. intros [a|x] g' _; [done|].
  destruct x as [x| | | |n d| |]; try done; apply (wp_quiet None); try done;
    (apply only_bind; [|intros ?; apply quiet_send_response]).
  - unfold internal_exception_handler. quietly.
  - unfold http_exception_handler. quietly.
Qed.

Lemma request_keeps {A} method path header status (endpoint : AccountDTO.t -> prog A) :
  (forall account, idles (endpoint account)) ->
  WP (@request ApiContainer.account_service send_response A method path header status endpoint)
    (fun _ _ => True) (Ghost Clean Free).
Proof.
  intros Hend. unfold request, LoggingMiddleware.call.
  change (bool_decide ("http" = "http")) with true. cbn [negb].
  do 6 (wp_norm; apply wp_trigger; [done|]; intros [?|?] ? ->; [|done]). wp_norm.
  apply wp_finally_status.
  eapply wp_mono; [|by apply dispatch_keeps, authenticated_keeps].
  intros r g _ status'. apply (wp_quiet None); [quietly|by intros []].
Qed.
End requests.

(** ** The entry points of the pipeline *)

Inductive entry : Type :=
| HandleMessage (msg : message)
| PostDocuments (path : string) (header : option string)
| GetDocument (path : string) (header : option string) (document_id : uuid)
| GetArtifacts (path : string) (header : option string) (document_id : uuid)
| PostProcess (path : string) (header : option string) (document_id : uuid)
    (body : ProcessDocumentRequest.t)
| GetJob (path : string) (header : option string) (job_id : uuid).

Section entries.
Context (S : BaseAppSettings.t) (limit : nat) (send_response : Z -> prog unit).

Definition entry_code (e : entry) : prog unit :=
  match e with
  | HandleMessage msg => WorkerContainer.consumer_handle S limit msg
  | PostDocuments path header => post_documents S send_response path header
  | GetDocument path header i => get_documents S send_response path header i
  | GetArtifacts path header i => get_documents_artifacts S send_response path header i
  | PostProcess path header i body => post_documents_process S send_response path header i body
  | GetJob path header i => get_jobs S send_response path header i
  end.

(** The job a coroutine may claim. *)
Definition entry_job (e : entry) : option uuid :=
  match e with
  | HandleMessage msg =>
      match RabbitMQConsumer.parse_job_id limit (msg_body msg) with
      | Ok i => i | Exn _ => None
      end
  | _ => None
  end.

Context `{!AsgiResponse send_response}.

Lemma tame_sign_all s3 artifacts :
  only tame (@ArtifactService.sign_all (S3StorageService.storage s3) artifacts).
Proof.
  induction artifacts as [|a l IH]; [done|]. cbn [ArtifactService.sign_all].
  apply only_bind; [|intros url; apply only_bind; [exact IH|done]].
  eapply only_mono; [|apply quiet_download_url]. by intros [].
Qed.

Lemma entries_keep_protocol e :
  wp (protocol (entry_job e)) (entry_code e) (fun _ _ => True) (Ghost Clean Free).
Proof.
  destruct e; cbn [entry_code]; [by apply (handle_keeps S limit)|..];
    unfold post_documents, get_documents, get_documents_artifacts, post_documents_process, get_jobs;
    (apply request_keeps; [done|]); intros account.
  - unfold documents.create_document. apply idles_bind; [|intros; apply idles_tame; quietly].
    apply idles_tame. change (only tame (ApiContainer.document_create S (AccountDTO.id account))).
    unfold ApiContainer.document_create, DocumentService.create.
    apply only_bind; [by apply only_trigger|]. intros i. apply only_bind; [apply tame_document_create|].
    intros d. apply only_bind; [|done]. eapply only_mono; [|apply quiet_upload_url]. by intros [].
  - apply idles_tame. unfold documents.get_document. quietly. apply tame_document_get.
  - apply idles_tame. unfold documents.list_artifacts. quietly.
    change (only tame (ApiContainer.artifact_list_for_document S document_id (AccountDTO.id account))).
    unfold ApiContainer.artifact_list_for_document, ArtifactService.list_for_document.
    apply only_bind; [apply tame_document_get|]. intros [d|]; [|done].
    apply only_bind; [apply tame_artifact_list|intros; apply tame_sign_all].
  - unfold jobs.process_document. apply idles_bind; [apply idles_tame; quietly|intros _].
    apply idles_bind; [apply idles_job_create|intros; apply idles_tame; quietly].
  - apply idles_tame. unfold jobs.get_job. quietly. apply tame_job_get.
Qed.
End entries.
