(* ===== verification/System.v ===== *)
(** * The pipeline as concurrent coroutines

    Any number of message handlers and API requests run side by side, in any number
    of processes, over one database.  A step starts an entry point, performs the
    next event of a coroutine, or ends a coroutine -- because it is finished or
    because its process was killed, at any point.  Database events behave as
    documented, with every service allowed to fail; all other events answer
    arbitrarily.  A message may be delivered any number of times, and to several
    handlers at once: starting a handler needs no message in a queue.

    The database runs statements of concurrent transactions at READ COMMITTED: they
    see committed rows and their own writes, and a statement that conflicts with an
    uncommitted write of another transaction waits ([waits]). *)

From S2P Require Import Prelude PyUuid Dtos Exceptions Models Program Settings.
From S2P Require Import Environment Logic Contracts Http Protocol Processes.

Section system.
Context (S : BaseAppSettings.t) (limit : nat) (send_response : Z -> prog unit).
Abbreviation entry_code := (entry_code S limit send_response).
Abbreviation entry_job := (entry_job limit).

(** ** Configurations and steps *)

Record proc : Type := Proc { p_entry : entry; p_code : prog unit; p_tx : txn }.

Record config : Type := Config { c_db : tables; c_procs : gmap nat proc }.

(** The uncommitted job rows of a transaction. *)
Definition tx_rows (tx : txn) : list Job.t :=
  match tx with TxActive ws => job_writes ws | TxAborted => [] end.

(** The statement touches what the uncommitted row [j] locks: the row itself, or its
    entry in a unique index. *)
Definition conflict (s : stmt) (j : Job.t) : bool :=
  match s with
  | UpdateJob k _ _ => (Job.id j =? k)%N
  | InsertJob r => (Job.id j =? Job.id r)%N || same_slot r j
  | _ => false
  end.

Definition waits (procs : gmap nat proc) (pid : nat) (s : stmt) : Prop :=
  exists q p j, q <> pid /\ procs !! q = Some p /\ j ∈ tx_rows (p_tx p)
                /\ conflict s j = true.

(** An event of the coroutine [pid]. *)
Definition answers (procs : gmap nat proc) (pid : nat) (db : tables) (tx : txn) (e : event)
  : result exn (resp e) -> tables -> txn -> Prop :=
  match e return result exn (resp e) -> tables -> txn -> Prop with
  | Exec s => fun r db' tx' =>
      db' = db /\ exec_doc Flaky db tx s r tx' /\
      (~ waits procs pid s \/ exists x, db_fault x /\ r = Exn x /\ tx' = TxAborted)
  | Commit => fun r db' tx' => commit_doc Flaky db tx r db' tx'
  | Rollback | Close => fun r db' tx' => db' = db /\ discard_doc Flaky r tx'
  | _ => fun r db' tx' => db' = db /\ tx' = tx
  end.

Inductive step : config -> config -> Prop :=
| StepStart db procs pid e :
    procs !! pid = None ->
    step (Config db procs)
         (Config db (<[pid := Proc e (entry_code e) (TxActive [])]> procs))
| StepEvent db procs pid entry e k tx r db' tx' :
    procs !! pid = Some (Proc entry (Vis e k) tx) ->
    answers procs pid db tx e r db' tx' ->
    step (Config db procs) (Config db' (<[pid := Proc entry (k r) tx']> procs))
| StepEnd db procs pid :
    step (Config db procs) (Config db (delete pid procs)).

(** From a well-formed database, with nothing running. *)
Definition initial (c : config) : Prop :=
  c_procs c = ∅ /\ wf_jobs (jobs (c_db c)) /\ budgets (jobs (c_db c)).

Inductive reachable : config -> Prop :=
| ReachInit c : initial c -> reachable c
| ReachStep c c' : reachable c -> step c c' -> reachable c'.

Inductive steps : config -> config -> Prop :=
| StepsNone c : steps c c
| StepsMore c c1 c2 : step c c1 -> steps c1 c2 -> steps c c2.

(** ** The life of a job row *)

Inductive lifecycle : option Job.t -> option Job.t -> Prop :=
| Unchanged o : lifecycle o o
| Created i dto t t' : lifecycle None (Some (queued_job i dto t t'))
| Claimed j t t' :
    Job.status j = QUEUED -> lifecycle (Some j) (Some (moved j STARTED None t t'))
| Exited j r : Job.status j = STARTED -> exit_row j r -> lifecycle (Some j) (Some r).

(** ** The invariant *)

(** What the open transaction of a coroutine has pending. *)
Definition pending_row (p : pend) : option Job.t :=
  match p with Claim r | Exit _ r | Insert r => Some r | Clean | Broken => None end.

Definition tx_ok (p : pend) (tx : txn) : Prop :=
  match p with
  | Broken => tx = TxAborted
  | _ => exists ws, tx = TxActive ws /\ job_writes ws = option_list (pending_row p)
  end.

Definition pend_ok (m : gmap uuid Job.t) (i : option uuid) (g : ghost) : Prop :=
  match g_pend g with
  | Clean | Broken => True
  | Claim r => exists j t t', i = Some (Job.id j) /\ m !! Job.id j = Some j /\
      Job.status j = QUEUED /\ r = moved j STARTED None t t'
  | Exit j r => i = Some (Job.id j) /\ m !! Job.id j = Some j /\
      Job.status j = STARTED /\ owned (g_own g) j /\ exit_row j r
  | Insert r => i = None /\ m !! Job.id r = None /\
      (forall k j, m !! k = Some j -> same_slot r j = false) /\
      exists u dto t t', r = queued_job u dto t t'
  end.

Definition own_ok (m : gmap uuid Job.t) (i : option uuid) (o : own) : Prop :=
  match o with
  | Free => True
  | Owns j => i = Some (Job.id j) /\ m !! Job.id j = Some j /\ Job.status j = STARTED
  | Left j => i = Some (Job.id j) /\ Job.status j = STARTED /\
      (m !! Job.id j = Some j \/
       exists r, m !! Job.id j = Some r /\ Job.status r = COMPLETED)
  end.

Record proc_inv (m : gmap uuid Job.t) (p : proc) (g : ghost) : Prop := ProcInv {
  pi_code : wp (protocol (entry_job (p_entry p))) (p_code p) (fun _ _ => True) g;
  pi_tx : tx_ok (g_pend g) (p_tx p);
  pi_pend : pend_ok m (entry_job (p_entry p)) g;
  pi_own : own_ok m (entry_job (p_entry p)) (g_own g)
}.

(** The coroutine has a write of the row [k] pending, or owns the job. *)
Definition touches (m : gmap uuid Job.t) (g : ghost) (k : uuid) : Prop :=
  (exists r, pending_row (g_pend g) = Some r /\ Job.id r = k) \/
  (exists j, owned (g_own g) j /\ Job.id j = k /\ m !! k = Some j /\ Job.status j = STARTED).

(** Two coroutines that run together. *)
Definition compatible (m : gmap uuid Job.t) (g1 g2 : ghost) : Prop :=
  (forall k, touches m g1 k -> touches m g2 k -> False) /\
  (forall r1 r2, g_pend g1 = Insert r1 -> g_pend g2 = Insert r2 -> same_slot r1 r2 = false).

Record inv_with (c : config) (G : nat -> ghost) : Prop := Inv {
  inv_wf : wf_jobs (jobs (c_db c));
  inv_budgets : budgets (jobs (c_db c));
  inv_procs : forall pid p, c_procs c !! pid = Some p -> proc_inv (jobs (c_db c)) p (G pid);
  inv_compatible : forall pid1 pid2 p1 p2, pid1 <> pid2 ->
    c_procs c !! pid1 = Some p1 -> c_procs c !! pid2 = Some p2 ->
    compatible (jobs (c_db c)) (G pid1) (G pid2)
}.

Definition inv (c : config) : Prop := exists G, inv_with c G.

(** Some coroutine touches the row. *)
Definition held (c : config) (G : nat -> ghost) (k : uuid) : Prop :=
  exists pid p, c_procs c !! pid = Some p /\ touches (jobs (c_db c)) (G pid) k.

Definition unstarted (m : gmap uuid Job.t) (k : uuid) : Prop :=
  forall j, m !! k = Some j -> Job.status j <> STARTED.

(** The invariant after a step: a started job that nobody held is held by nobody. *)
Definition next (c : config) (G : nat -> ghost) (c' : config) : Prop :=
  exists G', inv_with c' G' /\
    forall k, held c' G' k -> held c G k \/ unstarted (jobs (c_db c)) k.

(** ** Rows *)

(** A row that a commit may add. *)
Definition row_ok (m : gmap uuid Job.t) (r : Job.t) : Prop :=
  (exists j, m !! Job.id r = Some j /\ (Job.status j = QUEUED \/ Job.status j = STARTED) /\
     replaces j r) \/
  (m !! Job.id r = None /\ forall k j, m !! k = Some j -> same_slot r j = false).

Lemma moved_id j st em t t' : Job.id (moved j st em t t') = Job.id j.
Proof. by destruct j, st. Qed.

Lemma exit_row_id j r : exit_row j r -> Job.id r = Job.id j.
Proof. intros []; apply moved_id. Qed.

Lemma exit_row_replaces j r : Job.status j = STARTED -> exit_row j r -> replaces j r.
Proof. intros Hst []; apply moved_replaces; by apply started_active. Qed.

Lemma pend_row_id m i g r :
  pend_ok m i g -> pending_row (g_pend g) = Some r -> row_ok m r.
Proof.
  destruct g as [[|r'|j r'|r'|] o]; cbn; [done|..|done].
  - intros (j & t & t' & _ & Hj & Hst & ->) [= <-]. left. exists j. rewrite moved_id.
    split_and!; [done|by left|by apply moved_replaces, queued_active].
  - intros (_ & Hj & Hst & _ & Hx) [= <-]. left. exists j. rewrite (exit_row_id _ _ Hx).
    split_and!; [done|by right|by apply exit_row_replaces].
  - intros (_ & Hn & Hs & _) [= <-]. by right.
Qed.

Lemma wf_jobs_insert m r :
  wf_jobs m -> m !! Job.id r = None -> (forall k j, m !! k = Some j -> same_slot r j = false) ->
  wf_jobs (<[Job.id r := r]> m).
Proof.
  intros Hwf Hn Hs. split.
  - intros k j. rewrite lookup_insert_Some. intros [[<- <-]|[_ H]]; [done|by eapply wf_jobs_id].
  - intros k1 k2 r1 r2. rewrite !lookup_insert_Some.
    intros [[<- <-]|[_ H1]] [[<- <-]|[_ H2]] E; [done|..|by eapply wf_one_active].
    + by rewrite (Hs _ _ H2) in E.
    + rewrite same_slot_sym in E. by rewrite (Hs _ _ H1) in E.
Qed.

Lemma row_ok_wf m r : wf_jobs m -> row_ok m r -> wf_jobs (<[Job.id r := r]> m).
Proof.
  intros Hwf [(j & Hj & _ & Hr)|[Hn Hs]]; [by eapply wf_jobs_replace|by apply wf_jobs_insert].
Qed.

(** The next row of a job. *)
Lemma pend_lifecycle m i g r :
  pend_ok m i g -> pending_row (g_pend g) = Some r -> lifecycle (m !! Job.id r) (Some r).
Proof.
  destruct g as [[|r'|j r'|r'|] o]; cbn; [done|..|done].
  - intros (j & t & t' & _ & Hj & Hst & ->) [= <-]. rewrite moved_id, Hj. by constructor.
  - intros (_ & Hj & Hst & _ & Hx) [= <-]. rewrite (exit_row_id _ _ Hx), Hj. by constructor.
  - intros (_ & Hn & _ & u & dto & t & t' & ->) [= <-]. rewrite Hn. constructor.
Qed.

Lemma lifecycle_budget o r :
  (forall j, o = Some j -> within_budget j) -> lifecycle o (Some r) -> within_budget r.
Proof.
  intros Ho Hl. inversion Hl as [o' E|i dto t t'|j t t' Hst|j r' Hst Hx]; subst.
  - by apply Ho.
  - by unfold within_budget, queued_job; cbn.
  - destruct (Ho j eq_refl) as [Hb Hq]. specialize (Hq Hst). unfold within_budget.
    destruct j; cbn in *; (split; [lia|done]).
  - destruct (Ho j eq_refl) as [Hb _]. unfold within_budget.
    destruct Hx; destruct j; cbn in *; (split; [lia|done || lia]).
Qed.

Lemma budgets_insert m i g r :
  budgets m -> pend_ok m i g -> pending_row (g_pend g) = Some r ->
  budgets (<[Job.id r := r]> m).
Proof.
  intros Hb Hp Hr k j. rewrite lookup_insert_Some. intros [[<- <-]|[_ H]]; [|by eapply Hb].
  apply (lifecycle_budget (m !! Job.id r)); [intros j; apply Hb|by eapply pend_lifecycle].
Qed.

(** ** Coroutines beside a commit *)

Section beside.
Context (m : gmap uuid Job.t) (ip : option uuid) (gp : ghost) (r : Job.t).
Context (Hr : pending_row (g_pend gp) = Some r) (Hpend : pend_ok m ip gp).

Lemma committed_row_ok : row_ok m r.
Proof. by eapply pend_row_id. Qed.

(** The committed row takes no slot that an insertion beside it waits for. *)
Lemma committed_slot g r' :
  compatible m gp g -> g_pend g = Insert r' ->
  (forall k j, m !! k = Some j -> same_slot r' j = false) -> same_slot r' r = false.
Proof.
  intros [_ Hs] Hg Hslot.
  assert (Hrep : forall j, m !! Job.id j = Some j -> replaces j r -> same_slot r' r = false).
  { intros j Hj Hrep. destruct (same_slot r' r) eqn:Es; [|done]. rewrite same_slot_sym in Es.
    apply (replaces_same_slot j) in Es; [|done]. rewrite same_slot_sym in Es.
    by rewrite (Hslot _ _ Hj) in Es. }
  destruct gp as [[|x|j x|x|] o]; cbn in *; try done; injection Hr as ->.
  - destruct Hpend as (j & t & t' & _ & Hj & Hst & ->). eapply Hrep; [done|].
    by apply moved_replaces, queued_active.
  - destruct Hpend as (_ & Hj & Hst & _ & Hx). eapply Hrep; [done|]. by apply exit_row_replaces.
  - rewrite same_slot_sym. by apply Hs.
Qed.

Lemma touched : touches m gp (Job.id r).
Proof. left. by exists r. Qed.

(** The row [j] of another coroutine is not the committed one. *)
Lemma owned_elsewhere i g j :
  own_ok m i (g_own g) -> owned (g_own g) j -> compatible m gp g ->
  m !! Job.id j = Some j -> Job.status j = STARTED -> Job.id j <> Job.id r.
Proof.
  intros Ho Hj [Hc _] Hm Hst E. apply (Hc (Job.id r)); [apply touched|].
  right. exists j. by rewrite <- E.
Qed.

Lemma touches_back i g k :
  own_ok m i (g_own g) -> compatible m gp g ->
  touches (<[Job.id r := r]> m) g k -> touches m g k.
Proof.
  intros Ho Hc [Hp|(j & Hj & <- & Hm & Hst)]; [by left|].
  rewrite lookup_insert_Some in Hm. destruct Hm as [[E Hm]|[_ Hm]]; [|by right; exists j].
  subst j. exfalso. pose proof Ho as Ho'. destruct Hj as [Ej|Ej]; rewrite Ej in Ho; cbn in Ho.
  - destruct Ho as (_ & Hm & _).
    by destruct (owned_elsewhere i g r Ho' (or_introl Ej) Hc Hm Hst).
  - destruct Ho as (_ & _ & [Hm|(r' & Hm & Hst')]).
    + by destruct (owned_elsewhere i g r Ho' (or_intror Ej) Hc Hm Hst).
    + destruct committed_row_ok as [(j & Hj & [E'|E'] & _)|[Hn _]]; congruence.
Qed.

Lemma pend_ok_beside i g :
  pend_ok m i g -> own_ok m i (g_own g) -> compatible m gp g ->
  pend_ok (<[Job.id r := r]> m) i g.
Proof.
  intros Hp Ho [Hc Hs]. assert (Hne : forall r', pending_row (g_pend g) = Some r' ->
    Job.id r <> Job.id r').
  { intros r' Hr' E. apply (Hc (Job.id r)); [apply touched|]. left. by exists r'. }
  destruct g as [[|r'|j r'|r'|] o]; cbn in *; [done|..|done].
  - destruct Hp as (j & t & t' & Hi & Hj & Hst & ->). exists j, t, t'. split_and!; try done.
    rewrite lookup_insert_ne; [done|]. intros E. apply (Hne _ eq_refl). by rewrite moved_id.
  - destruct Hp as (Hi & Hj & Hst & Ho' & Hx). split_and!; try done.
    rewrite lookup_insert_ne; [done|]. intros E. apply (Hne _ eq_refl). by rewrite (exit_row_id _ _ Hx).
  - destruct Hp as (Hi & Hn & Hslot & u & dto & t & t' & E). split_and!; [done|..].
    + rewrite lookup_insert_ne; [done|]. by apply Hne.
    + intros k j. rewrite lookup_insert_Some. intros [[_ <-]|[_ H]]; [|by eapply Hslot].
      by apply (committed_slot (Ghost (Insert r') o)).
    + by exists u, dto, t, t'.
Qed.

Lemma own_ok_beside i g :
  own_ok m i (g_own g) -> compatible m gp g -> own_ok (<[Job.id r := r]> m) i (g_own g).
Proof.
  intros Ho Hc. pose proof (owned_elsewhere i g) as He. destruct g as [pd [|j|j]]; cbn in *; [done|..].
  - destruct Ho as (Hi & Hm & Hst). split_and!; try done.
    rewrite lookup_insert_ne; [done|]. apply not_eq_sym, He; try done. by left.
  - destruct Ho as (Hi & Hst & [Hm|(r' & Hm & Hst')]); split_and!; try done.
    + left. rewrite lookup_insert_ne; [done|]. apply not_eq_sym, He; try done; [|by right].
      split_and!; [done..|by left].
    + right. exists r'. split; [|done]. rewrite lookup_insert_ne; [done|]. intros E.
      destruct committed_row_ok as [(j' & Hj' & [E'|E'] & _)|[Hn _]]; congruence.
Qed.

Lemma proc_inv_beside p g :
  proc_inv m p g -> compatible m gp g -> proc_inv (<[Job.id r := r]> m) p g.
Proof.
  intros [H1 H2 H3 H4] Hc. split; [done..|by apply pend_ok_beside|by apply own_ok_beside].
Qed.
End beside.

Lemma compatible_sym m g1 g2 : compatible m g1 g2 -> compatible m g2 g1.
Proof.
  intros [H1 H2]. split; [intros k Ha Hb; by apply (H1 k)|].
  intros r1 r2 E1 E2. rewrite same_slot_sym. by apply H2.
Qed.

(** ** One coroutine moves *)

(** The rows after a commit of the coroutine with the ghost state [g], if it
    committed. *)
Definition advance (m : gmap uuid Job.t) (g : ghost) (m' : gmap uuid Job.t) : Prop :=
  m' = m \/ exists r, pending_row (g_pend g) = Some r /\ m' = <[Job.id r := r]> m.

Section move.
Context (db : tables) (procs : gmap nat proc) (G : nat -> ghost).
Context (Hinv : inv_with (Config db procs) G).
Context (pid : nat) (p : proc) (Hp : procs !! pid = Some p).
Context (db' : tables) (Hadv : advance (jobs db) (G pid) (jobs db')).

Lemma advance_beside q pq :
  q <> pid -> procs !! q = Some pq ->
  proc_inv (jobs db') pq (G q) /\
  forall k, touches (jobs db') (G q) k -> touches (jobs db) (G q) k.
Proof.
  intros Hne Hq. pose proof (inv_procs _ _ Hinv _ _ Hq) as Hiq.
  destruct Hadv as [-> |(r & Hr & ->)]; [done|].
  pose proof (pi_pend _ _ _ (inv_procs _ _ Hinv _ _ Hp)) as Hpend.
  assert (Hc : compatible (jobs db) (G pid) (G q)) by (by eapply (inv_compatible _ _ Hinv)).
  split.
  - by eapply proc_inv_beside.
  - intros k. eapply touches_back; [done..|by apply (pi_own _ _ _ Hiq)|done].
Qed.

Lemma inv_update p' g' :
  proc_inv (jobs db') p' g' ->
  (forall k, touches (jobs db') g' k -> touches (jobs db) (G pid) k \/
     unstarted (jobs db) k /\
     forall q pq, q <> pid -> procs !! q = Some pq -> ~ touches (jobs db) (G q) k) ->
  (forall q pq r1 r2, q <> pid -> procs !! q = Some pq ->
     g_pend g' = Insert r1 -> g_pend (G q) = Insert r2 -> same_slot r1 r2 = false) ->
  next (Config db procs) G (Config db' (<[pid := p']> procs)).
Proof.
  intros Hp' Ht Hs. exists (fun n => if decide (n = pid) then g' else G n).
  pose proof (inv_procs _ _ Hinv _ _ Hp) as Hip. destruct Hip as [_ _ Hpend _].
  assert (Hnew : forall q pq, q <> pid -> procs !! q = Some pq ->
    compatible (jobs db') g' (G q)).
  { intros q pq Hne Hq. destruct (advance_beside q pq Hne Hq) as [_ Hback].
    split; [|intros r1 r2; by eapply Hs]. intros k H1 H2. apply Hback in H2.
    destruct (Ht k H1) as [H1'|[_ Hno]]; [|by eapply Hno].
    by eapply (inv_compatible _ _ Hinv pid q). }
  split; [split; cbn|].
  - destruct Hadv as [-> |(r & Hr & ->)]; [apply (inv_wf _ _ Hinv)|].
    apply row_ok_wf; [apply (inv_wf _ _ Hinv)|by eapply pend_row_id].
  - destruct Hadv as [-> |(r & Hr & ->)]; [apply (inv_budgets _ _ Hinv)|].
    eapply budgets_insert; [apply (inv_budgets _ _ Hinv)|done..].
  - intros q pq. rewrite lookup_insert_Some. intros [[<- <-]|[Hne Hq]].
    + by rewrite decide_True.
    + rewrite decide_False by done. by apply advance_beside.
  - intros q1 q2 p1 p2 Hne. rewrite !lookup_insert_Some.
    intros [[<- <-]|[Hn1 Hq1]] [[<- <-]|[Hn2 Hq2]]; [done|..].
    + rewrite decide_True, decide_False by done. by eapply Hnew.
    + rewrite decide_False, decide_True by done. apply compatible_sym. by eapply Hnew.
    + rewrite !decide_False by done.
      destruct (inv_compatible _ _ Hinv _ _ _ _ Hne Hq1 Hq2) as [Hc Hi]. split; [|done].
      intros k H1 H2. apply (Hc k); [by apply (advance_beside q1 p1)|by apply (advance_beside q2 p2)].
  - intros k (q & pq & Hq & Hk). cbn in Hq, Hk. apply lookup_insert_Some in Hq as [[<- <-]|[Hne Hq]].
    + rewrite decide_True in Hk by done. destruct (Ht k Hk) as [H|[H _]]; [left; by exists pid, p|by right].
    + rewrite decide_False in Hk by done. left. exists q, pq. split; [done|].
      by eapply advance_beside.
Qed.
End move.

(** ** Commits *)

Lemma commit_advance db pd o tx r db' tx' :
  tx_ok pd tx -> commit_doc Flaky db tx r db' tx' ->
  tx_ok (match r with Ok _ => Clean | Exn _ => Broken end) tx' /\
  (jobs db' = jobs db /\ (is_ok r = true -> pending_row pd = None) \/
   exists x, pending_row pd = Some x /\ jobs db' = <[Job.id x := x]> (jobs db)) /\
  advance (jobs db) (Ghost pd o) (jobs db').
Proof.
  intros Htx Hc. unfold advance. cbn [g_pend].
  assert (Happly : forall ws, job_writes ws = option_list (pending_row pd) ->
    jobs (apply_writes db ws) = jobs db /\ pending_row pd = None \/
    exists x, pending_row pd = Some x /\
      jobs (apply_writes db ws) = <[Job.id x := x]> (jobs db)).
  { intros ws Hws. rewrite jobs_apply_writes, Hws. destruct (pending_row pd) as [x|]; [|by left].
    right. by exists x. }
  destruct tx as [ws|]; cbn in Hc.
  - assert (job_writes ws = option_list (pending_row pd)) as Hws.
    { destruct pd; cbn in Htx; [destruct Htx as (? & [= <-] & ?); done..|done]. }
    destruct Hc as [(_ & -> & -> & ->)|(_ & (x & _ & ->) & Hdb & ->)].
    + split; [by exists []|]. destruct (Happly _ Hws) as [[-> Hn]|H]; [|by eauto].
      split; left; auto.
    + split; [done|]. destruct Hdb as [-> | ->]; [split; by left|].
      destruct (Happly _ Hws) as [[-> Hn]|H]; [|by eauto]. split; left; auto.
  - assert (pd = Broken) as ->.
    { destruct pd; cbn in Htx; [destruct Htx as (? & [=] & ?)..|done]. }
    destruct Hc as [-> [[-> ->]|(_ & (x & _ & ->) & ->)]]; (split; [by try exists []|]);
      split; left; auto.
Qed.

Definition after_commit (g : ghost) (r : result exn unit) : own :=
  match g_pend g, r with
  | Claim r0, Ok _ => Owns r0
  | Claim _, Exn _ => Free
  | Exit j r0, _ => leave j r0
  | _, _ => g_own g
  end.

Lemma commit_own m i g r m' :
  pend_ok m i g -> own_ok m i (g_own g) ->
  (m' = m /\ (is_ok r = true -> pending_row (g_pend g) = None) \/
   exists x, pending_row (g_pend g) = Some x /\ m' = <[Job.id x := x]> m) ->
  own_ok m' i (after_commit g r) /\
  forall j, owned (after_commit g r) j -> m' !! Job.id j = Some j ->
    Job.status j = STARTED -> touches m g (Job.id j).
Proof.
  intros Hp Ho Hm. destruct g as [pd o]. cbn in Ho.
  assert (Hsame : m' = m -> own_ok m' i o /\ forall j, owned o j -> m' !! Job.id j = Some j ->
    Job.status j = STARTED -> touches m (Ghost pd o) (Job.id j)).
  { intros ->. split; [done|]. intros j Hj Hmj Hst. right. by exists j. }
  assert (Hfree : own_ok m' i Free /\ forall j, owned Free j -> m' !! Job.id j = Some j ->
    Job.status j = STARTED -> touches m (Ghost pd o) (Job.id j)).
  { split; [done|]. by intros j [[=]|[=]]. }
  destruct pd as [|r0|j r0|r0|]; unfold after_commit; cbn in *.
  - destruct Hm as [[Hm _]|(x & [=] & _)]. by apply Hsame.
  - destruct r as [[]|x]; [|done]. destruct Hm as [[_ Hm]|(x & [= <-] & ->)]; [by discriminate Hm|].
    destruct Hp as (j & t & t' & Hi & Hj & Hst & ->). rewrite moved_id. split.
    + cbn. rewrite moved_id, lookup_insert_eq. by destruct j.
    + intros j' [[= <-]|[=]] _ _. left. eexists. split; [done|]. by rewrite moved_id.
  - destruct Hp as (Hi & Hj & Hst & Ho' & Hx). pose proof (exit_row_id _ _ Hx) as Hid.
    assert (leave j r0 = Free \/ leave j r0 = Left j /\ Job.status r0 = COMPLETED) as Hl.
    { unfold leave. destruct (Job.status r0); auto. }
    destruct Hl as [-> |[-> Hr0]]; [done|]. split.
    + cbn. split_and!; [done..|]. destruct Hm as [[-> _]|(x & [= <-] & ->)]; [by left|].
      right. exists r0. by rewrite Hid, lookup_insert_eq.
    + intros j' [[=]|[= <-]] _ _. left. by exists r0.
  - destruct Hp as [-> _]. destruct o as [|j|j]; [done|by destruct Ho as [[=] _]..].
  - destruct Hm as [[Hm _]|(x & [=] & _)]. by apply Hsame.
Qed.

(** ** Statements *)

Lemma tx_rows_pending pd tx r :
  tx_ok pd tx -> pending_row pd = Some r -> r ∈ tx_rows tx.
Proof.
  intros Htx Hr. destruct pd; cbn in *; try done; destruct Htx as (ws & -> & Hws);
    cbn; rewrite Hws; simplify_eq; by apply list_elem_of_singleton.
Qed.

Lemma tx_active_clean pd ws :
  idle pd -> tx_ok pd (TxActive ws) -> pd = Clean /\ job_writes ws = [].
Proof. intros [-> | ->] H; [|done]. destruct H as (ws' & [= <-] & Hws). done. Qed.

Lemma relies_error g s x : relies g (Exec s) (Exn x) (broken g).
Proof. destruct s as [| | | | | |? []|]; cbn; eauto. Qed.

Lemma relies_neutral g s v :
  match s with UpdateJob _ _ _ | InsertJob _ => False | _ => True end ->
  relies g (Exec s) (Ok v) g.
Proof. destruct s; cbn; try done; eauto. Qed.

Section statement.
Context (db : tables) (procs : gmap nat proc) (G : nat -> ghost).
Context (Hinv : inv_with (Config db procs) G).
Context (pid : nat) (en : entry) (s : stmt) (k : result exn (rows s) -> prog unit) (tx : txn).
Context (Hp : procs !! pid = Some (Proc en (Vis (Exec s) k) tx)).
Abbreviation i := (entry_job en).
Abbreviation m := (jobs db).

(** No other coroutine touches a row it would wait for. *)
Lemma no_wait_no_touch k' r0 :
  ~ waits procs pid s ->
  (forall j, Job.id j = k' -> conflict s j = true) -> Job.id r0 = k' ->
  unstarted m k' ->
  unstarted m k' /\ forall q pq, q <> pid -> procs !! q = Some pq -> ~ touches m (G q) k'.
Proof.
  intros Hw Hconf Hid Hst. split; [done|]. intros q pq Hne Hq [(r & Hr & Hrid)|(j & _ & _ & Hj & Hsj)].
  - apply Hw. exists q, pq, r. split_and!; [done..| |by apply Hconf].
    eapply tx_rows_pending; [|done]. apply (pi_tx _ _ _ (inv_procs _ _ Hinv _ _ Hq)).
  - by apply (Hst j).
Qed.

(** The invariant after a statement, from the ghost state it leads to. *)
Lemma exec_update r tx' g' :
  relies (G pid) (Exec s) r g' -> tx_ok (g_pend g') tx' -> pend_ok m i g' ->
  g_own g' = g_own (G pid) ->
  (forall r0, pending_row (g_pend g') = Some r0 -> g_pend g' = g_pend (G pid) \/
     touches m (G pid) (Job.id r0) \/
     unstarted m (Job.id r0) /\
     forall q pq, q <> pid -> procs !! q = Some pq -> ~ touches m (G q) (Job.id r0)) ->
  (forall q pq r1 r2, q <> pid -> procs !! q = Some pq ->
     g_pend g' = Insert r1 -> g_pend (G q) = Insert r2 ->
     g_pend g' = g_pend (G pid) \/ same_slot r1 r2 = false) ->
  next (Config db procs) G (Config db (<[pid := Proc en (k r) tx']> procs)).
Proof.
  intros Hrel Htx Hpend Hown Ht Hs. pose proof (inv_procs _ _ Hinv _ _ Hp) as [[_ Hk] _ _ Ho].
  eapply (inv_update _ _ _ Hinv pid _ Hp db (or_introl eq_refl) _ g').
  - split; cbn; [by apply (Hk r g')|done..|]. by rewrite Hown.
  - intros k' [(r0 & Hr0 & <-)|Hj].
    + destruct (Ht _ Hr0) as [E|[H|H]]; [|by left|by right].
      left. left. exists r0. by rewrite <- E.
    + left. right. by rewrite Hown in Hj.
  - intros q pq r1 r2 Hne Hq E1 E2. destruct (Hs q pq r1 r2 Hne Hq E1 E2) as [E|H]; [|done].
    rewrite E in E1. by eapply (inv_compatible _ _ Hinv pid q).
Qed.

Lemma exec_error x :
  next (Config db procs) G (Config db (<[pid := Proc en (k (Exn x)) TxAborted]> procs)).
Proof.
  eapply (exec_update _ _ (broken (G pid))); try done.
  apply relies_error.
Qed.

Lemma exec_neutral v ws new :
  match s with UpdateJob _ _ _ | InsertJob _ => False | _ => True end ->
  tx = TxActive ws -> job_writes new = [] ->
  next (Config db procs) G (Config db (<[pid := Proc en (k (Ok v)) (TxActive (ws ++ new))]> procs)).
Proof.
  intros Hs E Hn. pose proof (inv_procs _ _ Hinv _ _ Hp) as [_ Htx Hpend _]. cbn in Htx.
  rewrite E in Htx.
  apply (exec_update _ _ (G pid)); auto.
  - by apply relies_neutral.
  - destruct (g_pend (G pid)); cbn in *; try done;
      destruct Htx as (ws' & [= <-] & Hws); exists (ws ++ new)%list;
      by rewrite job_writes_app, Hn, app_nil_r.
Qed.
End statement.

Section job_statements.
Context (db : tables) (procs : gmap nat proc) (G : nat -> ghost).
Context (Hinv : inv_with (Config db procs) G).
Context (pid : nat) (en : entry) (ws : list write).
Abbreviation i := (entry_job en).
Abbreviation m := (jobs db).

Lemma clean_view : idle (g_pend (G pid)) -> tx_ok (g_pend (G pid)) (TxActive ws) ->
  g_pend (G pid) = Clean /\ jobs (view db ws) = m.
Proof.
  intros Hidle Htx. destruct (tx_active_clean _ _ Hidle Htx) as [-> Hws].
  split; [done|]. unfold view. by rewrite jobs_apply_writes, Hws.
Qed.

Lemma active_rows r new : g_pend (G pid) = Clean -> tx_ok (g_pend (G pid)) (TxActive ws) ->
  job_writes new = [r] -> exists ws', TxActive (ws ++ new) = TxActive ws' /\ job_writes ws' = [r].
Proof.
  intros -> (ws' & [= <-] & Hws) Hn. exists (ws ++ new)%list. by rewrite job_writes_app, Hws, Hn.
Qed.

(** A claim. *)
Lemma exec_claim k0 vs k v new :
  procs !! pid = Some (Proc en (Vis (Exec (UpdateJob k0 QUEUED vs)) k) (TxActive ws)) ->
  ~ waits procs pid (UpdateJob k0 QUEUED vs) -> stmt_doc (view db ws) (UpdateJob k0 QUEUED vs) v new ->
  next (Config db procs) G (Config db (<[pid := Proc en (k (Ok v)) (TxActive (ws ++ new))]> procs)).
Proof.
  intros Hp Hw Hd. pose proof (inv_procs _ _ Hinv _ _ Hp) as [[Hkeep _] Htx Hpend Hown].
  cbn [allowed protocol keeps p_code p_tx p_entry c_db c_procs] in Htx, Hkeep, Hown. destruct Hkeep as (Hi & Hidle & t & t' & ->).
  destruct (clean_view Hidle Htx) as [Hcl Hv]. cbv beta iota delta [stmt_doc] in Hd. rewrite Hv in Hd.
  destruct (select (has_status QUEUED) (m !! k0)) as [j|] eqn:E; destruct Hd as [-> ->].
  - rewrite assign_status_values.
    assert (m !! k0 = Some j /\ Job.status j = QUEUED) as [Hj Hst].
    { destruct (m !! k0) as [j'|]; cbn in E; [|done]. unfold has_status in E.
      case_bool_decide; by simplify_eq. }
    pose proof (wf_jobs_id _ (inv_wf _ _ Hinv) _ _ Hj) as Hid.
    eapply (exec_update _ _ _ Hinv _ _ _ _ _ Hp _ _ (Ghost (Claim _) (g_own (G pid)))).
    + right. right. split; [done|]. exists j. rewrite assign_status_values. by split_and!.
    + by apply active_rows.
    + exists j, t, t'. by rewrite Hid.
    + done.
    + intros r0 [= <-]. right. right. rewrite moved_id, Hid.
      eapply (no_wait_no_touch _ _ _ Hinv); [done|..|exact Hid|].
      * intros j' <-. cbn. apply N.eqb_refl.
      * intros j' Hj'. rewrite Hj in Hj'. injection Hj' as <-. by rewrite Hst.
    + by intros q pq r1 r2 _ _ [=].
  - rewrite app_nil_r. eapply (exec_update _ _ _ Hinv _ _ _ _ _ Hp _ _ (G pid)); auto.
    right. left. by split_and!.
Qed.

(** Leaving an owned job. *)
Lemma exec_exit k0 vs k v new :
  procs !! pid = Some (Proc en (Vis (Exec (UpdateJob k0 STARTED vs)) k) (TxActive ws)) ->
  stmt_doc (view db ws) (UpdateJob k0 STARTED vs) v new ->
  next (Config db procs) G (Config db (<[pid := Proc en (k (Ok v)) (TxActive (ws ++ new))]> procs)).
Proof.
  intros Hp Hd. pose proof (inv_procs _ _ Hinv _ _ Hp) as [[Hkeep _] Htx Hpend Hown].
  cbn [allowed protocol keeps p_code p_tx p_entry c_db c_procs] in Htx, Hkeep, Hown. destruct Hkeep as (Hidle & j & status & em & t & t' & Ho & Hid & -> & Hx).
  destruct (clean_view Hidle Htx) as [Hcl Hv]. cbv beta iota delta [stmt_doc] in Hd. rewrite Hv in Hd.
  destruct (select (has_status STARTED) (m !! k0)) as [j'|] eqn:E; destruct Hd as [-> ->].
  - rewrite assign_status_values.
    assert (m !! k0 = Some j' /\ Job.status j' = STARTED) as [Hj' Hst'].
    { destruct (m !! k0) as [x|]; cbn in E; [|done]. unfold has_status in E.
      case_bool_decide; by simplify_eq. }
    assert (j' = j /\ i = Some (Job.id j)) as [-> Hi].
    { destruct Ho as [Eo|Eo]; rewrite Eo in Hown; cbn in Hown.
      - destruct Hown as (Hi & Hm & _). split; [congruence|done].
      - destruct Hown as (Hi & _ & [Hm|(r & Hm & Hr)]); split; congruence. }
    eapply (exec_update _ _ _ Hinv _ _ _ _ _ Hp _ _ (Ghost (Exit j _) (g_own (G pid)))).
    + right. right. split; [done|]. exists j. rewrite assign_status_values. by split_and!.
    + by apply active_rows.
    + cbn. split_and!; try done. by rewrite Hid.
    + done.
    + intros r0 [= <-]. right. left. rewrite moved_id. right. exists j. by rewrite Hid.
    + by intros q pq r1 r2 _ _ [=].
  - rewrite app_nil_r. eapply (exec_update _ _ _ Hinv _ _ _ _ _ Hp _ _ (G pid)); auto.
    right. left. by split_and!.
Qed.

(** An insertion. *)
Lemma exec_insert x k v new :
  procs !! pid = Some (Proc en (Vis (Exec (InsertJob x)) k) (TxActive ws)) ->
  ~ waits procs pid (InsertJob x) -> stmt_violations (view db ws) (InsertJob x) = [] ->
  stmt_doc (view db ws) (InsertJob x) v new ->
  next (Config db procs) G (Config db (<[pid := Proc en (k (Ok v)) (TxActive (ws ++ new))]> procs)).
Proof.
  intros Hp Hw Hviol [-> ->]. pose proof (inv_procs _ _ Hinv _ _ Hp) as [[Hkeep _] Htx Hpend Hown].
  cbn [allowed protocol keeps p_code p_tx p_entry c_db c_procs] in Htx, Hkeep, Hown. destruct Hkeep as (Hi & Hidle & Hrow).
  destruct (clean_view Hidle Htx) as [Hcl Hv].
  cbn in Hviol. unfold job_violations, slot_taken in Hviol. rewrite Hv in Hviol.
  apply app_nil in Hviol as [Hid Hviol]. apply app_nil in Hviol as [Hslot _].
  assert (m !! Job.id x = None) as Hnone.
  { unfold violated in Hid. case_bool_decide as Hs; [done|]. by apply eq_None_not_Some. }
  assert (forall k j, m !! k = Some j -> same_slot x j = false) as Hfree.
  { intros k' j Hj. destruct (map_exists _ m) eqn:E; [done|].
    pose proof (proj1 (map_exists_false _ _) E _ _ Hj) as H. cbn in H.
    assert (Job.id j <> Job.id x) as Hne.
    { rewrite (wf_jobs_id _ (inv_wf _ _ Hinv) _ _ Hj). congruence. }
    apply N.eqb_neq in Hne. by rewrite Hne in H. }
  eapply (exec_update _ _ _ Hinv _ _ _ _ _ Hp _ _ (Ghost (Insert x) (g_own (G pid)))).
  - right. by split_and!.
  - by apply active_rows.
  - by split_and!.
  - done.
  - intros r0 [= <-]. right. right. eapply (no_wait_no_touch _ _ _ Hinv); [done|..|done|].
    + intros j E. cbn. rewrite E, N.eqb_refl. done.
    + by intros j; rewrite Hnone.
  - intros q pq r1 r2 Hne Hq [= <-] Hr2. right. apply not_true_is_false. intros Es. apply Hw.
    exists q, pq, r2. split_and!; [done..| |by cbn; rewrite Es, orb_true_r].
    eapply tx_rows_pending; [apply (pi_tx _ _ _ (inv_procs _ _ Hinv _ _ Hq))|by rewrite Hr2].
Qed.
End job_statements.

(** ** Steps keep the invariant *)

Lemma inv_exec db procs G pid en s k tx r tx' :
  inv_with (Config db procs) G ->
  procs !! pid = Some (Proc en (Vis (Exec s) k) tx) ->
  exec_doc Flaky db tx s r tx' ->
  (~ waits procs pid s \/ exists x, db_fault x /\ r = Exn x /\ tx' = TxAborted) ->
  next (Config db procs) G (Config db (<[pid := Proc en (k r) tx']> procs)).
Proof.
  intros Hinv Hp Hd Hw.
  assert (Herr : forall x, r = Exn x -> tx' = TxAborted ->
    next (Config db procs) G (Config db (<[pid := Proc en (k r) tx']> procs))).
  { intros x -> ->. by eapply exec_error. }
  destruct Hw as [Hw|(x & _ & Hr & Ht)]; [|by eapply Herr].
  destruct tx as [ws|]; [|by destruct Hd as (x & _ & Hr & Ht); eapply Herr].
  destruct Hd as [(_ & Hv & v & new & Hd & -> & ->)|[(_ & c & msg & _ & _ & Hr & Ht)|
    (_ & x & _ & Hr & Ht)]]; [|by eapply Herr..].
  destruct s as [| | | |d|x|k0 expected vs|a].
  - eapply exec_neutral; [done..|]. by destruct Hd as [-> _].
  - eapply exec_neutral; [done..|]. by destruct Hd as [_ ->].
  - eapply exec_neutral; [done..|]. by destruct Hd as [_ ->].
  - eapply exec_neutral; [done..|]. by destruct Hd as [_ ->].
  - eapply exec_neutral; [done..|]. by destruct Hd as [_ ->].
  - by eapply exec_insert.
  - pose proof (pi_code _ _ _ (inv_procs _ _ Hinv _ _ Hp)) as [Hkeep _].
    destruct expected; [by eapply exec_claim|by eapply exec_exit|done..].
  - eapply exec_neutral; [done..|]. by destruct Hd as [_ ->].
Qed.

Lemma inv_commit db procs G pid en k tx r db' tx' :
  inv_with (Config db procs) G ->
  procs !! pid = Some (Proc en (Vis Commit k) tx) ->
  commit_doc Flaky db tx r db' tx' ->
  next (Config db procs) G (Config db' (<[pid := Proc en (k r) tx']> procs)).
Proof.
  intros Hinv Hp Hd. pose proof (inv_procs _ _ Hinv _ _ Hp) as [[_ Hk] Htx Hpend Hown].
  destruct (commit_advance _ _ (g_own (G pid)) _ _ _ _ Htx Hd) as (Htx' & Hm & Hadv).
  assert (G pid = Ghost (g_pend (G pid)) (g_own (G pid))) as EG by (by destruct (G pid)).
  rewrite <- EG in Hadv.
  destruct (commit_own _ _ _ r _ Hpend Hown Hm) as [Hown' Ht].
  pose (o := after_commit (G pid) r).
  pose (g' := match r with Ok _ => Ghost Clean o | Exn _ => Ghost Broken o end).
  assert (g_own g' = o /\ idle (g_pend g')) as [Eo Hidle].
  { unfold g', idle. destruct r; auto. }
  eapply (inv_update _ _ _ Hinv pid _ Hp db' Hadv _ g').
  - split; cbn.
    + apply (Hk r g'). cbn. unfold g', o, after_commit. by destruct r, (g_pend (G pid)).
    + unfold g'. by destruct r.
    + unfold g', pend_ok. by destruct r.
    + by rewrite Eo.
  - intros k' [(r0 & Hr0 & _)|(j & Hj & <- & Hmj & Hst)].
    + by destruct Hidle as [E|E]; rewrite E in Hr0.
    + left. rewrite Eo in Hj. by apply Ht.
  - intros q pq r1 r2 _ _ E. by destruct Hidle as [E'|E']; rewrite E' in E.
Qed.

Lemma inv_other db procs G pid en e k tx r tx' g' :
  inv_with (Config db procs) G ->
  procs !! pid = Some (Proc en (Vis e k) tx) ->
  relies (G pid) e r g' -> g_own g' = g_own (G pid) ->
  g_pend g' = g_pend (G pid) /\ tx' = tx \/ g_pend g' = Clean /\ tx' = TxActive [] ->
  next (Config db procs) G (Config db (<[pid := Proc en (k r) tx']> procs)).
Proof.
  intros Hinv Hp Hrel Hown Hcase. pose proof (inv_procs _ _ Hinv _ _ Hp) as [[_ Hk] Htx Hpend Ho].
  eapply (inv_update _ _ _ Hinv pid _ Hp db (or_introl eq_refl) _ g').
  - split; cbn; [by apply (Hk r g')|..|by rewrite Hown].
    + destruct Hcase as [[-> ->]|[-> ->]]; [done|by exists []].
    + destruct Hcase as [[E _]|[E _]]; unfold pend_ok in *; rewrite E; [|done].
      by rewrite Hown.
  - intros k' [(r0 & Hr0 & <-)|Hj]; left.
    + left. exists r0. split; [|done]. by destruct Hcase as [[<- _]|[E _]]; [|rewrite E in Hr0].
    + right. by rewrite Hown in Hj.
  - intros q pq r1 r2 Hne Hq E1 E2. destruct Hcase as [[E _]|[E _]]; [|congruence].
    rewrite E in E1. by eapply (inv_compatible _ _ Hinv pid q).
Qed.

Lemma inv_event db procs G pid en e k tx r db' tx' :
  inv_with (Config db procs) G ->
  procs !! pid = Some (Proc en (Vis e k) tx) ->
  answers procs pid db tx e r db' tx' ->
  next (Config db procs) G (Config db' (<[pid := Proc en (k r) tx']> procs)).
Proof.
  intros Hinv Hp Ha. destruct e as [| | | | | | |s| | | | | | | | | | | | | | | | | | | | | | | | | | | |].
  8: destruct Ha as (-> & Hd & Hw); by eapply inv_exec.
  8: by eapply inv_commit.
  8, 9: destruct Ha as (-> & -> & _); eapply (inv_other _ _ _ _ _ _ _ _ _ _ (clean (G pid)));
    [done..|]; by right.
  all: destruct Ha as [-> ->]; eapply (inv_other _ _ _ _ _ _ _ _ _ _ (G pid)); [done..|]; by left.
Qed.

Lemma inv_initial c : initial c -> inv c.
Proof.
  destruct c as [db procs]. intros (E & Hwf & Hb). cbn in E. subst procs. exists (fun _ => Ghost Clean Free).
  split; [done|done| |].
  - intros pid p Hp. cbn in Hp. by apply lookup_empty_Some in Hp.
  - intros pid1 pid2 p1 p2 _ Hp. cbn in Hp. by apply lookup_empty_Some in Hp.
Qed.

Lemma inv_end db procs G pid :
  inv_with (Config db procs) G -> next (Config db procs) G (Config db (delete pid procs)).
Proof.
  intros [H1 H2 H3 H4]. exists G. split; [split; [done..| |]; cbn [c_procs c_db]|].
  - intros q pq. rewrite lookup_delete_Some. intros [_ H]. by apply H3.
  - intros q1 q2 p1 p2 Hne. rewrite !lookup_delete_Some. intros [_ Hq1] [_ Hq2]. by eapply H4.
  - intros k (q & pq & Hq & Hk). cbn in Hq. apply lookup_delete_Some in Hq as [_ Hq].
    left. by exists q, pq.
Qed.

Context `{!AsgiResponse send_response}.

Lemma inv_start db procs G pid e :
  inv_with (Config db procs) G -> procs !! pid = None ->
  next (Config db procs) G (Config db (<[pid := Proc e (entry_code e) (TxActive [])]> procs)).
Proof.
  intros [H1 H2 H3 H4] Hp.
  assert (Hno : forall m k, ~ touches m (Ghost Clean Free) k).
  { intros m k [(r & [=] & _)|(j & [[=]|[=]] & _)]. }
  exists (fun n => if decide (n = pid) then Ghost Clean Free else G n).
  split; [split; [done..| |]; cbn [c_procs c_db] in *|].
  - intros q pq. rewrite lookup_insert_Some. intros [[<- <-]|[Hne Hq]].
    + rewrite decide_True by done. split; cbn; [by apply entries_keep_protocol|by exists []|done..].
    + rewrite decide_False by done. by apply H3.
  - assert (Hnew : forall g, compatible (jobs db) (Ghost Clean Free) g).
    { intros g. split; [|done]. intros k H. by apply Hno in H. }
    intros q1 q2 p1 p2 Hne. rewrite !lookup_insert_Some.
    intros [[<- <-]|[Hn1 Hq1]] [[<- <-]|[Hn2 Hq2]]; [done|..].
    + rewrite decide_True, decide_False by done. apply Hnew.
    + rewrite decide_False, decide_True by done. by apply compatible_sym.
    + rewrite !decide_False by done. by eapply H4.
  - intros k (q & pq & Hq & Hk). cbn in Hq, Hk. apply lookup_insert_Some in Hq as [[<- <-]|[Hne Hq]].
    + rewrite decide_True in Hk by done. by apply Hno in Hk.
    + rewrite decide_False in Hk by done. left. by exists q, pq.
Qed.

Lemma step_next c G c' : inv_with c G -> step c c' -> next c G c'.
Proof.
  intros Hinv Hs. destruct Hs as [db procs pid e Hp|db procs pid en e k tx r db' tx' Hp Ha|].
  - by apply inv_start.
  - by eapply inv_event.
  - by apply inv_end.
Qed.

Lemma reachable_inv c : reachable c -> inv c.
Proof.
  induction 1 as [c Hi|c c' _ [G Hinv] Hs]; [by apply inv_initial|].
  destruct (step_next _ _ _ Hinv Hs) as (G' & H & _). by exists G'.
Qed.

(** ** Rows move along the life of a job, one at a time *)

Lemma event_tables_other procs pid db tx e r db' tx' :
  answers procs pid db tx e r db' tx' -> e <> Commit -> db' = db.
Proof. destruct e; cbn; intros Ha Hne; first [by destruct Ha | done]. Qed.

Lemma step_row c G c' :
  inv_with c G -> step c c' ->
  jobs (c_db c') = jobs (c_db c) \/
  exists pid p r, c_procs c !! pid = Some p /\ (exists k, p_code p = Vis Commit k) /\
    jobs (c_db c') = <[Job.id r := r]> (jobs (c_db c)) /\
    lifecycle (jobs (c_db c) !! Job.id r) (Some r) /\
    (entry_job (p_entry p) = Some (Job.id r) \/ jobs (c_db c) !! Job.id r = None) /\
    held c G (Job.id r).
Proof.
  intros Hinv Hs. destruct Hs as [|db procs pid en e k tx r db' tx' Hp Ha|]; [by left| |by left].
  assert (e <> Commit \/ e = Commit) as [He|He] by (destruct e; auto).
  { left. cbn. by rewrite (event_tables_other _ _ _ _ _ _ _ _ Ha He). }
  subst e. pose proof (inv_procs _ _ Hinv _ _ Hp) as [_ Htx Hpend _]. cbn [c_db c_procs] in *.
  destruct (commit_advance _ _ (g_own (G pid)) _ _ _ _ Htx Ha) as (_ & [[-> _]|(x & Hx & Hm)] & _);
    [by left|].
  right. eexists pid, _, x. split_and!; [done|by exists k|done|by eapply pend_lifecycle| |].
  2: { eexists pid, _. split; [done|]. left. by exists x. }
  cbn. destruct (G pid) as [[|y|j y|y|] o]; cbn in *; simplify_eq.
  - destruct Hpend as (j & t & t' & Hi & _ & _ & ->). left. by rewrite moved_id.
  - destruct Hpend as (Hi & _ & _ & _ & Hx). left. by rewrite (exit_row_id _ _ Hx).
  - destruct Hpend as (_ & Hn & _). by right.
Qed.
End system.
