(* ===== verification/SystemTheorems.v ===== *)
(** * Theorems about the concurrent pipeline

    What holds in every configuration that message handlers and API requests can
    reach together, under duplicated deliveries, failing services and processes
    killed at any point. *)

From S2P Require Import Prelude PyStr PyUuid Json Dtos Exceptions Models Program.
From S2P Require Import Settings Environment Logic Contracts ApiServices Worker Wiring.
From S2P Require Import Http Reference WorkerOutcomes Examples Protocol Processes.
From S2P Require Import System ConsumerSpec.

(** The coroutine is about to parse a document or to store an artifact. *)
Definition processing (p : prog unit) : bool :=
  match p with
  | Vis (PdfOpen _) _ | Vis (S3Put _ _ _ _) _ => true
  | _ => false
  end.

Section theorems.
Context (S : BaseAppSettings.t) (limit : nat) (send_response : Z -> prog unit)
  `{!AsgiResponse send_response}.
Abbreviation reachable := (reachable S limit send_response).
Abbreviation step := (step S limit send_response).
Abbreviation steps := (steps S limit send_response).

Lemma processing_owns m p g :
  proc_inv limit m p g -> processing (p_code p) = true ->
  exists j, g_own g = Owns j /\ entry_job limit (p_entry p) = Some (Job.id j) /\
    m !! Job.id j = Some j /\ Job.status j = STARTED.
Proof.
  intros [Hc _ _ Ho] Hp. destruct p as [en code tx]; cbn in *.
  assert (exists j, g_own g = Owns j) as [j Hj].
  { destruct code as [| |[] k]; try done; by destruct Hc as [[j Hj] _]; exists j. }
  exists j. rewrite Hj in Ho. by cbn in Ho.
Qed.

Lemma processing_touches m p g k :
  proc_inv limit m p g -> processing (p_code p) = true ->
  entry_job limit (p_entry p) = Some k -> touches m g k.
Proof.
  intros Hi Hp Hk. destruct (processing_owns _ _ _ Hi Hp) as (j & Ho & He & Hm & Hst).
  right. exists j. rewrite He in Hk. injection Hk as <-. by split_and!; [left|..].
Qed.

Lemma step_lifecycle c G c' k :
  inv_with limit c G -> step c c' -> lifecycle (jobs (c_db c) !! k) (jobs (c_db c') !! k).
Proof.
  intros Hinv Hs. destruct (step_row _ _ _ _ _ _ Hinv Hs) as [->|(pid & p & r & _ & _ & -> & Hl & _)];
    [constructor|].
  destruct (decide (Job.id r = k)) as [<-|Hne]; [by rewrite lookup_insert_eq|].
  rewrite lookup_insert_ne by done. constructor.
Qed.

Lemma step_unheld c G c' k :
  inv_with limit c G -> step c c' -> ~ held c G k -> jobs (c_db c') !! k = jobs (c_db c) !! k.
Proof.
  intros Hinv Hs Hh. destruct (step_row _ _ _ _ _ _ Hinv Hs) as [->|(pid & p & r & _ & _ & -> & _ & _ & Hr)];
    [done|].
  apply lookup_insert_ne. by intros <-.
Qed.

Lemma lifecycle_final j o :
  lifecycle (Some j) o -> Job.status j = COMPLETED \/ Job.status j = FAILED -> o = Some j.
Proof. intros Hl Hst. inversion Hl; subst; destruct Hst; congruence. Qed.

Lemma lifecycle_started j j' :
  lifecycle (Some j) (Some j') -> Job.status j = STARTED -> Job.status j' = STARTED -> j' = j.
Proof.
  intros Hl H1 H2. inversion Hl as [|? ? ? ?|? ? ? Hst|? ? Hst Hx]; subst; [done|congruence|].
  exfalso. destruct Hx; by destruct j.
Qed.

(** A coroutine that handles no message of the job does not touch its row. *)
Lemma unhandled_untouched c G pid p k j :
  inv_with limit c G -> jobs (c_db c) !! k = Some j -> c_procs c !! pid = Some p ->
  entry_job limit (p_entry p) <> Some k -> ~ touches (jobs (c_db c)) (G pid) k.
Proof.
  intros Hinv Hj Hp Hne Ht. destruct (inv_procs _ _ _ Hinv _ _ Hp) as [_ _ Hpend Hown].
  destruct Ht as [(r & Hr & <-)|(x & [Ex|Ex] & <- & _)].
  - destruct (G pid) as [[|y|y z|y|] o]; cbn in *; simplify_eq.
    + destruct Hpend as (x & t & t' & Hi & _ & _ & ->). by rewrite moved_id in Hne.
    + destruct Hpend as (Hi & _ & _ & _ & Hx). by rewrite (exit_row_id _ _ Hx) in Hne.
    + destruct Hpend as (_ & Hn & _). congruence.
  - rewrite Ex in Hown. by destruct Hown.
  - rewrite Ex in Hown. by destruct Hown.
Qed.

(** ** Runs of one coroutine *)

(** The first [m] events of a program, and what is left of it. *)
Fixpoint unroll (env : environment) (m n : nat) (w : world) (p : prog unit)
  : world * prog unit :=
  match m, p with
  | Datatypes.S m, Vis e k => let '(r, w') := env n w e in unroll env m (Datatypes.S n) w' (k r)
  | _, _ => (w, p)
  end.

Lemma doc_answers procs pid w e r w' :
  w_health w = all_flaky -> (forall q p, procs !! q = Some p -> q = pid) -> doc w e r w' ->
  w_health w' = all_flaky /\ answers procs pid (w_db w) (w_tx w) e r (w_db w') (w_tx w').
Proof.
  intros Hh Hsolo Hd. destruct w as [db tx ob q ca se inb stp snt h]. cbn in Hh. subst h.
  assert (Hw : forall s, ~ waits procs pid s).
  { intros s (q' & p & j & Hne & Hq & _). by apply Hne, (Hsolo _ p). }
  destruct e; cbn in Hd; unfold never_fails, plain, effect, published, declared in Hd; cbn in Hd;
    repeat match goal with
    | H : _ /\ _ |- _ => destruct H
    | H : exists _, _ |- _ => destruct H
    | H : context [match ?x with _ => _ end] |- _ => destruct x; cbn in H
    | H : _ \/ _ |- _ => destruct H
    end; subst; cbn; eauto 10.
Qed.

Lemma unroll_reachable env `{!Conforming env} pid en m n w p :
  w_health w = all_flaky ->
  reachable (Config (w_db w) {[pid := Proc en p (w_tx w)]}) ->
  let out := unroll env m n w p in
  reachable (Config (w_db out.1) {[pid := Proc en out.2 (w_tx out.1)]}).
Proof.
  revert n w p. induction m as [|m IH]; intros n w p Hh Hr; [done|].
  destruct p as [|x|e k]; [done..|]. cbn.
  pose proof (conforming n w e) as Hd. destruct (env n w e) as [r w']. cbn in Hd.
  destruct (doc_answers {[pid := Proc en (Vis e k) (w_tx w)]} pid w e r w' Hh) as [Hh' Ha]; [|done|].
  { intros q p' Hq. by apply lookup_singleton_Some in Hq as [<- _]. }
  apply IH; [done|]. eapply ReachStep; [exact Hr|].
  rewrite <- (insert_singleton_eq pid (Proc en (k r) (w_tx w')) (Proc en (Vis e k) (w_tx w))).
  apply (StepEvent _ _ _ _ _ _ _ e k (w_tx w)); [apply lookup_singleton_eq|done].
Qed.

Lemma start_reachable env `{!Conforming env} pid e m n w :
  w_health w = all_flaky -> w_tx w = TxActive [] ->
  wf_jobs (jobs (w_db w)) -> budgets (jobs (w_db w)) ->
  let out := unroll env m n w (entry_code S limit send_response e) in
  reachable (Config (w_db out.1) {[pid := Proc e out.2 (w_tx out.1)]}).
Proof.
  intros Hh Htx Hwf Hb. apply unroll_reachable; [done..|]. rewrite Htx.
  eapply ReachStep; [by apply (ReachInit _ _ _ (Config (w_db w) ∅))|].
  by apply (StepStart _ _ _ (w_db w) ∅ pid e).
Qed.
End theorems.

(** ** The configurations of the examples *)

Definition demo_send (status : Z) : prog unit :=
  send_all [ResponseStart status; OtherMessage "http.response.body"].

#[export] Instance demo_send_response : AsgiResponse demo_send.
Proof. intros status. by exists ["http.response.body"]. Qed.

Definition demo_entry : entry := HandleMessage demo_message.

(** The handler of the message after [m] events. *)
Definition demo_handler (m : nat) : world * prog unit :=
  unroll (reference (fun _ => true)) m 0 (demo_world all_flaky (one_job QUEUED 0))
    (entry_code demo_settings 100 demo_send demo_entry).

Definition demo_config (m : nat) : config :=
  Config (w_db (demo_handler m).1)
    {[0%nat := Proc demo_entry (demo_handler m).2 (w_tx (demo_handler m).1)]}.

Lemma demo_reachable m : reachable demo_settings 100 demo_send (demo_config m).
Proof.
  apply (start_reachable demo_settings 100 demo_send (reference (fun _ => true))); [done..| |].
  - apply (demo_ready all_flaky QUEUED 0).
  - intros k j Hj. apply demo_lookup in Hj as [_ ->]. done.
Qed.

(** ** Mutual exclusion *)

(** C1: two handlers never process the same job at the same time: while one parses or
    stores for a job, no other coroutine of any worker does, whatever messages were
    duplicated, whichever calls failed and whichever processes were killed before. *)
Theorem processing_is_exclusive S limit send_response `{!AsgiResponse send_response}
    c pid1 pid2 p1 p2 k :
  reachable S limit send_response c -> pid1 <> pid2 ->
  c_procs c !! pid1 = Some p1 -> c_procs c !! pid2 = Some p2 ->
  entry_job limit (p_entry p1) = Some k -> entry_job limit (p_entry p2) = Some k ->
  processing (p_code p1) = true -> processing (p_code p2) = false.
Proof.
  intros Hr Hne Hp1 Hp2 Hk1 Hk2 Hproc. destruct (reachable_inv _ _ _ _ Hr) as [G Hinv].
  destruct (processing (p_code p2)) eqn:Hproc2; [|done]. exfalso.
  destruct (inv_compatible _ _ _ Hinv _ _ _ _ Hne Hp1 Hp2) as [Hc _].
  pose proof (inv_procs _ _ _ Hinv _ _ Hp1) as Hi1. pose proof (inv_procs _ _ _ Hinv _ _ Hp2) as Hi2.
  apply (Hc k); by eapply processing_touches.
Qed.

(** The message is delivered a second time while its handler parses. *)
Definition demo_duplicate : config :=
  Config (c_db (demo_config 20))
    (<[1%nat := Proc demo_entry (entry_code demo_settings 100 demo_send demo_entry)
                  (TxActive [])]> (c_procs (demo_config 20))).

Lemma demo_duplicate_reachable : reachable demo_settings 100 demo_send demo_duplicate.
Proof.
  eapply ReachStep; [apply (demo_reachable 20)|].
  apply (StepStart _ _ _ (c_db (demo_config 20)) (c_procs (demo_config 20)) 1 demo_entry).
  by apply lookup_singleton_ne.
Qed.

Lemma processing_is_exclusive_witness :
  processing (demo_handler 20).2 = true /\
  processing (entry_code demo_settings 100 demo_send demo_entry) = false.
Proof.
  split; [vm_compute; reflexivity|].
  apply (processing_is_exclusive demo_settings 100 demo_send demo_duplicate 0 1
           (Proc demo_entry (demo_handler 20).2 (w_tx (demo_handler 20).1))
           (Proc demo_entry (entry_code demo_settings 100 demo_send demo_entry) (TxActive []))
           7%N).
  - apply demo_duplicate_reachable.
  - discriminate.
  - reflexivity.
  - reflexivity.
  - vm_compute. reflexivity.
  - vm_compute. reflexivity.
  - vm_compute. reflexivity.
Defined.

(** C2: a handler parses and stores only for a job whose claim it has committed: the
    row is [STARTED], and no step of another coroutine changes it. *)
Theorem processing_holds_claim S limit send_response `{!AsgiResponse send_response} c pid p :
  reachable S limit send_response c -> c_procs c !! pid = Some p ->
  processing (p_code p) = true ->
  exists k j, entry_job limit (p_entry p) = Some k /\ jobs (c_db c) !! k = Some j /\
    Job.status j = STARTED /\
    forall c', step S limit send_response c c' -> c_procs c' !! pid = Some p ->
      jobs (c_db c') !! k = Some j.
Proof.
  intros Hr Hp Hproc. destruct (reachable_inv _ _ _ _ Hr) as [G Hinv].
  destruct (processing_owns _ _ _ _ (inv_procs _ _ _ Hinv _ _ Hp) Hproc) as (j & _ & Hi & Hj & Hst).
  exists (Job.id j), j. split_and!; try done. intros c' Hs Hp'.
  destruct (reachable_inv _ _ _ _ (ReachStep _ _ _ _ _ Hr Hs)) as [G' Hinv'].
  destruct (processing_owns _ _ _ _ (inv_procs _ _ _ Hinv' _ _ Hp') Hproc) as (j' & _ & Hi' & Hj' & Hst').
  rewrite Hi in Hi'. injection Hi' as E. rewrite E. rewrite <- E in Hj'. rewrite <- E, Hj'. f_equal.
  apply lifecycle_started; [|done..]. rewrite <- Hj, <- Hj'. by eapply step_lifecycle.
Qed.

Lemma processing_holds_claim_witness :
  exists k j, entry_job 100 demo_entry = Some k /\
    jobs (c_db (demo_config 20)) !! k = Some j /\ Job.status j = STARTED /\
    forall c', step demo_settings 100 demo_send (demo_config 20) c' ->
      c_procs c' !! 0%nat =
        Some (Proc demo_entry (demo_handler 20).2 (w_tx (demo_handler 20).1)) ->
      jobs (c_db c') !! k = Some j.
Proof.
  apply (processing_holds_claim demo_settings 100 demo_send (demo_config 20) 0
           (Proc demo_entry (demo_handler 20).2 (w_tx (demo_handler 20).1))).
  - apply demo_reachable.
  - reflexivity.
  - vm_compute. reflexivity.
Defined.

(** ** The life of a row *)

(** C3: every step of the concurrent pipeline moves every job row along the life of a
    job -- inserted as queued, claimed, completed, retried while attempts remain, failed
    when none does -- and a row changes only in the commit of a coroutine that
    creates it or handles its message. *)
Theorem steps_follow_lifecycle S limit send_response `{!AsgiResponse send_response} c c' k :
  reachable S limit send_response c -> step S limit send_response c c' ->
  lifecycle (jobs (c_db c) !! k) (jobs (c_db c') !! k) /\
  (jobs (c_db c') !! k <> jobs (c_db c) !! k ->
   exists pid p cont, c_procs c !! pid = Some p /\ p_code p = Vis Commit cont /\
     (entry_job limit (p_entry p) = Some k \/ jobs (c_db c) !! k = None)).
Proof.
  intros Hr Hs. destruct (reachable_inv _ _ _ _ Hr) as [G Hinv].
  split; [by eapply step_lifecycle|]. intros Hne.
  destruct (step_row _ _ _ _ _ _ Hinv Hs) as [E|(pid & p & r & Hp & [cont Hc] & E & _ & Hi & _)];
    [by rewrite E in Hne|].
  assert (Job.id r = k) as <-.
  { destruct (decide (Job.id r = k)); [done|]. by rewrite E, lookup_insert_ne in Hne. }
  by exists pid, p, cont.
Qed.

Lemma steps_follow_lifecycle_witness :
  let c := demo_config 20 in
  let c' := Config (c_db c) (delete 0%nat (c_procs c)) in
  lifecycle (jobs (c_db c) !! 7%N) (jobs (c_db c') !! 7%N) /\
  (jobs (c_db c') !! 7%N <> jobs (c_db c) !! 7%N ->
   exists pid p cont, c_procs c !! pid = Some p /\ p_code p = Vis Commit cont /\
     (entry_job 100 (p_entry p) = Some 7%N \/ jobs (c_db c) !! 7%N = None)).
Proof.
  apply (steps_follow_lifecycle demo_settings 100 demo_send (demo_config 20)).
  - apply demo_reachable.
  - apply (StepEnd demo_settings 100 demo_send (c_db (demo_config 20)) (c_procs (demo_config 20))).
Defined.

(** C4: in every reachable configuration each account has at most one active job for each
    document, rows are stored under their ids, and no job has been attempted more than
    [max_attempts] times. *)
Theorem reachable_well_formed S limit send_response `{!AsgiResponse send_response} c :
  reachable S limit send_response c ->
  wf_jobs (jobs (c_db c)) /\ budgets (jobs (c_db c)).
Proof.
  intros Hr. destruct (reachable_inv _ _ _ _ Hr) as [G Hinv].
  split; [apply (inv_wf _ _ _ Hinv)|apply (inv_budgets _ _ _ Hinv)].
Qed.

Lemma reachable_well_formed_witness :
  wf_jobs (jobs (c_db (demo_config 40))) /\ budgets (jobs (c_db (demo_config 40))).
Proof.
  apply (reachable_well_formed demo_settings 100 demo_send). apply demo_reachable.
Defined.

(** C7: a completed or failed job is never touched again: its row is the same in every
    later configuration. *)
Theorem final_rows_stay S limit send_response `{!AsgiResponse send_response} c c' k j :
  reachable S limit send_response c -> steps S limit send_response c c' ->
  jobs (c_db c) !! k = Some j -> Job.status j = COMPLETED \/ Job.status j = FAILED ->
  jobs (c_db c') !! k = Some j.
Proof.
  intros Hr Hs Hj Hst. induction Hs as [c|c c1 c2 Hs _ IH]; [done|].
  apply IH; [by eapply ReachStep|]. destruct (reachable_inv _ _ _ _ Hr) as [G Hinv].
  apply lifecycle_final; [|done]. rewrite <- Hj. by eapply step_lifecycle.
Qed.

(** The configuration after a kill. *)
Definition killed (c : config) : config := Config (c_db c) (delete 0%nat (c_procs c)).

Lemma step_killed c : step demo_settings 100 demo_send c (killed c).
Proof. destruct c. apply StepEnd. Qed.

Lemma killed_reachable m : reachable demo_settings 100 demo_send (killed (demo_config m)).
Proof. eapply ReachStep; [apply demo_reachable|apply step_killed]. Qed.

(** The message is delivered again. *)
Definition redelivered (c : config) : config :=
  Config (c_db c)
    (<[0%nat := Proc demo_entry (entry_code demo_settings 100 demo_send demo_entry)
                  (TxActive [])]> (c_procs c)).

Lemma steps_redelivered m :
  steps demo_settings 100 demo_send (killed (demo_config m)) (redelivered (killed (demo_config m))).
Proof.
  eapply StepsMore; [|apply StepsNone].
  apply (StepStart _ _ _ _ (c_procs (killed (demo_config m))) 0 demo_entry).
  by apply lookup_delete_eq.
Qed.

Lemma final_rows_stay_witness :
  exists j, jobs (c_db (killed (demo_config 39))) !! 7%N = Some j /\
    Job.status j = COMPLETED /\
    jobs (c_db (redelivered (killed (demo_config 39)))) !! 7%N = Some j.
Proof.
  eexists. split; [vm_compute; reflexivity|]. split; [reflexivity|].
  apply (final_rows_stay demo_settings 100 demo_send (killed (demo_config 39))).
  - apply killed_reachable.
  - apply steps_redelivered.
  - vm_compute. reflexivity.
  - left. reflexivity.
Defined.

(** C21: a job whose handler died after the claim is stuck: while its row is [STARTED] and
    no handler of its message runs, nothing the pipeline does -- redelivering the
    message included -- ever changes the row. *)
Theorem orphaned_job_is_stuck S limit send_response `{!AsgiResponse send_response} c c' k j :
  reachable S limit send_response c -> steps S limit send_response c c' ->
  jobs (c_db c) !! k = Some j -> Job.status j = STARTED ->
  (forall pid p, c_procs c !! pid = Some p -> entry_job limit (p_entry p) <> Some k) ->
  jobs (c_db c') !! k = Some j.
Proof.
  intros Hr Hs Hj Hst Hno. destruct (reachable_inv _ _ _ _ Hr) as [G Hinv].
  assert (~ held c G k) as Hh.
  { intros (pid & p & Hp & Ht). eapply unhandled_untouched; [..|exact Ht]; [by eauto..]. }
  clear Hno Hr. revert G Hinv Hj Hh. induction Hs as [c|c c1 c2 Hs _ IH]; [done|].
  intros G Hinv Hj Hh. destruct (step_next _ _ _ _ _ _ Hinv Hs) as (G' & Hinv' & Hheld).
  apply (IH G'); [done|by rewrite (step_unheld _ _ _ _ _ _ _ Hinv Hs Hh)|].
  intros H. destruct (Hheld k H) as [H'|H']; [done|]. by apply (H' j).
Qed.

Lemma orphaned_job_is_stuck_witness :
  exists j, jobs (c_db (killed (demo_config 20))) !! 7%N = Some j /\
    Job.status j = STARTED /\
    jobs (c_db (redelivered (killed (demo_config 20)))) !! 7%N = Some j.
Proof.
  eexists. split; [vm_compute; reflexivity|]. split; [reflexivity|].
  apply (orphaned_job_is_stuck demo_settings 100 demo_send (killed (demo_config 20))).
  - apply killed_reachable.
  - apply steps_redelivered.
  - vm_compute. reflexivity.
  - reflexivity.
  - intros pid p Hp. exfalso. destruct (decide (pid = 0%nat)) as [->|Hne].
    + unfold killed in Hp. cbn [c_procs] in Hp. by rewrite lookup_delete_eq in Hp.
    + unfold killed, demo_config in Hp. cbn [c_procs] in Hp.
      rewrite lookup_delete_ne, lookup_singleton_ne in Hp by done. done.
Defined.
