(* ===== verification/HttpTheorems.v ===== *)
(** * Theorems about the HTTP layer

    The validation errors, the middleware, and the requests of the API. *)

From S2P Require Import Prelude PyStr PyUuid Json Dtos Exceptions Models Program.
From S2P Require Import Interfaces Settings Environment Container Logic Contracts.
From S2P Require Import Repositories Storage Messaging ApiServices Worker Wiring Http.
From S2P Require Import Specs Reference WorkerOutcomes Examples Protocol Processes.
From S2P Require Import ApiSpec ConsumerSpec Sha256 SystemTheorems ApiTheorems.

(** ** Validation errors *)

(** The value of a key of a dictionary. *)
Fixpoint assoc {A} (k : string) (l : list (string * A)) : option A :=
  match l with
  | [] => None
  | (k', v) :: l => if bool_decide (k' = k) then Some v else assoc k l
  end.

Lemma assoc_append_at f field m errors :
  assoc f (append_at field m errors) =
  if bool_decide (field = f) then Some (default [] (assoc f errors) ++ [m])%list
  else assoc f errors.
Proof.
  induction errors as [|[g ms] errors IH]; cbn; [by case_bool_decide|].
  destruct (bool_decide (g = field)) eqn:E1; cbn.
  - apply bool_decide_eq_true in E1 as ->. by case_bool_decide.
  - apply bool_decide_eq_false in E1. rewrite IH. by repeat case_bool_decide; simplify_eq/=.
Qed.

Lemma append_at_keys field m errors :
  fst <$> append_at field m errors =
  (fst <$> errors) ++ (if bool_decide (field ∈ fst <$> errors) then [] else [field]).
Proof.
  induction errors as [|[g ms] errors IH]; cbn; [done|].
  destruct (bool_decide (g = field)) eqn:E1; cbn.
  - apply bool_decide_eq_true in E1 as ->.
    rewrite bool_decide_eq_true_2 by (by left). by rewrite app_nil_r.
  - apply bool_decide_eq_false in E1. rewrite IH. f_equal. f_equal.
    assert (field ∈ g :: (fst <$> errors) <-> field ∈ fst <$> errors) as Hin
      by (rewrite elem_of_cons; split; [by intros [->|]|by right]).
    repeat case_bool_decide; tauto.
Qed.
Section validation.
Context (lower : string -> string).

(** The messages of one field, in the order of the errors. *)
Definition field_messages (field : string) (errs : list validation_error) : list string :=
  (fun e => lower (error_msg e)) <$>
    List.filter (fun e => bool_decide (error_field e = field)) errs.
End validation.

(** The error body of a rejected request lists every validation error exactly once:
    under each field the lower-cased messages of its errors, in order, and no field
    twice. *)
Theorem validation_errors_grouped lower errs :
  let errors := collect_errors lower errs in
  NoDup (fst <$> errors) /\
  forall f, assoc f errors =
    match field_messages lower f errs with [] => None | ms => Some ms end.
Proof.
  intros errors. unfold errors, collect_errors.
  enough (forall acc, NoDup (fst <$> acc) ->
    let r := fold_left (fun errors e => append_at (error_field e) (lower (error_msg e)) errors)
               errs acc in
    NoDup (fst <$> r) /\ forall f, assoc f r =
      match field_messages lower f errs with
      | [] => assoc f acc
      | ms => Some (default [] (assoc f acc) ++ ms)%list
      end) as H by (apply (H [] (NoDup_nil_2))).
  induction errs as [|e errs IH]; intros acc Hacc; [done|]. cbn.
  destruct (IH (append_at (error_field e) (lower (error_msg e)) acc)) as [Hn Ha].
  { rewrite append_at_keys. case_bool_decide as Hin; [by rewrite app_nil_r|].
    apply list.NoDup_app. split_and!; [done| |apply NoDup_singleton].
    intros x Hx Hx'. apply list_elem_of_singleton in Hx'. apply Hin. by rewrite <- Hx'. }
  split; [exact Hn|]. intros f. rewrite Ha, assoc_append_at. unfold field_messages. cbn.
  case_bool_decide as Hf; cbn; [|done].
  generalize ((fun e0 => lower (error_msg e0)) <$>
    List.filter (fun e0 => bool_decide (error_field e0 = f)) errs).
  intros []; [done|]. by rewrite <- app_assoc.
Qed.

(** ** The middleware *)

(** The status of the last response a run starts, or [status] if it starts none. *)
Definition started_status (status : Z) (t : list (world * event)) : Z :=
  fold_left (fun s we => LoggingMiddleware.send_wrapper we.2 s) t status.

Lemma run_bind env n w {A B} (p : prog A) (f : A -> prog B) :
  run env n w (bind p f) =
  match (run env n w p).1 with
  | Ok a => run env (n + length (trace env n w p)) (run env n w p).2 (f a)
  | Exn x => (Exn x, (run env n w p).2)
  end.
Proof.
  revert n w. induction p as [a|x|e k IH]; intros n w; cbn; [by rewrite Nat.add_0_r|done|].
  destruct (env n w e) as [r w']. rewrite IH. cbn. by rewrite Nat.add_succ_r.
Qed.

Lemma trace_bind env n w {A B} (p : prog A) (f : A -> prog B) :
  trace env n w (bind p f) =
  (trace env n w p ++
   match (run env n w p).1 with
   | Ok a => trace env (n + length (trace env n w p)) (run env n w p).2 (f a)
   | Exn x => []
   end)%list.
Proof.
  revert n w. induction p as [a|x|e k IH]; intros n w; cbn; [by rewrite Nat.add_0_r|done|].
  destruct (env n w e) as [r w']. rewrite IH. cbn. by rewrite Nat.add_succ_r.
Qed.

Lemma run_step env n w e {A} (f : resp e -> prog A) v w' :
  env n w e = (Ok v, w') -> run env n w (bind (trigger e) f) = run env (S n) w' (f v).
Proof. intros E. cbn. by rewrite E. Qed.

Lemma trace_step env n w e {A} (f : resp e -> prog A) v w' :
  env n w e = (Ok v, w') ->
  trace env n w (bind (trigger e) f) = (w, e) :: trace env (S n) w' (f v).
Proof. intros E. cbn. by rewrite E. Qed.

(** Running [finally_status] runs the application, then the block with the status. *)
Lemma finally_status_run env n w {A} (app : prog A) status f :
  let n' := n + length (trace env n w app) in
  let w' := (run env n w app).2 in
  let last := f (started_status status (trace env n w app)) in
  trace env n w (LoggingMiddleware.finally_status app status f) =
    (trace env n w app ++ trace env n' w' last)%list /\
  (run env n w (LoggingMiddleware.finally_status app status f)).1 =
    match (run env n' w' last).1 with Ok _ => (run env n w app).1 | Exn x => Exn x end.
Proof.
  revert n w status. induction app as [a|x|e k IH]; intros n w status; cbn.
  - rewrite Nat.add_0_r, trace_bind, run_bind.
    destruct (run env n w (f status)) as [[] w']; cbn; by rewrite app_nil_r.
  - rewrite Nat.add_0_r, trace_bind, run_bind.
    destruct (run env n w (f status)) as [[] w']; cbn; by rewrite app_nil_r.
  - destruct (env n w e) as [r w'] eqn:E. cbn.
    destruct (IH r (S n) w' (LoggingMiddleware.send_wrapper e status)) as [H1 H2].
    rewrite H1, Nat.add_succ_r. by rewrite Nat.add_succ_l in H2.
Qed.

(** Every HTTP request is logged once more when it ends, however it ends, with the
    status of the response that was started, or 500 when none was; the outcome of the
    application is not changed. *)
Theorem middleware_logs_status env `{!Conforming env} n w method path (app : prog unit) :
  let call := LoggingMiddleware.call "http" method path app in
  exists before n1 w1 start w2 w3 now,
    (run env n w call).1 = (run env n1 w1 app).1 /\
    trace env n w call =
      (before ++ trace env n1 w1 app ++
       [(w2, PerfCounter);
        (w3, Log Info "request.completed"
               [("status", LInt (started_status 500 (trace env n1 w1 app)));
                ("duration_ms", LSpan start now)])])%list.
Proof.
  intros call. unfold call, LoggingMiddleware.call.
  change (bool_decide ("http" = "http")) with true. cbn [negb].
  assert (Hok : forall n w e, match e with
    | Uuid4 | CtxClear | CtxBind _ _ | PerfCounter | Log _ _ _ => True | _ => False end ->
    exists v w', env n w e = (Ok v, w')).
  { intros n' w' e He. pose proof (conforming n' w' e) as Hd.
    destruct (env n' w' e) as [r w'']. cbn in Hd. destruct e; try done; cbn in Hd.
    all: try (destruct Hd as [-> [v ->]]; by eauto).
    destruct Hd as [-> [u [_ ->]]]. by eauto. }
  do 6 (match goal with |- context [run env ?n ?w (bind (trigger ?e) ?f)] =>
    let E := fresh in destruct (Hok n w e I) as (? & ? & E);
    rewrite (run_step _ _ _ _ _ _ _ E), (trace_step _ _ _ _ _ _ _ E); clear E end).
  match goal with |- context [LoggingMiddleware.finally_status app 500 ?f] =>
    match goal with |- context [trace env ?n1 ?w1 (LoggingMiddleware.finally_status _ _ _)] =>
      destruct (finally_status_run env n1 w1 app 500 f) as [Ht Hr]; rewrite Ht, Hr; clear Ht Hr;
      set (t := trace env n1 w1 app); set (w6 := (run env n1 w1 app).2) end end.
  match goal with |- context [run env ?n ?w (bind (trigger PerfCounter) ?f)] =>
    destruct (Hok n w PerfCounter I) as (now & w7 & E);
    rewrite (run_step _ _ _ _ _ _ _ E), (trace_step _ _ _ _ _ _ _ E); clear E end.
  cbn [run trace trigger].
  match goal with |- context [env ?n w7 ?e] => destruct (Hok n w7 e I) as (v & w8 & ->) end.
  eexists [_; _; _; _; _; _], _, _, _, w6, w7, now. by split.
Qed.

Lemma middleware_logs_status_witness :
  let env := reference (fun _ => true) in
  let w := demo_world all_up ∅ in
  let app := send_all [ResponseStart 204; OtherMessage "http.response.body"] in
  let call := LoggingMiddleware.call "http" "GET" "/health" app in
  exists before n1 w1 start w2 w3 now,
    (run env 0 w call).1 = (run env n1 w1 app).1 /\
    trace env 0 w call =
      (before ++ trace env n1 w1 app ++
       [(w2, PerfCounter);
        (w3, Log Info "request.completed"
               [("status", LInt (started_status 500 (trace env n1 w1 app)));
                ("duration_ms", LSpan start now)])])%list.
Proof.
  apply (middleware_logs_status (reference (fun _ => true)) 0 (demo_world all_up ∅)).
Defined.

(** ** Programs that send nothing themselves *)

(** The exceptions of the pipeline and of its libraries: an application exception is
    raised with its defaults, an HTTP exception is a refused key. *)
Definition usual (x : exn) : Prop :=
  match x with
  | EApp a => exists c, a = raise_class c
  | EHttp status _ => status = 401%Z
  | _ => True
  end.

Definition unsent (e : event) : bool := match e with AsgiSend _ => false | _ => true end.

Fixpoint tidy {A} (p : prog A) : Prop :=
  match p with
  | Ret _ => True
  | Raise x => usual x
  | Vis e k => unsent e = true /\ forall r, (forall x, r = Exn x -> usual x) -> tidy (k r)
  end.

Lemma tidy_trigger e : unsent e = true -> tidy (trigger e).
Proof. intros He. split; [done|]. intros [v|x] Hr; [done|by apply Hr]. Qed.

Lemma tidy_bind {A B} (p : prog A) (f : A -> prog B) :
  tidy p -> (forall a, tidy (f a)) -> tidy (bind p f).
Proof. intros Hp Hf. induction p as [a|x|e k IH]; simpl in *; [apply Hf|done|].
  destruct Hp as [He Hk]. split; eauto.
Qed.

Lemma tidy_catch {A} (p : prog A) h :
  tidy p -> (forall x q, usual x -> h x = Some q -> tidy q) -> tidy (catch p h).
Proof.
  intros Hp Hh. induction p as [a|x|e k IH]; simpl in *; [done| |by destruct Hp; split; eauto].
  destruct (h x) eqn:E; [by eapply Hh|done].
Qed.

Lemma tidy_finally {A} (p : prog A) f : tidy p -> tidy f -> tidy (finally p f).
Proof.
  intros Hp Hf. induction p as [a|x|e k IH]; simpl in *; [| |by destruct Hp; split; eauto];
    apply tidy_bind; by try intros [].
Qed.

Lemma tidy_raise c {A} : tidy (raise_ c : prog A).
Proof. by exists c. Qed.

(** Prove a program tidy by its structure. *)
Ltac tidily :=
  repeat (cbn beta iota zeta;
    lazymatch goal with
    | |- tidy (Ret _) => exact I
    | |- tidy (raise_ _) => apply tidy_raise
    | H : usual ?x |- tidy (Raise ?x) => exact H
    | |- tidy (Raise _) => first [exact I | reflexivity | by eexists]
    | |- tidy (trigger ?e) => apply (tidy_trigger e); reflexivity
    | |- tidy (bind _ _) => apply tidy_bind; [|intros ?]
    | |- tidy (finally _ _) => apply tidy_finally
    | |- tidy (catch _ _) => apply tidy_catch; [|intros ? ? ? ?]
    | H : None = Some _ |- _ => discriminate H
    | H : Some _ = Some _ |- _ => injection H as <-
    | H : match ?x with _ => _ end = Some _ |- _ => destruct x; simplify_eq
    | |- tidy (match ?x with _ => _ end) => destruct x
    end).

Lemma doc_frame w e r w' :
  doc w e r w' ->
  w_health w' = w_health w /\ (unsent e = true -> w_sent w' = w_sent w) /\
  forall x, r = Exn x -> usual x.
Proof.
  intros Hd. destruct w as [db tx ob q ca se inb stp snt h].
  destruct e; cbn in Hd; unfold never_fails, plain, effect, published, declared, exec_doc,
      commit_doc, discard_doc, db_fault, s3_fault, amqp_fault, other_fault in Hd; cbn in Hd;
    repeat match goal with
    | H : _ /\ _ |- _ => destruct H
    | H : exists _, _ |- _ => destruct H
    | H : context [match ?x with _ => _ end] |- _ => destruct x; cbn in H
    | H : _ \/ _ |- _ => destruct H
    end; subst; cbn; (split_and!; [done..|intros ? ?; simplify_eq; done]).
Qed.

Lemma wp_tidy {A} (p : prog A) Q w :
  tidy p ->
  (forall r w', w_sent w' = w_sent w -> w_health w' = w_health w ->
   (forall x, r = Exn x -> usual x) -> Q r w') ->
  wp documented p Q w.
Proof.
  revert w. induction p as [a|x|e k IH]; intros w Hp HQ; simpl in *.
  - by apply HQ.
  - apply HQ; [done..|]. by intros y [= <-].
  - destruct Hp as [He Hk]. split; [done|]. intros r w' Hd.
    destruct (doc_frame _ _ _ _ Hd) as (Hh & Hs & Hx). specialize (Hs He).
    apply IH; [by apply Hk|]. intros r' w'' Hs' Hh' Hx'. apply HQ; congruence || done.
Qed.

(** ** The endpoints *)

Ltac unfold_services :=
  unfold account_authenticate, ApiContainer.account_service, ApiContainer.account_authenticate,
    AccountService.authenticate, account_get_by_api_key_hash, AccountRepository.repository,
    AccountRepository.get_by_api_key_hash,
    document_service_create, document_service_get, ApiContainer.document_service,
    ApiContainer.document_create, ApiContainer.document_get, DocumentService.create,
    DocumentService.get, document_create, document_get_by_id, DocumentRepository.repository,
    DocumentRepository.create, DocumentRepository.get_by_id,
    artifact_list_for_document, ApiContainer.artifact_service,
    ApiContainer.artifact_list_for_document, ArtifactService.list_for_document,
    artifact_list_by_document_id, ArtifactRepository.repository,
    ArtifactRepository.list_by_document_id,
    job_service_create, job_service_get, ApiContainer.job_service, ApiContainer.job_create,
    ApiContainer.job_get, JobService.create, JobService.get, job_create, job_get_by_id,
    JobRepository.repository, JobRepository.create, JobRepository.get_by_id,
    JobRepository.create_except, wrap_sqlalchemy,
    object_exists, generate_upload_url, generate_download_url, ApiContainer.storage_service,
    S3StorageService.storage, S3StorageService.object_exists,
    S3StorageService.generate_upload_url, S3StorageService.generate_download_url,
    S3StorageService.wrap_client_error,
    enqueue, queue_depth, ApiContainer.messaging_service, RabbitMQMessagingService.messaging,
    RabbitMQMessagingService.enqueue, RabbitMQMessagingService.queue_depth,
    RabbitMQMessagingService.wrap_amqp, RabbitMQMessagingService._get_connection,
    RabbitMQMessagingService.with_channel.

Section endpoints.
Context (S : BaseAppSettings.t).

Lemma tidy_account raw_key :
  tidy (@get_current_account ApiContainer.account_service raw_key).
Proof. unfold get_current_account. unfold_services. tidily. Qed.

Lemma tidy_create_document account :
  tidy (@documents.create_document (get_document_service S) account).
Proof. unfold documents.create_document, get_document_service. unfold_services. tidily. Qed.

Lemma tidy_get_document i account :
  tidy (@documents.get_document (get_document_service S) i account).
Proof. unfold documents.get_document, get_document_service. unfold_services. tidily. Qed.

Lemma tidy_list_artifacts i account :
  tidy (@documents.list_artifacts (get_artifact_service S) i account).
Proof.
  assert (Hsign : forall s3 l, tidy (@ArtifactService.sign_all (S3StorageService.storage s3) l)).
  { intros s3. induction l as [|a l IH]; [done|]. cbn [ArtifactService.sign_all].
    unfold_services. tidily. apply IH. }
  unfold documents.list_artifacts, get_artifact_service. do 2 unfold_services. tidily. apply Hsign.
Qed.

Lemma tidy_process_document i body account :
  tidy (@jobs.process_document (get_job_service S) i body account).
Proof. unfold jobs.process_document, get_job_service. do 2 unfold_services. tidily. Qed.

Lemma tidy_get_job i account : tidy (@jobs.get_job (get_job_service S) i account).
Proof. unfold jobs.get_job, get_job_service. do 2 unfold_services. tidily. Qed.
End endpoints.

(** ** Requests *)

(** The messages of one response. *)
Definition response (status : Z) (types : list string) : list asgi_message :=
  ResponseStart status :: map OtherMessage types.

(** The status of a refused request. *)
Definition refusal (status : Z) : Prop :=
  status = 401%Z \/ exists c, status = class_status_code c.

(** Logging and context events answer, and change nothing. *)
Lemma wp_quietly e Q w :
  match e with Uuid4 | CtxClear | CtxBind _ _ | PerfCounter | Log _ _ _ => True | _ => False end ->
  (forall v, Q (Ok v) w) -> wp documented (trigger e) Q w.
Proof.
  intros He HQ. apply wp_trigger; [done|]. intros r w' Hd. destruct e; try done; cbn in Hd.
  all: try (destruct Hd as [-> [v ->]]; by apply HQ). destruct Hd as [-> [u [_ ->]]]. by apply HQ.
Qed.

(** The middleware is transparent. *)
Lemma call_spec method path app Q w :
  wp documented app Q w -> wp documented (LoggingMiddleware.call "http" method path app) Q w.
Proof.
  intros H. unfold LoggingMiddleware.call.
  change (bool_decide ("http" = "http")) with true. cbn [negb].
  do 6 (wp_norm; apply wp_quietly; [done|]; intros ?). wp_norm.
  apply wp_finally_status. revert H. apply wp_mono.
  intros r w1 HQ status. do 2 (wp_norm; apply wp_quietly; [done|]; intros ?). by destruct r.
Qed.

Section answered.
Context (send_response : Z -> prog unit) `{!AsgiResponse send_response}.

Lemma send_all_spec ms w Q :
  h_http (w_health w) = Up ->
  (forall w', w_sent w' = (w_sent w ++ ms)%list -> w_health w' = w_health w -> Q (Ok tt) w') ->
  wp documented (send_all ms) Q w.
Proof.
  revert w. induction ms as [|m ms IH]; intros w Hh HQ; cbn [send_all].
  - apply HQ; [by rewrite app_nil_r|done].
  - wp_norm. apply wp_trigger; [done|]. intros r w' Hd. cbn in Hd.
    destruct Hd as [(_ & [] & -> & ->)|(Hf & _)]; [|by rewrite Hh in Hf].
    wp_norm. apply IH; [done|]. intros w' Hs Hw. apply HQ; [|done].
    rewrite Hs. cbn. by rewrite <- app_assoc.
Qed.

Lemma send_response_spec status w Q :
  h_http (w_health w) = Up ->
  (forall types w', w_sent w' = (w_sent w ++ response status types)%list ->
   w_health w' = w_health w -> Q (Ok tt) w') ->
  wp documented (send_response status) Q w.
Proof.
  intros Hh HQ. destruct (response_messages status) as [types ->].
  apply send_all_spec; [done|]. intros w' Hs Hw. by apply (HQ types).
Qed.

(** What a route leaves, whatever its endpoint: a complete response when it returns, at
    most this response when it raises, and then none if the exception has a handler. *)
Definition route_left (status : Z) (w : world) (r : result exn unit) (w' : world) : Prop :=
  w_health w' = w_health w /\
  match r with
  | Ok _ => exists types, w_sent w' = (w_sent w ++ response status types)%list
  | Exn x => usual x /\
      (w_sent w' = w_sent w \/
       exception_handlers x = None /\
       exists types, w_sent w' = (w_sent w ++ response status types)%list)
  end.

Lemma tx_raises w e y w' :
  match e with Commit | Rollback | Close => True | _ => False end ->
  doc w e (Exn y) w' -> exception_handlers y = None /\ usual y.
Proof.
  intros He Hd. destruct e; try done; cbn in Hd;
    unfold commit_doc, discard_doc, db_fault in Hd;
    repeat match goal with
    | H : _ /\ _ |- _ => destruct H
    | H : exists _, _ |- _ => destruct H
    | H : _ \/ _ |- _ => destruct H
    | H : context [match ?x with _ => _ end] |- _ => destruct x
    end; by simplify_eq.
Qed.

(** The calls that end a transaction send nothing; what they raise has no handler. *)
Lemma wp_tx e Q w :
  match e with Commit | Rollback | Close => True | _ => False end ->
  (forall v w', w_sent w' = w_sent w -> w_health w' = w_health w -> Q (Ok v) w') ->
  (forall y w', w_sent w' = w_sent w -> w_health w' = w_health w -> usual y ->
   exception_handlers y = None -> Q (Exn y) w') ->
  wp documented (trigger e) Q w.
Proof.
  intros He Hok Hbad. apply wp_trigger; [done|]. intros r w' Hd.
  destruct (doc_frame _ _ _ _ Hd) as (Hh & Hs & _).
  assert (w_sent w' = w_sent w) as Hs' by (apply Hs; by destruct e).
  destruct r as [v|y]; [by apply Hok|].
  destruct (tx_raises _ _ _ _ He Hd). by apply Hbad.
Qed.

(** The body of the session of a route: it sends the response last. *)
Definition body_left (status : Z) (w : world) {A} (r : result exn A) (w' : world) : Prop :=
  w_health w' = w_health w /\
  match r with
  | Ok _ => exists types, w_sent w' = (w_sent w ++ response status types)%list
  | Exn x => usual x /\ w_sent w' = w_sent w
  end.

Lemma session_left status w body w0 :
  wp documented body (body_left status w) w0 ->
  wp documented (open_session body) (route_left status w) w0.
Proof.
  intros H. unfold open_session. wp_norm. revert H. apply wp_mono.
  assert (Hclose : forall r w1, route_left status w r w1 ->
    wp documented (trigger Close) (fun rf w2 =>
      match rf with Ok _ => route_left status w r w2 | Exn y => route_left status w (Exn y) w2 end) w1).
  { intros r w1 [Hh Hr]. apply wp_tx; [done|..].
    - intros [] w2 Hs Hw. split; [congruence|]. by rewrite Hs.
    - intros y w2 Hs Hw Hu Hn. split; [congruence|]. split; [done|].
      destruct r as [[]|x]; [by right; rewrite Hs|].
      destruct Hr as [_ [Hr|[_ Hr]]]; [left; congruence|right; by rewrite Hs]. }
  assert (Hroll : forall x w1, route_left status w (Exn x) w1 ->
    wp documented (trigger Rollback) (then_ (fun _ => Raise x) (fun r w2 =>
      wp documented (trigger Close) (fun rf w3 =>
        match rf with Ok _ => route_left status w r w3 | Exn y => route_left status w (Exn y) w3 end) w2)) w1).
  { intros x w1 (Hh & Hx & Hr). apply wp_tx; [done|..].
    - intros [] w2 Hs Hw. wp_norm. apply Hclose. split; [congruence|]. by rewrite Hs.
    - intros y w2 Hs Hw Hu Hn. wp_norm. apply Hclose. split; [congruence|]. split; [done|].
      destruct Hr as [Hr|[_ Hr]]; [left; congruence|right; by rewrite Hs]. }
  intros [[]|x] w1 [Hh Hr]; cbn beta iota; wp_norm.
  - apply wp_tx; [done|..].
    + intros [] w2 Hs Hw. wp_norm. apply Hclose. split; [congruence|]. by rewrite Hs.
    + intros y w2 Hs Hw Hu Hn. wp_norm. apply Hroll. split; [congruence|]. split; [done|].
      right. by rewrite Hs.
  - apply Hroll. destruct Hr as [Hu Hs]. by split_and!; [..|left].
Qed.

Lemma authenticated_left header status {A} (endpoint : AccountDTO.t -> prog A) w :
  h_http (w_health w) = Up -> (forall account, tidy (endpoint account)) ->
  wp documented (@authenticated ApiContainer.account_service send_response A header status endpoint)
    (route_left status w) w.
Proof.
  intros Hh Hend. unfold authenticated. wp_norm.
  apply wp_tidy; [unfold api_key_required, api_key_header; tidily|].
  intros [[raw_key|]|x] w0 Hs0 Hh0 Hx0; cbn [then_]; [|by split_and!; [..|left]|].
  2: { split_and!; [done|by apply Hx0|by left]. }
  apply session_left. wp_norm.
  apply wp_tidy; [apply tidy_account|]. intros [account|x] w1 Hs1 Hh1 Hx1; wp_norm;
    [|split_and!; [congruence|by apply Hx1|congruence]].
  apply wp_tidy; [apply Hend|]. intros [a|x] w2 Hs2 Hh2 Hx2; wp_norm;
    [|split_and!; [congruence|by apply Hx2|congruence]].
  apply send_response_spec; [congruence|]. intros types w3 Hs3 Hh3.
  split; [congruence|]. exists types. congruence.
Qed.

(** What a request leaves. *)
Definition request_left (status : Z) (w : world) (r : result exn unit) (w' : world) : Prop :=
  match r with
  | Ok _ => exists status' types, (status' = status \/ refusal status') /\
      w_sent w' = (w_sent w ++ response status' types)%list
  | Exn x => exception_handlers x = None /\
      (w_sent w' = w_sent w \/
       exists types, w_sent w' = (w_sent w ++ response status types)%list)
  end.

Lemma dispatch_left route status w :
  h_http (w_health w) = Up -> wp documented route (route_left status w) w ->
  wp documented (dispatch send_response route) (fun r w' =>
    w_health w' = w_health w /\ request_left status w r w') w.
Proof.
  intros Hh H. unfold dispatch. wp_norm. revert H. apply wp_mono.
  intros [[]|x] w1 [Hh1 Hr].
  { split; [done|]. destruct Hr as [types Hr]. exists status, types. by split; [left|]. }
  destruct Hr as [Hu Hs].
  assert (Hsend : forall status' w2, refusal status' -> w_sent w2 = w_sent w -> w_health w2 = w_health w ->
    wp documented (send_response status') (fun r w' =>
      w_health w' = w_health w /\ request_left status w r w') w2).
  { intros status' w2 Href Hs2 Hw2. apply send_response_spec; [congruence|].
    intros types w3 Hs3 Hw3. split; [congruence|]. exists status', types.
    split; [by right|]. congruence. }
  destruct x as [a| | | |n d| |]; cbn [option_map exception_handlers]; try (by split; [|split]; [..|destruct Hs as [Hs|[_ Hs]]; [left|right]]).
  - destruct Hs as [Hs|[[=] _]]. destruct Hu as [c ->].
    unfold internal_exception_handler. wp_norm.
    destruct (500 <=? _)%Z; (lazymatch goal with |- wp _ (trigger ?e) _ _ =>
      apply (wp_trigger _ e); [done|] end); intros r w2 [-> [v ->]]; wp_norm;
      (apply Hsend; [right; by exists c|done|congruence]).
  - destruct Hs as [Hs|[[=] _]]. cbn in Hu. subst n.
    unfold http_exception_handler. wp_norm. apply wp_trigger; [done|].
    intros r w2 [-> [v ->]]. wp_norm. apply Hsend; [by left|done|congruence].
Qed.

Lemma request_left_spec method path header status {A} (endpoint : AccountDTO.t -> prog A) w :
  h_http (w_health w) = Up -> (forall account, tidy (endpoint account)) ->
  wp documented (@request ApiContainer.account_service send_response A method path header status endpoint)
    (request_left status w) w.
Proof.
  intros Hh Hend. unfold request. apply call_spec.
  eapply wp_mono; [|by apply dispatch_left, authenticated_left]. by intros r w1 [_ Hr].
Qed.
End answered.

(** The status of a request that succeeds. *)
Definition entry_status (e : entry) : Z :=
  match e with PostDocuments _ _ | PostProcess _ _ _ _ => 201 | _ => 200 end.

Definition is_request (e : entry) : bool :=
  match e with HandleMessage _ => false | _ => true end.



(** ** A response that is not kept *)

(** The account of the key, and a database whose commits may fail. *)
Definition keyed_world (h : Environment.health) (js : gmap uuid Job.t) : world :=
  let w := demo_world h js in
  set_db w (Tables {[1%Z := Account.Make 1 (Some (sha256_hexdigest "key"))]}
              (documents (w_db w)) js ∅) (TxActive []).

Definition txn_flaky : Environment.health := Health Up Flaky Up Up Up Up Up Up Up.

(** The client of [POST /documents] can be told 201 with the id of a document that is
    never stored: the response is sent before the session commits, and a commit that
    fails then only ends the request in an exception. *)
Theorem created_before_commit :
  let w := keyed_world txn_flaky ∅ in
  let out := run (reference (fun _ => false)) 0 w
    (post_documents demo_settings demo_send "/documents" (Some "key")) in
  w_sent out.2 = response 201 ["http.response.body"] /\
  documents (w_db out.2) = documents (w_db w) /\ is_ok out.1 = false.
Proof. vm_compute. by split_and!. Qed.

(** ** The status of [GET /jobs/{job_id}] *)

Section get_job.
Context (w : world) (Hready : ready w) (Hup : w_health w = all_up).

(** The column [api_key_hash] is unique. *)
Definition unique_keys (d : tables) : Prop :=
  forall k1 k2 r1 r2 h, accounts d !! k1 = Some r1 -> accounts d !! k2 = Some r2 ->
    Account.api_key_hash r1 = Some h -> Account.api_key_hash r2 = Some h -> r1 = r2.

(** The account of the header, and the status of the answer. *)
Definition key_account (d : tables) (header : option string) : option Account.t :=
  match header with
  | None => None
  | Some key =>
      if bool_decide (key = "") then None
      else match encode key with
           | Some b => select_account d (sha256_hexdigest b)
           | None => None
           end
  end.

Definition get_job_status (d : tables) (header : option string) (i : uuid) : Z :=
  match key_account d header with
  | None => 401
  | Some a =>
      match select (job_matches (Some (Account.id a))) (jobs d !! i) with
      | None => 404
      | Some _ => 200
      end
  end.

Lemma set_tx_ready : set_tx w (TxActive []) = w.
Proof. destruct Hready as [_ Htx]. destruct w. cbn in Htx. by subst. Qed.

Lemma healthy_fails s : s = Up -> ~ fails s.
Proof. intros ->. by intros H. Qed.

(** A query in the session: it answers, and the world is the same. *)
Lemma wp_reads {A} (m : prog A) (answer : tables -> A -> Prop) Q :
  reads (fun _ _ => True) m answer ->
  (forall r, answer (w_db w) r -> Q (Ok r) w) -> wp documented m Q w.
Proof.
  intros Hm HQ. destruct Hready as [Hwf Htx]. apply (Hm w [] _ Htx).
  - intros _ r Hr. rewrite set_tx_ready. by apply HQ.
  - intros Hf. rewrite Hup in Hf. by destruct (Hf eq_refl).
Qed.

Lemma key_account_found key b a :
  unique_keys (w_db w) -> key <> "" -> encode key = Some b ->
  match a with
  | Some a => exists k, accounts (w_db w) !! k = Some a /\
      Account.api_key_hash a = Some (sha256_hexdigest b)
  | None => forall k a, accounts (w_db w) !! k = Some a ->
      Account.api_key_hash a <> Some (sha256_hexdigest b)
  end -> key_account (w_db w) (Some key) = a.
Proof.
  intros Hu Hk Hb Ha. unfold key_account. rewrite bool_decide_eq_false_2, Hb by done.
  pose proof (select_account_doc (w_db w) (sha256_hexdigest b)) as [_ Hs].
  destruct (select_account _ _) as [x|], a as [a|]; try done.
  - destruct Hs as (k1 & H1 & E1), Ha as (k2 & H2 & E2). f_equal. by eapply Hu.
  - destruct Hs as (k & H & E). by destruct (Ha k x).
  - destruct Ha as (k & H & E). by destruct (Hs k a).
Qed.

(** The session of the request, from the status. *)
Definition body_answered (status : Z) (r : result exn unit) (w' : world) : Prop :=
  match r with
  | Ok _ => status = 200%Z /\ w_db w' = w_db w /\ w_tx w' = TxActive [] /\
      w_health w' = w_health w /\
      exists types, w_sent w' = (w_sent w ++ response 200 types)%list
  | Exn x => w' = w /\ ((status = 401%Z /\ exists d, x = EHttp 401 d) \/
                        (status = 404%Z /\ x = ERaise JobNotFoundException))
  end.
End get_job.

Lemma send_all_world ms w Q :
  h_http (w_health w) = Up ->
  (forall w', w_sent w' = (w_sent w ++ ms)%list -> w_health w' = w_health w ->
   w_db w' = w_db w -> w_tx w' = w_tx w -> Q (Ok tt) w') ->
  wp documented (send_all ms) Q w.
Proof.
  revert w. induction ms as [|m ms IH]; intros w Hh HQ; cbn [send_all].
  - apply HQ; [by rewrite app_nil_r|done..].
  - wp_norm. apply wp_trigger; [done|]. intros r w' Hd. cbn in Hd.
    destruct Hd as [(_ & [] & -> & ->)|(Hf & _)]; [|by rewrite Hh in Hf].
    wp_norm. apply IH; [done|]. intros w' Hs Hw Hdb Htx. apply HQ; try done.
    rewrite Hs. cbn. by rewrite <- app_assoc.
Qed.

Section get_job_request.
Context (S : BaseAppSettings.t) (send_response : Z -> prog unit) `{!AsgiResponse send_response}.
Context (w : world) (Hready : ready w) (Hup : w_health w = all_up).
Context (Hkeys : unique_keys (w_db w)).

Lemma get_job_body key b i Q :
  key <> "" -> encode key = Some b ->
  (forall r w', body_answered w (get_job_status (w_db w) (Some key) i) r w' -> Q r w') ->
  wp documented
    (let* account := @get_current_account ApiContainer.account_service key in
     let* _ := @jobs.get_job (get_job_service S) i account in
     send_response 200) Q w.
Proof.
  intros Hne Hb HQ. wp_norm. unfold get_current_account. wp_norm.
  unfold account_authenticate, ApiContainer.account_service, ApiContainer.account_authenticate,
    AccountService.authenticate. rewrite Hb.
  eapply (wp_reads w Hready Hup); [apply (account_get_rule _ (sha256_hexdigest b))|].
  intros r (a & -> & Ha).
  apply (key_account_found w key b) in Ha; [|done..].
  assert (Est : get_job_status (w_db w) (Some key) i = match a with
    | None => 401
    | Some a => match select (job_matches (Some (Account.id a))) (jobs (w_db w) !! i) with
                | None => 404 | Some _ => 200 end
    end%Z) by (unfold get_job_status; by rewrite Ha).
  destruct a as [a|]; cbn [fmap option_fmap option_map]; wp_norm.
  2: { apply HQ. split; [done|left]. split; [done|]. by eexists. }
  apply (wp_ctx_bind (fun _ _ => True)). wp_norm. unfold jobs.get_job. wp_norm.
  unfold job_service_get, get_job_service, ApiContainer.job_service, ApiContainer.job_get, JobService.get.
  eapply (wp_reads w Hready Hup); [apply (job_get_rule _ i)|]. intros r ->. wp_norm.
  apply (wp_ctx_bind (fun _ _ => True)). cbn beta iota.
  change (AccountDTO.id (account_dto a)) with (Account.id a).
  destruct (select (job_matches (Some (Account.id a))) (jobs (w_db w) !! i)) as [j|];
    cbn [fmap option_fmap option_map]; wp_norm.
  - apply (wp_ctx_bind (fun _ _ => True)). wp_norm.
    destruct (response_messages 200) as [types ->]. apply send_all_world; [by rewrite Hup|].
    intros w' Hs Hh Hdb Htx. apply HQ. split_and!; try done; [|by exists types].
    rewrite Htx. by destruct Hready.
  - apply HQ. split; [done|right]. by split.
Qed.

(** The route: as its body, the session included. *)
Lemma get_job_route header i Q :
  (forall key, header = Some key -> encode key <> None) ->
  (forall r w', body_answered w (get_job_status (w_db w) header i) r w' -> Q r w') ->
  wp documented (@authenticated ApiContainer.account_service send_response JobResponse.t header 200
    (@jobs.get_job (get_job_service S) i)) Q w.
Proof.
  intros Henc HQ. unfold authenticated, api_key_required, api_key_header.
  assert (Hmissing : key_account (w_db w) header = None ->
    forall d, Q (Exn (EHttp 401 d)) w).
  { intros Hn d. apply HQ. split; [done|left]. unfold get_job_status. rewrite Hn.
    split; [done|by exists d]. }
  destruct header as [key|]; cbn [negb]; [|wp_norm; by apply Hmissing].
  case_bool_decide as Hk; wp_norm.
  { apply Hmissing. unfold key_account. by rewrite bool_decide_eq_true_2. }
  destruct (encode key) as [b|] eqn:Hb; [|by destruct (Henc key)].
  unfold get_db_session. apply (session_rule (fun _ _ => True)). apply (get_job_body key b i _ Hk Hb).
  intros r w' Hr. assert (set_tx w' (TxActive []) = w' /\ w_health w' = all_up /\ w_tx w' = TxActive [])
    as (Htx & Hh & Htx').
  { destruct r as [[]|x]; [destruct Hr as (_ & _ & Htx & Hh & _)|destruct Hr as [-> _]].
    - split_and!; [by destruct w'; cbn in *; subst|congruence|done].
    - split_and!; [by apply set_tx_ready|done|by destruct Hready]. }
  eapply (session_quiet _ r w' w'); [left; by rewrite Htx'|done|by apply HQ|].
  intros Hf. rewrite Hh in Hf. by destruct (Hf eq_refl).
Qed.

Lemma get_job_answer path header i :
  (forall key, header = Some key -> encode key <> None) ->
  wp documented (get_jobs S send_response path header i) (fun r w' =>
    r = Ok tt /\ w_db w' = w_db w /\ exists types,
      w_sent w' = (w_sent w ++ response (get_job_status (w_db w) header i) types)%list) w.
Proof.
  intros Henc. unfold get_jobs, request. apply call_spec.
  unfold dispatch. wp_norm. apply get_job_route; [done|].
  assert (Hsend : forall status, get_job_status (w_db w) header i = status ->
    wp documented (send_response status) (fun r w' =>
      r = Ok tt /\ w_db w' = w_db w /\ exists types,
      w_sent w' = (w_sent w ++ response (get_job_status (w_db w) header i) types)%list) w).
  { intros status Hst. destruct (response_messages status) as [types ->].
    apply send_all_world; [by rewrite Hup|]. intros w2 Hs Hh Hdb Htx.
    split_and!; [done..|]. exists types. by rewrite Hst. }
  intros [[]|x] w1 Hr.
  - destruct Hr as (Hst & Hdb & _ & _ & Hs). split_and!; [done..|]. by rewrite Hst.
  - destruct Hr as [-> [[Hst [d ->]]|[Hst ->]]]; cbn [option_map exception_handlers ERaise].
    + unfold http_exception_handler. wp_norm. apply wp_quietly; [done|]. intros []. wp_norm.
      by apply Hsend.
    + unfold internal_exception_handler. wp_norm.
      change (500 <=? get_status_code (raise_class JobNotFoundException))%Z with false.
      cbn beta iota. lazymatch goal with |- wp _ (trigger ?e) _ _ => apply (wp_quietly e) end; [done|].
      intros []. wp_norm. by apply Hsend.
Qed.
End get_job_request.

(** C36: when the services work, [GET /jobs/{job_id}] answers 401 without a valid key, 404
    for a job of another account or no job at all, and 200 otherwise, and changes no
    row. *)
Theorem get_job_decides env `{!Conforming env} S send_response `{!AsgiResponse send_response}
    n w path header i :
  ready w -> w_health w = all_up -> unique_keys (w_db w) ->
  (forall key, header = Some key -> encode key <> None) ->
  let out := run env n w (get_jobs S send_response path header i) in
  out.1 = Ok tt /\ w_db out.2 = w_db w /\ exists types,
    w_sent out.2 = (w_sent w ++ response (get_job_status (w_db w) header i) types)%list.
Proof.
  intros Hr Hup Hk Henc.
  apply (wp_run env _ (fun r w' => r = Ok tt /\ w_db w' = w_db w /\ exists types,
    w_sent w' = (w_sent w ++ response (get_job_status (w_db w) header i) types)%list) n w).
  by apply get_job_answer.
Qed.

Lemma keyed_unique h js : unique_keys (w_db (keyed_world h js)).
Proof.
  intros k1 k2 r1 r2 x H1 H2 _ _.
  change (({[1%Z := Account.Make 1 (Some (sha256_hexdigest "key"))]} : gmap Z Account.t) !! k1 = Some r1) in H1.
  change (({[1%Z := Account.Make 1 (Some (sha256_hexdigest "key"))]} : gmap Z Account.t) !! k2 = Some r2) in H2.
  apply lookup_singleton_Some in H1 as [_ <-]. by apply lookup_singleton_Some in H2 as [_ <-].
Qed.

Lemma get_job_decides_witness :
  let w := keyed_world all_up (one_job QUEUED 0) in
  let out := run (reference (fun _ => true)) 0 w (get_jobs demo_settings demo_send "/jobs/7" (Some "key") 7) in
  get_job_status (w_db w) (Some "key") 7 = 200%Z /\
  out.1 = Ok tt /\ w_db out.2 = w_db w /\ exists types,
    w_sent out.2 = (w_sent w ++ response (get_job_status (w_db w) (Some "key") 7) types)%list.
Proof.
  split; [vm_compute; reflexivity|].
  apply (get_job_decides (reference (fun _ => true)) demo_settings demo_send 0
           (keyed_world all_up (one_job QUEUED 0)) "/jobs/7" (Some "key") 7).
  - split; [by apply wf_jobs_singleton|done].
  - reflexivity.
  - apply keyed_unique.
  - intros key [= <-]. vm_compute. discriminate.
Defined.

