(* ===== verification/Components.v ===== *)
(** * Theorems about the infrastructure components

    The repositories, the storage client and the messaging client, each for every
    environment or in the documented one. *)

From S2P Require Import Prelude PyStr PyUuid Json Dtos Exceptions Models Program.
From S2P Require Import Interfaces Settings Environment Container Logic Contracts.
From S2P Require Import Repositories Storage Messaging Wiring Specs Protocol Reference.
From S2P Require Import WorkerOutcomes Examples.

(** ** Exceptions that do not escape *)

(** Whatever its calls answer, the program raises no exception of the kind. *)
Definition never (kind : exn -> bool) {A} (p : prog A) : Prop :=
  forall (env : environment) n w x, (run env n w p).1 = Exn x -> kind x = false.

Lemma run_catch env n w {A} (p : prog A) h :
  (run env n w (catch p h)).1 =
  match (run env n w p).1 with
  | Ok a => Ok a
  | Exn x => match h x with
             | Some q => (run env (n + length (trace env n w p)) (run env n w p).2 q).1
             | None => Exn x
             end
  end.
Proof.
  revert n w. induction p as [a|x|e k IH]; intros n w; cbn; [done| |].
  - rewrite Nat.add_0_r. by destruct (h x).
  - destruct (env n w e) as [r w']. rewrite IH. cbn. by rewrite Nat.add_succ_r.
Qed.

Lemma never_catch kind {A} (p : prog A) h :
  (forall x, match h x with Some q => never kind q | None => kind x = false end) ->
  never kind (catch p h).
Proof.
  intros Hh env n w x. rewrite run_catch. destruct (run env n w p).1 as [a|y]; [done|].
  specialize (Hh y). destruct (h y) as [q|]; [apply Hh|]. by intros [= <-].
Qed.

Lemma never_raise kind {A} x : kind x = false -> never kind (Raise x : prog A).
Proof. by intros Hk env n w y [= <-]. Qed.

Lemma never_ret kind {A} (a : A) : never kind (Ret a).
Proof. by intros env n w y. Qed.

Lemma never_sqlalchemy {A} (p : prog A) : never is_sqlalchemy (wrap_sqlalchemy p).
Proof.
  apply never_catch. intros x. destruct (is_sqlalchemy x) eqn:E; [by apply never_raise|done].
Qed.

Lemma never_client {A} (p : prog A) : never is_client (S3StorageService.wrap_client_error p).
Proof. apply never_catch. intros x. destruct (is_client x) eqn:E; [by apply never_raise|done]. Qed.

Lemma never_amqp {A} (p : prog A) : never is_amqp (RabbitMQMessagingService.wrap_amqp p).
Proof. apply never_catch. intros x. destruct (is_amqp x) eqn:E; [by apply never_raise|done]. Qed.

(** The errors of a library stop at the component that uses it, whatever the library
    does: no repository method raises an [SQLAlchemyError], no storage method a
    [ClientError], no messaging method an [AMQPError]. *)
Theorem library_errors_contained s3 url :
  (forall h, never is_sqlalchemy (AccountRepository.get_by_api_key_hash h)) /\
  (forall dto, never is_sqlalchemy (DocumentRepository.create dto)) /\
  (forall i acc, never is_sqlalchemy (DocumentRepository.get_by_id i acc)) /\
  (forall dto, never is_sqlalchemy (ArtifactRepository.create dto)) /\
  (forall i acc, never is_sqlalchemy (ArtifactRepository.list_by_document_id i acc)) /\
  (forall dto, never is_sqlalchemy (JobRepository.create dto)) /\
  (forall i acc, never is_sqlalchemy (JobRepository.get_by_id i acc)) /\
  (forall i, never is_sqlalchemy (JobRepository.get_for_processing i)) /\
  (forall i st ex em, never is_sqlalchemy (JobRepository.update_status i st ex em)) /\
  (forall k, never is_client (S3StorageService.generate_upload_url s3 k)) /\
  (forall k, never is_client (S3StorageService.generate_download_url s3 k)) /\
  (forall k, never is_client (S3StorageService.object_exists s3 k)) /\
  (forall k, never is_client (S3StorageService.get_object s3 k)) /\
  (forall k c, never is_client (S3StorageService.put_object s3 k c)) /\
  (forall q j, never is_amqp (RabbitMQMessagingService.enqueue url q j)) /\
  (forall q, never is_amqp (RabbitMQMessagingService.queue_depth url q)).
Proof.
  split_and!; intros *; try apply never_sqlalchemy; try apply never_client; try apply never_amqp.
  - apply never_catch. intros x. destruct x as [|[] m| | | | |]; cbn; try done.
    + by destruct (contains _ m); apply never_raise.
    + by apply never_raise.
  - apply never_catch. intros x. destruct (is_app _ x) eqn:Ea.
    + apply never_raise. by destruct x.
    + destruct (is_sqlalchemy x) eqn:E; [by apply never_raise|done].
  - apply never_catch. intros x. destruct x; cbn; try done.
    case_bool_decide; [apply never_ret|by apply never_raise].
Qed.

(** ** The compare-and-set *)

(** C35: [update_status] is a compare-and-set: it writes the row if it has the expected
    status, with the columns of the transition and no other changed; otherwise it
    raises [JobStateConflictException] and writes nothing. *)
Theorem update_status_compares_and_sets env `{!Conforming env} n w ws i status expected em :
  w_tx w = TxActive ws -> h_sql (w_health w) = Up ->
  (forall j t t', jobs (view (w_db w) ws) !! i = Some j ->
     update_violations (view (w_db w) ws) (moved j status em t t') = []) ->
  let out := run env n w (JobRepository.update_status i status expected em) in
  match select (has_status expected) (jobs (view (w_db w) ws) !! i) with
  | Some j => exists t t', out.1 = Ok (job_dto (moved j status em t t')) /\
      out.2 = set_tx w (TxActive (ws ++ [WJob (moved j status em t t')]))
  | None => out.1 = Exn (ERaise JobStateConflictException) /\ out.2 = set_tx w (TxActive ws)
  end.
Proof.
  intros Htx Hup Hv out.
  apply (wp_run env _ (fun r w' => match select (has_status expected) (jobs (view (w_db w) ws) !! i) with
    | Some j => exists t t', r = Ok (job_dto (moved j status em t t')) /\
        w' = set_tx w (TxActive (ws ++ [WJob (moved j status em t t')]))
    | None => r = Exn (ERaise JobStateConflictException) /\ w' = set_tx w (TxActive ws)
    end) n w).
  apply (@job_update_status_rule (fun _ _ => True) JobRepository.repository _
           i status expected em w ws _ Htx).
  - intros _ j t t' -> _. by exists t, t'.
  - by intros _ ->.
  - intros x [H|(j & t & t' & Hj & Hn)]; [by rewrite Hup in H|]. exfalso. apply Hn, Hv.
    destruct (jobs _ !! i) as [j'|]; cbn in Hj; [|done]. destruct (has_status _ _); by simplify_eq.
Qed.

Lemma update_status_compares_and_sets_witness :
  let w := demo_world all_up (one_job QUEUED 0) in
  let out := run (reference (fun _ => true)) 0 w
    (JobRepository.update_status 7 STARTED QUEUED None) in
  exists t t', out.1 = Ok (job_dto (moved (demo_job QUEUED 0) STARTED None t t')) /\
    out.2 = set_tx w (TxActive [WJob (moved (demo_job QUEUED 0) STARTED None t t')]).
Proof.
  apply (update_status_compares_and_sets (reference (fun _ => true)) 0
           (demo_world all_up (one_job QUEUED 0)) [] 7 STARTED QUEUED None).
  - reflexivity.
  - reflexivity.
  - intros j t t' Hj.
    change (one_job QUEUED 0 !! 7%N = Some j) in Hj. vm_compute in Hj. injection Hj as <-.
    vm_compute. reflexivity.
Defined.

(** ** The artifact upsert *)

Lemma upsert_target_some d r old :
  upsert_target d r = Some old ->
  exists k, artifacts d !! k = Some old /\
    same_artifact (Artifact.document_id r) (Artifact.artifact_type r) old = true.
Proof.
  unfold upsert_target. destruct (List.find _ _) as [[k a]|] eqn:E; [|done]. intros [= <-].
  apply find_some in E as [Hin Hs]. exists k. split; [|done].
  by apply elem_of_map_to_list, list_elem_of_In.
Qed.

Lemma upsert_target_none d r k a :
  upsert_target d r = None -> artifacts d !! k = Some a ->
  same_artifact (Artifact.document_id r) (Artifact.artifact_type r) a = false.
Proof.
  unfold upsert_target. destruct (List.find _ _) as [|] eqn:E; [done|]. intros _ Hk.
  pose proof (find_none _ _ E (k, a)) as Hn. apply Hn.
  by apply list_elem_of_In, elem_of_map_to_list.
Qed.

Lemma same_artifact_key doc ty a :
  same_artifact doc ty a = true -> Artifact.document_id a = doc /\ Artifact.artifact_type a = ty.
Proof.
  unfold same_artifact. rewrite andb_true_iff, N.eqb_eq. intros [? H].
  by apply bool_decide_eq_true in H.
Qed.

(** Storing the upserted row leaves one row per document and type. *)
Lemma upserted_unique d r k x :
  wf_tables d ->
  let a := upserted d r in
  artifacts (apply_write d (WArtifact a)) !! k = Some x ->
  same_artifact (Artifact.document_id r) (Artifact.artifact_type r) x = true ->
  k = Artifact.id a.
Proof.
  intros Hwf a. cbn. rewrite lookup_insert_Some. intros [[<- _]|[_ Hk]] Hs; [done|].
  unfold a, upserted in *. destruct (upsert_target d r) as [old|] eqn:E.
  - apply upsert_target_some in E as (k' & Hk' & Hs'). cbn.
    rewrite (wf_artifacts_id _ Hwf _ _ Hk').
    apply same_artifact_key in Hs' as [E1 E2]. eapply (wf_artifact_type _ Hwf); [done|exact Hk'|].
    apply same_artifact_key in Hs as [-> ->]. unfold same_artifact.
    by rewrite E1, N.eqb_refl, bool_decide_eq_true_2.
  - by rewrite (upsert_target_none _ _ _ _ E Hk) in Hs.
Qed.

(** The upserted row is that of the request, under the id of the row it replaces. *)
Lemma upserted_row d r :
  wf_tables d ->
  let a := upserted d r in
  let mine := same_artifact (Artifact.document_id r) (Artifact.artifact_type r) in
  mine a = true /\ Artifact.job_id a = Artifact.job_id r /\
  Artifact.object_key a = Artifact.object_key r /\
  forall k old, artifacts d !! k = Some old -> mine old = true ->
    Artifact.id a = k /\ Artifact.created_at a = Artifact.created_at old.
Proof.
  intros Hwf a mine. unfold a, upserted. destruct (upsert_target d r) as [old'|] eqn:E.
  - apply upsert_target_some in E as (k' & Hk' & Hs'). split_and!; [exact Hs'|done..|].
    intros k old Hk Hs. apply same_artifact_key in Hs' as [E1 E2].
    assert (k = k') as ->.
    { eapply (wf_artifact_type _ Hwf); [done|exact Hk'|].
      apply same_artifact_key in Hs as [-> ->]. unfold same_artifact.
      by rewrite E1, N.eqb_refl, bool_decide_eq_true_2. }
    rewrite Hk in Hk'. injection Hk' as <-. cbn. by rewrite (wf_artifacts_id _ Hwf _ _ Hk).
  - split_and!; try done.
    + unfold mine, same_artifact. by rewrite N.eqb_refl, bool_decide_eq_true_2.
    + intros k old Hk Hs. pose proof (upsert_target_none _ _ _ _ E Hk) as Hn.
      unfold mine in Hs. congruence.
Qed.

(** Storing an artifact twice keeps one: [ArtifactRepository.create] gives the
    document one row of the type, under the id and creation time of the row it
    replaces if there is one, with the job and the key of the new attempt. *)
Theorem artifact_create_upserts env `{!Conforming env} n w dto :
  w_tx w = TxActive [] -> w_health w = all_up -> wf_tables (w_db w) ->
  (exists v, valid_uuid v /\ unused (w_db w) v) ->
  is_Some (jobs (w_db w) !! CreateArtifactDTO.job_id dto) ->
  is_Some (documents (w_db w) !! CreateArtifactDTO.document_id dto) ->
  let mine := same_artifact (CreateArtifactDTO.document_id dto)
                (CreateArtifactDTO.artifact_type dto) in
  let out := run env n w (ArtifactRepository.create dto) in
  exists a, out.1 = Ok (artifact_dto a) /\ out.2 = set_tx w (TxActive [WArtifact a]) /\
    mine a = true /\ Artifact.job_id a = CreateArtifactDTO.job_id dto /\
    Artifact.object_key a = CreateArtifactDTO.object_key dto /\
    (forall k old, artifacts (w_db w) !! k = Some old -> mine old = true ->
       Artifact.id a = k /\ Artifact.created_at a = Artifact.created_at old) /\
    (forall k x, artifacts (apply_write (w_db w) (WArtifact a)) !! k = Some x ->
       mine x = true -> k = Artifact.id a).
Proof.
  intros Htx Hup Hwf Hex [j Hj] [doc Hdoc] mine out.
  set (row := fun i => Artifact.Make (drawn_id i) (CreateArtifactDTO.job_id dto)
    (CreateArtifactDTO.document_id dto) (CreateArtifactDTO.artifact_type dto)
    (CreateArtifactDTO.object_key dto) (drawn_t i)).
  enough (exists i, out.1 = Ok (artifact_dto (upserted (w_db w) (row i))) /\
      out.2 = set_tx w (TxActive [WArtifact (upserted (w_db w) (row i))])) as [i [E1 E2]].
  { exists (upserted (w_db w) (row i)).
    destruct (upserted_row (w_db w) (row i) Hwf) as (H1 & H2 & H3 & H4).
    split_and!; try done. intros k x. by apply (upserted_unique (w_db w) (row i)). }
  apply (wp_run env _ (fun r w' => exists i, r = Ok (artifact_dto (upserted (w_db w) (row i))) /\
      w' = set_tx w (TxActive [WArtifact (upserted (w_db w) (row i))])) n w).
  assert (Hnone : forall i, id_drawn w i -> artifact_violations (w_db w) (row i) = []).
  { intros i [_ Hi]. rewrite Hup in Hi. destruct (Hi eq_refl Hex) as (_ & _ & Ha).
    unfold artifact_violations. cbn. rewrite Hj, Hdoc, Ha. by destruct (upsert_target _ _). }
  apply (@artifact_create_rule (fun _ _ => True) ArtifactRepository.repository _ dto w [] _ Htx).
  - intros _ i _ _. by exists i.
  - intros x i Hi [[Hf _]|(_ & c & Hc & _)]; exfalso.
    + rewrite Hup in Hf. by apply Hf.
    + cbn [view apply_writes fold_left] in Hc. change (c ∈ artifact_violations (w_db w) (row i)) in Hc.
      rewrite Hnone in Hc by done. by apply not_elem_of_nil in Hc.
Qed.

(** The artifact of an earlier attempt. *)
Definition demo_artifact : Artifact.t := Artifact.Make 3%N 7%N 5%N MARKDOWN "old" 0.

Definition artifact_world : world :=
  let w := demo_world all_up (one_job STARTED 2) in
  set_db w (Tables (accounts (w_db w)) (documents (w_db w)) (jobs (w_db w)) {[3%N := demo_artifact]})
    (TxActive []).

Lemma artifact_world_wf : wf_tables (w_db artifact_world).
Proof.
  split.
  - by apply wf_jobs_singleton.
  - intros k r H. change (({[5%N := demo_document]} : gmap uuid Document.t) !! k = Some r) in H.
    by apply lookup_singleton_Some in H as [<- <-].
  - intros k r H. change (({[3%N := demo_artifact]} : gmap uuid Artifact.t) !! k = Some r) in H.
    by apply lookup_singleton_Some in H as [<- <-].
  - intros k1 k2 r1 r2 H1 H2 _.
    change (({[5%N := demo_document]} : gmap uuid Document.t) !! k1 = Some r1) in H1.
    change (({[5%N := demo_document]} : gmap uuid Document.t) !! k2 = Some r2) in H2.
    apply lookup_singleton_Some in H1 as [<- _]. by apply lookup_singleton_Some in H2 as [<- _].
  - intros k1 k2 r1 r2 H1 H2 _.
    change (({[3%N := demo_artifact]} : gmap uuid Artifact.t) !! k1 = Some r1) in H1.
    change (({[3%N := demo_artifact]} : gmap uuid Artifact.t) !! k2 = Some r2) in H2.
    apply lookup_singleton_Some in H1 as [<- _]. by apply lookup_singleton_Some in H2 as [<- _].
  - intros k r H. apply (demo_lookup all_up STARTED 2) in H as [_ ->]. by exists demo_document.
  - intros k r H. apply (demo_lookup all_up STARTED 2) in H as [_ ->]. by eexists.
Qed.

Lemma artifact_create_upserts_witness :
  let w := artifact_world in
  let dto := CreateArtifactDTO.Make 7 5 MARKDOWN "new" in
  let mine := same_artifact 5 MARKDOWN in
  let out := run (reference (fun _ => true)) 0 w (ArtifactRepository.create dto) in
  exists a, out.1 = Ok (artifact_dto a) /\ out.2 = set_tx w (TxActive [WArtifact a]) /\
    mine a = true /\ Artifact.job_id a = 7%N /\ Artifact.object_key a = "new" /\
    (forall k old, artifacts (w_db w) !! k = Some old -> mine old = true ->
       Artifact.id a = k /\ Artifact.created_at a = Artifact.created_at old) /\
    (forall k x, artifacts (apply_write (w_db w) (WArtifact a)) !! k = Some x ->
       mine x = true -> k = Artifact.id a).
Proof.
  apply (artifact_create_upserts (reference (fun _ => true)) 0 artifact_world
           (CreateArtifactDTO.Make 7 5 MARKDOWN "new")).
  - reflexivity.
  - reflexivity.
  - apply artifact_world_wf.
  - exists 9%N. split; [done|]. by repeat split.
  - by eexists.
  - by eexists.
Defined.

(** ** Which client makes which call *)

(** The calls of a storage service: URLs are signed by [presign], data is read and
    written by [client], in one bucket. *)
Definition storage_call (client presign : s3_client) (bucket : string) (e : event) : Prop :=
  match e with
  | S3Presign c m b _ t => c = presign /\ b = bucket /\ t = 3600%Z /\
      (m = "put_object" \/ m = "get_object")
  | S3Head c b _ | S3Get c b _ | S3Put c b _ _ => c = client /\ b = bucket
  | S3Read _ => True
  | _ => False
  end.

Fixpoint calls (E : event -> Prop) {A} (p : prog A) : Prop :=
  match p with
  | Ret _ | Raise _ => True
  | Vis e k => E e /\ forall r, calls E (k r)
  end.

Lemma calls_trigger (E : event -> Prop) e : E e -> calls E (trigger e).
Proof. intros He. split; [done|]. by intros []. Qed.

Lemma calls_bind (E : event -> Prop) {A B} (p : prog A) (f : A -> prog B) :
  calls E p -> (forall a, calls E (f a)) -> calls E (bind p f).
Proof.
  intros Hp Hf. induction p as [a|x|e k IH]; simpl in *; [apply Hf|done|].
  destruct Hp as [He Hk]. split; eauto.
Qed.

Lemma calls_catch (E : event -> Prop) {A} (p : prog A) h :
  calls E p -> (forall x q, h x = Some q -> calls E q) -> calls E (catch p h).
Proof.
  intros Hp Hh. induction p as [a|x|e k IH]; simpl in *; [done| |by destruct Hp; split; eauto].
  destruct (h x) eqn:E1; [by eapply Hh|done].
Qed.

(** Upload and download URLs are signed against the public endpoint when one is
    configured, with the region, addressing and credentials of the internal client;
    every other storage call uses the internal endpoint; explicit credentials are
    used only with an access key, and path addressing only with an endpoint. *)
Theorem storage_clients bucket region endpoint public access secret :
  let s3 := S3StorageService.init bucket region endpoint public access secret in
  let client := S3Client region endpoint (bool_decide (is_Some endpoint)) access
                  (match access with Some _ => secret | None => None end) in
  let presign := S3Client region (match public with Some u => Some u | None => endpoint end)
                   (bool_decide (is_Some endpoint)) access
                   (match access with Some _ => secret | None => None end) in
  let E := storage_call client presign bucket in
  forall k c,
    calls E (S3StorageService.generate_upload_url s3 k) /\
    calls E (S3StorageService.generate_download_url s3 k) /\
    calls E (S3StorageService.object_exists s3 k) /\
    calls E (S3StorageService.get_object s3 k) /\
    calls E (S3StorageService.put_object s3 k c).
Proof.
  intros s3 client presign E k c.
  assert (S3StorageService._client s3 = client) as Hc by (by destruct endpoint).
  assert (S3StorageService._presign_client s3 = presign) as Hp by (by destruct endpoint, public).
  assert (Hwrap : forall A (p : prog A), calls E p -> calls E (S3StorageService.wrap_client_error p)).
  { intros A p H. apply calls_catch; [done|]. intros x q. destruct (is_client x); [by intros [= <-]|done]. }
  split_and!.
  - apply Hwrap, calls_trigger. unfold E, storage_call. rewrite Hp. auto.
  - apply Hwrap, calls_trigger. unfold E, storage_call. rewrite Hp. auto.
  - apply calls_catch; [apply calls_bind; [apply calls_trigger; by rewrite Hc|done]|].
    intros x q Hq. destruct x; try done. case_bool_decide; by injection Hq as <-.
  - apply Hwrap, calls_bind; [apply calls_trigger; by rewrite Hc|]. intros b. by apply calls_trigger.
  - apply Hwrap, calls_trigger. by rewrite Hc.
Qed.

(** ** The depth of the queue *)

(** [queue_depth] counts the messages that wait, a queue that does not exist yet
    counting as empty, and neither creates the queue nor takes a message. *)
Theorem queue_depth_counts env `{!Conforming env} n w url queue :
  h_mq (w_health w) = Up ->
  let out := run env n w (RabbitMQMessagingService.queue_depth url queue) in
  out.1 = Ok (Z.of_nat (length (default [] (w_queues w !! queue)))) /\
  w_queues out.2 = w_queues w.
Proof.
  intros Hup out.
  apply (wp_run env _ (fun r w' => r = Ok (depth w queue) /\ w_queues w' = w_queues w) n w).
  apply (@queue_depth_rule (fun _ _ => True) (RabbitMQMessagingService.messaging url) _ queue w).
  - by intros _ c.
  - intros Hf. by rewrite Hup in Hf.
  - intros Hf. by rewrite Hup in Hf.
Qed.

Lemma queue_depth_counts_witness :
  let w := demo_world all_up ∅ in
  let out := run (reference (fun _ => true)) 0 w
    (RabbitMQMessagingService.queue_depth "amqp://mq" "other") in
  out.1 = Ok (Z.of_nat (length (default [] (w_queues w !! "other")))) /\
  w_queues out.2 = w_queues w.
Proof.
  apply (queue_depth_counts (reference (fun _ => true)) 0 (demo_world all_up ∅)). reflexivity.
Defined.
