(* ===== verification/Postgres.v ===== *)
(** * Schema statements, as PostgreSQL documents them

    The migrations act on a database through the statements below: those that
    [alembic.op] emits and those they send as text.  A [database] holds the schema
    (tables with their columns and constraints, unique indexes, enumerated types,
    sequences) and the rows.  [documented] is the documented effect of a statement,
    [None] when it is refused; a driver that behaves so is a [PostgresDdl].

    Rows are finite maps from column names to values.  A statement that rewrites or
    checks rows does so here as well: a unique index is built only over rows without
    duplicates, a cast fails on a label the new type lacks. *)

From S2P Require Import Prelude PyUuid.

Module Pg.

(** ** Schemas *)

Inductive sql_type : Type :=
| Integer | Varchar | Timestamp | Uuid
| Enum (name : string)
| EnumArray (name : string).

#[export] Instance sql_type_eq_dec : EqDecision sql_type.
Proof. solve_decision. Defined.

Inductive default_expr : Type :=
| Literal (s : string)        (** a quoted literal *)
| Nextval (sequence : string).

#[export] Instance default_expr_eq_dec : EqDecision default_expr.
Proof. solve_decision. Defined.

Record column : Type := Column {
  col_type : sql_type;
  nullable : bool;
  col_default : option default_expr
}.

#[export] Instance column_eq_dec : EqDecision column.
Proof. solve_decision. Defined.

Inductive constraint : Type :=
| PrimaryKey (cols : list string)
| Unique (cols : list string)
| ForeignKey (cols : list string) (ref : string) (ref_cols : list string).

#[export] Instance constraint_eq_dec : EqDecision constraint.
Proof. solve_decision. Defined.

Record table : Type := Table {
  columns : list (string * column);
  constraints : gmap string constraint
}.

#[export] Instance table_eq_dec : EqDecision table.
Proof. solve_decision. Defined.

(** A unique index; its predicate is [column IN (labels)] over an enumerated type. *)
Record index : Type := Index {
  ix_table : string;
  ix_columns : list string;
  ix_where : option (string * string * list string)  (** column, type, labels *)
}.

#[export] Instance index_eq_dec : EqDecision index.
Proof. solve_decision. Defined.

(** ** Rows *)

Inductive value : Type :=
| VNull
| VInt (z : Z)
| VText (s : string)
| VTime (t : Z)
| VUuid (u : uuid)
| VLabel (s : string)
| VLabels (l : list string).

#[export] Instance value_eq_dec : EqDecision value.
Proof. solve_decision. Defined.

Abbreviation row := (gmap string value).

Record database : Type := Database {
  db_tables : gmap string table;
  db_indexes : gmap string index;
  db_enums : gmap string (list string);
  db_sequences : gmap string (string * string);  (** owned by table, column *)
  db_rows : string -> list row
}.

Definition empty_database : database := Database ∅ ∅ ∅ ∅ (fun _ => []).

Definition set_tables (d : database) x : database :=
  Database x (db_indexes d) (db_enums d) (db_sequences d) (db_rows d).
Definition set_indexes (d : database) x : database :=
  Database (db_tables d) x (db_enums d) (db_sequences d) (db_rows d).
Definition set_enums (d : database) x : database :=
  Database (db_tables d) (db_indexes d) x (db_sequences d) (db_rows d).
Definition set_sequences (d : database) x : database :=
  Database (db_tables d) (db_indexes d) (db_enums d) x (db_rows d).
Definition set_rows (d : database) x : database :=
  Database (db_tables d) (db_indexes d) (db_enums d) (db_sequences d) x.

Definition rows_of (d : database) (t : string) : list row := db_rows d t.

Definition field (c : string) (r : row) : value := default VNull (r !! c).

(** ** Statements *)

(** A column of [CREATE TABLE] or [ADD COLUMN]; [serial] is an integer primary key
    that increments itself. *)
Record column_def : Type := ColumnDef {
  cd_name : string;
  cd_type : sql_type;
  cd_labels : list string;   (** of the enumerated type, where the column has one *)
  cd_nullable : bool;
  cd_default : option string;
  cd_serial : bool
}.

(** The expression of [ALTER COLUMN ... TYPE ... USING]. *)
Inductive conversion : Type :=
| CastLabel           (** [col::text::type] *)
| Zero
| GenRandomUuid.

Inductive statement : Type :=
| CreateTable (t : string) (cols : list column_def) (cons : list constraint)
| DropTable (t : string)
| AddColumn (t : string) (c : column_def)
| DropColumn (t c : string)
| SetDefault (t c : string) (d : option default_expr)
| AlterType (t c : string) (ty : sql_type) (u : conversion)
| AddConstraint (t name : string) (c : constraint)
| DropConstraint (t name : string) (if_exists : bool)
| CreateUniqueIndex (name : string) (i : index)
| DropIndex (name : string) (if_exists : bool)
| CreateEnum (name : string) (labels : list string)
| DropType (name : string)
| RenameType (old new : string)
| CreateSequence (name t c : string)
| DropSequence (name : string) (if_exists : bool)
| Truncate (ts : list string) (cascade : bool)
| UpdateStatus (t from to stamp : string).
  (** [UPDATE t SET status = to, stamp = NOW() WHERE status = from] *)

(** What the statements read that is not in the database: the clock and the random
    identifiers of [gen_random_uuid()]. *)
Record oracle : Type := Oracle { now : Z; gen : nat -> uuid }.

(** A run of migrations: the database, and the enumerated types it has created so
    far, which [CREATE TABLE] does not create again. *)
Record session : Type := Session { db : database; memo : gset string }.

(** ** Checks *)

Definition key_of (cols : list string) (r : row) : list value := (fun c => field c r) <$> cols.

(** The keys a unique constraint compares: rows with a null are exempt. *)
Definition keys (cols : list string) (rs : list row) : list (list value) :=
  List.filter (fun k => bool_decide (VNull ∉ k)) (key_of cols <$> rs).

Definition in_predicate (w : option (string * string * list string)) (r : row) : bool :=
  match w with
  | None => true
  | Some (c, _, ls) =>
      match field c r with VLabel l => bool_decide (l ∈ ls) | _ => false end
  end.

Definition unique_rows (cols : list string) (w : option (string * string * list string))
    (rs : list row) : bool :=
  bool_decide (NoDup (keys cols (List.filter (in_predicate w) rs))).

Definition constraint_cols (c : constraint) : list string :=
  match c with PrimaryKey cols | Unique cols | ForeignKey cols _ _ => cols end.

(** The rows of a table satisfy the constraint. *)
Definition satisfies (d : database) (t : string) (c : constraint) : bool :=
  match c with
  | PrimaryKey cols | Unique cols => unique_rows cols None (rows_of d t)
  | ForeignKey cols ref ref_cols =>
      forallb (fun k => bool_decide (k ∈ (key_of ref_cols <$> rows_of d ref)))
        (keys cols (rows_of d t))
  end.

Definition index_holds (d : database) (i : index) : bool :=
  unique_rows (ix_columns i) (ix_where i) (rows_of d (ix_table i)).

(** A foreign key of [t] or to [t] has the column on that side. *)
Definition in_foreign_key (d : database) (t c : string) : bool :=
  existsb (fun '(t', tb) =>
    existsb (fun '(_, k) =>
      match k with
      | ForeignKey cols ref ref_cols =>
          (bool_decide (t' = t) && bool_decide (c ∈ cols))
          || (bool_decide (ref = t) && bool_decide (c ∈ ref_cols))
      | _ => false
      end) (map_to_list (constraints tb))) (map_to_list (db_tables d)).

(** A table other than those of [ts] refers to [t]. *)
Definition referenced_from_outside (d : database) (ts : list string) (t : string) : bool :=
  existsb (fun '(t', tb) =>
    negb (bool_decide (t' ∈ ts)) &&
    existsb (fun '(_, k) =>
      match k with ForeignKey _ ref _ => bool_decide (ref = t) | _ => false end)
      (map_to_list (constraints tb))) (map_to_list (db_tables d)).

Definition in_index_predicate (d : database) (t c : string) : bool :=
  existsb (fun '(_, i) =>
    bool_decide (ix_table i = t) &&
    match ix_where i with Some (c', _, _) => bool_decide (c' = c) | None => false end)
    (map_to_list (db_indexes d)).

Definition mentions_type (name : string) (ty : sql_type) : bool :=
  match ty with Enum n | EnumArray n => bool_decide (n = name) | _ => false end.

Definition type_in_use (d : database) (name : string) : bool :=
  existsb (fun '(_, tb) => existsb (fun '(_, c) => mentions_type name (col_type c)) (columns tb))
    (map_to_list (db_tables d))
  || existsb (fun '(_, i) =>
       match ix_where i with Some (_, n, _) => bool_decide (n = name) | None => false end)
       (map_to_list (db_indexes d)).

Definition sequence_in_use (d : database) (s : string) : bool :=
  existsb (fun '(_, tb) =>
    existsb (fun '(_, c) => match col_default c with
                            | Some (Nextval s') => bool_decide (s' = s)
                            | _ => false
                            end) (columns tb)) (map_to_list (db_tables d)).

(** ** Names *)

(** The name of a constraint that is given none. *)
Definition auto_name (t : string) (c : constraint) : string :=
  match c with
  | PrimaryKey _ => (t ++ "_pkey")%string
  | Unique cols => (join "_" (t :: cols) ++ "_key")%string
  | ForeignKey cols _ _ => (join "_" (t :: cols) ++ "_fkey")%string
  end.

Definition serial_sequence (t c : string) : string := (t ++ "_" ++ c ++ "_seq")%string.

(** ** Effects *)

Definition column_of (t : string) (c : column_def) : column :=
  Column (cd_type c) (cd_nullable c)
    (if cd_serial c then Some (Nextval (serial_sequence t (cd_name c)))
     else Literal <$> cd_default c).

Definition find_column (c : string) (tb : table) : option column :=
  snd <$> List.find (fun x => String.eqb x.1 c) (columns tb).

Definition with_columns (tb : table) (cs : list (string * column)) : table :=
  Table cs (constraints tb).

Definition update_column (c : string) (f : column -> column) (tb : table) : table :=
  with_columns tb ((fun x => if String.eqb x.1 c then (x.1, f x.2) else x) <$> columns tb).

Definition set_table (d : database) (t : string) (tb : table) : database :=
  set_tables d (<[t := tb]> (db_tables d)).

(** The rows with those of one table replaced. *)
Definition replace_rows (f : string -> list row) (t : string) (rs : list row)
  : string -> list row := fun t' => if String.eqb t' t then rs else f t'.

Definition put_rows (d : database) (t : string) (rs : list row) : database :=
  set_rows d (replace_rows (db_rows d) t rs).

(** The enumerated types of the columns, each once. *)
Definition enum_of (c : column_def) : option (string * list string) :=
  match cd_type c with Enum n | EnumArray n => Some (n, cd_labels c) | _ => None end.

(** Create the types the run has not created; one that exists already is an error. *)
Fixpoint create_enums (es : list (string * list string)) (s : session) : option session :=
  match es with
  | [] => Some s
  | (n, ls) :: es =>
      if bool_decide (n ∈ memo s) then create_enums es s
      else match db_enums (db s) !! n with
           | Some _ => None
           | None => create_enums es
               (Session (set_enums (db s) (<[n := ls]> (db_enums (db s)))) ({[n]} ∪ memo s))
           end
  end.

Definition add_constraint (d : database) (t name : string) (c : constraint)
  : option database :=
  match db_tables d !! t with
  | None => None
  | Some tb =>
      match constraints tb !! name with
      | Some _ => None
      | None =>
          if satisfies d t c
          then Some (set_table d t (Table (columns tb) (<[name := c]> (constraints tb))))
          else None
      end
  end.

Definition add_constraints (t : string) (cons : list constraint) (d : database)
  : option database :=
  fold_left (fun o c => o ≫= fun d => add_constraint d t (auto_name t c) c) cons (Some d).

(** The value a column has in the rows that exist when it is added. *)
Definition initial_value (c : column_def) : option value :=
  match cd_default c, cd_type c with
  | Some s, Varchar => Some (VText s)
  | Some s, Enum _ => Some (VLabel s)
  | Some _, _ => None
  | None, _ => if cd_nullable c then Some VNull else None
  end.

(** The new value of a column, in the [n]-th row. *)
Definition cast (o : oracle) (d : database) (ty : sql_type) (u : conversion) (n : nat) (v : value)
  : option value :=
  match u with
  | Zero => Some (VInt 0)
  | GenRandomUuid => Some (VUuid (gen o n))
  | CastLabel =>
      match v, ty with
      | VNull, _ => Some VNull
      | VLabel l, Enum n =>
          if bool_decide (l ∈ default [] (db_enums d !! n)) then Some v else None
      | _, _ => None
      end
  end.

Fixpoint map_rows (f : nat -> row -> option row) (n : nat) (rs : list row)
  : option (list row) :=
  match rs with
  | [] => Some []
  | r :: rs =>
      match f n r, map_rows f (S n) rs with
      | Some r, Some rs => Some (r :: rs)
      | _, _ => None
      end
  end.

(** Tables that [TRUNCATE ... CASCADE] empties: those that refer to one of [ts]. *)
Definition referring (d : database) (ts : list string) : list string :=
  List.filter (fun t' => match db_tables d !! t' with
    | Some tb => existsb (fun '(_, k) =>
        match k with ForeignKey _ ref _ => bool_decide (ref ∈ ts) | _ => false end)
        (map_to_list (constraints tb))
    | None => false
    end) (fst <$> map_to_list (db_tables d)).

(** Closed under as many steps as there are tables. *)
Fixpoint cascade_closure (n : nat) (d : database) (ts : list string) : list string :=
  match n with
  | O => ts
  | S n => cascade_closure n d (ts ++ referring d ts)
  end.

Definition empty_tables (d : database) (ts : list string) : database :=
  set_rows d (fold_left (fun f t => replace_rows f t []) ts (db_rows d)).

Definition stamp_row (o : oracle) (from to stamp : string) (r : row) : row :=
  if bool_decide (field "status" r = VLabel from)
  then <[stamp := VTime (now o)]> (<["status" := VLabel to]> r) else r.

(** Every constraint and index of the table holds. *)
Definition table_consistent (d : database) (t : string) : bool :=
  match db_tables d !! t with
  | Some tb => forallb (fun '(_, c) => satisfies d t c) (map_to_list (constraints tb))
  | None => true
  end
  && forallb (fun '(_, i) => negb (bool_decide (ix_table i = t)) || index_holds d i)
       (map_to_list (db_indexes d)).

Definition rename_type (old new : string) (ty : sql_type) : sql_type :=
  match ty with
  | Enum n => if bool_decide (n = old) then Enum new else ty
  | EnumArray n => if bool_decide (n = old) then EnumArray new else ty
  | _ => ty
  end.

Definition rename_in_index (old new : string) (i : index) : index :=
  Index (ix_table i) (ix_columns i)
    match ix_where i with
    | Some (c, n, ls) => Some (c, if bool_decide (n = old) then new else n, ls)
    | None => None
    end.

Definition in_db (s : session) (o : option database) : option session :=
  (fun d => Session d (memo s)) <$> o.

Definition drop_table (d : database) (t : string) : database :=
  Database (delete t (db_tables d))
    (filter (fun x => ix_table x.2 <> t) (db_indexes d)) (db_enums d)
    (filter (fun x => x.2.1 <> t) (db_sequences d)) (replace_rows (db_rows d) t []).

(** A dropped column takes its constraints, indexes and sequences with it. *)
Definition drop_column (d : database) (t c : string) (tb : table) : database :=
  Database
    (<[t := Table (List.filter (fun x => negb (String.eqb x.1 c)) (columns tb))
              (filter (fun x => c ∉ constraint_cols x.2) (constraints tb))]> (db_tables d))
    (filter (fun x => ix_table x.2 <> t \/ c ∉ ix_columns x.2) (db_indexes d))
    (db_enums d)
    (filter (fun x => x.2 <> (t, c)) (db_sequences d))
    (replace_rows (db_rows d) t (delete c <$> rows_of d t)).

Definition create_table (s : session) (t : string) (cols : list column_def)
    (cons : list constraint) : option session :=
  match db_tables (db s) !! t with
  | Some _ => None
  | None =>
      match create_enums (omap enum_of cols) s with
      | None => None
      | Some s =>
          let d := db s in
          let d := set_table d t (Table ((fun c => (cd_name c, column_of t c)) <$> cols) ∅) in
          let d := set_sequences d (fold_left (fun m c =>
                     if cd_serial c then <[serial_sequence t (cd_name c) := (t, cd_name c)]> m
                     else m) cols (db_sequences d)) in
          in_db s (add_constraints t cons (put_rows d t []))
      end
  end.

Definition alter_type (o : oracle) (d : database) (t c : string) (ty : sql_type) (u : conversion)
  : option database :=
  match db_tables d !! t with
  | None => None
  | Some tb =>
      match find_column c tb with
      | None => None
      | Some col =>
          if bool_decide (col_default col <> None) || in_foreign_key d t c
             || in_index_predicate d t c
          then None
          else
            let tb' := update_column c (fun x => Column ty (nullable x) (col_default x)) tb in
            match map_rows (fun n r => (fun v => <[c := v]> r) <$> cast o d ty u n (field c r))
                    0 (rows_of d t) with
            | None => None
            | Some rs =>
                let d' := put_rows (set_table d t tb') t rs in
                if table_consistent d' t then Some d' else None
            end
      end
  end.

(** The documented effect of a statement; [None]: it is refused. *)
Definition documented (o : oracle) (st : statement) (s : session) : option session :=
  let d := db s in
  match st with
  | CreateTable t cols constrs => create_table s t cols constrs
  | DropTable t =>
      match db_tables d !! t with
      | None => None
      | Some _ =>
          if referenced_from_outside d [t] t then None else Some (Session (drop_table d t) (memo s))
      end
  | AddColumn t c =>
      match db_tables d !! t with
      | None => None
      | Some tb =>
          match find_column (cd_name c) tb with
          | Some _ => None
          | None =>
              let d' := set_table d t (with_columns tb
                          (columns tb ++ [(cd_name c, column_of t c)])%list) in
              match rows_of d t, initial_value c with
              | [], _ => Some (Session d' (memo s))
              | rs, Some v => Some (Session (put_rows d' t (<[cd_name c := v]> <$> rs)) (memo s))
              | _, None => None
              end
          end
      end
  | DropColumn t c =>
      match db_tables d !! t with
      | None => None
      | Some tb =>
          match find_column c tb with
          | None => None
          | Some _ => Some (Session (drop_column d t c tb) (memo s))
          end
      end
  | SetDefault t c e =>
      match db_tables d !! t with
      | None => None
      | Some tb =>
          match find_column c tb with
          | None => None
          | Some _ => Some (Session (set_table d t
              (update_column c (fun x => Column (col_type x) (nullable x) e) tb)) (memo s))
          end
      end
  | AlterType t c ty u => in_db s (alter_type o d t c ty u)
  | AddConstraint t name c => in_db s (add_constraint d t name c)
  | DropConstraint t name if_exists =>
      match db_tables d !! t with
      | None => None
      | Some tb =>
          match constraints tb !! name with
          | Some _ => Some (Session (set_table d t
              (Table (columns tb) (delete name (constraints tb)))) (memo s))
          | None => if if_exists then Some s else None
          end
      end
  | CreateUniqueIndex name i =>
      match db_indexes d !! name, db_tables d !! ix_table i with
      | None, Some _ =>
          if index_holds d i
          then Some (Session (set_indexes d (<[name := i]> (db_indexes d))) (memo s))
          else None
      | _, _ => None
      end
  | DropIndex name if_exists =>
      match db_indexes d !! name with
      | Some _ => Some (Session (set_indexes d (delete name (db_indexes d))) (memo s))
      | None => if if_exists then Some s else None
      end
  | CreateEnum name labels =>
      match db_enums d !! name with
      | Some _ => None
      | None => Some (Session (set_enums d (<[name := labels]> (db_enums d))) (memo s))
      end
  | DropType name =>
      match db_enums d !! name with
      | None => None
      | Some _ =>
          if type_in_use d name then None
          else Some (Session (set_enums d (delete name (db_enums d))) (memo s))
      end
  | RenameType old new =>
      match db_enums d !! old, db_enums d !! new with
      | Some ls, None =>
          let d := set_enums d (<[new := ls]> (delete old (db_enums d))) in
          let d := set_tables d ((fun tb => with_columns tb
            ((fun x => (x.1, Column (rename_type old new (col_type x.2)) (nullable x.2)
                               (col_default x.2))) <$> columns tb)) <$> db_tables d) in
          Some (Session (set_indexes d (rename_in_index old new <$> db_indexes d)) (memo s))
      | _, _ => None
      end
  | CreateSequence name t c =>
      match db_sequences d !! name with
      | Some _ => None
      | None => Some (Session (set_sequences d (<[name := (t, c)]> (db_sequences d))) (memo s))
      end
  | DropSequence name if_exists =>
      match db_sequences d !! name with
      | None => if if_exists then Some s else None
      | Some _ =>
          if sequence_in_use d name then None
          else Some (Session (set_sequences d (delete name (db_sequences d))) (memo s))
      end
  | Truncate ts cascade =>
      let ts' := if cascade then cascade_closure (size (db_tables d)) d ts else ts in
      if forallb (fun t => bool_decide (is_Some (db_tables d !! t))) ts
         && negb (existsb (referenced_from_outside d ts') ts')
      then Some (Session (empty_tables d ts') (memo s))
      else None
  | UpdateStatus t from to stamp =>
      match db_tables d !! t with
      | None => None
      | Some _ =>
          let d' := put_rows d t (stamp_row o from to stamp <$> rows_of d t) in
          if table_consistent d' t then Some (Session d' (memo s)) else None
      end
  end.

(** A driver that does what the documentation says. *)
Class PostgresDdl (exec : oracle -> statement -> session -> option session) : Prop :=
  exec_documented : forall o st s, exec o st s = documented o st s.

#[export] Instance documented_ddl : PostgresDdl documented.
Proof. by intros o st s. Qed.

End Pg.
