(* ===== verification/Migrations.v ===== *)
(** * The migrations ([shared/migrations/])

    A migration is the list of statements its [upgrade] or [downgrade] performs, in
    order: the operations of [alembic.op] and the SQL texts given to [op.execute].
    [upgrade_to_head] runs the upgrades from the current revision along the
    [down_revision] links, as [alembic upgrade head] does, in one transaction
    ([env.py]); [models_metadata] is the schema that [models.py] declares. *)

From S2P Require Import Prelude PyUuid Dtos Postgres.
Import Pg.

(** ** Columns, as [sa.Column] declares them *)

Definition serial_id : column_def := ColumnDef "id" Integer [] false None true.

Definition col (name : string) (ty : sql_type) (nullable : bool) : column_def :=
  ColumnDef name ty [] nullable None false.

Definition col_with_default (name : string) (ty : sql_type) (default : string) : column_def :=
  ColumnDef name ty [] false (Some default) false.

Definition account_fkey : constraint := ForeignKey ["account_id"] "accounts" ["id"].
Definition document_fkey : constraint := ForeignKey ["document_id"] "documents" ["id"].
Definition job_fkey : constraint := ForeignKey ["job_id"] "jobs" ["id"].

(** [CREATE UNIQUE INDEX one_active_job_per_document ... WHERE status IN (labels)]. *)
Definition active_index (labels : list string) : statement :=
  CreateUniqueIndex "one_active_job_per_document"
    (Index "jobs" ["account_id"; "document_id"] (Some ("status", "job_status_enum", labels))).

(** ** The versions *)

Record migration : Type := Migration {
  revision : string;
  down_revision : option string;
  upgrade : list statement;
  downgrade : list statement
}.

Module initial.
Definition upgrade : list statement := [
  CreateTable "accounts"
    [serial_id; col "api_key_hash" Varchar true]
    [PrimaryKey ["id"]; Unique ["api_key_hash"]];
  CreateTable "documents"
    [serial_id; col "object_key" Varchar false; col "account_id" Integer false;
     col "created_at" Timestamp false]
    [account_fkey; PrimaryKey ["id"]; Unique ["object_key"]];
  CreateTable "jobs"
    [serial_id; col "account_id" Integer false; col "document_id" Integer false;
     ColumnDef "status" (Enum "job_status_enum")
       ["CREATED"; "QUEUED"; "STARTED"; "COMPLETED"; "FAILED"] false (Some "CREATED") false;
     ColumnDef "artifact_types" (EnumArray "artifact_type_enum") ["MARKDOWN"] false None false;
     col_with_default "attempts" Integer "0"; col_with_default "max_attempts" Integer "3";
     col "error_message" Varchar true; col "created_at" Timestamp false;
     col "queued_at" Timestamp true; col "started_at" Timestamp true;
     col "completed_at" Timestamp true; col "last_attempt_at" Timestamp true]
    [account_fkey; document_fkey; PrimaryKey ["id"]];
  CreateTable "artifacts"
    [serial_id; col "job_id" Integer false; col "document_id" Integer false;
     ColumnDef "artifact_type" (Enum "artifact_type_enum") ["MARKDOWN"] false None false;
     col "object_key" Varchar false; col "created_at" Timestamp false]
    [document_fkey; job_fkey; PrimaryKey ["id"]; Unique ["object_key"]]
].

Definition downgrade : list statement :=
  [DropTable "artifacts"; DropTable "jobs"; DropTable "documents"; DropTable "accounts"].

Definition version : migration := Migration "2504b99774c5" None upgrade downgrade.
End initial.

Module add_failed_at_to_jobs.
Definition upgrade : list statement := [AddColumn "jobs" (col "failed_at" Timestamp true)].
Definition downgrade : list statement := [DropColumn "jobs" "failed_at"].
Definition version : migration :=
  Migration "2cf5e2bafa8f" (Some "2504b99774c5") upgrade downgrade.
End add_failed_at_to_jobs.

Module add_file_name_to_documents.
(** The string [server_default] is rendered as a quoted literal: the default is the
    text of two apostrophes. *)
Definition upgrade : list statement :=
  [AddColumn "documents" (col_with_default "file_name" Varchar "''")].
Definition downgrade : list statement := [DropColumn "documents" "file_name"].
Definition version : migration :=
  Migration "c3890ddba5ac" (Some "2cf5e2bafa8f") upgrade downgrade.
End add_file_name_to_documents.

Module add_one_active_job_per_document_index.
Definition upgrade : list statement := [active_index ["CREATED"; "QUEUED"; "STARTED"]].
Definition downgrade : list statement := [DropIndex "one_active_job_per_document" true].
Definition version : migration :=
  Migration "3c12203559ad" (Some "c3890ddba5ac") upgrade downgrade.
End add_one_active_job_per_document_index.

Module remove_created_from_job_status_enum.
Definition upgrade : list statement := [
  UpdateStatus "jobs" "CREATED" "QUEUED" "queued_at";
  DropIndex "one_active_job_per_document" false;
  SetDefault "jobs" "status" None;
  CreateEnum "job_status_enum_new" ["QUEUED"; "STARTED"; "COMPLETED"; "FAILED"];
  AlterType "jobs" "status" (Enum "job_status_enum_new") CastLabel;
  DropType "job_status_enum";
  RenameType "job_status_enum_new" "job_status_enum";
  active_index ["QUEUED"; "STARTED"];
  SetDefault "jobs" "status" (Some (Literal "QUEUED"))
].

Definition downgrade : list statement := [
  DropIndex "one_active_job_per_document" false;
  SetDefault "jobs" "status" None;
  CreateEnum "job_status_enum_old" ["CREATED"; "QUEUED"; "STARTED"; "COMPLETED"; "FAILED"];
  AlterType "jobs" "status" (Enum "job_status_enum_old") CastLabel;
  DropType "job_status_enum";
  RenameType "job_status_enum_old" "job_status_enum";
  SetDefault "jobs" "status" (Some (Literal "CREATED"));
  active_index ["CREATED"; "QUEUED"; "STARTED"]
].

Definition version : migration :=
  Migration "29e93f1a2527" (Some "3c12203559ad") upgrade downgrade.
End remove_created_from_job_status_enum.

Module uuid_primary_keys.
Definition _TABLES : list string := ["documents"; "jobs"; "artifacts"].

(** The drops both directions begin with. *)
Definition drops : list statement := [
  DropIndex "one_active_job_per_document" true;
  DropConstraint "artifacts" "artifacts_job_id_fkey" true;
  DropConstraint "artifacts" "artifacts_document_id_fkey" true;
  DropConstraint "jobs" "jobs_document_id_fkey" true;
  Truncate ["artifacts"; "jobs"; "documents"] true
].

(** The keys and the index both directions end with. *)
Definition restores : list statement := [
  AddConstraint "jobs" "jobs_document_id_fkey" document_fkey;
  AddConstraint "artifacts" "artifacts_document_id_fkey" document_fkey;
  AddConstraint "artifacts" "artifacts_job_id_fkey" job_fkey;
  active_index ["QUEUED"; "STARTED"]
].

Definition upgrade : list statement :=
  (drops
   ++ flat_map (fun table =>
        [SetDefault table "id" None;
         AlterType table "id" Uuid GenRandomUuid;
         DropSequence (table ++ "_id_seq")%string true]) _TABLES
   ++ [AlterType "jobs" "document_id" Uuid GenRandomUuid;
       AlterType "artifacts" "document_id" Uuid GenRandomUuid;
       AlterType "artifacts" "job_id" Uuid GenRandomUuid]
   ++ restores)%list.

Definition downgrade : list statement :=
  (drops
   ++ [AlterType "jobs" "document_id" Integer Zero;
       AlterType "artifacts" "document_id" Integer Zero;
       AlterType "artifacts" "job_id" Integer Zero]
   ++ flat_map (fun table =>
        [AlterType table "id" Integer Zero;
         CreateSequence (table ++ "_id_seq")%string table "id";
         SetDefault table "id" (Some (Nextval (table ++ "_id_seq")))]) _TABLES
   ++ restores)%list.

Definition version : migration :=
  Migration "a1b2c3d4e5f6" (Some "29e93f1a2527") upgrade downgrade.
End uuid_primary_keys.

Module drop_documents_file_name.
Definition upgrade : list statement := [DropColumn "documents" "file_name"].
Definition downgrade : list statement := [
  AddColumn "documents" (col_with_default "file_name" Varchar "");
  SetDefault "documents" "file_name" None
].
Definition version : migration :=
  Migration "b2c3d4e5f6a7" (Some "a1b2c3d4e5f6") upgrade downgrade.
End drop_documents_file_name.

Module artifact_unique_document_type.
Definition upgrade : list statement := [
  Truncate ["artifacts"] false;
  DropConstraint "artifacts" "artifacts_object_key_key" true;
  AddConstraint "artifacts" "artifacts_document_id_artifact_type_key"
    (Unique ["document_id"; "artifact_type"])
].
Definition downgrade : list statement := [
  Truncate ["artifacts"] false;
  DropConstraint "artifacts" "artifacts_document_id_artifact_type_key" false;
  AddConstraint "artifacts" "artifacts_object_key_key" (Unique ["object_key"])
].
Definition version : migration :=
  Migration "c3d4e5f6a7b8" (Some "b2c3d4e5f6a7") upgrade downgrade.
End artifact_unique_document_type.

(** The files of [versions/], by name. *)
Definition versions : list migration := [
  initial.version; remove_created_from_job_status_enum.version;
  add_failed_at_to_jobs.version; add_one_active_job_per_document_index.version;
  uuid_primary_keys.version; drop_documents_file_name.version;
  add_file_name_to_documents.version; artifact_unique_document_type.version
].

(** ** Running them *)

(** The migration that follows a revision. *)
Definition successor (current : option string) : option migration :=
  List.find (fun m => bool_decide (down_revision m = current)) versions.

(** The migrations from a revision to the head. *)
Fixpoint path_to_head (fuel : nat) (current : option string) : list migration :=
  match fuel with
  | O => []
  | S fuel =>
      match successor current with
      | None => []
      | Some m => m :: path_to_head fuel (Some (revision m))
      end
  end.

Definition upgrade_path (current : option string) : list migration :=
  path_to_head (List.length versions) current.

(** An empty database, or one at a revision of [versions/]. *)
Definition known_revision (current : option string) : bool :=
  match current with
  | None => true
  | Some r => existsb (fun m => String.eqb (revision m) r) versions
  end.

(** A deployed database and the revision recorded in [alembic_version]. *)
Record deployed : Type := Deployed { d_db : database; d_version : option string }.

Section run.
Context (exec : oracle -> statement -> session -> option session).

(** Statement by statement, to the first that is refused. *)
Fixpoint execute_all (o : oracle) (ss : list statement) (s : session) : option session :=
  match ss with
  | [] => Some s
  | st :: ss =>
      match exec o st s with
      | None => None
      | Some s => execute_all o ss s
      end
  end.

(** [command.upgrade(config, 'head')]: everything is one transaction, so that a refused
    statement leaves the database as it was; so does a revision that cannot be found. *)
Definition upgrade_to_head (o : oracle) (d : deployed) : option unit * deployed :=
  let path := upgrade_path (d_version d) in
  if known_revision (d_version d) then
    match execute_all o (flat_map upgrade path) (Session (d_db d) ∅) with
    | None => (None, d)
    | Some s => (Some tt, Deployed (db s)
                  (match list.last path with Some m => Some (revision m) | None => d_version d end))
    end
  else (None, d).

(** [command.downgrade] by one revision. *)
Definition downgrade_one (o : oracle) (d : deployed) : option unit * deployed :=
  match List.find (fun m => bool_decide (Some (revision m) = d_version d)) versions with
  | None => (None, d)
  | Some m =>
      match execute_all o (downgrade m) (Session (d_db d) ∅) with
      | None => (None, d)
      | Some s => (Some tt, Deployed (db s) (down_revision m))
      end
  end.
End run.

(** ** The schema of [models.py] *)

(** The labels of [SQLEnum]: the names of the members. *)
Definition job_status_names : list string := ["QUEUED"; "STARTED"; "COMPLETED"; "FAILED"].

Definition models_metadata : list statement := [
  CreateTable "accounts"
    [serial_id; col "api_key_hash" Varchar true]
    [PrimaryKey ["id"]; Unique ["api_key_hash"]];
  CreateTable "documents"
    [col "id" Uuid false; col "object_key" Varchar false; col "account_id" Integer false;
     col "created_at" Timestamp false]
    [PrimaryKey ["id"]; Unique ["object_key"]; account_fkey];
  CreateTable "jobs"
    [col "id" Uuid false; col "account_id" Integer false; col "document_id" Uuid false;
     ColumnDef "status" (Enum "job_status_enum") job_status_names false (Some "QUEUED") false;
     ColumnDef "artifact_types" (EnumArray "artifact_type_enum") ["MARKDOWN"] false None false;
     col_with_default "attempts" Integer "0"; col_with_default "max_attempts" Integer "3";
     col "error_message" Varchar true; col "created_at" Timestamp false;
     col "queued_at" Timestamp true; col "started_at" Timestamp true;
     col "completed_at" Timestamp true; col "last_attempt_at" Timestamp true;
     col "failed_at" Timestamp true]
    [PrimaryKey ["id"]; account_fkey; document_fkey];
  CreateTable "artifacts"
    [col "id" Uuid false; col "job_id" Uuid false; col "document_id" Uuid false;
     ColumnDef "artifact_type" (Enum "artifact_type_enum") ["MARKDOWN"] false None false;
     col "object_key" Varchar false; col "created_at" Timestamp false]
    [PrimaryKey ["id"]; job_fkey; document_fkey; Unique ["document_id"; "artifact_type"]]
].
