(* ===== verification/MigrationTheorems.v ===== *)
(** * Theorems about the migrations

    The chain leads from an empty database to the schema of [models.py]; a populated
    database goes through it whenever its jobs admit the partial index; which
    downgrades restore the schema they started from. *)

From S2P Require Import Prelude PyUuid Dtos Models Postgres Migrations.
Import Pg.

Definition is_some {A} (x : option A) : bool := match x with Some _ => true | None => false end.

(** ** Schemas along the chain *)

Definition schema (d : database)
  : gmap string table * gmap string index * gmap string (list string)
    * gmap string (string * string) :=
  (db_tables d, db_indexes d, db_enums d, db_sequences d).

Lemma schema_fields d d' :
  schema d = schema d' ->
  db_tables d = db_tables d' /\ db_indexes d = db_indexes d' /\ db_enums d = db_enums d'
  /\ db_sequences d = db_sequences d'.
Proof. intros [= H1 H2 H3 H4]. done. Qed.

Lemma schema_set_rows d rows : schema (set_rows d rows) = schema d.
Proof. done. Qed.

Lemma same_schema_rows d d' : schema d = schema d' -> d = set_rows d' (db_rows d).
Proof. destruct d, d'. unfold schema, set_rows. cbn. congruence. Qed.

Definition any_oracle : oracle := Oracle 0 (fun _ => 0%N).

Definition result_db (s : option session) : database :=
  match s with Some s => db s | None => empty_database end.

(** The database of the first [n] migrations, without rows. *)
Definition db_at (n : nat) : database :=
  result_db (execute_all documented any_oracle
    (flat_map upgrade (firstn n (upgrade_path None))) (Session empty_database ∅)).

Definition head : string := "c3d4e5f6a7b8".

Lemma execute_all_documented exec `{!PostgresDdl exec} o ss s :
  execute_all exec o ss s = execute_all documented o ss s.
Proof.
  revert s. induction ss as [|st ss IH]; intros s; cbn [execute_all]; [done|].
  rewrite exec_documented. by destruct (documented o st s).
Qed.

Lemma execute_all_app exec o ss1 ss2 s s' :
  execute_all exec o ss1 s = Some s' ->
  execute_all exec o (ss1 ++ ss2) s = execute_all exec o ss2 s'.
Proof.
  revert s. induction ss1 as [|st ss1 IH]; intros s; cbn; [congruence|].
  destruct (exec o st s); [apply IH|done].
Qed.

Lemma execute_all_refused exec o ss1 ss2 s :
  execute_all exec o ss1 s = None -> execute_all exec o (ss1 ++ ss2) s = None.
Proof.
  revert s. induction ss1 as [|st ss1 IH]; intros s; cbn; [done|].
  destruct (exec o st s); [apply IH|done].
Qed.

(** ** Keys of rows that are rewritten *)

Lemma key_of_ext cols r r' :
  (forall c, c ∈ cols -> field c r' = field c r) -> key_of cols r' = key_of cols r.
Proof. intros H. unfold key_of. by apply list_fmap_ext; intros i c Hc; apply H, (list_elem_of_lookup_2 _ i). Qed.

Lemma keys_map cols f rs :
  (forall r c, c ∈ cols -> field c (f r) = field c r) ->
  keys cols (f <$> rs) = keys cols rs.
Proof.
  intros H. unfold keys. f_equal. rewrite <- list_fmap_compose.
  apply list_fmap_ext. intros i r _. by apply key_of_ext; auto.
Qed.

Lemma filter_map {A} (p : A -> bool) (f : A -> A) l :
  (forall x, p (f x) = p x) -> List.filter p (f <$> l) = f <$> List.filter p l.
Proof.
  intros H. induction l as [|x l IH]; [done|]. cbn. rewrite H, IH. by destruct (p x).
Qed.

Lemma unique_rows_map cols w f rs :
  (forall r c, c ∈ cols -> field c (f r) = field c r) ->
  (forall r, in_predicate w (f r) = in_predicate w r) ->
  unique_rows cols w (f <$> rs) = unique_rows cols w rs.
Proof.
  intros Hk Hw. unfold unique_rows. by rewrite filter_map, keys_map.
Qed.

(** [UPDATE ... SET status] keeps every check that does not look at what it writes,
    and the predicates that hold both statuses. *)
Section stamp.
Context (o : oracle) (from to stamp : string).
Abbreviation f := (stamp_row o from to stamp).

Lemma field_stamp c r : c <> "status" -> c <> stamp -> field c (f r) = field c r.
Proof.
  intros H1 H2. unfold stamp_row. case_bool_decide; [|done].
  unfold field. by rewrite !lookup_insert_ne by congruence.
Qed.

Definition untouched (cols : list string) : bool :=
  negb (bool_decide ("status" ∈ cols)) && negb (bool_decide (stamp ∈ cols)).

Lemma untouched_field cols r c : untouched cols = true -> c ∈ cols -> field c (f r) = field c r.
Proof.
  unfold untouched. rewrite andb_true_iff, !negb_true_iff, !bool_decide_eq_false.
  intros [H1 H2] Hc. by apply field_stamp; intros ->.
Qed.

Definition covers (w : option (string * string * list string)) : bool :=
  match w with
  | None => true
  | Some (c, _, ls) =>
      bool_decide (c = "status") && negb (String.eqb stamp "status")
      && bool_decide (from ∈ ls) && bool_decide (to ∈ ls)
  end.

Lemma covers_predicate w r : covers w = true -> in_predicate w (f r) = in_predicate w r.
Proof.
  destruct w as [[[c n] ls]|]; cbn; [|done].
  rewrite !andb_true_iff, !bool_decide_eq_true, negb_true_iff. intros [[[-> Hs] Hf] Ht].
  apply String.eqb_neq in Hs. unfold stamp_row. case_bool_decide as E; [|done].
  rewrite E. unfold field. rewrite lookup_insert_ne by done. rewrite lookup_insert_eq. cbn.
  by rewrite !bool_decide_eq_true_2.
Qed.

(** No check of the table depends on what the update writes. *)
Definition stamp_safe (d : database) (t : string) : bool :=
  match db_tables d !! t with
  | Some tb => forallb (fun '(_, c) => untouched (constraint_cols c) &&
      match c with ForeignKey _ ref _ => negb (String.eqb ref t) | _ => true end)
      (map_to_list (constraints tb))
  | None => true
  end
  && forallb (fun '(_, i) => negb (bool_decide (ix_table i = t)) ||
       (untouched (ix_columns i) && covers (ix_where i))) (map_to_list (db_indexes d)).

Lemma satisfies_stamp d t c :
  untouched (constraint_cols c) = true ->
  (match c with ForeignKey _ ref _ => negb (String.eqb ref t) | _ => true end = true) ->
  satisfies (put_rows d t (f <$> rows_of d t)) t c = satisfies d t c.
Proof.
  intros Hu Hr. assert (Hrows : rows_of (put_rows d t (f <$> rows_of d t)) t = f <$> rows_of d t).
  { cbn. unfold replace_rows. by rewrite String.eqb_refl. }
  destruct c as [cols|cols|cols ref ref_cols]; cbn [satisfies constraint_cols] in *;
    rewrite Hrows.
  - apply unique_rows_map; [|done]. intros r c. by apply untouched_field.
  - apply unique_rows_map; [|done]. intros r c. by apply untouched_field.
  - rewrite keys_map by (intros r c; by apply untouched_field).
    apply negb_true_iff in Hr. cbn. unfold replace_rows. by rewrite Hr.
Qed.

Lemma forallb_ext_in {A} (p q : A -> bool) l :
  (forall x, In x l -> p x = q x) -> forallb p l = forallb q l.
Proof. induction l as [|x l IH]; cbn; [done|]. intros H. rewrite H, IH; auto. Qed.

Lemma stamp_consistent d t :
  stamp_safe d t = true ->
  table_consistent (put_rows d t (f <$> rows_of d t)) t = table_consistent d t.
Proof.
  unfold stamp_safe, table_consistent. rewrite andb_true_iff. intros [Hc Hi]. f_equal.
  - cbn [db_tables put_rows set_rows]. destruct (db_tables d !! t) as [tb|]; [|done].
    rewrite forallb_forall in Hc. apply forallb_ext_in. intros [n c] Hin.
    specialize (Hc _ Hin). cbn in Hc. apply andb_true_iff in Hc as [Hu Hr].
    by apply satisfies_stamp.
  - cbn [db_indexes put_rows set_rows]. rewrite forallb_forall in Hi.
    apply forallb_ext_in. intros [n i] Hin. specialize (Hi _ Hin). cbn in Hi.
    destruct (bool_decide (ix_table i = t)) eqn:E; cbn in *; [|done].
    apply bool_decide_eq_true in E. apply andb_true_iff in Hi as [Hu Hw].
    unfold index_holds. cbn. unfold replace_rows. rewrite E, String.eqb_refl.
    apply unique_rows_map; [|intros r; by apply covers_predicate].
    intros r c. by apply untouched_field.
Qed.
End stamp.

(** ** Stepping through a migration over arbitrary rows *)

(** Statements that neither read nor write rows. *)
Definition rowless (st : statement) : bool :=
  match st with
  | SetDefault _ _ _ | DropConstraint _ _ _ | DropIndex _ _ | CreateEnum _ _ | DropType _
  | RenameType _ _ | CreateSequence _ _ _ | DropSequence _ _ => true
  | _ => false
  end.

Definition put_back (rows : string -> list row) (s : session) : session :=
  Session (set_rows (db s) rows) (memo s).

Lemma rowless_step o o' st d rows m :
  rowless st = true ->
  documented o st (Session (set_rows d rows) m)
    = put_back rows <$> documented o' st (Session d m).
Proof.
  unfold put_back.
  destruct st as [| | | |t c e| | |t n ie| |n ie|n ls|n|a b|n t c|n ie| |]; intros H; try done;
    cbn [documented db memo set_rows db_tables db_indexes db_enums db_sequences].
  - destruct (db_tables d !! t) as [tb|]; [|done]. by destruct (find_column c tb).
  - destruct (db_tables d !! t) as [tb|]; [|done].
    destruct (constraints tb !! n); [done|]. by destruct ie.
  - destruct (db_indexes d !! n); [done|]. by destruct ie.
  - by destruct (db_enums d !! n).
  - destruct (db_enums d !! n); [|done].
    change (type_in_use (set_rows d rows) n) with (type_in_use d n).
    by destruct (type_in_use d n).
  - destruct (db_enums d !! a); [|done]. by destruct (db_enums d !! b).
  - by destruct (db_sequences d !! n).
  - change (sequence_in_use (set_rows d rows) n) with (sequence_in_use d n).
    destruct (db_sequences d !! n); [by destruct (sequence_in_use d n)|by destruct ie].
Qed.

(** Equality of schemas, to be computed. *)
Definition same_schema (d d' : database) : bool := bool_decide (schema d = schema d').

Lemma set_rows_schema d d' rows : same_schema d d' = true -> set_rows d rows = set_rows d' rows.
Proof.
  intros H. apply bool_decide_eq_true in H. destruct d, d'. unfold schema, set_rows in *.
  cbn in *. congruence.
Qed.

Lemma put_rows_set d rows t rs :
  put_rows (set_rows d rows) t rs = set_rows d (replace_rows rows t rs).
Proof. done. Qed.

Lemma set_indexes_rows d rows i :
  set_indexes (set_rows d rows) i = set_rows (set_indexes d i) rows.
Proof. done. Qed.

Definition leads_to (ss : list statement) (d d' : database) : bool :=
  match execute_all documented any_oracle ss (Session d ∅) with
  | Some s => same_schema (db s) d' && bool_decide (memo s = ∅)
  | None => false
  end.

(** Rowless statements are run on the schema alone. *)
Lemma execute_rowless_rows o ss d rows m :
  forallb rowless ss = true ->
  execute_all documented o ss (Session (set_rows d rows) m)
    = put_back rows <$> execute_all documented any_oracle ss (Session d m).
Proof.
  revert d m. induction ss as [|st ss IH]; intros d m Hl; cbn in *; [done|].
  apply andb_true_iff in Hl as [H1 Hl]. rewrite (rowless_step _ any_oracle) by done.
  destruct (documented any_oracle st (Session d m)) as [[d1 m1]|]; [|done]. cbn. by apply IH.
Qed.

Lemma execute_rowless o ss d d' rows :
  forallb rowless ss = true -> leads_to ss d d' = true ->
  execute_all documented o ss (Session (set_rows d rows) ∅) = Some (Session (set_rows d' rows) ∅).
Proof.
  intros Hl Hd. rewrite execute_rowless_rows by done. unfold leads_to in Hd.
  destruct (execute_all _ _ _ _) as [s|]; [|done]. apply andb_true_iff in Hd as [Hs Hm].
  apply bool_decide_eq_true in Hm. cbn. unfold put_back. by rewrite Hm, (set_rows_schema _ d').
Qed.

Lemma execute_chain exec o ss1 ss2 s s' r :
  execute_all exec o ss1 s = Some s' -> execute_all exec o ss2 s' = r ->
  execute_all exec o (ss1 ++ ss2) s = r.
Proof. intros H <-. by apply execute_all_app. Qed.

Lemma execute_one exec o st s r : exec o st s = r -> execute_all exec o [st] s = r.
Proof. intros <-. cbn. by destruct (exec o st s). Qed.

(** The schema after [k] statements of a migration that starts from [db_at n]. *)
Definition stage (n : nat) (ss : list statement) (k : nat) : database :=
  result_db (execute_all documented any_oracle (firstn k ss) (Session (db_at n) ∅)).

(** Computed with [vm_compute] only. *)
#[local] Opaque db_at stage.

Lemma update_status_step o t from to stamp d m :
  bool_decide (is_Some (db_tables d !! t)) = true -> stamp_safe from to stamp d t = true ->
  table_consistent d t = true ->
  documented o (UpdateStatus t from to stamp) (Session d m)
    = Some (Session (put_rows d t (stamp_row o from to stamp <$> rows_of d t)) m).
Proof.
  intros Ht Hs Hc. apply bool_decide_eq_true in Ht as [tb Ht].
  cbn [documented db memo]. rewrite Ht, stamp_consistent, Hc; done.
Qed.

(** A row whose status is one of the labels. *)
Definition labelled (labels : list string) (r : row) : Prop :=
  exists l, l ∈ labels /\ r !! "status" = Some (VLabel l).

Lemma cast_rows o d n labels rs k :
  default [] (db_enums d !! n) = labels -> Forall (labelled labels) rs ->
  map_rows (fun i r => (fun v => <["status" := v]> r)
      <$> cast o d (Enum n) CastLabel i (field "status" r)) k rs = Some rs.
Proof.
  intros Hn H. revert k. induction H as [|r rs (l & Hl & Hr) _ IH]; intros k; [done|].
  cbn [map_rows]. rewrite IH. unfold field at 1. rewrite Hr. cbn. rewrite Hn.
  rewrite bool_decide_eq_true_2 by done. cbn. by rewrite insert_id.
Qed.

(** The column exists, has no default, and no key or index predicate holds it. *)
Definition alterable (d : database) (t c : string) : bool :=
  match db_tables d !! t with
  | Some tb =>
      match find_column c tb with Some x => bool_decide (col_default x = None) | None => false end
  | None => false
  end && negb (in_foreign_key d t c || in_index_predicate d t c).

Definition retyped (d : database) (t c : string) (ty : sql_type) : database :=
  match db_tables d !! t with
  | Some tb =>
      set_table d t (update_column c (fun x => Column ty (nullable x) (col_default x)) tb)
  | None => d
  end.

Lemma retyped_rows d rows t c ty : retyped (set_rows d rows) t c ty = set_rows (retyped d t c ty) rows.
Proof. unfold retyped. cbn. by destruct (db_tables d !! t). Qed.

Lemma alter_type_step o d m t c ty u rs :
  alterable d t c = true ->
  map_rows (fun n r => (fun v => <[c := v]> r) <$> cast o d ty u n (field c r)) 0 (rows_of d t)
    = Some rs ->
  table_consistent (put_rows (retyped d t c ty) t rs) t = true ->
  documented o (AlterType t c ty u) (Session d m)
    = Some (Session (put_rows (retyped d t c ty) t rs) m).
Proof.
  unfold alterable, retyped. intros Ha Hr Hc. cbn [documented db memo]. unfold alter_type.
  destruct (db_tables d !! t) as [tb|]; [|done]. apply andb_true_iff in Ha as [Ha Hg].
  destruct (find_column c tb) as [x|]; [|done]. apply bool_decide_eq_true in Ha.
  apply negb_true_iff, orb_false_iff in Hg as [-> ->]. by rewrite Ha, Hr, Hc.
Qed.

Lemma index_step o d m name i :
  db_indexes d !! name = None -> bool_decide (is_Some (db_tables d !! ix_table i)) = true ->
  documented o (CreateUniqueIndex name i) (Session d m)
    = if index_holds d i
      then Some (Session (set_indexes d (<[name := i]> (db_indexes d))) m) else None.
Proof.
  intros Hn Ht. apply bool_decide_eq_true in Ht as [tb Ht]. cbn [documented db memo].
  by rewrite Hn, Ht.
Qed.

(** Consistency looks at the rows, the constraints and the indexes only. *)
Lemma consistent_weaken d0 rows d t :
  table_consistent (set_rows d0 rows) t = true ->
  (forall t', rows_of d t' = rows t') ->
  constraints <$> db_tables d !! t = constraints <$> db_tables d0 !! t ->
  db_indexes d = ∅ ->
  table_consistent d t = true.
Proof.
  intros Hc Hr Hk Hi. unfold table_consistent in *. apply andb_true_iff in Hc as [Hc _].
  rewrite Hi, map_to_list_empty, andb_true_r. cbn [db_tables set_rows] in Hc.
  destruct (db_tables d !! t) as [tb|], (db_tables d0 !! t) as [tb0|]; [|done..].
  injection Hk as ->. rewrite forallb_forall in *. intros [n c] Hin.
  specialize (Hc _ Hin). unfold satisfies in *. by destruct c; rewrite !Hr.
Qed.

(** ** The backfill of [CREATED] jobs *)

Module Backfill.
Definition old_labels : list string := ["CREATED"; "QUEUED"; "STARTED"; "COMPLETED"; "FAILED"].
Abbreviation statements := remove_created_from_job_status_enum.upgrade.
Abbreviation at_step := (stage 4 statements).

Section run.
Context (o : oracle) (rows : string -> list row).
Abbreviation backfilled := (stamp_row o "CREATED" "QUEUED" "queued_at" <$> rows "jobs").
Definition rows' : string -> list row := replace_rows rows "jobs" backfilled.
Hypothesis Hconsistent : table_consistent (set_rows (db_at 4) rows) "jobs" = true.
Hypothesis Hlabels : Forall (labelled old_labels) (rows "jobs").

Lemma backfilled_labels : Forall (labelled job_status_names) backfilled.
Proof.
  apply Forall_fmap. eapply Forall_impl; [|exact Hlabels].
  intros r (l & Hl & Hr). unfold compose, stamp_row, field. rewrite Hr. cbn.
  case_bool_decide as E.
  - exists "QUEUED". split; [apply list_elem_of_In; cbn; tauto|]. rewrite lookup_insert_ne by done. apply lookup_insert_eq.
  - exists l. split; [|done]. unfold old_labels in Hl. unfold job_status_names.
    apply elem_of_cons in Hl as [->|Hl]; [by destruct E|done].
Qed.

Lemma updated : table_consistent (set_rows (db_at 4) rows') "jobs" = true.
Proof.
  refine (eq_trans _ Hconsistent).
  apply (stamp_consistent o "CREATED" "QUEUED" "queued_at" (set_rows (db_at 4) rows)).
  vm_compute. reflexivity.
Qed.

(** The new index covers the rows that the old one covered, with the same keys. *)
Lemma new_index_holds :
  unique_rows ["account_id"; "document_id"] (Some ("status", "job_status_enum", ["QUEUED"; "STARTED"]))
    backfilled = true.
Proof.
  pose proof updated as H. unfold table_consistent in H. apply andb_true_iff in H as [_ H].
  rewrite forallb_forall in H.
  assert (Hin : In ("one_active_job_per_document",
    Index "jobs" ["account_id"; "document_id"]
      (Some ("status", "job_status_enum", ["CREATED"; "QUEUED"; "STARTED"])))
    (map_to_list (db_indexes (set_rows (db_at 4) rows')))).
  { vm_compute. by left. }
  specialize (H _ Hin). cbn in H. unfold index_holds in H.
  cbn [ix_columns ix_where ix_table] in H.
  change (rows_of (set_rows (db_at 4) rows') "jobs") with backfilled in H.
  unfold unique_rows in *. apply bool_decide_eq_true in H. apply bool_decide_eq_true.
  replace (List.filter (in_predicate (Some ("status", "job_status_enum", ["QUEUED"; "STARTED"])))
             backfilled)
    with (List.filter (in_predicate (Some ("status", "job_status_enum",
             ["CREATED"; "QUEUED"; "STARTED"]))) backfilled); [done|].
  clear H Hin. pose proof backfilled_labels as Hl. induction Hl as [|r rs (l & Hl & Hr) _ IH]; [done|].
  cbn [List.filter in_predicate]. unfold field. rewrite Hr. cbn [default from_option id].
  assert (bool_decide (l ∈ ["CREATED"; "QUEUED"; "STARTED"])
          = bool_decide (l ∈ ["QUEUED"; "STARTED"])) as ->.
  { apply list_elem_of_In in Hl. by destruct Hl as [<-|[<-|[<-|[<-|[]]]]]. }
  destruct (bool_decide _); [f_equal|]; apply IH.
Qed.

(** The rows after the cast, which writes each status back. *)
Definition rows'' : string -> list row := replace_rows rows' "jobs" backfilled.

Lemma rows''_rows' t : rows'' t = rows' t.
Proof.
  unfold rows'', rows', replace_rows. by destruct (String.eqb t "jobs").
Qed.

Abbreviation part i j := (firstn j (skipn i statements)).

Lemma run_update :
  execute_all documented o (part 0 1) (Session (set_rows (db_at 4) rows) ∅)
    = Some (Session (set_rows (db_at 4) rows') ∅).
Proof.
  apply execute_one. refine (update_status_step o "jobs" _ _ _ (set_rows (db_at 4) rows) _ _ _ _).
  - vm_compute. reflexivity.
  - vm_compute. reflexivity.
  - exact Hconsistent.
Qed.

Lemma run_cast :
  execute_all documented o (part 4 1) (Session (set_rows (at_step 4) rows') ∅)
    = Some (Session (set_rows (at_step 5) rows'') ∅).
Proof.
  apply execute_one. etransitivity.
  - refine (alter_type_step o (set_rows (at_step 4) rows') _ _ _ _ _ backfilled _ _ _).
    + vm_compute. reflexivity.
    + refine (cast_rows _ _ _ job_status_names _ _ _ backfilled_labels). vm_compute. reflexivity.
    + rewrite retyped_rows. eapply consistent_weaken; [exact updated|exact rows''_rows'|..].
      * apply (bool_decide_unpack _). vm_compute. exact I.
      * apply (bool_decide_unpack _). vm_compute. exact I.
  - rewrite retyped_rows, put_rows_set. fold rows''.
    rewrite (set_rows_schema _ (at_step 5)) by (vm_compute; reflexivity). reflexivity.
Qed.

Lemma run_index :
  execute_all documented o (part 7 1) (Session (set_rows (at_step 7) rows'') ∅)
    = Some (Session (set_rows (at_step 8) rows'') ∅).
Proof.
  apply execute_one. etransitivity.
  - refine (index_step o (set_rows (at_step 7) rows'') _ _ _ _ _); [|vm_compute; reflexivity].
    apply (bool_decide_unpack _). vm_compute. exact I.
  - unfold index_holds. cbn [ix_columns ix_where ix_table].
    change (rows_of (set_rows (at_step 7) rows'') "jobs") with backfilled.
    rewrite new_index_holds, set_indexes_rows.
    rewrite (set_rows_schema _ (at_step 8)) by (vm_compute; reflexivity). reflexivity.
Qed.

Lemma run_backfill :
  execute_all documented o statements (Session (set_rows (db_at 4) rows) ∅)
    = Some (Session (set_rows (db_at 5) rows'') ∅).
Proof.
  change statements with (part 0 1 ++ part 1 3 ++ part 4 1 ++ part 5 2 ++ part 7 1 ++ part 8 1)%list.
  apply (execute_chain _ _ _ _ _ _ _ run_update).
  eapply execute_chain; [apply execute_rowless; [reflexivity|]|].
  { instantiate (1 := at_step 4). vm_compute. reflexivity. }
  apply (execute_chain _ _ _ _ _ _ _ run_cast).
  eapply execute_chain; [apply execute_rowless; [reflexivity|]|].
  { instantiate (1 := at_step 7). vm_compute. reflexivity. }
  apply (execute_chain _ _ _ _ _ _ _ run_index).
  apply execute_rowless; [reflexivity|]. vm_compute. reflexivity.
Qed.
End run.
End Backfill.

(** ** The end of the chain *)

(** The member name of a status, which is its label in the database. *)
Definition job_status_name (s : JobStatus) : string :=
  match s with
  | QUEUED => "QUEUED" | STARTED => "STARTED" | COMPLETED => "COMPLETED" | FAILED => "FAILED"
  end.

Definition active_labels : list string := ["QUEUED"; "STARTED"].

Definition one_active_job : index :=
  Index "jobs" ["account_id"; "document_id"] (Some ("status", "job_status_enum", active_labels)).

(** The declaration of a constraint of [Models]: its table and what it says, or the
    index. *)
Definition declaration (c : Models.constraint) : option (string * Pg.constraint) :=
  match c with
  | DocumentsPkey => Some ("documents", PrimaryKey ["id"])
  | DocumentsObjectKey => Some ("documents", Unique ["object_key"])
  | DocumentsAccountFkey => Some ("documents", account_fkey)
  | JobsPkey => Some ("jobs", PrimaryKey ["id"])
  | OneActiveJobPerDocument => None
  | JobsAccountFkey => Some ("jobs", account_fkey)
  | JobsDocumentFkey => Some ("jobs", document_fkey)
  | ArtifactsPkey => Some ("artifacts", PrimaryKey ["id"])
  | ArtifactsJobFkey => Some ("artifacts", job_fkey)
  | ArtifactsDocumentFkey => Some ("artifacts", document_fkey)
  end.

(** The database declares the constraint under the name by which it is reported. *)
Definition declares (d : database) (c : Models.constraint) : bool :=
  match declaration c with
  | Some (t, k) =>
      match db_tables d !! t with
      | Some tb => bool_decide (constraints tb !! constraint_name c = Some k)
      | None => false
      end
  | None => bool_decide (db_indexes d !! constraint_name c = Some one_active_job)
  end.

Lemma upgrade_to_head_documented exec `{!PostgresDdl exec} o d :
  upgrade_to_head exec o d = upgrade_to_head documented o d.
Proof. unfold upgrade_to_head. by rewrite execute_all_documented. Qed.

(** An upgrade that succeeds ends at the head. *)
Lemma upgraded_head exec o d d' :
  upgrade_to_head exec o d = (Some tt, d') -> d_version d' = Some head.
Proof.
  destruct d as [d v]. unfold upgrade_to_head. cbn [d_version d_db]. intros H.
  destruct (known_revision v) eqn:Ek; [|done].
  destruct (execute_all _ _ _ _) as [s|]; [|done]. injection H as <-. cbn [d_version].
  destruct v as [r|]; [|by vm_compute]. unfold known_revision in Ek.
  apply existsb_exists in Ek as (m & Hm & Hr). apply String.eqb_eq in Hr as <-.
  cbn [In versions] in Hm.
  repeat (destruct Hm as [<-|Hm]; [by vm_compute|]). done.
Qed.

(** The schema of [models.py], without rows. *)
Definition models_db : database :=
  result_db (execute_all documented any_oracle models_metadata (Session empty_database ∅)).

(** An upgrade that ends at the head, with the schema of the last migration. *)
Definition reaches_head (r : option unit * deployed) : bool :=
  match r with
  | (Some tt, Deployed d v) => same_schema d (db_at 8) && bool_decide (v = Some head)
  | (None, _) => false
  end.

Lemma reaches_head_true r :
  reaches_head r = true ->
  exists d, r = (Some tt, Deployed d (Some head)) /\ schema d = schema (db_at 8).
Proof.
  destruct r as [[[]|] [d v]]; [|done]. cbn. rewrite andb_true_iff. intros [H1 H2].
  apply bool_decide_eq_true in H1, H2. exists d. split; congruence.
Qed.

Lemma from_empty o : reaches_head (upgrade_to_head documented o (Deployed empty_database None)) = true.
Proof. vm_compute. reflexivity. Qed.

Lemma models_run o :
  match execute_all documented o models_metadata (Session empty_database ∅) with
  | Some m => same_schema (db m) models_db
  | None => false
  end = true.
Proof. vm_compute. reflexivity. Qed.

#[local] Opaque models_db.

(** Two schemas that differ by the partial index only. *)
Definition index_apart (d m : database) : Prop :=
  db_tables d = db_tables m /\ db_enums d = db_enums m /\ db_sequences d = db_sequences m /\
  db_indexes m = ∅ /\ db_indexes d = {["one_active_job_per_document" := one_active_job]}.

#[local] Instance index_apart_dec d m : Decision (index_apart d m).
Proof. unfold index_apart. apply _. Defined.

Lemma head_and_models : index_apart (db_at 8) models_db.
Proof. apply (bool_decide_unpack _). vm_compute. exact I. Qed.

Lemma index_apart_schema d d' m m' :
  schema d = schema d' -> schema m = schema m' -> index_apart d' m' -> index_apart d m.
Proof.
  intros (E1&E2&E3&E4)%schema_fields (F1&F2&F3&F4)%schema_fields (?&?&?&?&?).
  split_and!; congruence.
Qed.

Lemma head_declares c : declares (db_at 8) c = true.
Proof. destruct c; vm_compute; reflexivity. Qed.

Lemma declares_schema d d' c : schema d = schema d' -> declares d c = declares d' c.
Proof. unfold schema, declares. intros [= -> -> _ _]. done. Qed.

Lemma downgrade_one_documented exec `{!PostgresDdl exec} o d :
  downgrade_one exec o d = downgrade_one documented o d.
Proof.
  unfold downgrade_one. destruct (List.find _ _); [|done]. by rewrite execute_all_documented.
Qed.

(** C23: the migrations lead from an empty database to the schema [models.py] declares, with
    one index more, [one_active_job_per_document]; its predicate holds for the jobs the
    model of the tables calls active, and every constraint whose violation that model
    reports is declared under the reported name. *)
Theorem head_matches_models exec `{!PostgresDdl exec} o :
  exists d m,
    upgrade_to_head exec o (Deployed empty_database None) = (Some tt, Deployed d (Some head)) /\
    execute_all exec o models_metadata (Session empty_database ∅) = Some m /\
    index_apart d (db m) /\
    (forall j, Job.active j = bool_decide (job_status_name (Job.status j) ∈ active_labels)) /\
    (forall c, declares d c = true).
Proof.
  rewrite upgrade_to_head_documented, execute_all_documented by done.
  destruct (reaches_head_true _ (from_empty o)) as (d & -> & Hd).
  pose proof (models_run o) as Hm. destruct (execute_all _ _ _ _) as [m|]; [|done].
  apply bool_decide_eq_true in Hm. exists d, m. split_and!; [done..| | |].
  - exact (index_apart_schema _ _ _ _ Hd Hm head_and_models).
  - intros []. cbn. unfold Job.active. cbn. by destruct status.
  - intros c. rewrite (declares_schema _ (db_at 8)) by done. apply head_declares.
Qed.

Lemma head_matches_models_witness :
  exists d m,
    upgrade_to_head documented any_oracle (Deployed empty_database None)
      = (Some tt, Deployed d (Some head)) /\
    execute_all documented any_oracle models_metadata (Session empty_database ∅) = Some m /\
    index_apart d (db m) /\
    (forall j, Job.active j = bool_decide (job_status_name (Job.status j) ∈ active_labels)) /\
    (forall c, declares d c = true).
Proof. exact (head_matches_models documented any_oracle). Defined.

(** ** Populated databases *)

(** The migration that removes [CREATED] loses no job: on every consistent database it
    succeeds, queues exactly the created jobs, stamped with the time, and leaves the
    other rows as they were; the narrowed index holds for the result. *)
Theorem created_jobs_backfilled exec `{!PostgresDdl exec} o d :
  schema d = schema (db_at 4) -> table_consistent d "jobs" = true ->
  Forall (labelled Backfill.old_labels) (rows_of d "jobs") ->
  exists d',
    execute_all exec o remove_created_from_job_status_enum.upgrade (Session d ∅)
      = Some (Session d' ∅) /\
    schema d' = schema (db_at 5) /\ index_holds d' one_active_job = true /\
    Forall (labelled job_status_names) (rows_of d' "jobs") /\
    forall t, rows_of d' t =
      if String.eqb t "jobs" then stamp_row o "CREATED" "QUEUED" "queued_at" <$> rows_of d "jobs"
      else rows_of d t.
Proof.
  intros Hd Hc Hl. rewrite execute_all_documented by done.
  rewrite (same_schema_rows _ _ Hd) in Hc |- *. set (rows := db_rows d) in *.
  exists (set_rows (db_at 5) (Backfill.rows'' o rows)). split_and!.
  - by apply Backfill.run_backfill.
  - apply schema_set_rows.
  - by apply (Backfill.new_index_holds o rows).
  - by apply (Backfill.backfilled_labels o rows).
  - intros t. apply Backfill.rows''_rows'.
Qed.

(** One account; a created, a queued and a completed job of three documents. *)
Definition demo_job (i doc : Z) (status : string) : row :=
  {["id" := VInt i; "account_id" := VInt 1; "document_id" := VInt doc; "status" := VLabel status]}.

Definition demo_rows (second : Z) : string -> list row := fun t =>
  if String.eqb t "accounts" then [{["id" := VInt 1; "api_key_hash" := VText "digest"]}]
  else if String.eqb t "documents" then [{["id" := VInt 5]}; {["id" := VInt 6]}]
  else if String.eqb t "jobs" then
    [demo_job 1 5 "CREATED"; demo_job 2 second "STARTED"; demo_job 3 5 "COMPLETED"]
  else [].

Lemma demo_labels second : Forall (labelled Backfill.old_labels) (demo_rows second "jobs").
Proof.
  apply Forall_cons_2; [|apply Forall_cons_2; [|apply Forall_cons_2; [|apply Forall_nil_2]]].
  - exists "CREATED". split; [apply list_elem_of_In; cbn; auto|vm_compute; reflexivity].
  - exists "STARTED". split; [apply list_elem_of_In; cbn; auto|vm_compute; reflexivity].
  - exists "COMPLETED". split; [apply list_elem_of_In; cbn; auto|vm_compute; reflexivity].
Qed.

Lemma created_jobs_backfilled_witness :
  let d := set_rows (db_at 4) (demo_rows 6) in
  exists d',
    execute_all documented any_oracle remove_created_from_job_status_enum.upgrade (Session d ∅)
      = Some (Session d' ∅) /\
    schema d' = schema (db_at 5) /\ index_holds d' one_active_job = true /\
    Forall (labelled job_status_names) (rows_of d' "jobs") /\
    forall t, rows_of d' t =
      if String.eqb t "jobs"
      then stamp_row any_oracle "CREATED" "QUEUED" "queued_at" <$> rows_of d "jobs"
      else rows_of d t.
Proof.
  apply (created_jobs_backfilled documented any_oracle (set_rows (db_at 4) (demo_rows 6))).
  - apply schema_set_rows.
  - vm_compute. reflexivity.
  - apply demo_labels.
Defined.

(** The migrations after the backfill empty every table but [accounts], and so succeed on
    any rows. *)
Definition later : list statement := flat_map upgrade (skipn 5 (upgrade_path None)).

Definition emptied (rows : string -> list row) (s : session) : Prop :=
  same_schema (db s) (db_at 8) = true /\ rows_of (db s) "accounts" = rows "accounts" /\
  rows_of (db s) "documents" = [] /\ rows_of (db s) "jobs" = [] /\
  rows_of (db s) "artifacts" = [].

Lemma some_with {A} (x : option A) (P : A -> Prop) :
  match x with Some a => P a | None => False end -> exists a, x = Some a /\ P a.
Proof. destruct x as [a|]; [|done]. by exists a. Qed.

Lemma run_later rows o :
  exists s, execute_all documented o later (Session (set_rows (db_at 5) rows) ∅) = Some s /\
    emptied rows s.
Proof. apply some_with. vm_compute. auto. Qed.

(** The first version of the index. *)
Definition first_index : index :=
  Index "jobs" ["account_id"; "document_id"]
    (Some ("status", "job_status_enum", ["CREATED"; "QUEUED"; "STARTED"])).

(** With its only index built, a database that was consistent still is. *)
Lemma consistent_with_index d0 d rows t name i :
  db_tables d = db_tables d0 -> map_to_list (db_indexes d) = [(name, i)] ->
  table_consistent (set_rows d0 rows) t = true -> index_holds (set_rows d0 rows) i = true ->
  table_consistent (set_rows d rows) t = true.
Proof.
  destruct d, d0. unfold table_consistent. cbn [db_tables db_indexes set_rows].
  intros -> -> Hc Hx. apply andb_true_iff in Hc as [Hc _]. apply andb_true_iff.
  split; [exact Hc|]. cbn [forallb]. rewrite andb_true_r. apply orb_true_iff. right. exact Hx.
Qed.

Lemma indexed_consistent rows :
  table_consistent (set_rows (db_at 3) rows) "jobs" = true ->
  index_holds (set_rows (db_at 3) rows) first_index = true ->
  table_consistent (set_rows (db_at 4) rows) "jobs" = true.
Proof.
  apply (consistent_with_index _ _ _ _ "one_active_job_per_document").
  - apply (bool_decide_unpack _). vm_compute. exact I.
  - apply (bool_decide_unpack _). vm_compute. exact I.
Qed.

(** The upgrades that remain after [add_file_name_to_documents]. *)
Lemma remaining_statements :
  flat_map upgrade (upgrade_path (Some "c3890ddba5ac"))
  = ([active_index ["CREATED"; "QUEUED"; "STARTED"]]
     ++ remove_created_from_job_status_enum.upgrade ++ later)%list.
Proof. vm_compute. reflexivity. Qed.

Lemma run_first_index o rows :
  execute_all documented o [active_index ["CREATED"; "QUEUED"; "STARTED"]]
    (Session (set_rows (db_at 3) rows) ∅)
  = if index_holds (set_rows (db_at 3) rows) first_index
    then Some (Session (set_rows (db_at 4) rows) ∅) else None.
Proof.
  apply execute_one. etransitivity.
  - refine (index_step o (set_rows (db_at 3) rows) _ _ _ _ _); [|vm_compute; reflexivity].
    apply (bool_decide_unpack _). vm_compute. exact I.
  - fold first_index. rewrite set_indexes_rows.
    rewrite (set_rows_schema (set_indexes _ _) (db_at 4)) by (vm_compute; reflexivity).
    reflexivity.
Qed.

(** C37: from the revision before the partial index, the upgrade to the head decides on the
    data: it is refused, and changes nothing, exactly if an account has two unfinished jobs
    for one document; otherwise it reaches the head, keeps every account and empties the other
    tables. *)
Theorem upgrade_decides exec `{!PostgresDdl exec} o d :
  d_version d = Some "c3890ddba5ac" -> schema (d_db d) = schema (db_at 3) ->
  table_consistent (d_db d) "jobs" = true ->
  Forall (labelled Backfill.old_labels) (rows_of (d_db d) "jobs") ->
  if index_holds (d_db d) first_index then
    exists d', upgrade_to_head exec o d = (Some tt, Deployed d' (Some head)) /\
      schema d' = schema (db_at 8) /\ rows_of d' "accounts" = rows_of (d_db d) "accounts" /\
      rows_of d' "documents" = [] /\ rows_of d' "jobs" = [] /\ rows_of d' "artifacts" = []
  else upgrade_to_head exec o d = (None, d).
Proof.
  destruct d as [d v]. cbn [d_version d_db]. intros -> Hd Hc Hl.
  rewrite upgrade_to_head_documented by done.
  unfold upgrade_to_head. cbn [d_version d_db]. rewrite remaining_statements.
  rewrite (same_schema_rows _ _ Hd) in *. set (rows := db_rows d) in *.
  pose proof (run_first_index o rows) as Hf. pose proof (indexed_consistent rows Hc) as Hi.
  destruct (index_holds _ first_index).
  - specialize (Hi eq_refl).
    rewrite (execute_all_app _ _ _ _ _ _ Hf).
    rewrite (execute_all_app _ _ _ _ _ _ (Backfill.run_backfill o rows Hi Hl)).
    destruct (run_later (Backfill.rows'' o rows) o) as (s & -> & Hs & Ha & Hdoc & Hj & Hr).
    apply bool_decide_eq_true in Hs. exists (db s).
    split_and!; [reflexivity|exact Hs|exact Ha|exact Hdoc|exact Hj|exact Hr].
  - by rewrite (execute_all_refused _ _ _ _ _ Hf).
Qed.

Definition demo_deployed (second : Z) : deployed :=
  Deployed (set_rows (db_at 3) (demo_rows second)) (Some "c3890ddba5ac").

(** Two documents with an unfinished job each, and one with two. *)
Lemma upgrade_decides_witness :
  (exists d', upgrade_to_head documented any_oracle (demo_deployed 6)
                = (Some tt, Deployed d' (Some head)) /\
     schema d' = schema (db_at 8) /\
     rows_of d' "accounts" = rows_of (d_db (demo_deployed 6)) "accounts" /\
     rows_of d' "documents" = [] /\ rows_of d' "jobs" = [] /\ rows_of d' "artifacts" = []) /\
  upgrade_to_head documented any_oracle (demo_deployed 5) = (None, demo_deployed 5).
Proof.
  assert (Hyes : index_holds (d_db (demo_deployed 6)) first_index = true).
  { vm_compute. reflexivity. }
  assert (Hno : index_holds (d_db (demo_deployed 5)) first_index = false).
  { vm_compute. reflexivity. }
  pose proof (upgrade_decides documented any_oracle (demo_deployed 6) eq_refl
    (schema_set_rows _ _) ltac:(vm_compute; reflexivity) (demo_labels 6)) as H6.
  pose proof (upgrade_decides documented any_oracle (demo_deployed 5) eq_refl
    (schema_set_rows _ _) ltac:(vm_compute; reflexivity) (demo_labels 5)) as H5.
  rewrite Hyes in H6. rewrite Hno in H5. split; [exact H6|exact H5].
Defined.

(** ** Downgrades *)

Definition version_at (n : nat) : option string :=
  match n with O => None | S n => revision <$> (upgrade_path None !! n) end.

(** A column that loses its default. *)
Definition without_default (c : string) (t : table) : table :=
  Table ((fun p => if String.eqb p.1 c
                   then (p.1, Column (col_type p.2) (nullable p.2) None) else p) <$> columns t)
    (constraints t).

(** The types that [initial] creates with its tables. *)
Definition first_types : gmap string (list string) := {[
  "job_status_enum" := ["CREATED"; "QUEUED"; "STARTED"; "COMPLETED"; "FAILED"];
  "artifact_type_enum" := ["MARKDOWN"]
]}.

(** The schema that is left when the [n+1]-st migration is undone. *)
Definition undone (n : nat) : gmap string table * gmap string index * gmap string (list string)
    * gmap string (string * string) :=
  match n with
  | 0%nat => (∅, ∅, first_types, ∅)
  | 6%nat => let d := db_at 6 in
      (alter (without_default "file_name") "documents" (db_tables d), db_indexes d, db_enums d,
       db_sequences d)
  | _ => schema (db_at n)
  end.

(** What a downgrade from the [n+1]-st revision does, to be computed. *)
Definition downgrade_ok (o : oracle) (n : nat) : bool :=
  match downgrade_one documented o (Deployed (db_at (S n)) (version_at (S n))) with
  | (Some tt, d) =>
      bool_decide (d_version d = version_at n)
      && bool_decide (schema (d_db d) = undone n)
      && Bool.eqb (same_schema (d_db d) (db_at n)) (negb (n =? 0)%nat && negb (n =? 6)%nat)
      && (negb (n =? 0)%nat || negb (is_some (fst (upgrade_to_head documented o d))))
  | (None, _) => false
  end.

Lemma downgrades_ok o n : (n < List.length versions)%nat -> downgrade_ok o n = true.
Proof.
  intros H. do 8 (destruct n as [|n]; [vm_compute; reflexivity|]). cbn in H. lia.
Qed.

Lemma upgrade_refused exec o d :
  is_some (fst (upgrade_to_head exec o d)) = false -> upgrade_to_head exec o d = (None, d).
Proof.
  unfold upgrade_to_head. destruct (known_revision _); [|done].
  by destruct (execute_all _ _ _ _).
Qed.


