(* ===== verification/PyCsv.v ===== *)
(** * [csv] of the Python standard library, in the default dialect

    [writer] quotes a field if it holds a separator, a quote or a line end, and ends a row
    with a carriage return and a line feed; [reader] is the state machine that reads rows
    back; a text file opened for reading translates line ends first.  [parse_rows]
    reads back what [writerows] writes, as long as no field holds a carriage return. *)

From S2P Require Import Prelude.

Definition comma : ascii := ","%char.
Definition quote : ascii := ascii_of_N 34.
Definition cr : ascii := ascii_of_N 13.
Definition lf : ascii := ascii_of_N 10.

Definition eqc (a b : ascii) : bool := (code a =? code b)%N.

Lemma eqc_refl a : eqc a a = true.
Proof. apply N.eqb_refl. Qed.

Lemma eqc_eq a b : eqc a b = true -> a = b.
Proof.
  intros H%N.eqb_eq. rewrite <- (ascii_N_embedding a), <- (ascii_N_embedding b). congruence.
Qed.

(** ** Writing *)

Definition special (c : ascii) : bool := eqc c comma || eqc c quote || eqc c cr || eqc c lf.

Definition double_quotes (l : list ascii) : list ascii :=
  flat_map (fun c => if eqc c quote then [quote; quote] else [c]) l.

Definition write_field (l : list ascii) : list ascii :=
  if existsb special l then (quote :: double_quotes l ++ [quote])%list else l.

(** A row of one empty field is quoted, to tell it from an empty line. *)
Definition write_row (fields : list (list ascii)) : list ascii :=
  match fields with
  | [[]] => [quote; quote; cr; lf]
  | _ =>
      (fix go (fs : list (list ascii)) : list ascii :=
         match fs with
         | [] => [cr; lf]
         | [f] => write_field f ++ [cr; lf]
         | f :: fs => write_field f ++ comma :: go fs
         end) fields
  end%list.

Definition write_rows (rows : list (list (list ascii))) : list ascii := flat_map write_row rows.

(** ** Reading *)

(** The translation of line ends of a text file. *)
Fixpoint universal_newlines (l : list ascii) : list ascii :=
  match l with
  | [] => []
  | c :: l' =>
      if eqc c cr then
        lf :: match l' with
              | d :: l'' => if eqc d lf then universal_newlines l'' else universal_newlines l'
              | [] => []
              end
      else c :: universal_newlines l'
  end.

Inductive state : Type :=
| StartRecord | StartField | InField | InQuoted | QuoteInQuoted.

(** The reader's state: the fields of the record so far and the characters of the current
    field, both most recent first. *)
Record machine : Type := Machine { m_state : state; m_fields : list (list ascii); m_field : list ascii }.

Definition save (m : machine) : list (list ascii) := reverse (m_field m) :: m_fields m.

Definition start : machine := Machine StartRecord [] [].

(** One character; a finished record comes with the fresh machine. *)
Definition feed (m : machine) (c : ascii) : option (list (list ascii)) * machine :=
  match m_state m with
  | StartRecord | StartField =>
      if eqc c lf then
        (match m_state m with
         | StartRecord => Some []
         | _ => Some (reverse (save m))
         end, start)
      else if eqc c quote then (None, Machine InQuoted (m_fields m) [])
      else if eqc c comma then (None, Machine StartField (save m) [])
      else (None, Machine InField (m_fields m) [c])
  | InField =>
      if eqc c lf then (Some (reverse (save m)), start)
      else if eqc c comma then (None, Machine StartField (save m) [])
      else (None, Machine InField (m_fields m) (c :: m_field m))
  | InQuoted =>
      if eqc c quote then (None, Machine QuoteInQuoted (m_fields m) (m_field m))
      else (None, Machine InQuoted (m_fields m) (c :: m_field m))
  | QuoteInQuoted =>
      if eqc c quote then (None, Machine InQuoted (m_fields m) (c :: m_field m))
      else if eqc c lf then (Some (reverse (save m)), start)
      else if eqc c comma then (None, Machine StartField (save m) [])
      else (None, Machine InField (m_fields m) (c :: m_field m))
  end.

(** All records; a last one without a line end counts too. *)
Fixpoint read_rows (m : machine) (l : list ascii) : list (list (list ascii)) :=
  match l with
  | [] => match m_state m with StartRecord => [] | _ => [reverse (save m)] end
  | c :: l =>
      match feed m c with
      | (Some r, m) => r :: read_rows m l
      | (None, m) => read_rows m l
      end
  end.

(** [csv.reader(path.open())]. *)
Definition parse_rows (text : list ascii) : list (list (list ascii)) :=
  read_rows start (universal_newlines text).

(** [csv.writer(f).writerows(rows)], and the reader, on strings. *)
Definition writerows (rows : list (list string)) : string :=
  string_of_list (write_rows (map (map list_of_string) rows)).

Definition reader (text : string) : list (list string) :=
  map (map string_of_list) (parse_rows (list_of_string text)).

Example csv_round_trip :
  reader (writerows [["account_id"; "api_key"]; ["7"; "a,b"]; [""]; [""; ""]; ["x y"; ""]])
  = [["account_id"; "api_key"]; ["7"; "a,b"]; [""]; [""; ""]; ["x y"; ""]].
Proof. vm_compute. reflexivity. Qed.

(** ** The reader inverts the writer *)

#[local] Arguments reverse {_} _ : simpl never.

Definition no_cr (l : list ascii) : Prop := forallb (fun c => negb (eqc c cr)) l = true.

Lemma read_quoted l fs acc rest :
  read_rows (Machine InQuoted fs acc) (double_quotes l ++ quote :: rest)%list
  = read_rows (Machine QuoteInQuoted fs (reverse l ++ acc)%list) rest.
Proof.
  revert acc. induction l as [|c l IH]; intros acc; cbn [double_quotes flat_map app].
  - cbn [read_rows feed m_state]. by rewrite eqc_refl.
  - rewrite reverse_cons, <- (app_assoc (reverse l)). cbn [app].
    destruct (eqc c quote) eqn:E; cbn [app read_rows feed m_state m_fields m_field].
    + apply eqc_eq in E as ->. rewrite eqc_refl. cbn [m_state m_fields m_field].
      cbn [read_rows feed m_state m_fields m_field]. rewrite eqc_refl. apply IH.
    + rewrite E. apply IH.
Qed.

Lemma read_plain l fs acc rest :
  existsb special l = false ->
  read_rows (Machine InField fs acc) (l ++ rest)%list
  = read_rows (Machine InField fs (reverse l ++ acc)%list) rest.
Proof.
  revert acc. induction l as [|c l IH]; intros acc H; [done|].
  cbn [existsb] in H. apply orb_false_iff in H as [Hc H]. unfold special in Hc.
  rewrite !orb_false_iff in Hc. destruct Hc as [[[H1 H2] H3] H4].
  rewrite reverse_cons, <- (app_assoc (reverse l)). cbn [app].
  cbn [read_rows feed m_state m_fields m_field]. rewrite H4, H1. by apply IH.
Qed.

(** After a field, the machine is at its end: a separator or a line end saves it. *)
Definition at_end (m : machine) (fs : list (list ascii)) (f : list ascii) : Prop :=
  m_state m <> StartRecord /\ m_state m <> InQuoted /\ m_fields m = fs /\ m_field m = reverse f.

Lemma at_end_comma m fs f rest :
  at_end m fs f ->
  read_rows m (comma :: rest) = read_rows (Machine StartField (f :: fs) []) rest.
Proof.
  intros (H1 & H2 & H3 & H4). destruct m as [st fs' f']. cbn in *. subst.
  destruct st; cbn; try done; unfold save; cbn; by rewrite reverse_involutive.
Qed.

Lemma at_end_lf m fs f rest :
  at_end m fs f ->
  read_rows m (lf :: rest) = reverse (f :: fs) :: read_rows start rest.
Proof.
  intros (H1 & H2 & H3 & H4). destruct m as [st fs' f']. cbn in *. subst.
  destruct st; cbn; try done; unfold save; cbn; by rewrite reverse_involutive.
Qed.

Lemma read_field st f fs rest :
  st = StartField \/ (st = StartRecord /\ f <> []) ->
  exists m, at_end m fs f /\
    read_rows (Machine st fs []) (write_field f ++ rest)%list = read_rows m rest.
Proof.
  intros Hst. unfold write_field. destruct (existsb special f) eqn:E.
  - exists (Machine QuoteInQuoted fs (reverse f)). split; [done|].
    cbn [app]. rewrite <- (app_assoc (double_quotes f)). cbn [app].
    assert (read_rows (Machine st fs []) (quote :: double_quotes f ++ quote :: rest)
            = read_rows (Machine InQuoted fs []) (double_quotes f ++ quote :: rest)%list) as ->.
    { by destruct Hst as [->|[-> _]]. }
    by rewrite read_quoted, app_nil_r.
  - destruct f as [|c f].
    + destruct Hst as [->|[_ Hf]]; [|done]. by exists (Machine StartField fs []).
    + exists (Machine InField fs (reverse (c :: f))). split; [done|].
      pose proof E as E'. cbn [existsb] in E'. apply orb_false_iff in E' as [Hc Ef].
      unfold special in Hc. rewrite !orb_false_iff in Hc. destruct Hc as [[[H1 H2] H3] H4].
      cbn [app]. assert (forall r, read_rows (Machine st fs []) (c :: r)
                                   = read_rows (Machine InField fs [c]) r) as ->.
      { intros r. destruct Hst as [->|[-> _]]; cbn [read_rows feed m_state m_fields m_field];
          by rewrite H4, H2, H1. }
      rewrite read_plain by done. by rewrite reverse_cons.
Qed.

(** The fields of a row after the first: the machine has just passed a separator. *)
Fixpoint write_tail (f : list ascii) (fs : list (list ascii)) : list ascii :=
  match fs with
  | [] => write_field f ++ [cr; lf]
  | f' :: fs' => write_field f ++ comma :: write_tail f' fs'
  end%list.

Lemma write_row_tail f fs :
  f :: fs <> [[]] -> write_row (f :: fs) = write_tail f fs.
Proof.
  intros Hne.
  assert (H : forall fs f, (fix go (fs : list (list ascii)) : list ascii :=
         match fs with
         | [] => [cr; lf]
         | [f] => write_field f ++ [cr; lf]
         | f :: fs => write_field f ++ comma :: go fs
         end)%list (f :: fs) = write_tail f fs).
  { clear. induction fs as [|f' fs IH]; intros f; [done|]. cbn [write_tail]. by rewrite <- IH. }
  destruct f as [|c f], fs as [|f' fs];
    [done|apply (H (f' :: fs) [])|apply (H [] (c :: f))|apply (H (f' :: fs) (c :: f))].
Qed.

(** What the translation of line ends makes of a written row. *)
Fixpoint read_tail (f : list ascii) (fs : list (list ascii)) : list ascii :=
  match fs with
  | [] => write_field f ++ [lf]
  | f' :: fs' => write_field f ++ comma :: read_tail f' fs'
  end%list.

Lemma newlines_app l rest :
  no_cr l -> universal_newlines (l ++ rest) = (l ++ universal_newlines rest)%list.
Proof.
  unfold no_cr. induction l as [|c l IH]; [done|]. cbn. intros [Hc H]%andb_true_iff.
  apply negb_true_iff in Hc. by rewrite Hc, IH.
Qed.

Lemma no_cr_quotes l : no_cr l -> no_cr (double_quotes l).
Proof.
  unfold no_cr. induction l as [|c l IH]; [done|]. cbn [forallb double_quotes flat_map].
  intros [Hc H]%andb_true_iff. rewrite forallb_app. apply andb_true_iff. split; [|exact (IH H)].
  destruct (eqc c quote); [reflexivity|cbn [forallb]; by rewrite Hc].
Qed.

Lemma no_cr_field f : no_cr f -> no_cr (write_field f).
Proof.
  intros H. unfold write_field. destruct (existsb special f); [|done].
  unfold no_cr. change (forallb (fun c => negb (eqc c cr)) (double_quotes f ++ [quote]) = true).
  rewrite forallb_app. apply andb_true_iff. split; [exact (no_cr_quotes f H)|reflexivity].
Qed.

Lemma newlines_crlf rest : universal_newlines (cr :: lf :: rest) = lf :: universal_newlines rest.
Proof. done. Qed.

Lemma newlines_tail f fs rest :
  no_cr f -> Forall no_cr fs ->
  universal_newlines (write_tail f fs ++ rest) = (read_tail f fs ++ universal_newlines rest)%list.
Proof.
  intros Hf Hfs. revert f Hf. induction Hfs as [|f' fs Hf' _ IH]; intros f Hf; cbn [write_tail read_tail].
  - rewrite <- !app_assoc. rewrite newlines_app by by apply no_cr_field.
    cbn [app]. by rewrite newlines_crlf.
  - rewrite <- !app_assoc. rewrite newlines_app by by apply no_cr_field.
    cbn [app]. cbn [universal_newlines]. change (eqc comma cr) with false. cbn iota.
    by rewrite IH.
Qed.

Lemma read_row_tail f fs done rest :
  read_rows (Machine StartField done []) (read_tail f fs ++ rest)%list
  = (reverse done ++ f :: fs)%list :: read_rows start rest.
Proof.
  revert f done. induction fs as [|f' fs IH]; intros f done; cbn [read_tail]; rewrite <- app_assoc.
  - destruct (read_field StartField f done ([lf] ++ rest)%list) as (m & Hm & ->); [by left|].
    cbn [app]. by rewrite (at_end_lf _ done f), reverse_cons.
  - destruct (read_field StartField f done ((comma :: read_tail f' fs) ++ rest)%list)
      as (m & Hm & ->); [by left|].
    cbn [app]. rewrite (at_end_comma _ done f) by done. rewrite IH, reverse_cons.
    by rewrite <- app_assoc.
Qed.

Lemma no_cr_empty_row rest :
  parse_rows (write_row [[]] ++ rest) = [[]] :: parse_rows rest.
Proof. done. Qed.

(** The reader gives back one row and goes on. *)
Lemma parse_row r rest :
  r <> [] -> Forall no_cr r -> parse_rows (write_row r ++ rest) = r :: parse_rows rest.
Proof.
  intros Hr Hc. destruct r as [|f fs]; [done|]. apply Forall_cons_1 in Hc as [Hf Hfs].
  assert (f :: fs = [[]] \/ f :: fs <> [[]]) as [E|E] by (destruct f, fs; auto).
  { injection E as -> ->. apply no_cr_empty_row. }
  unfold parse_rows. rewrite write_row_tail, newlines_tail by done.
  unfold start at 1. destruct fs as [|f' fs]; cbn [read_tail]; rewrite <- app_assoc.
  - destruct (read_field StartRecord f [] ([lf] ++ universal_newlines rest)%list)
      as (m & Hm & ->); [right; by destruct f|].
    cbn [app]. by rewrite (at_end_lf _ [] f).
  - destruct f as [|c f].
    + cbn [app write_field existsb]. exact (read_row_tail f' fs [[]] _).
    + destruct (read_field StartRecord (c :: f) []
        ((comma :: read_tail f' fs) ++ universal_newlines rest)%list) as (m & Hm & ->); [by right|].
      cbn [app]. rewrite (at_end_comma _ [] (c :: f)) by done. exact (read_row_tail f' fs [c :: f] _).
Qed.

Lemma parse_write_rows rows rest :
  Forall (fun r => r <> [] /\ Forall no_cr r) rows ->
  parse_rows (write_rows rows ++ rest) = (rows ++ parse_rows rest)%list.
Proof.
  unfold write_rows. induction 1 as [|r rows [Hr Hc] _ IH]; [done|].
  cbn [flat_map]. rewrite <- app_assoc, parse_row by done. by rewrite IH.
Qed.

(** On strings: [text] after the rows is read on its own. *)
Definition plain_field (s : string) : Prop := no_cr (list_of_string s).

Lemma reader_writerows rows text :
  Forall (fun r => r <> [] /\ Forall plain_field r) rows ->
  reader (writerows rows ++ text) = (rows ++ reader text)%list.
Proof.
  intros H. unfold reader, writerows.
  rewrite list_of_string_app, list_of_string_of_list, parse_write_rows.
  - rewrite map_app, map_map. f_equal. rewrite (map_ext _ (fun r => r)); [apply map_id|].
    intros r. rewrite map_map, (map_ext _ (fun s => s)); [apply map_id|].
    apply string_of_list_of_string.
  - apply List.Forall_map. eapply Forall_impl; [|exact H]. intros r [Hr Hc]. split.
    + by destruct r.
    + by apply List.Forall_map.
Qed.
