(* ===== verification/Tool.v ===== *)
(** * Programs that run to completion on their own

    The command line tools and the developer tools are sequential programs: each runs
    alone, against the operations of its surroundings (the file system, the shell, an HTTP
    client, a clock).  A [tool X S A] is such a program over a state [S] it does not
    look into: it ends with a value of [A] or raises an exception of [X].  The operations
    are given by type classes, with what their documentation promises as further
    classes of laws. *)

From S2P Require Import Prelude.

Definition tool (X S A : Type) : Type := S -> result X A * S.

Section tool.
Context {X S : Type}.

#[export] Instance tool_ret : MRet (tool X S) := fun A a s => (Ok a, s).

#[export] Instance tool_bind : MBind (tool X S) := fun A B f m s =>
  match m s with
  | (Ok a, s') => f a s'
  | (Exn x, s') => (Exn x, s')
  end.

Definition raise {A} (x : X) : tool X S A := fun s => (Exn x, s).

(** [try: m except: h]; [None] where no clause names the exception. *)
Definition try_except {A} (m : tool X S A) (h : X -> option (tool X S A)) : tool X S A :=
  fun s => match m s with
           | (Ok a, s') => (Ok a, s')
           | (Exn x, s') => match h x with Some k => k s' | None => (Exn x, s') end
           end.

(** [try: m finally: f]; an exception of [f] replaces the outcome of [m]. *)
Definition try_finally {A} (m : tool X S A) (f : tool X S unit) : tool X S A :=
  fun s => match m s with
           | (r, s') => match f s' with (Ok _, s'') => (r, s'') | (Exn x, s'') => (Exn x, s'') end
           end.

Definition unless {A} (o : option A) (x : X) : tool X S A :=
  match o with Some a => mret a | None => raise x end.

Definition when_ (b : bool) (m : tool X S unit) : tool X S unit := if b then m else mret tt.

Lemma bind_ok {A B} (m : tool X S A) (f : A -> tool X S B) s b s' :
  (m ≫= f) s = (Ok b, s') <-> exists a s1, m s = (Ok a, s1) /\ f a s1 = (Ok b, s').
Proof.
  unfold mbind, tool_bind. destruct (m s) as [[a|x] s1]; split.
  - intros H. by exists a, s1.
  - by intros (a' & s1' & [= <- <-] & H).
  - done.
  - by intros (a' & s1' & [=] & _).
Qed.

Lemma bind_exn {A B} (m : tool X S A) (f : A -> tool X S B) s x s' :
  (m ≫= f) s = (Exn x, s') <->
  m s = (Exn x, s') \/ exists a s1, m s = (Ok a, s1) /\ f a s1 = (Exn x, s').
Proof.
  unfold mbind, tool_bind. destruct (m s) as [[a|y] s1]; split.
  - intros H. right. by exists a, s1.
  - by intros [[=]|(a' & s1' & [= <- <-] & H)].
  - intros [= -> ->]. by left.
  - by intros [[= -> ->]|(a' & s1' & [=] & _)].
Qed.

(** ** Outcomes *)

(** Every outcome of the program satisfies the postcondition. *)
Definition ends {A} (m : tool X S A) (Q : result X A -> S -> Prop) (s : S) : Prop :=
  Q (m s).1 (m s).2.

Lemma ends_bind {A B} (m : tool X S A) (f : A -> tool X S B) Q s :
  ends m (fun r s' => match r with Ok a => ends (f a) Q s' | Exn x => Q (Exn x) s' end) s ->
  ends (m ≫= f) Q s.
Proof. unfold ends, mbind, tool_bind. by destruct (m s) as [[a|x] s']. Qed.

Lemma ends_ret {A} (a : A) (Q : result X A -> S -> Prop) s : Q (Ok a) s -> ends (mret a) Q s.
Proof. done. Qed.

Lemma ends_raise {A} x (Q : result X A -> S -> Prop) s : Q (Exn x) s -> ends (raise x) Q s.
Proof. done. Qed.

Lemma ends_mono {A} (m : tool X S A) (Q Q' : result X A -> S -> Prop) s :
  (forall r s', Q r s' -> Q' r s') -> ends m Q s -> ends m Q' s.
Proof. intros H. apply H. Qed.

(** For a postcondition that every exception satisfies. *)
Lemma ends_skip {A B} (m : tool X S A) (f : A -> tool X S B) (Q : result X B -> S -> Prop) s :
  (forall x s', Q (Exn x) s') -> (forall a s', ends (f a) Q s') -> ends (m ≫= f) Q s.
Proof.
  intros Hx Hf. apply ends_bind. unfold ends. destruct (m s) as [[a|x] s']; cbn; [apply Hf|apply Hx].
Qed.

Lemma ends_except {A} (m : tool X S A) h Q s :
  ends m (fun r s' => match r with
                      | Ok a => Q (Ok a) s'
                      | Exn x => match h x with Some k => ends k Q s' | None => Q (Exn x) s' end
                      end) s ->
  ends (try_except m h) Q s.
Proof.
  unfold ends, try_except. destruct (m s) as [[a|x] s']; cbn; [done|]. by destruct (h x).
Qed.

Lemma ends_finally {A} (m : tool X S A) f Q s :
  ends m (fun r s' => ends f (fun rf s'' => match rf with
                                            | Ok _ => Q r s''
                                            | Exn x => Q (Exn x) s''
                                            end) s') s ->
  ends (try_finally m f) Q s.
Proof.
  unfold ends, try_finally. destruct (m s) as [r s']. cbn.
  by destruct (f s') as [[]  s''].
Qed.
End tool.

#[export] Instance ends_proper X S A (m : tool X S A) :
  Proper (pointwise_relation _ (pointwise_relation _ iff) ==> eq ==> iff) (ends m).
Proof. intros Q Q' HQ s ? <-. apply HQ. Qed.

(** Step through a tool. *)
Ltac tool_step :=
  lazymatch goal with
  | |- ends (_ ≫= _) _ _ => apply ends_bind
  | |- ends (mret _) _ _ => apply ends_ret
  | |- ends (raise _) _ _ => apply ends_raise
  | |- ends (try_except _ _) _ _ => apply ends_except
  | |- ends (try_finally _ _) _ _ => apply ends_finally
  end; cbn beta iota zeta.
