(* ===== verification/Cli.v ===== *)
(** * The command line tools ([cli/])

    [account._create_accounts] makes accounts and appends their keys to a CSV file;
    [setup._ensure_bucket], [migrate] and [setup] prepare a fresh environment.  [Host] are
    the operations they use; [HostLaws] what is documented of them, every failure
    included. *)

From stdpp Require Import pretty.
From S2P Require Import Prelude PyStr PyCsv Sha256 Exceptions Models Settings Tool.
From S2P Require Import Postgres Migrations.

(** ** The surroundings *)

(** The arguments of [boto3.client]; [path_addressing] marks the path style. *)
Record bucket_client : Type := BucketClient {
  bc_region : string;
  bc_endpoint : option string;
  path_addressing : bool;
  bc_access_key : option string;
  bc_secret_key : option string
}.

Class Host (S : Type) : Type := {
  mkdir_parents : string -> tool exn S unit;
  path_exists : string -> tool exn S bool;
  append_text : string -> string -> tool exn S unit;
  chmod : string -> Z -> tool exn S unit;
  print : string -> tool exn S unit;
  token_urlsafe : Z -> tool exn S string;
  (* [get_settings()] and [create_async_engine] of its properties *)
  open_engine : tool exn S unit;
  (* the session: [flush] inserts the pending accounts and gives their ids *)
  flush : list string -> tool exn S (list Z);
  commit : tool exn S unit;
  close_session : tool exn S unit;
  dispose_engine : tool exn S unit;
  create_bucket : bucket_client -> string -> tool exn S unit;
  command_upgrade : tool exn S unit
}.

(** ** [cli/commands/account.py] *)

Module account.
Section commands.
Context {S} `{!Host S}.

(** One round of the loop: the key and its digest. *)
Definition new_key : tool exn S (string * string) :=
  api_key ← token_urlsafe 32;
  match encode api_key with
  | None => raise (EOther "UnicodeEncodeError" "surrogates not allowed")
  | Some b => mret (api_key, sha256_hexdigest b)
  end.

(** [for _ in range(count)]: the keys, and the digests of the accounts added. *)
Fixpoint new_keys (count : nat) : tool exn S (list (string * string)) :=
  match count with
  | O => mret []
  | Datatypes.S count => key ← new_key; keys ← new_keys count; mret (key :: keys)
  end.

(** The rows of the CSV file. *)
Definition csv_row (r : Z * string) : list string := [pretty r.1; r.2].

Definition csv_header : list string := ["account_id"; "api_key"].

Definition _create_accounts (count : nat) (out parent : string) : tool exn S unit :=
  mkdir_parents parent;;
  open_engine;;
  rows ← try_finally
    (pending ← new_keys count;
     ids ← flush (snd <$> pending);
     commit;;
     mret (zip ids (fst <$> pending)))
    close_session;
  dispose_engine;;
  exists_ ← path_exists out;
  let write_header := negb exists_ in
  append_text out
    (writerows ((if write_header then [csv_header] else []) ++ (csv_row <$> rows)));;
  chmod out 384;;
  print ("created " ++ pretty count ++ " account(s), wrote to " ++ out)%string.
End commands.
End account.

(** ** [cli/commands/setup.py] *)

Module setup.
Section commands.
Context {S} `{!Host S} (settings : BaseAppSettings.t).

(** [client_kwargs]. *)
Definition client_kwargs : bucket_client :=
  BucketClient (BaseAppSettings.aws_region settings) (BaseAppSettings.s3_endpoint_url settings)
    (match BaseAppSettings.s3_endpoint_url settings with Some _ => true | None => false end)
    (BaseAppSettings.s3_access_key settings)
    (match BaseAppSettings.s3_access_key settings with
     | Some _ => BaseAppSettings.s3_secret_key settings
     | None => None
     end).

Definition _ensure_bucket : tool exn S unit :=
  try_except (create_bucket client_kwargs (BaseAppSettings.s3_bucket settings))
    (fun e => match e with
              | EClient code _ =>
                  if String.eqb code "BucketAlreadyOwnedByYou" then Some (mret tt) else None
              | _ => None
              end).

Definition migrate : tool exn S unit := command_upgrade.

Definition setup : tool exn S unit :=
  _ensure_bucket;;
  migrate;;
  account._create_accounts 1 "local/accounts.csv" "local".
End commands.
End setup.

(** ** What the operations do *)

(** An account row of the database. *)
Definition account_row (r : Z * string) : gmap string Pg.value :=
  {["id" := Pg.VInt r.1; "api_key_hash" := Pg.VText r.2]}.

(** What can be seen of a host: the database, the rows its open session has flushed, the
    files with their permissions, the buckets. *)
Class HostView (S : Type) : Type := {
  h_db : S -> deployed;
  h_tx : S -> list (Z * string);
  h_files : S -> gmap string (string * Z);
  h_buckets : S -> gset string
}.

Section laws.
Context {S} `{!HostView S}.

Definition accounts_rows (s : S) : list (gmap string Pg.value) :=
  Pg.rows_of (d_db (h_db s)) "accounts".

Definition content (s : S) (path : string) : string :=
  default "" (fst <$> h_files s !! path).

(** The insert is possible: the table is there, and neither an id nor a digest repeats. *)
Definition insertable (s : S) (rs : list (Z * string)) : Prop :=
  is_Some (Pg.db_tables (d_db (h_db s)) !! "accounts") /\
  Pg.unique_rows ["id"] None (accounts_rows s ++ (account_row <$> rs)) = true /\
  Pg.unique_rows ["api_key_hash"] None (accounts_rows s ++ (account_row <$> rs)) = true.

(** Two hosts of which the same can be seen, but for the session. *)
Definition same_view (s s' : S) : Prop :=
  h_db s' = h_db s /\ h_files s' = h_files s /\ h_buckets s' = h_buckets s.

Definition urlsafe (c : ascii) : bool :=
  byte_in 48 57 c || byte_in 65 90 c || byte_in 97 122 c || byte_in 45 45 c || byte_in 95 95 c.

(** The committed rows. *)
Definition committed (s s' : S) : Prop :=
  h_db s' = Deployed (Pg.put_rows (d_db (h_db s)) "accounts"
                        (accounts_rows s ++ (account_row <$> h_tx s)))
              (d_version (h_db s)) /\
  h_files s' = h_files s /\ h_buckets s' = h_buckets s.

(** A call that succeeds with an effect, or fails. *)
Definition does {A} (m : tool exn S A) (good : S -> A -> S -> Prop) (bad : S -> S -> Prop) : Prop :=
  forall s, match m s with
            | (Ok a, s') => good s a s'
            | (Exn _, s') => bad s s'
            end.

(** A text and a beginning of it. *)
Definition begins (t text : string) : Prop := exists rest, text = (t ++ rest)%string.

(** [text] was written to the end of the file, up to some point. *)
Definition written (p text : string) (s s' : S) : Prop :=
  (forall q, q <> p -> h_files s' !! q = h_files s !! q) /\
  exists t, begins t text /\ content s' p = (content s p ++ t)%string.

Definition idle_call {A} (m : tool exn S A) (P : S -> A -> Prop) : Prop :=
  does m (fun s a s' => same_view s s' /\ h_tx s' = h_tx s /\ P s a)
         (fun s s' => same_view s s' /\ h_tx s' = h_tx s).
End laws.

Class HostLaws (S : Type) `{!Host S, !HostView S} : Prop := {
  law_mkdir p : idle_call (mkdir_parents p) (fun _ _ => True);
  law_exists p : idle_call (path_exists p) (fun s b => b = true <-> is_Some (h_files s !! p));
  law_print p : idle_call (print p) (fun _ _ => True);
  law_open_engine : idle_call open_engine (fun _ _ => True);
  law_dispose : idle_call dispose_engine (fun _ _ => True);
  (* Base64 text in the URL-safe alphabet *)
  law_token n : idle_call (token_urlsafe n)
    (fun _ k => k <> "" /\ forallb urlsafe (list_of_string k) = true);
  law_append p text : does (append_text p text)
    (fun s _ s' => h_db s' = h_db s /\ h_buckets s' = h_buckets s /\ h_tx s' = h_tx s /\
       (forall q, q <> p -> h_files s' !! q = h_files s !! q) /\
       fst <$> h_files s' !! p = Some (content s p ++ text)%string)
    (* a write that fails may have written a part *)
    (fun s s' => h_db s' = h_db s /\ h_buckets s' = h_buckets s /\ h_tx s' = h_tx s /\
       written p text s s');
  law_chmod p mode : does (chmod p mode)
    (fun s _ s' => h_db s' = h_db s /\ h_buckets s' = h_buckets s /\ h_tx s' = h_tx s /\
       h_files s' = alter (fun f => (f.1, mode)) p (h_files s))
    (fun s s' => same_view s s' /\ h_tx s' = h_tx s);
  law_flush hs : does (flush hs)
    (fun s ids s' => same_view s s' /\ length ids = length hs /\
       h_tx s' = (h_tx s ++ zip ids hs)%list /\ insertable s (h_tx s'))
    (fun s s' => same_view s s');
  law_commit : does commit
    (fun s _ s' => committed s s' /\ h_tx s' = [])
    (fun s s' => (same_view s s' \/ committed s s') /\ h_tx s' = []);
  law_close : does close_session
    (fun s _ s' => same_view s s' /\ h_tx s' = []) (fun s s' => same_view s s' /\ h_tx s' = []);
  law_bucket c b : does (create_bucket c b)
    (fun s _ s' => h_db s' = h_db s /\ h_files s' = h_files s /\ h_tx s' = h_tx s /\
       h_buckets s' = {[b]} ∪ h_buckets s)
    (fun s s' => same_view s s' /\ h_tx s' = h_tx s);
  (* the bucket is there already when the error says so *)
  law_owned c b s m s' :
    create_bucket c b s = (Exn (EClient "BucketAlreadyOwnedByYou" m), s') -> b ∈ h_buckets s;
  law_upgrade : does command_upgrade
    (fun s _ s' => (exists o, upgrade_to_head Pg.documented o (h_db s) = (Some tt, h_db s')) /\
       h_files s' = h_files s /\ h_buckets s' = h_buckets s /\ h_tx s' = h_tx s)
    (fun s s' => same_view s s' /\ h_tx s' = h_tx s)
}.
