(* ===== verification/CliTheorems.v ===== *)
(** * Theorems about the command line tools

    What [_create_accounts] and [setup] leave behind, for every host whose operations
    keep their documented promises. *)

From stdpp Require Import pretty.
From S2P Require Import Prelude PyStr PyCsv Sha256 Exceptions Models Settings Tool.
From S2P Require Import Postgres Migrations Cli MigrationTheorems.

(** ** Rules for the operations *)

Section rules.
Context {S} `{!Host S, !HostView S, !HostLaws S}.

Lemma ends_does {A} (m : tool exn S A) good bad Q s :
  does m good bad ->
  (forall a s', good s a s' -> Q (Ok a) s') -> (forall x s', bad s s' -> Q (Exn x) s') ->
  ends m Q s.
Proof.
  intros H Hg Hb. specialize (H s). unfold ends. destruct (m s) as [[a|x] s']; cbn; auto.
Qed.

Lemma same_view_refl (s : S) : same_view s s.
Proof. done. Qed.

Lemma same_view_trans (s1 s2 s3 : S) : same_view s1 s2 -> same_view s2 s3 -> same_view s1 s3.
Proof. intros (?&?&?) (?&?&?). repeat split; congruence. Qed.

(** A call without effect. *)
Lemma ends_idle {A} (m : tool exn S A) P Q s :
  idle_call m P ->
  (forall a s', same_view s s' -> h_tx s' = h_tx s -> P s a -> Q (Ok a) s') ->
  (forall x s', same_view s s' -> h_tx s' = h_tx s -> Q (Exn x) s') ->
  ends m Q s.
Proof.
  intros H Hg Hb. eapply ends_does; [exact H|..].
  - intros a s' (?&?&?). auto.
  - intros x s' (?&?). auto.
Qed.

(** ** The keys *)

(** A key of an account and its digest. *)
Definition good_key (k : string * string) : Prop :=
  k.1 <> "" /\ forallb urlsafe (list_of_string k.1) = true /\ k.2 = sha256_hexdigest k.1.

Lemma urlsafe_byte_in lo hi c :
  byte_in lo hi c = true -> (hi <= 122)%N -> byte_in 0 122 c = true.
Proof.
  unfold byte_in. rewrite !andb_true_iff, !N.leb_le. intros [H1 H2] H. split; lia.
Qed.

Lemma urlsafe_low k :
  forallb urlsafe (list_of_string k) = true ->
  Forall (fun c => byte_in 0 122 c = true) (list_of_string k).
Proof.
  rewrite forallb_forall. intros H. apply List.Forall_forall. intros c Hc. apply H in Hc.
  unfold urlsafe in Hc. rewrite !orb_true_iff in Hc.
  destruct Hc as [[[[Hc|Hc]|Hc]|Hc]|Hc]; by eapply urlsafe_byte_in.
Qed.

Lemma encode_key k : forallb urlsafe (list_of_string k) = true -> encode k = Some k.
Proof.
  intros H. apply encode_ascii. eapply Forall_impl; [|by apply urlsafe_low].
  unfold byte_in. intros c. rewrite !andb_true_iff, !N.leb_le. intros [H1 H2]. split; lia.
Qed.

Lemma idle_new_key : idle_call account.new_key (fun _ k => good_key k).
Proof.
  intros s. pose proof (law_token 32 s) as H. unfold account.new_key, mbind, tool_bind.
  destruct (token_urlsafe 32 s) as [[k|x] s1]; [|done]. destruct H as (Hv & Ht & Hk & Hu).
  by rewrite encode_key.
Qed.

Lemma idle_new_keys n :
  idle_call (account.new_keys n) (fun _ ks => length ks = n /\ Forall good_key ks).
Proof.
  induction n as [|n IH]; intros s; cbn [account.new_keys]; [by repeat split|].
  unfold mbind, tool_bind, mret, tool_ret.
  pose proof (idle_new_key s) as H. destruct (account.new_key s) as [[k|x] s1]; [|done].
  destruct H as (Hv & Ht & Hk). pose proof (IH s1) as H1.
  destruct (account.new_keys n s1) as [[ks|x] s2].
  - destruct H1 as (Hv1 & Ht1 & Hl & Hks). split_and!; [by eapply same_view_trans|congruence| |].
    + cbn. by f_equal.
    + by constructor.
  - destruct H1 as [Hv1 Ht1]. split; [by eapply same_view_trans|congruence].
Qed.

(** ** Accounts *)

(** The accounts made: their id, key and digest. *)
Definition made : Type := list (Z * (string * string)).

Definition row_of (m : Z * (string * string)) : Z * string := (m.1, m.2.2).
Definition listed (m : Z * (string * string)) : Z * string := (m.1, m.2.1).

(** The database with the accounts. *)
Definition with_accounts (s : S) (ms : made) : deployed :=
  Deployed (Pg.put_rows (d_db (h_db s)) "accounts"
              (accounts_rows s ++ (account_row <$> (row_of <$> ms))))
    (d_version (h_db s)).

Definition new_text (s : S) (out : string) (ms : made) : string :=
  writerows ((if bool_decide (is_Some (h_files s !! out)) then [] else [account.csv_header])
             ++ (account.csv_row <$> (listed <$> ms))).

(** Nothing happened, or the accounts are there: then the run either finished, and their
    keys are in the file that only its owner can read, or it failed later, and the file holds
    what was written until then. *)
Inductive create_outcome (count : nat) (out : string) (s : S) : result exn unit -> S -> Prop :=
| CO_nothing x s' : same_view s s' -> create_outcome count out s (Exn x) s'
| CO_made r s' ms :
    length ms = count -> Forall good_key (snd <$> ms) -> insertable s (row_of <$> ms) ->
    h_db s' = with_accounts s ms -> h_buckets s' = h_buckets s ->
    written out (new_text s out ms) s s' ->
    (r = Ok tt ->
     h_files s' !! out = Some ((content s out ++ new_text s out ms)%string, 384%Z)) ->
    create_outcome count out s r s'.

Lemma insertable_view (s s' : S) rs : same_view s s' -> insertable s' rs -> insertable s rs.
Proof. intros (E & _ & _). unfold insertable, accounts_rows. by rewrite E. Qed.

Lemma zip_made (ids : list Z) (ks : list (string * string)) :
  length ids = length ks ->
  zip ids (snd <$> ks) = row_of <$> zip ids ks /\ zip ids (fst <$> ks) = listed <$> zip ids ks
  /\ (snd <$> zip ids ks) = ks.
Proof.
  revert ks. induction ids as [|i ids IH]; intros [|k ks] H; cbn in *; try done.
  injection H as H. destruct (IH _ H) as (E1 & E2 & E3). unfold row_of, listed at 1. cbn.
  split_and!; by f_equal.
Qed.

(** The body of the session. *)
Lemma session_outcome count s Q :
  h_tx s = [] ->
  (forall x s', same_view s s' -> Q (Exn x) s') ->
  (forall r s' ms, length ms = count -> Forall good_key (snd <$> ms) ->
     insertable s (row_of <$> ms) -> h_db s' = with_accounts s ms ->
     h_buckets s' = h_buckets s -> h_files s' = h_files s ->
     (forall rows, r = Ok rows -> rows = listed <$> ms) -> Q r s') ->
  ends (try_finally
    (pending ← account.new_keys count;
     ids ← flush (snd <$> pending);
     commit;; mret (zip ids (fst <$> pending))) close_session) Q s.
Proof.
  intros Htx Hno Hyes. tool_step.
  assert (Hclose : forall r s1, (forall s2, same_view s1 s2 -> Q r s2) ->
    (forall x s2, same_view s1 s2 -> Q (Exn x) s2) ->
    ends close_session (fun rf s'' => match rf with Ok _ => Q r s'' | Exn x => Q (Exn x) s'' end) s1).
  { intros r s1 H1 H2. eapply ends_does; [apply law_close|..].
    - intros _ s2 [Hv _]. auto.
    - intros x s2 [Hv _]. auto. }
  assert (Hfail : forall x s1, same_view s s1 -> ends close_session (fun rf s'' =>
      match rf with Ok _ => Q (Exn x) s'' | Exn x => Q (Exn x) s'' end) s1).
  { intros x s1 Hv. apply Hclose; intros; apply Hno; by eapply same_view_trans. }
  tool_step. eapply ends_idle; [apply idle_new_keys| |by auto].
  intros ks s1 Hv1 Ht1 [Hl Hks]. tool_step.
  eapply ends_does; [apply law_flush| |intros x s2 Hv2; apply Hfail; by eapply same_view_trans].
  intros ids s2 (Hv2 & Hids & Ht2 & Hins). rewrite length_fmap in Hids.
  destruct (zip_made ids ks Hids) as (E1 & E2 & E3). rewrite Ht2, Ht1, Htx in Hins. cbn [app] in Hins.
  rewrite E1 in Hins. pose proof (same_view_trans _ _ _ Hv1 Hv2) as Hv.
  assert (Hdone : forall r s3 s4, committed s2 s3 -> same_view s3 s4 ->
    (forall rows, r = Ok rows -> rows = listed <$> zip ids ks) -> Q r s4).
  { intros r s3 s4 (Hd & Hf & Hb) (Hd4 & Hf4 & Hb4) Hr. destruct Hv as (Ed & Ef & Eb).
    apply (Hyes r s4 (zip ids ks)); try congruence.
    - rewrite length_zip_with. lia.
    - by eapply insertable_view.
    - rewrite Hd4, Hd. unfold with_accounts, accounts_rows. by rewrite Ed, Ht2, Ht1, Htx, <- E1.
    - exact Hr. }
  tool_step. eapply ends_does; [apply law_commit|..].
  - intros [] s3 [Hc _]. tool_step. apply Hclose; intros; eapply Hdone; try done.
    intros rows [= <-]. done.
  - intros x s3 [[Hv3|Hc] _]; [by apply Hfail; eapply same_view_trans|].
    apply Hclose; intros; by eapply Hdone.
Qed.

(** A failure after the accounts are committed. *)
Lemma made_raises count out s x s' ms :
  length ms = count -> Forall good_key (snd <$> ms) -> insertable s (row_of <$> ms) ->
  h_db s' = with_accounts s ms -> h_buckets s' = h_buckets s ->
  written out (new_text s out ms) s s' -> create_outcome count out s (Exn x) s'.
Proof. intros. by apply (CO_made _ _ _ _ _ ms). Qed.

Lemma written_nothing p text (s s' : S) : h_files s' = h_files s -> written p text s s'.
Proof.
  intros E. unfold written, content. rewrite E. split; [done|]. exists "". split; [by exists text|].
  symmetry. apply append_nil_r.
Qed.

Lemma written_all p text (s s' : S) :
  (forall q, q <> p -> h_files s' !! q = h_files s !! q) ->
  content s' p = (content s p ++ text)%string -> written p text s s'.
Proof. intros Ho Ec. split; [done|]. exists text. split; [|done]. exists "". symmetry. apply append_nil_r. Qed.

Lemma written_view p text (s1 s s' : S) :
  h_files s1 = h_files s -> written p text s1 s' -> written p text s s'.
Proof. intros E. unfold written, content. by rewrite E. Qed.

Lemma written_files p text (s s' s2 : S) :
  h_files s2 = h_files s' -> written p text s s' -> written p text s s2.
Proof. intros E. unfold written, content. by rewrite E. Qed.

(** The file, after the accounts. *)
Lemma write_outcome count out s ms s1 :
  length ms = count -> Forall good_key (snd <$> ms) -> insertable s (row_of <$> ms) ->
  h_db s1 = with_accounts s ms -> h_buckets s1 = h_buckets s -> h_files s1 = h_files s ->
  ends (dispose_engine;;
        exists_ ← path_exists out;
        let write_header := negb exists_ in
        append_text out (writerows ((if write_header then [account.csv_header] else [])
                                    ++ (account.csv_row <$> (listed <$> ms))));;
        chmod out 384;;
        print ("created " ++ pretty count ++ " account(s), wrote to " ++ out)%string)
    (create_outcome count out s) s1.
Proof.
  intros Hl Hk Hi Hd Hb Hf.
  assert (Hlate : forall x s', h_db s' = h_db s1 -> h_buckets s' = h_buckets s1 ->
    written out (new_text s out ms) s s' -> create_outcome count out s (Exn x) s').
  { intros x s' E1 E2 Hw. eapply made_raises; [done..| | |done]; congruence. }
  tool_step. eapply ends_idle;
    [apply law_dispose| |intros x s2 (?&?&?) _; by apply Hlate, written_nothing; congruence].
  intros _ s2 (Ed2 & Ef2 & Eb2) _ _. tool_step.
  eapply ends_idle; [apply law_exists| |intros x s3 (?&?&?) _; apply Hlate, written_nothing; congruence].
  intros e s3 (Ed3 & Ef3 & Eb3) _ He. tool_step.
  assert (Et : writerows ((if negb e then [account.csv_header] else [])
                 ++ (account.csv_row <$> (listed <$> ms))) = new_text s out ms).
  { unfold new_text. rewrite Ef2, Hf in He.
    destruct e; [rewrite bool_decide_eq_true_2; tauto|].
    rewrite bool_decide_eq_false_2; [done|]. intros H. by apply He in H. }
  rewrite Et. assert (E3 : h_files s3 = h_files s) by congruence.
  eapply ends_does; [apply law_append| |].
  2: { intros x s4 (?&?&?&Hw). apply Hlate; [congruence..|]. by eapply written_view. }
  intros _ s4 (Ed4 & Eb4 & _ & Ho & Ht).
  assert (Hw : written out (new_text s out ms) s s4).
  { apply (written_view _ _ s3); [done|]. apply written_all; [done|]. unfold content at 1. by rewrite Ht. }
  tool_step. eapply ends_does; [apply law_chmod| |].
  2: { intros x s5 [(?&?&?) _]. apply Hlate; [congruence..|]. by eapply written_files. }
  intros _ s5 (Ed5 & Eb5 & _ & Ef5).
  assert (Hm : h_files s5 !! out = Some ((content s out ++ new_text s out ms)%string, 384%Z)).
  { rewrite Ef5, lookup_alter_eq. destruct (h_files s4 !! out) as [[c m]|]; [|done].
    cbn in Ht |- *. injection Ht as ->. unfold content. by rewrite E3. }
  assert (Hw5 : written out (new_text s out ms) s s5).
  { apply written_all; [|unfold content at 1; by rewrite Hm].
    intros q Hq. rewrite Ef5, lookup_alter_ne by done. destruct Hw as [Hw _]. by apply Hw. }
  eapply ends_idle; [apply law_print| |].
  2: { intros x s6 (?&?&?) _. apply Hlate; [congruence..|]. by eapply written_files. }
  intros [] s6 (Ed6 & Ef6 & Eb6) _ _.
  apply (CO_made _ _ _ _ _ ms); try done; try congruence. by eapply written_files.
Qed.

(** C24: [_create_accounts] either changes nothing or commits all its accounts, each with
    the digest of a fresh key; if it returns, exactly their ids and keys were appended to the
    file (after a header if the file is new) and only the owner may read it.  If it raises
    after the commit, the accounts stay, and a beginning of that text is all that was
    appended, perhaps nothing; no other file changes in any case. *)
Theorem create_accounts_outcome count out parent s :
  h_tx s = [] ->
  ends (account._create_accounts count out parent) (create_outcome count out s) s.
Proof.
  intros Htx. unfold account._create_accounts. tool_step.
  eapply ends_idle; [apply law_mkdir| |intros; by apply CO_nothing].
  intros _ s0 Hv0 Ht0 _. tool_step. eapply ends_idle; [apply law_open_engine| |].
  2: { intros x s1 Hv1 _. apply CO_nothing. by eapply same_view_trans. }
  intros _ s1 Hv1 Ht1 _. apply (same_view_trans _ _ _ Hv0) in Hv1.
  tool_step. apply session_outcome; [congruence|..].
  - intros x s2 Hv2. apply CO_nothing. by eapply same_view_trans.
  - intros r s2 ms Hl Hk Hi Hd Hb Hf Hr. destruct Hv1 as (Ed & Ef & Eb).
    assert (Hi' : insertable s (row_of <$> ms)) by (by apply (insertable_view _ s1)).
    assert (Hd' : h_db s2 = with_accounts s ms).
    { rewrite Hd. unfold with_accounts, accounts_rows. by rewrite Ed. }
    destruct r as [rows|x]; [|eapply made_raises; try done; try congruence; apply written_nothing; congruence].
    rewrite (Hr rows) by done. eapply write_outcome; try done; congruence.
Qed.

(** ** Setting up an environment *)

Lemma upgrade_from_head o d :
  d_version d = Some head -> upgrade_to_head Pg.documented o d = (Some tt, d).
Proof. destruct d as [d v]. cbn. intros ->. unfold upgrade_to_head. by vm_compute. Qed.

Lemma ensure_bucket_outcome settings (s : S) Q :
  (forall s', h_db s' = h_db s -> h_files s' = h_files s -> h_tx s' = h_tx s ->
     h_buckets s' = {[BaseAppSettings.s3_bucket settings]} ∪ h_buckets s -> Q (Ok tt) s') ->
  (forall x s', same_view s s' -> Q (Exn x) s') ->
  ends (setup._ensure_bucket settings) Q s.
Proof.
  intros Hok Hbad. unfold setup._ensure_bucket. tool_step.
  set (c := setup.client_kwargs settings). set (b := BaseAppSettings.s3_bucket settings) in *.
  pose proof (law_bucket c b s) as Hb. pose proof (law_owned c b s) as Ho. unfold ends.
  destruct (create_bucket c b s) as [[[]|x] s1]; cbn [fst snd].
  - destruct Hb as (?&?&?&?). by apply Hok.
  - destruct Hb as [Hv Ht]. destruct x as [| | |code m| | |]; try by apply Hbad.
    destruct (String.eqb_spec code "BucketAlreadyOwnedByYou") as [->|]; [|by apply Hbad].
    specialize (Ho m s1 eq_refl). destruct Hv as (Ed & Ef & Eb). apply Hok; try done.
    change (h_buckets s1 = {[b]} ∪ h_buckets s). rewrite Eb. symmetry.
    by apply subseteq_union_1_L, singleton_subseteq_l.
Qed.

(** What [setup] leaves behind: the schema of the head over the rows there were, one more
    account, its key in the file, and the bucket. *)
Definition prepared (settings : BaseAppSettings.t) (s s' : S) : Prop :=
  exists o d id key,
    upgrade_to_head Pg.documented o (h_db s) = (Some tt, Deployed d (Some head)) /\
    h_db s' = Deployed (Pg.put_rows d "accounts" (Pg.rows_of d "accounts" ++
                [account_row (id, sha256_hexdigest key)])) (Some head) /\
    BaseAppSettings.s3_bucket settings ∈ h_buckets s' /\
    key <> "" /\ forallb urlsafe (list_of_string key) = true /\
    h_files s' !! "local/accounts.csv"
      = Some ((content s "local/accounts.csv" ++
               new_text s "local/accounts.csv" [(id, (key, sha256_hexdigest key))])%string, 384%Z).

(** When [setup] returns, the database is at the head of the migration chain with one
    more account, whose key it has appended to the accounts file, and the bucket exists,
    whether or not it did before. *)
Theorem setup_prepares settings s :
  h_tx s = [] ->
  ends (setup.setup settings) (fun r s' => r = Ok tt -> prepared settings s s') s.
Proof.
  intros Htx. unfold setup.setup, setup.migrate. tool_step. apply ensure_bucket_outcome; [|done].
  intros s1 Ed1 Ef1 Et1 Eb1. tool_step. eapply ends_does; [apply law_upgrade| |done].
  intros _ s2 ((o & Hup) & Ef2 & Eb2 & Et2). rewrite Ed1 in Hup.
  pose proof (upgraded_head _ _ _ _ Hup) as Hh.
  eapply ends_mono; [|apply create_accounts_outcome; congruence]. cbv beta.
  intros r s3 Ho ->. inversion Ho as [|r' s3' ms Hl Hk Hi Hd Hb _ Hf]; subst.
  destruct ms as [|[id [k h]] [|]]; try done. apply Forall_singleton in Hk as (Hk & Hu & Hh').
  cbn in Hk, Hu, Hh'. subst h. destruct (h_db s2) as [d v] eqn:E2. cbn in Hh. subst v.
  pose proof (Hf eq_refl) as Hf1. exists o, d, id, k. split_and!; [exact Hup| | |done|done|].
  - rewrite Hd. unfold with_accounts, accounts_rows. by rewrite E2.
  - rewrite Hb, Eb2, Eb1. by apply elem_of_union_l, elem_of_singleton_2.
  - rewrite Hf1. unfold content, new_text. by rewrite Ef2, Ef1.
Qed.
End rules.

(** ** A host in memory *)

Record memory : Type := Memory {
  m_db : deployed;
  m_tx : list (Z * string);
  m_files : gmap string (string * Z);
  m_buckets : gset string;
  m_tokens : nat;
  m_next : Z
}.

Definition with_tx (tx : list (Z * string)) (s : memory) : memory :=
  Memory (m_db s) tx (m_files s) (m_buckets s) (m_tokens s) (m_next s).
Definition with_db (d : deployed) (s : memory) : memory :=
  Memory d (m_tx s) (m_files s) (m_buckets s) (m_tokens s) (m_next s).
Definition with_files (f : gmap string (string * Z)) (s : memory) : memory :=
  Memory (m_db s) (m_tx s) f (m_buckets s) (m_tokens s) (m_next s).

#[export] Instance memory_view : HostView memory :=
  { h_db := m_db; h_tx := m_tx; h_files := m_files; h_buckets := m_buckets }.

Definition memory_token (n : nat) : string :=
  string_of_list (repeat "A"%char (Datatypes.S n)).

Definition numbered (n : Z) (hs : list string) : list Z :=
  (fun i => n + Z.of_nat i)%Z <$> seq 0 (length hs).

Definition memory_flush (hs : list string) : tool exn memory (list Z) := fun s =>
  let ids := numbered (m_next s) hs in
  let tx := m_tx s ++ zip ids hs in
  let rows := accounts_rows s ++ (account_row <$> tx) in
  if (match Pg.db_tables (d_db (m_db s)) !! "accounts" with Some _ => true | None => false end)
     && Pg.unique_rows ["id"] None rows && Pg.unique_rows ["api_key_hash"] None rows
  then (Ok ids, Memory (m_db s) tx (m_files s) (m_buckets s) (m_tokens s)
                  (m_next s + Z.of_nat (length hs)))
  else (Exn (EOther "IntegrityError" ""), s).

#[export] Instance memory_host : Host memory := {
  mkdir_parents p s := (Ok tt, s);
  path_exists p s := (Ok (bool_decide (is_Some (m_files s !! p))), s);
  append_text p text s :=
    (Ok tt, with_files (<[p := ((content s p ++ text)%string,
       default 420%Z (snd <$> m_files s !! p))]> (m_files s)) s);
  chmod p mode s := (Ok tt, with_files (alter (fun f => (f.1, mode)) p (m_files s)) s);
  print m s := (Ok tt, s);
  token_urlsafe n s :=
    (Ok (memory_token (m_tokens s)),
     Memory (m_db s) (m_tx s) (m_files s) (m_buckets s) (Datatypes.S (m_tokens s)) (m_next s));
  flush := memory_flush;
  commit s :=
    (Ok tt, with_tx [] (with_db (Deployed (Pg.put_rows (d_db (m_db s)) "accounts"
       (accounts_rows s ++ (account_row <$> m_tx s))) (d_version (m_db s))) s));
  close_session s := (Ok tt, with_tx [] s);
  open_engine s := (Ok tt, s);
  dispose_engine s := (Ok tt, s);
  create_bucket c b s :=
    if decide (b ∈ m_buckets s) then (Exn (EClient "BucketAlreadyOwnedByYou" ""), s)
    else (Ok tt, Memory (m_db s) (m_tx s) (m_files s) ({[b]} ∪ m_buckets s) (m_tokens s) (m_next s));
  command_upgrade s :=
    match upgrade_to_head Pg.documented any_oracle (m_db s) with
    | (Some tt, d) => (Ok tt, with_db d s)
    | (None, _) => (Exn (EOther "CommandError" ""), s)
    end
}.

Lemma memory_token_urlsafe n :
  memory_token n <> "" /\ forallb urlsafe (list_of_string (memory_token n)) = true.
Proof.
  split; [done|]. unfold memory_token. rewrite list_of_string_of_list.
  induction n as [|n IH]; [done|]. exact IH.
Qed.

#[export] Instance memory_laws : HostLaws memory.
Proof.
  constructor; try (intros; intros s; by repeat split).
  - intros p s. cbn. repeat split; by rewrite bool_decide_eq_true.
  - intros n s. split; [by repeat split|split; [done|]]. apply memory_token_urlsafe.
  - intros p text s. cbn. split_and!; try done.
    + intros q Hq. by rewrite lookup_insert_ne.
    + by rewrite lookup_insert_eq.
  - intros hs s. unfold flush, memory_host, memory_flush.
    destruct (m_db s) as [d v] eqn:Ed. cbn [d_db].
    destruct (_ && _) eqn:E; [|done]. apply andb_true_iff in E as [E E3].
    apply andb_true_iff in E as [E1 E2]. split_and!; try done.
    + unfold numbered. by rewrite length_fmap, length_seq.
    + unfold insertable. cbn [h_db memory_view]. rewrite Ed. cbn [d_db].
      by destruct (Pg.db_tables d !! "accounts").
  - intros c b s. cbn. by case_decide.
  - intros c b s m s'. cbn. by case_decide.
  - intros s. cbn. destruct (upgrade_to_head _ _ _) as [[[]|] d] eqn:E; [|done].
    split_and!; try done. by exists any_oracle.
Qed.

(** ** In a fresh environment *)

Definition demo_settings : BaseAppSettings.t := BaseAppSettings.Make
  "dev" "INFO" "json" "localhost" 5432 "docs" "user" "pw" "user" "pw" "localhost" 5672
  "process_document" 10 "documents" "us-east-1" (Some "http://localhost:4566") None
  (Some "test") (Some "test").

Definition fresh : memory := Memory (Deployed Pg.empty_database None) [] ∅ ∅ 0 1.

Definition after_setup : memory := (setup.setup demo_settings fresh).2.

Lemma create_accounts_outcome_witness :
  h_tx after_setup = [] /\
  (account._create_accounts 2 "keys.csv" "." after_setup).1 = Ok tt /\
  ends (account._create_accounts 2 "keys.csv" ".") (create_outcome 2 "keys.csv" after_setup)
    after_setup.
Proof.
  assert (H : h_tx after_setup = []) by by vm_compute. split; [exact H|split; [by vm_compute|]].
  apply (create_accounts_outcome 2 "keys.csv" "." after_setup). exact H.
Defined.

(** On a full disk the account is made, and its key is nowhere. *)
Definition full_disk : Host memory := {|
  mkdir_parents := mkdir_parents; path_exists := path_exists;
  append_text _ _ s := (Exn (EOther "OSError" "No space left on device"), s);
  chmod := chmod; print := print; token_urlsafe := token_urlsafe; open_engine := open_engine;
  flush := flush; commit := commit; close_session := close_session;
  dispose_engine := dispose_engine; create_bucket := create_bucket;
  command_upgrade := command_upgrade
|}.

Example full_disk_loses_key :
  let out := account._create_accounts (Host0 := full_disk) 1 "keys.csv" "." after_setup in
  out.1 = Exn (EOther "OSError" "No space left on device") /\
  (length (accounts_rows after_setup), length (accounts_rows out.2)) = (1, 2)%nat /\
  h_files out.2 !! "keys.csv" = None.
Proof. by vm_compute. Qed.

(** The second run finds the bucket and the schema. *)
Lemma setup_prepares_witness :
  (setup.setup demo_settings fresh).1 = Ok tt /\ prepared demo_settings fresh after_setup /\
  (setup.setup demo_settings after_setup).1 = Ok tt.
Proof.
  assert (H : (setup.setup demo_settings fresh).1 = Ok tt) by by vm_compute.
  split; [exact H|split; [|by vm_compute]]. apply (setup_prepares demo_settings fresh); done.
Defined.
