(* ===== verification/PyText.v ===== *)
(** * Text methods of the Python standard library

    [str.split], [strip], [splitlines], [lower], [endswith], [int()] and
    [datetime.fromisoformat], on the representation of strings of [PyStr].  Methods that
    look at characters decode the text to code points first. *)

From stdpp Require Import pretty.
From S2P Require Import Prelude PyStr Json JsonFacts.

Definition points (s : string) : list N := default [] (utf8_decode (list_of_string s)).
Definition of_points (ps : list N) : string := string_of_list (encode_points ps).

(** ** Splitting and stripping *)

(** [l.split(sep)] for one character. *)
Fixpoint split_chars (sep : ascii) (l : list ascii) : list (list ascii) :=
  match l with
  | [] => [[]]
  | c :: l' =>
      if bool_decide (c = sep) then [] :: split_chars sep l'
      else match split_chars sep l' with
           | f :: fs => (c :: f) :: fs
           | [] => [[c]]
           end
  end.

Definition split (sep : ascii) (s : string) : list string :=
  map string_of_list (split_chars sep (list_of_string s)).

(** [s.split(sep, 1)[0]]: the text before the first separator, or all of it. *)
Definition before (sep : ascii) (s : string) : string := hd "" (split sep s).

(** The characters for which [str.isspace] holds. *)
Definition is_space_point (n : N) : bool :=
  ((9 <=? n) && (n <=? 13))%N || ((28 <=? n) && (n <=? 32))%N
  || (n =? 133)%N || (n =? 160)%N || (n =? 5760)%N || ((8192 <=? n) && (n <=? 8202))%N
  || (n =? 8232)%N || (n =? 8233)%N || (n =? 8239)%N || (n =? 8287)%N || (n =? 12288)%N.

Fixpoint drop_spaces (ps : list N) : list N :=
  match ps with
  | [] => []
  | p :: ps' => if is_space_point p then drop_spaces ps' else ps
  end.

Definition rstrip_points (ps : list N) : list N := reverse (drop_spaces (reverse ps)).

(** [s.strip()] and [s.rstrip()]. *)
Definition strip (s : string) : string := of_points (rstrip_points (drop_spaces (points s))).
Definition rstrip (s : string) : string := of_points (rstrip_points (points s)).

(** The line boundaries of [str.splitlines]; a carriage return and the line feed after it
    are one. *)
Definition is_line_end (n : N) : bool :=
  ((10 <=? n) && (n <=? 13))%N || ((28 <=? n) && (n <=? 30))%N
  || (n =? 133)%N || (n =? 8232)%N || (n =? 8233)%N.

Fixpoint split_lines (cur : list N) (ps : list N) : list (list N) :=
  match ps with
  | [] => match cur with [] => [] | _ => [reverse cur] end
  | p :: ps' =>
      if is_line_end p then
        reverse cur ::
        (if (p =? 13)%N
         then match ps' with
              | q :: ps'' => if (q =? 10)%N then split_lines [] ps'' else split_lines [] ps'
              | [] => split_lines [] ps'
              end
         else split_lines [] ps')
      else split_lines (p :: cur) ps'
  end.

Definition splitlines (s : string) : list string := map of_points (split_lines [] (points s)).

(** [s.endswith(suffix)]. *)
Definition endswith (s suffix : string) : bool :=
  String.prefix (string_of_list (reverse (list_of_string suffix)))
    (string_of_list (reverse (list_of_string s))).

(** ** Case *)

Definition lower_char (c : ascii) : ascii := if byte_in 65 90 c then chr (code c + 32) else c.
Definition upper_char (c : ascii) : ascii := if byte_in 97 122 c then chr (code c - 32) else c.

Definition is_ascii_text (s : string) : Prop :=
  Forall (fun c => byte_in 0 127 c = true) (list_of_string s).

(** [str.lower] and [str.upper]: the Unicode tables are an argument; ASCII letters are as
    everyone knows. *)
Class StrLower (lower : string -> string) : Prop :=
  lower_ascii s : is_ascii_text s ->
    lower s = string_of_list (map lower_char (list_of_string s)).
Class StrUpper (upper : string -> string) : Prop :=
  upper_ascii s : is_ascii_text s ->
    upper s = string_of_list (map upper_char (list_of_string s)).

(** ** Numbers *)

(** The digits of [int(_)], single underscores between them. *)
Fixpoint int_digits (acc : Z) (under : bool) (l : list ascii) : option Z :=
  match l with
  | [] => if under then None else Some acc
  | c :: l' =>
      if bool_decide (c = "_"%char)
      then if under then None else int_digits acc true l'
      else if is_digit c then int_digits (10 * acc + Z.of_N (code c - 48)) false l'
      else None
  end.

(** [int(s)] of a text in ASCII digits; [None] is the [ValueError], also for more digits
    than the interpreter converts. *)
Definition int_of_str (s : string) : option Z :=
  let l := list_of_string (strip s) in
  let '(neg, l) := match l with
                   | "-"%char :: l' => (true, l')
                   | "+"%char :: l' => (false, l')
                   | _ => (false, l)
                   end in
  match l with
  | c :: _ =>
      if is_digit c && (List.length (List.filter is_digit l) <=? max_str_digits)%nat
      then (fun z => if neg : bool then (- z)%Z else z) <$> int_digits 0 false l
      else None
  | [] => None
  end.

(** ** Dates *)

(** A [datetime] without time zone, field by field. *)
Module Datetime.
Record t : Type := Make {
  year : Z; month : Z; day : Z; hour : Z; minute : Z; second : Z; microsecond : Z
}.
End Datetime.

Definition leap (y : Z) : bool :=
  ((y mod 4 =? 0) && (negb (y mod 100 =? 0) || (y mod 400 =? 0)))%Z.

Definition days_in_month (y m : Z) : Z :=
  (if m =? 2 then if leap y then 29 else 28
   else if (m =? 4) || (m =? 6) || (m =? 9) || (m =? 11) then 30 else 31)%Z.

(** The ranges the constructor checks. *)
Definition valid_datetime (d : Datetime.t) : bool :=
  let '(Datetime.Make y mo d h mi s us) := d in
  ((1 <=? y) && (y <=? 9999) && (1 <=? mo) && (mo <=? 12)
   && (1 <=? d) && (d <=? days_in_month y mo) && (0 <=? h) && (h <=? 23)
   && (0 <=? mi) && (mi <=? 59) && (0 <=? s) && (s <=? 59) && (0 <=? us) && (us <=? 999999))%Z.

Definition digit_value (c : ascii) : option Z :=
  if is_digit c then Some (Z.of_N (code c - 48)) else None.

(** Exactly [n] digits. *)
Fixpoint take_digits (n : nat) (acc : Z) (l : list ascii) : option (Z * list ascii) :=
  match n with
  | O => Some (acc, l)
  | S n =>
      match l with
      | c :: l' => d ← digit_value c; take_digits n (10 * acc + d)%Z l'
      | [] => None
      end
  end.

Definition expect (c : ascii) (l : list ascii) : option (list ascii) :=
  match l with c' :: l' => if bool_decide (c' = c) then Some l' else None | [] => None end.

(** The fraction of a second: six digits count, a shorter fraction is filled with zeros,
    further digits are dropped. *)
Fixpoint fraction (n : nat) (acc : Z) (l : list ascii) : option Z :=
  match l with
  | [] => Some (acc * 10 ^ Z.of_nat n)%Z
  | c :: l' =>
      d ← digit_value c;
      match n with
      | O => fraction O acc l'
      | S n => fraction n (10 * acc + d)%Z l'
      end
  end.

Definition scan_datetime (l : list ascii) : option Datetime.t :=
  '(y, l) ← take_digits 4 0 l; l ← expect "-" l;
  '(mo, l) ← take_digits 2 0 l; l ← expect "-" l;
  '(d, l) ← take_digits 2 0 l;
  match l with
  | [] => None
  | _ :: l =>
      '(h, l) ← take_digits 2 0 l; l ← expect ":" l;
      '(mi, l) ← take_digits 2 0 l; l ← expect ":" l;
      '(s, l) ← take_digits 2 0 l;
      match l with
      | [] => Some (Datetime.Make y mo d h mi s 0)
      | c :: l =>
          if bool_decide (c = "."%char) || bool_decide (c = ","%char)
          then match l with
               | [] => None
               | _ => Datetime.Make y mo d h mi s <$> fraction 6 0 l
               end
          else None
      end
  end.

(** [datetime.fromisoformat]: a date and a time of day, to the second or finer, in the
    extended format; the argument [others] stands for the other formats of ISO 8601. *)
Definition fromisoformat (others : string -> option Datetime.t) (s : string)
  : option Datetime.t :=
  match scan_datetime (list_of_string s) with
  | Some d => if valid_datetime d then Some d else None
  | None => others s
  end.

Example split_ex : split "|" "a|bc||" = ["a"; "bc"; ""; ""].
Proof. reflexivity. Qed.

Example strip_ex : strip "  a b
" = "a b".
Proof. vm_compute. reflexivity. Qed.

Example iso_ex :
  fromisoformat (fun _ => None) "2026-05-13 08:41:37.31"
  = Some (Datetime.Make 2026 5 13 8 41 37 310000).
Proof. vm_compute. reflexivity. Qed.

Example int_ex : int_of_str " -1_000 " = Some (-1000)%Z.
Proof. vm_compute. reflexivity. Qed.
