(* ===== verification/Bench.v ===== *)
(** * What the developer tools use ([local/])

    The tools of [local/] run one after the other against the clock, HTTP clients, files,
    the shell and PyMuPDF.  [Bench] are these operations, [BenchLaws] what is documented of
    them: no clock runs backwards, [sleep] takes at least its time, and only the operations
    that say so send a request, start a command or print a line.  Times are in nanoseconds. *)

From S2P Require Import Prelude PyStr PyText Json Tool.

(** The exceptions of the tools, with the text of [str()]. *)
Inductive terr : Type :=
| HTTPStatusError (status : Z) (m : string)
| BackpressureRejected
| JobFailed (job : json)
| TimeoutError (m : string)
| ValueError (m : string)
| RuntimeError (m : string)
| Unforeseen (name m : string). (** any other [Exception] *)

(** The HTTP clients of [PipelineClient]: one with the base URL and the key, one bare. *)
Inductive http_client : Type :=
| ApiClient (base_url api_key : string)
| BareClient.

Record response : Type := Response { status_code : Z; content : string }.

Record request : Type := Request {
  rq_client : http_client; rq_method : string; rq_url : string; rq_body : string
}.

(** [subprocess.CompletedProcess]. *)
Record completed : Type := Completed { returncode : Z; stdout : string; stderr : string }.

Class Bench (S : Type) : Type := {
  monotonic : tool terr S Z;
  sleep : Z -> tool terr S unit;
  now : tool terr S Z; (** [datetime.now()], in microseconds *)
  open_client : http_client -> tool terr S unit;
  aclose : http_client -> tool terr S unit;
  send : request -> tool terr S response;
  run_command : list string -> tool terr S completed;
  read_text : string -> tool terr S string;
  read_bytes : string -> tool terr S string;
  print : string -> tool terr S unit
}.

(** A request and what came of it. *)
Abbreviation exchange := (request * result terr response)%type.

(** What can be seen of a bench: the time, the requests sent with their answers, the commands
    started and the lines printed. *)
Class BenchView (S : Type) : Type := {
  clock : S -> Z;
  exchanges : S -> list exchange;
  commands : S -> list (list string);
  printed : S -> list string
}.

Definition requests {S} `{!BenchView S} (s : S) : list request := (exchanges s).*1.

Section laws.
Context {S} `{!Bench S, !BenchView S}.

(** The exceptions of the tools themselves are no one else's. *)
Definition foreign {A} (r : result terr A) : Prop :=
  match r with
  | Exn (BackpressureRejected | JobFailed _ | TimeoutError _) => False
  | _ => True
  end.

(** An operation that sends the requests [qs] and starts the commands [cs], whether it
    succeeds or fails, and prints nothing; if it succeeds, [P] holds. *)
Definition behaves {A} (m : tool terr S A) (qs : list request) (cs : list (list string))
    (P : S -> A -> S -> Prop) : Prop :=
  forall s, match m s with
    | (r, s') =>
        (clock s <= clock s')%Z /\
        (exists xs, exchanges s' = (exchanges s ++ xs)%list /\ xs.*1 = qs) /\
        commands s' = (commands s ++ cs)%list /\
        (foreign r /\ printed s' = printed s) /\
        match r with Ok a => P s a s' | Exn _ => True end
    end.

Definition quiet {A} (m : tool terr S A) : Prop := behaves m [] [] (fun _ _ _ => True).

(** An operation that prints the line, if it succeeds. *)
Definition prints (m : tool terr S unit) (line : string) : Prop :=
  forall s, match m s with
    | (r, s') =>
        (clock s <= clock s')%Z /\ exchanges s' = exchanges s /\ commands s' = commands s /\
        foreign r /\ (r = Ok tt -> printed s' = (printed s ++ [line])%list)
    end.
End laws.

Class BenchLaws (S : Type) `{!Bench S, !BenchView S} : Prop := {
  law_monotonic : behaves monotonic [] [] (fun s t s' => clock s <= t <= clock s')%Z;
  law_monotonic_reads s : exists t, (monotonic s).1 = Ok t;
  law_sleep d : behaves (sleep d) [] [] (fun s _ s' => clock s + d <= clock s')%Z;
  law_now : quiet now;
  law_now_reads s : exists t, (now s).1 = Ok t;
  law_open c : quiet (open_client c);
  law_aclose c : quiet (aclose c);
  law_read_text p : quiet (read_text p);
  law_read_bytes p : quiet (read_bytes p);
  law_print m : prints (print m) m;
  law_send q : behaves (send q) [q] [] (fun _ _ _ => True);
  law_send_answers q s : exchanges (send q s).2 = (exchanges s ++ [(q, (send q s).1)])%list;
  law_command c : behaves (run_command c) [] [c] (fun _ _ _ => True)
}.

Section rules.
Context {S} `{!Bench S, !BenchView S}.

Lemma ends_behaves {A} (m : tool terr S A) qs cs P Q s :
  behaves m qs cs P ->
  (forall r s', (clock s <= clock s')%Z -> requests s' = (requests s ++ qs)%list ->
     commands s' = (commands s ++ cs)%list -> foreign r ->
     match r with Ok a => P s a s' | Exn _ => True end -> Q r s') ->
  ends m Q s.
Proof.
  intros H HQ. specialize (H s). unfold ends. destruct (m s) as [r s'].
  destruct H as (?&(xs & Hx & Hq)&?&[? _]&?). apply HQ; [done| |done..].
  unfold requests. cbn [snd]. by rewrite Hx, fmap_app, Hq.
Qed.

Lemma ends_silent {A} (m : tool terr S A) P Q s :
  behaves m [] [] P ->
  (forall r s', (clock s <= clock s')%Z -> requests s' = requests s ->
     commands s' = commands s -> foreign r ->
     match r with Ok a => P s a s' | Exn _ => True end -> Q r s') ->
  ends m Q s.
Proof.
  intros H HQ. eapply ends_behaves; [exact H|]. intros r s' ?. rewrite !app_nil_r. auto.
Qed.

(** The same, for all that can be seen. *)
Lemma ends_unseen {A} (m : tool terr S A) P Q s :
  behaves m [] [] P ->
  (forall r s', (clock s <= clock s')%Z -> exchanges s' = exchanges s -> printed s' = printed s ->
     foreign r -> match r with Ok a => P s a s' | Exn _ => True end -> Q r s') ->
  ends m Q s.
Proof.
  intros H HQ. specialize (H s). unfold ends. destruct (m s) as [r s'].
  destruct H as (?&(xs & Hx & Hq)&?&[? ?]&?). apply fmap_nil_inv in Hq as ->.
  rewrite app_nil_r in Hx. by apply HQ.
Qed.
End rules.
