(* ===== verification/LocalClient.v ===== *)
(** * The pipeline client and the smoke test ([local/pipeline/client.py], [local/smoke.py]) *)

From stdpp Require Import pretty.
From S2P Require Import Prelude PyStr PyUuid PyText Json PyCsv Tool Bench.

(** ** [local/pipeline/client.py] *)

Definition BASE_URL : string := "http://localhost:8080".

(** The directory of the tools: what [Path(__file__).parent.parent] is in
    [local/pipeline/]. *)
Class Checkout : Type := { local_dir : string }.

(** The tools as they are run from the root of the repository. *)
Definition repository_root : Checkout := {| local_dir := "local" |}.

Definition ACCOUNTS_CSV `{!Checkout} : string := (local_dir ++ "/accounts.csv")%string.

Module Document.
Record t : Type := Make { id : uuid; upload_url : json }.
End Document.

(** [next(csv.DictReader(f))]: the first row that is not empty, by the names of the header;
    [None] is the [StopIteration], and a missing field is [None]. *)
Definition first_dict (rows : list (list string)) : option (list (string * option string)) :=
  match rows with
  | [] => None
  | header :: rows =>
      match List.find (fun r => negb (bool_decide (r = []))) rows with
      | None => None
      | Some row =>
          Some (zip header ((Some <$> row) ++ repeat None (length header - length row)))
      end
  end.

(** [d[key]] of a dictionary made from pairs: the last one counts. *)
Definition dict_get {A} (key : string) (d : list (string * A)) : option A :=
  snd <$> List.find (fun p => bool_decide (p.1 = key)) (reverse d).

(** [UUID(v)] of a value of a JSON document. *)
Definition uuid_arg {S} (v : json) : tool terr S uuid :=
  match v with
  | JStr s => unless (uuid_of_str s) (ValueError "badly formed hexadecimal UUID string")
  | _ => raise (Unforeseen "TypeError" "UUID of a value that is no string")
  end.

Definition item {S} (key : string) (j : json) : tool terr S json :=
  unless (get_item key j) (Unforeseen "KeyError" key).

(** [v == s] for a string. *)
Definition is_str (s : string) (v : json) : bool :=
  match v with JStr t => String.eqb t s | _ => false end.

(** [response.raise_for_status()] of httpx: an error status raises, a success does not;
    the text of the error and the other statuses are its own. *)
Class RaiseForStatus (raise_for_status : response -> option terr) : Prop := {
  success_passes r : (200 <= status_code r < 300)%Z -> raise_for_status r = None;
  error_raises r : (400 <= status_code r < 600)%Z ->
    exists m, raise_for_status r = Some (HTTPStatusError (status_code r) m);
  raises_foreign r : match raise_for_status r with
    | Some (HTTPStatusError _ _) | None => True
    | Some _ => False
    end
}.

(** The attributes [_api] and [_upload] of a [PipelineClient] that has been entered. *)
Record PipelineClient : Type := Entered { _api : http_client; _upload : http_client }.

Section client.
Context {S} `{!Bench S} {here : Checkout}.
Context (raise_for_status : response -> option terr) (limit : nat) (seconds : Z -> string).

Definition check_status (r : response) : tool terr S unit :=
  match raise_for_status r with Some x => raise x | None => mret tt end.

(** [response.json()]. *)
Definition response_json (r : response) : tool terr S json :=
  match loads limit (content r) with
  | DVal j _ => mret j
  | DValueError => raise (ValueError "Expecting value")
  | DRecursionError | DFuel => raise (Unforeseen "RecursionError" "maximum recursion depth exceeded")
  end.

Definition _load_api_key (accounts_csv : string) : tool terr S (option string) :=
  text ← read_text accounts_csv;
  row ← unless (first_dict (reader text)) (Unforeseen "StopIteration" "");
  unless (dict_get "api_key" row) (Unforeseen "KeyError" "api_key").

Definition __aenter__ (base_url accounts_csv : string) : tool terr S PipelineClient :=
  key ← _load_api_key accounts_csv;
  match key with
  | None => raise (Unforeseen "TypeError" "header value must be str or bytes")
  | Some api_key =>
      let api := ApiClient base_url api_key in
      open_client api;;
      open_client BareClient;;
      mret (Entered api BareClient)
  end.

Definition __aexit__ (self : PipelineClient) : tool terr S unit :=
  aclose (_api self);; aclose (_upload self).

(** [async with PipelineClient() as client: body]. *)
Definition with_client {A} (body : PipelineClient -> tool terr S A) : tool terr S A :=
  client ← __aenter__ BASE_URL ACCOUNTS_CSV;
  try_finally (body client) (__aexit__ client).

Definition submit_document (self : PipelineClient) : tool terr S Document.t :=
  response ← send (Request (_api self) "POST" "/documents" "");
  check_status response;;
  body ← response_json response;
  document_id ← item "document_id" body;
  id ← uuid_arg document_id;
  upload_url ← item "upload_url" body;
  mret (Document.Make id upload_url).

Definition upload (self : PipelineClient) (upload_url : json) (pdf_bytes : string)
  : tool terr S unit :=
  match upload_url with
  | JStr url =>
      response ← send (Request (_upload self) "PUT" url pdf_bytes);
      check_status response
  | _ => raise (Unforeseen "TypeError" "Invalid type for url")
  end.

Definition start_processing (self : PipelineClient) (document_id : uuid) : tool terr S uuid :=
  response ← send (Request (_api self) "POST"
    ("/documents/" ++ uuid_str document_id ++ "/process") "{}");
  if (status_code response =? 429)%Z then raise BackpressureRejected
  else
    check_status response;;
    body ← response_json response;
    id ← item "id" body;
    uuid_arg id.

Definition job_request (self : PipelineClient) (job_id : uuid) : request :=
  Request (_api self) "GET" ("/jobs/" ++ uuid_str job_id) "".

(** One poll: the job and its status. *)
Definition poll_job (self : PipelineClient) (job_id : uuid) : tool terr S (json * json) :=
  response ← send (job_request self job_id);
  check_status response;;
  job ← response_json response;
  status ← item "status" job;
  mret (job, status).

(** The loop of [wait_for_completion]; [None] when the bound on its rounds is reached.
    [seconds] is the text of a number of seconds. *)
Fixpoint poll_until (fuel : nat) (self : PipelineClient) (job_id : uuid)
    (timeout deadline poll_interval : Z) : tool terr S (option json) :=
  match fuel with
  | O => mret None
  | Datatypes.S fuel =>
      time ← monotonic;
      if (time <? deadline)%Z then
        '(job, status) ← poll_job self job_id;
        if is_str "completed" status then mret (Some job)
        else if is_str "failed" status then raise (JobFailed job)
        else
          sleep poll_interval;;
          poll_until fuel self job_id timeout deadline poll_interval
      else raise (TimeoutError ("job " ++ uuid_str job_id ++ " did not complete within "
                                ++ seconds timeout ++ "s"))
  end.

Definition wait_for_completion (fuel : nat) (self : PipelineClient) (job_id : uuid)
    (timeout poll_interval : Z) : tool terr S (option json) :=
  time ← monotonic;
  poll_until fuel self job_id timeout (time + timeout)%Z poll_interval.
End client.

(** ** [local/smoke.py] *)

Definition POLL_INTERVAL_SECONDS : Z := 1.
Definition BASE_POLL_TIMEOUT_SECONDS : Z := 60.
Definition SAMPLE_PDF `{!Checkout} : string := (local_dir ++ "/sample.pdf")%string.
Definition second : Z := 10 ^ 9.

Record Result : Type := MakeResult {
  index : Z; ok : bool; elapsed : Z; error : option string
}.

Section smoke.
Context (raise_for_status : response -> option terr) (limit : nat) (seconds : Z -> string).
(** The text of a value of a document that is neither a string nor [None], and a time in
    seconds with one decimal. *)
Context (repr : json -> string) (tenths : Z -> string).

Definition json_str (v : option json) : string :=
  match v with
  | None | Some JNull => "None"
  | Some (JStr s) => s
  | Some v => repr v
  end.

(** [str(e)]. *)
Definition terr_str (e : terr) : string :=
  match e with
  | HTTPStatusError _ m | TimeoutError m | ValueError m | RuntimeError m | Unforeseen _ m => m
  | BackpressureRejected => ""
  | JobFailed job => json_str (get_item "error_message" job)
  end.

(** The [error] of the two [except] clauses. *)
Definition failure_text (e : terr) : string :=
  match e with
  | JobFailed job => "job failed: " ++ json_str (get_item "error_message" job)
  | e => terr_str e
  end.

Definition _run_one {S} `{!Bench S} (fuel : nat) (client : PipelineClient) (index : Z)
    (pdf_bytes : string) (poll_timeout : Z) : tool terr S (option Result) :=
  start ← monotonic;
  try_except
    (doc ← submit_document raise_for_status limit client;
     upload raise_for_status client (Document.upload_url doc) pdf_bytes;;
     job_id ← start_processing raise_for_status limit client (Document.id doc);
     job ← wait_for_completion raise_for_status limit seconds fuel client job_id poll_timeout
             (POLL_INTERVAL_SECONDS * second)%Z;
     match job with
     | None => mret None
     | Some _ => time ← monotonic; mret (Some (MakeResult index true (time - start)%Z None))
     end)
    (fun e => Some
       (time ← monotonic;
        mret (Some (MakeResult index false (time - start)%Z (Some (failure_text e)))))).

Definition _format_result (r : Result) : string :=
  if ok r then "[" ++ pretty (index r) ++ "] ok (" ++ tenths (elapsed r) ++ "s)"
  else "[" ++ pretty (index r) ++ "] FAILED: " ++ default "None" (error r).

Definition passed (results : list Result) : Z := Z.of_nat (length (List.filter ok results)).

Section main.
Context {S} `{!Bench S} {here : Checkout}.

(** [asyncio.gather]: it starts the coroutines, which run interleaved, and gives their
    results in order.  To each of them the others are part of its surroundings, so that
    what it does is what it does on some bench. *)
Context (gather : list (forall S', Bench S' -> tool terr S' (option Result)) ->
                  tool terr S (list (option Result))).

Fixpoint print_all (lines : list string) : tool terr S unit :=
  match lines with
  | [] => mret tt
  | line :: lines => print line;; print_all lines
  end.

(** [range(1, count + 1)]. *)
Definition indices (count : Z) : list Z := (fun i => Z.of_nat i + 1)%Z <$> seq 0 (Z.to_nat count).

(** The exit code; [None] when a document was still polled at the bound on the rounds. *)
Definition smoke_main (fuel : nat) (count : Z) : tool terr S (option Z) :=
  start ← monotonic;
  let poll_timeout := ((BASE_POLL_TIMEOUT_SECONDS + count) * second)%Z in
  pdf_bytes ← read_bytes SAMPLE_PDF;
  results ← with_client (fun client =>
    gather ((fun i S' (_ : Bench S') => _run_one fuel client i pdf_bytes poll_timeout)
              <$> indices count));
  match mapM id results with
  | None => mret None
  | Some results =>
      print_all (_format_result <$> results);;
      time ← monotonic;
      print (pretty (passed results) ++ "/" ++ pretty count ++ " passed ("
             ++ tenths (time - start)%Z ++ "s total)");;
      mret (Some (if (passed results =? count)%Z then 0 else 1)%Z)
  end.

(** [int(sys.argv[1]) if len(sys.argv) > 1 else 1]; [None] is the [ValueError]. *)
Definition script_count (argv : list string) : option Z :=
  match argv with _ :: count :: _ => int_of_str count | _ => Some 1%Z end.

(** The script: what it gives to [sys.exit]. *)
Definition smoke_script (fuel : nat) (argv : list string) : tool terr S (option Z) :=
  count ← unless (script_count argv) (ValueError "invalid literal for int() with base 10");
  smoke_main fuel count.
End main.
End smoke.
