(* ===== verification/LocalJobs.v ===== *)
(** * Reading jobs from the database ([local/pipeline/jobs.py])

    A query goes through [psql] in the container of the database; a line of its output is
    parsed into a [JobSnapshot]. *)

From stdpp Require Import pretty.
From S2P Require Import Prelude PyStr PyUuid PyText Tool Bench.

Module JobSnapshot.
Record t : Type := Make {
  id : uuid; status : string; attempts : Z; max_attempts : Z;
  queued_at : option Datetime.t; started_at : option Datetime.t;
  completed_at : option Datetime.t; failed_at : option Datetime.t;
  error_message : option string
}.
End JobSnapshot.

(** The command that runs a query: [psql] prints rows without headings, separated by
    bars. *)
Definition dq : string := String (ascii_of_N 34) "".

Definition query_command (sql : string) : list string :=
  ["docker"; "compose"; "exec"; "-T"; "postgres"; "sh"; "-c";
   ("psql -U " ++ dq ++ "$POSTGRES_USER" ++ dq ++ " -d " ++ dq ++ "$POSTGRES_DB" ++ dq
   ++ " -t -A -F'|' -c " ++ dq ++ sql ++ dq)%string].

Definition snapshot_sql (job_id : uuid) : string :=
  "SELECT id, status, attempts, max_attempts, queued_at, started_at, "
  ++ "completed_at, failed_at, error_message FROM jobs WHERE id = "
  ++ "'" ++ uuid_str job_id ++ "'".

Definition artifact_count_sql (document_id : uuid) : string :=
  "SELECT count(*) FROM artifacts WHERE document_id = '" ++ uuid_str document_id ++ "'".

Section jobs.
Context {S} `{!Bench S}.
(** The texts of a command and of a snapshot in messages; the case mapping; the formats of
    ISO 8601 that [psql] does not print. *)
Context (show_cmd : list string -> string) (show_snapshot : JobSnapshot.t -> string).
Context (lower : string -> string) (others : string -> option Datetime.t).

(** [subprocess.run(..., check=True)] with its [CalledProcessError] translated. *)
Definition _run (cmd : list string) : tool terr S string :=
  result ← run_command cmd;
  if (returncode result =? 0)%Z then mret (stdout result)
  else raise (RuntimeError ("command " ++ show_cmd cmd ++ " failed (exit "
                            ++ pretty (returncode result) ++ "): " ++ stderr result)).

Definition _run_query (sql : string) : tool terr S string := _run (query_command sql).

Definition _dt (v : string) : option (option Datetime.t) :=
  if bool_decide (v = "") then Some None else Some <$> fromisoformat others v.

Definition _text (v : string) : option string := if bool_decide (v = "") then None else Some v.

(** [None] is the exception of a field that is missing or malformed. *)
Definition parse_fields (fields : list string) : option JobSnapshot.t :=
  id ← fields !! 0 ≫= uuid_of_str;
  status ← lower <$> fields !! 1;
  attempts ← fields !! 2 ≫= int_of_str;
  max_attempts ← fields !! 3 ≫= int_of_str;
  queued_at ← fields !! 4 ≫= _dt;
  started_at ← fields !! 5 ≫= _dt;
  completed_at ← fields !! 6 ≫= _dt;
  failed_at ← fields !! 7 ≫= _dt;
  error_message ← _text <$> fields !! 8;
  Some (JobSnapshot.Make id status attempts max_attempts queued_at started_at completed_at
          failed_at error_message).

Definition _parse_row (line : string) : option JobSnapshot.t := parse_fields (split "|" line).

Definition snapshot (job_id : uuid) : tool terr S JobSnapshot.t :=
  text ← _run_query (snapshot_sql job_id);
  let out := strip text in
  if bool_decide (out = "") then raise (ValueError ("job " ++ uuid_str job_id ++ " not found"))
  else unless (_parse_row out) (ValueError "malformed row").

(** The [while] loop of [wait_for_status], with the last snapshot; [None] when the bound on
    its rounds is reached. *)
Fixpoint wait_loop (fuel : nat) (job_id : uuid) (status : string) (deadline interval : Z)
    (last : JobSnapshot.t) : tool terr S (option JobSnapshot.t) :=
  match fuel with
  | O => mret None
  | Datatypes.S fuel =>
      if bool_decide (JobSnapshot.status last = status) then mret (Some last)
      else
        time ← monotonic;
        if (time <? deadline)%Z then
          sleep interval;;
          last ← snapshot job_id;
          wait_loop fuel job_id status deadline interval last
        else mret (Some last)
  end.

Definition wait_for_status (fuel : nat) (job_id : uuid) (status : string)
    (timeout interval : Z) : tool terr S (option JobSnapshot.t) :=
  let status := lower status in
  time ← monotonic;
  last ← snapshot job_id;
  last ← wait_loop fuel job_id status (time + timeout)%Z interval last;
  match last with
  | None => mret None
  | Some last =>
      if bool_decide (JobSnapshot.status last = status) then mret (Some last)
      else raise (TimeoutError ("job " ++ uuid_str job_id ++ " did not reach status='"
                                ++ status ++ "'; last=" ++ show_snapshot last))
  end.

(** [seen.append(snap)] where the status differs from that of the last one. *)
Definition observe (seen : list JobSnapshot.t) (snap : JobSnapshot.t) : list JobSnapshot.t :=
  match list.last seen with
  | Some prev =>
      if bool_decide (JobSnapshot.status prev = JobSnapshot.status snap) then seen
      else (seen ++ [snap])%list
  | None => (seen ++ [snap])%list
  end.

Fixpoint watch_loop (fuel : nat) (job_id : uuid) (deadline interval : Z)
    (seen : list JobSnapshot.t) : tool terr S (option (list JobSnapshot.t)) :=
  match fuel with
  | O => mret None
  | Datatypes.S fuel =>
      time ← monotonic;
      if (time <? deadline)%Z then
        snap ← snapshot job_id;
        sleep interval;;
        watch_loop fuel job_id deadline interval (observe seen snap)
      else mret (Some seen)
  end.

Definition watch (fuel : nat) (job_id : uuid) (duration interval : Z)
  : tool terr S (option (list JobSnapshot.t)) :=
  time ← monotonic;
  watch_loop fuel job_id (time + duration)%Z interval [].

Definition artifact_count (document_id : uuid) : tool terr S Z :=
  out ← _run_query (artifact_count_sql document_id);
  unless (int_of_str (strip out)) (ValueError "invalid literal for int()").
End jobs.
