(* ===== verification/LocalDocker.v ===== *)
(** * The stack under test ([local/pipeline/docker.py], [local/pipeline/fixtures.py])

    The commands the scenarios give to Docker and the answers they read back, and the
    files they upload. *)

From stdpp Require Import pretty.
From S2P Require Import Prelude PyStr PyText Json Tool Bench LocalClient LocalJobs.

(** ** [local/pipeline/docker.py] *)

Definition _NETWORK : string := "doc-pipeline_default".

Module ContainerState.
Record t : Type := Make {
  running : json; started_at : option json; restart_count : json; exit_code : option json
}.
End ContainerState.

Section docker.
Context {S} `{!Bench S}.
Context (show_cmd : list string -> string) (limit : nat).
(** [int()] of a number with a fraction or an exponent. *)
Context (truncate : string -> option Z).

Definition run_ (cmd : list string) : tool terr S unit := _run show_cmd cmd;; mret tt.

Definition worker_containers : tool terr S (list string) :=
  out ← _run show_cmd ["docker"; "compose"; "ps"; "--format"; "{{.Name}}"; "worker"];
  mret (List.filter (fun line => negb (bool_decide (strip line = ""))) (splitlines out)).

Definition kill (container : string) : tool terr S unit :=
  run_ ["docker"; "kill"; "-s"; "SIGKILL"; container].
Definition stop (container : string) (timeout : Z) : tool terr S unit :=
  run_ ["docker"; "stop"; "-t"; pretty timeout; container].
Definition start (container : string) : tool terr S unit := run_ ["docker"; "start"; container].
Definition restart (container : string) (timeout : Z) : tool terr S unit :=
  run_ ["docker"; "restart"; "-t"; pretty timeout; container].
Definition pause (container : string) : tool terr S unit := run_ ["docker"; "pause"; container].
Definition unpause (container : string) : tool terr S unit := run_ ["docker"; "unpause"; container].

Definition scale_command (n : Z) : list string :=
  ["docker"; "compose"; "up"; "-d"; "--scale"; ("worker=" ++ pretty n)%string].

Definition scale_workers (n : Z) : tool terr S unit := run_ (scale_command n).

(** [json.loads(out)]. *)
Definition loads_out (out : string) : tool terr S json :=
  match loads_text limit (list_of_string out) with
  | DVal j _ => mret j
  | DValueError => raise (ValueError "Expecting value")
  | DRecursionError | DFuel => raise (Unforeseen "RecursionError" "maximum recursion depth exceeded")
  end.

(** [int(v)] of a decoded value. *)
Definition int_of_json (v : json) : option Z :=
  match v with
  | JInt z => Some z
  | JBool b => Some (if b then 1 else 0)%Z
  | JStr s => int_of_str s
  | JFloat text => truncate text
  | JNull | JArr _ | JObj _ => None
  end.

Definition int_item (key : string) (j : json) : tool terr S Z :=
  v ← item key j;
  unless (int_of_json v) (ValueError "invalid literal for int()").

Definition config_command : list string := ["docker"; "compose"; "config"; "--format"; "json"].

Definition configured_worker_replicas : tool terr S Z :=
  out ← _run show_cmd config_command;
  data ← loads_out out;
  services ← item "services" data;
  worker ← item "worker" services;
  deploy ← item "deploy" worker;
  int_item "replicas" deploy.

Definition disconnect (container : string) : tool terr S unit :=
  run_ ["docker"; "network"; "disconnect"; _NETWORK; container].
Definition connect (container : string) : tool terr S unit :=
  run_ ["docker"; "network"; "connect"; _NETWORK; container].

Definition logs (service since : string) : tool terr S string :=
  _run show_cmd ["docker"; "compose"; "logs"; "--since"; since; service].

Definition _list_queues : tool terr S json :=
  out ← _run show_cmd
    ["docker"; "compose"; "exec"; "-T"; "rabbitmq"; "rabbitmqctl"; "list_queues"; "name";
     "messages"; "messages_unacknowledged"; "--formatter"; "json"];
  loads_out out.

(** [for row in rows: if row["name"] == queue: return int(row[field])], and 0 after it. *)
Fixpoint find_queue (queue field : string) (rows : list json) : tool terr S Z :=
  match rows with
  | [] => mret 0%Z
  | row :: rows =>
      name ← item "name" row;
      if is_str queue name then int_item field row else find_queue queue field rows
  end.

(** The rows of an array; iterating over another value gives no rows with a name. *)
Definition rows_of (j : json) : tool terr S (list json) :=
  match j with
  | JArr rows => mret rows
  | JObj [] | JStr "" => mret []
  | _ => raise (Unforeseen "TypeError" "not a list of objects")
  end.

Definition queue_depth (queue : string) : tool terr S Z :=
  j ← _list_queues; rows ← rows_of j; find_queue queue "messages" rows.

Definition unacked_count (queue : string) : tool terr S Z :=
  j ← _list_queues; rows ← rows_of j; find_queue queue "messages_unacknowledged" rows.

(** [d.get(key)] of a decoded object. *)
Definition get (key : string) (j : json) : tool terr S (option json) :=
  match j with
  | JObj _ => mret (get_item key j)
  | _ => raise (Unforeseen "AttributeError" "get")
  end.

Definition container_state (container : string) : tool terr S ContainerState.t :=
  out ← _run show_cmd ["docker"; "inspect"; container];
  j ← loads_out out;
  rows ← rows_of j;
  data ← unless (head rows) (Unforeseen "IndexError" "list index out of range");
  state ← item "State" data;
  running ← item "Running" state;
  started_at ← get "StartedAt" state;
  restart_count ← get "RestartCount" data;
  exit_code ← get "ExitCode" state;
  mret (ContainerState.Make running started_at (default (JInt 0) restart_count) exit_code).
End docker.

(** ** [local/pipeline/fixtures.py] *)

Definition FIXTURES_DIR `{!Checkout} : string := (local_dir ++ "/fixtures")%string.
Definition SLOW_PDF_MIN_PAGES : Z := 30.

(** PyMuPDF and the files, over documents that are referred to by handles. *)
Class PdfFiles (S : Type) : Type := {
  file_exists : string -> tool terr S bool;
  make_dirs : string -> tool terr S unit;
  write_bytes : string -> string -> tool terr S unit;
  pdf_open : option string -> tool terr S N;
  page_count : N -> tool terr S Z;
  insert_pdf : N -> N -> tool terr S unit;
  save : N -> string -> tool terr S unit;
  close : N -> tool terr S unit
}.

Section fixtures.
Context {S} `{!PdfFiles S}.

(** [while out.page_count < SLOW_PDF_MIN_PAGES: out.insert_pdf(src)]; [false] when the bound
    on its rounds is reached. *)
Fixpoint fill_pages (fuel : nat) (out src : N) : tool terr S bool :=
  match fuel with
  | O => mret false
  | Datatypes.S fuel =>
      n ← page_count out;
      if (n <? SLOW_PDF_MIN_PAGES)%Z then insert_pdf out src;; fill_pages fuel out src
      else mret true
  end.

Definition slow_pdf (fuel : nat) (dest_dir source : string) : tool terr S (option string) :=
  let path := (dest_dir ++ "/slow.pdf")%string in
  exists_ ← file_exists path;
  if exists_ : bool then mret (Some path)
  else
    make_dirs dest_dir;;
    src ← pdf_open (Some source);
    out ← pdf_open None;
    finished ← try_finally
      (finished ← fill_pages fuel out src;
       if finished : bool then save out path;; mret true else mret false)
      (close out;; close src);
    mret (if finished : bool then Some path else None).

Definition garbage : string :=
  ("this is not a pdf file, just garbage bytes" ++ String (ascii_of_N 10) "")%string.

Fixpoint times (n : nat) (s : string) : string :=
  match n with O => "" | Datatypes.S n => (s ++ times n s)%string end.

Definition garbage_pdf (dest_dir : string) : tool terr S string :=
  let path := (dest_dir ++ "/garbage.pdf")%string in
  exists_ ← file_exists path;
  if exists_ : bool then mret path
  else
    make_dirs dest_dir;;
    write_bytes path (times 100 garbage);;
    mret path.
End fixtures.
