(* ===== verification/LocalScenarios.v ===== *)
(** * Failure-injection scenarios ([local/scenarios/], [local/chaos.py]) *)

From stdpp Require Import pretty.
From S2P Require Import Prelude PyStr PyUuid PyText Json Tool Bench.
From S2P Require Import LocalClient LocalJobs LocalDocker.

(** ** [local/scenarios/base.py] *)

Module Report.
Record t : Type := Make {
  scenario : string; events : list (Z * string * string); summary : string
}.

(** Two and three digits. *)
Definition pad2 (n : Z) : string := (pretty (n / 10 mod 10)%Z ++ pretty (n mod 10)%Z)%string.
Definition pad3 (n : Z) : string := (pretty (n / 100 mod 10)%Z ++ pad2 n)%string.

(** [ts.strftime("%H:%M:%S.%f")[:-3]], of a time in microseconds. *)
Definition ts_str (ts : Z) : string :=
  (pad2 (ts / 3600000000 mod 24)%Z ++ ":" ++ pad2 (ts / 60000000 mod 60)%Z ++ ":"
   ++ pad2 (ts / 1000000 mod 60)%Z ++ "." ++ pad3 (ts / 1000 mod 1000)%Z)%string.

(** [" — "], with an em dash. *)
Definition dash : string :=
  (" " ++ string_of_list (map ascii_of_N [226; 128; 148]%N) ++ " ")%string.

Definition render_event (e : Z * string * string) : string :=
  let '(ts, event, detail) := e in
  let line := ("[" ++ ts_str ts ++ "] " ++ event)%string in
  if bool_decide (detail = "") then line else (line ++ dash ++ detail)%string.

Definition newline : string := String (ascii_of_N 10) "".

Definition render (self : t) : string :=
  join newline
    ((["=== " ++ scenario self ++ " ==="; ""]%string ++ (render_event <$> events self))
     ++ [""; "--- summary ---"; summary self]).
End Report.

(** A scenario keeps its report while it works on the bench. *)
Section reporting.
Context {S} `{!Bench S}.

Definition lift {A} (m : tool terr S A) : tool terr (Report.t * S) A := fun rs =>
  let '(a, s) := m rs.2 in (a, (rs.1, s)).

Definition modify (f : Report.t -> Report.t) : tool terr (Report.t * S) unit := fun rs =>
  (Ok tt, (f rs.1, rs.2)).

Definition record (event detail : string) : tool terr (Report.t * S) unit :=
  ts ← lift now;
  modify (fun r => Report.Make (Report.scenario r) (Report.events r ++ [(ts, event, detail)])
                     (Report.summary r)).

Definition set_summary (text : string) : tool terr (Report.t * S) unit :=
  modify (fun r => Report.Make (Report.scenario r) (Report.events r) text).
End reporting.

(** ** [local/scenarios/worker_kill.py] *)

Section scenarios.
Context {S} `{!Bench S, !PdfFiles S} {here : Checkout}.
Context (raise_for_status : response -> option terr) (limit : nat).
Context (show_cmd : list string -> string) (show_snapshot : JobSnapshot.t -> string).
Context (lower : string -> string) (others : string -> option Datetime.t).
Context (truncate : string -> option Z) (repr : json -> string).
(** The bound on the rounds of every loop. *)
Context (fuel : nat).

Fixpoint find_container (containers : list string) (short_name : string) : option string :=
  match containers with
  | [] => None
  | c :: cs => if endswith c short_name then Some c else find_container cs short_name
  end.

Definition short_name (line : string) : string := strip (before "|" line).

(** The loop over the lines of the log. *)
Fixpoint claiming_container (containers : list string) (job_id : uuid) (lines : list string)
  : result terr string :=
  match lines with
  | [] => Exn (RuntimeError ("no worker log line found for job " ++ uuid_str job_id))
  | line :: lines =>
      if contains (uuid_str job_id) line && contains "job_started" line then
        match find_container containers (short_name line) with
        | Some c => Ok c
        | None => Exn (RuntimeError ("job " ++ uuid_str job_id
            ++ "'s log line matched short name '" ++ short_name line
            ++ "' but no container in " ++ show_cmd containers ++ " matches it"))
        end
      else claiming_container containers job_id lines
  end.

Definition of_result {A} (r : result terr A) : tool terr S A := fun s => (r, s).

Definition _find_claiming_worker (job_id : uuid) : tool terr S string :=
  containers ← worker_containers show_cmd;
  log_text ← logs show_cmd "worker" "2m";
  of_result (claiming_container containers job_id (splitlines log_text)).

Definition seconds_ (n : Z) : Z := (n * second)%Z.

Fixpoint record_history (history : list JobSnapshot.t) : tool terr (Report.t * S) unit :=
  match history with
  | [] => mret tt
  | snap :: history =>
      record "status_observed" ("status=" ++ JobSnapshot.status snap
                                ++ " attempts=" ++ pretty (JobSnapshot.attempts snap));;
      record_history history
  end.

Definition is_terminal (status : string) : bool :=
  bool_decide (status = "completed") || bool_decide (status = "failed").

Definition py_bool (b : bool) : string := if b then "True" else "False".

(** The body of the [try]; [None] when a loop ran into the bound. *)
Definition inject (client : PipelineClient) : tool terr (Report.t * S) (option unit) :=
  doc ← lift (submit_document raise_for_status limit client);
  pdf_path ← lift (slow_pdf fuel FIXTURES_DIR SAMPLE_PDF);
  match pdf_path with
  | None => mret None
  | Some pdf_path =>
      pdf ← lift (read_bytes pdf_path);
      lift (upload raise_for_status client (Document.upload_url doc) pdf);;
      record "submitted" ("document_id=" ++ uuid_str (Document.id doc));;
      job_id ← lift (start_processing raise_for_status limit client (Document.id doc));
      record "processing_started" ("job_id=" ++ uuid_str job_id);;
      started ← lift (wait_for_status show_cmd show_snapshot lower others fuel job_id "started"
                        (seconds_ 15) second);
      match started with
      | None => mret None
      | Some started =>
          record "job_started" ("attempts=" ++ pretty (JobSnapshot.attempts started));;
          claimer ← lift (_find_claiming_worker job_id);
          record "claiming_worker_identified" claimer;;
          lift (kill show_cmd claimer);;
          record "worker_killed" claimer;;
          history ← lift (watch show_cmd lower others fuel job_id (seconds_ 60) second);
          match history with
          | None => mret None
          | Some history =>
              record_history history;;
              let final := default started (list.last history) in
              depth ← lift (queue_depth show_cmd limit truncate "jobs");
              record "final_queue_depth" (pretty depth);;
              set_summary ("final_status=" ++ JobSnapshot.status final
                ++ " attempts=" ++ pretty (JobSnapshot.attempts final)
                ++ " reached_terminal=" ++ py_bool (is_terminal (JobSnapshot.status final))
                ++ " queue_depth=" ++ pretty depth);;
              mret (Some tt)
          end
      end
  end.

Definition restore : tool terr S unit :=
  n ← configured_worker_replicas show_cmd limit truncate;
  scale_workers show_cmd n.

(** The [try] and its [except]. *)
Definition attempted (client : PipelineClient) : tool terr (Report.t * S) (option unit) :=
  try_except (inject client)
    (fun e => Some
       (record "scenario_error" (terr_str repr e);;
        set_summary ("scenario raised before completing: " ++ terr_str repr e);;
        mret (Some tt))).

Definition reported (client : PipelineClient) : tool terr (Report.t * S) (option unit) :=
  try_finally (attempted client) (lift restore).

Definition run (client : PipelineClient) : tool terr S (option Report.t) := fun s =>
  match reported client (Report.Make "worker-kill" [] "", s) with
  | (Ok finished, (report, s')) => (Ok (const report <$> finished), s')
  | (Exn x, (_, s')) => (Exn x, s')
  end.

(** ** [local/scenarios/__init__.py], [local/chaos.py] *)

Definition SCENARIOS : list (string * (PipelineClient -> tool terr S (option Report.t))) :=
  [("worker-kill", run)].

(** [sorted(SCENARIOS)]. *)
Fixpoint insert_name (x : string) (l : list string) : list string :=
  match l with
  | [] => [x]
  | y :: l' => if String.leb x y then x :: l else y :: insert_name x l'
  end.

Definition sorted_names : list string := fold_right insert_name [] (fst <$> SCENARIOS).

Definition _list_scenarios : tool terr S unit :=
  print "available scenarios:";;
  print_all (map (fun name => ("  " ++ name)%string) sorted_names).

Definition chaos_main (name : option string) : tool terr S (option Z) :=
  match name with
  | None => _list_scenarios;; mret (Some 0%Z)
  | Some name =>
      match dict_get name SCENARIOS with
      | None => _list_scenarios;; mret (Some 1%Z)
      | Some scenario =>
          report ← with_client scenario;
          match report with
          | None => mret None
          | Some report => print (Report.render report);; mret (Some 0%Z)
          end
      end
  end.

(** [sys.argv[1] if len(sys.argv) > 1 else None], and what the script gives to [sys.exit]. *)
Definition chaos_script (argv : list string) : tool terr S (option Z) :=
  chaos_main (match argv with _ :: name :: _ => Some name | _ => None end).
End scenarios.
