(* ===== verification/PollTheorems.v ===== *)
(** * Theorems about the polling tools

    The loops of the client and of the job reader end within the number of rounds their
    timeout leaves room for, on every bench; what they return is what they waited for. *)

From stdpp Require Import pretty.
From S2P Require Import Prelude PyStr PyUuid PyText Json Tool Bench LocalClient LocalJobs.

(** The rounds, of at least [interval] each, that can start within [time]. *)
Definition rounds (time interval : Z) : nat := Z.to_nat ((time + interval - 1) / interval).

Lemma rounds_step time interval time' :
  (0 < interval)%Z -> (0 < time)%Z -> (time' <= time - interval)%Z ->
  (rounds time' interval < rounds time interval)%nat.
Proof.
  intros Hi Ht Hs. unfold rounds.
  assert (1 <= (time + interval - 1) / interval)%Z by (apply Z.div_le_lower_bound; lia).
  assert ((time' + interval - 1) / interval <= (time + interval - 1) / interval - 1)%Z; [|lia].
  replace ((time + interval - 1) / interval - 1)%Z
    with ((time - interval + interval - 1) / interval)%Z.
  - apply Z.div_le_mono; lia.
  - replace (time + interval - 1)%Z with (time - interval + interval - 1 + 1 * interval)%Z by lia.
    rewrite Z.div_add by lia. lia.
Qed.

Lemma rounds_pos time interval :
  (0 < interval)%Z -> (0 < time)%Z -> (0 < rounds time interval)%nat.
Proof.
  intros Hi Ht. pose proof (rounds_step time interval _ Hi Ht (Z.le_refl _)). lia.
Qed.

Lemma rounds_mono time interval time' :
  (0 < interval)%Z -> (time' <= time)%Z -> (rounds time' interval <= rounds time interval)%nat.
Proof.
  intros Hi Hs. unfold rounds.
  assert ((time' + interval - 1) / interval <= (time + interval - 1) / interval)%Z; [|lia].
  apply Z.div_le_mono; lia.
Qed.

Section client.
Context {S} `{!Bench S, !BenchView S, !BenchLaws S}.
Context (raise_for_status : response -> option terr) `{!RaiseForStatus raise_for_status}.
Context (limit : nat) (seconds : Z -> string).

(** A poll sends one request; a job it gives has the status it gives. *)
Lemma poll_behaves self job_id :
  behaves (poll_job raise_for_status limit self job_id) [job_request self job_id] []
    (fun s a _ => get_item "status" a.1 = Some a.2).
Proof.
  intros s. unfold poll_job, check_status, response_json, item, unless, raise.
  pose proof (law_send (job_request self job_id) s) as H.
  unfold mbind, tool_bind, mret, tool_ret.
  destruct (send _ s) as [[r|x] s1]; destruct H as (Hc & Hq & Hm & Hx & _); [|done].
  pose proof (raises_foreign r) as Hr.
  destruct (raise_for_status r) as [[]|]; try done. clear Hr.
  destruct (loads limit (content r)); try done.
  destruct (get_item "status" a) eqn:E; done.
Qed.

(** What the client learns about a job. *)
Definition answered (self : PipelineClient) (job_id : uuid) (deadline : Z) (bound : nat) (s : S)
    (r : result terr (option json)) (s' : S) : Prop :=
  (exists n, n <= bound /\
     requests s' = (requests s ++ repeat (job_request self job_id) n)%list)%nat /\
  commands s' = commands s /\
  match r with
  | Ok None => False
  | Ok (Some job) => get_item "status" job = Some (JStr "completed")
  | Exn (JobFailed job) => get_item "status" job = Some (JStr "failed")
  | Exn (TimeoutError _) => (deadline <= clock s')%Z
  | Exn BackpressureRejected => False
  | Exn _ => True
  end.

Lemma is_str_eq x v : is_str x v = true -> v = JStr x.
Proof. destruct v; try done. intros H%String.eqb_eq. by subst. Qed.

Lemma poll_until_answers fuel self job_id timeout deadline interval s :
  (0 < interval)%Z -> (rounds (deadline - clock s) interval < fuel)%nat ->
  ends (poll_until raise_for_status limit seconds fuel self job_id timeout deadline interval)
    (answered self job_id deadline (rounds (deadline - clock s) interval) s) s.
Proof.
  intros Hi. revert s. induction fuel as [|fuel IH]; intros s Hf; [lia|]. cbn [poll_until].
  assert (Hstop : forall bound (r : result terr (option json)) s',
    requests s' = requests s -> commands s' = commands s ->
    match r with Exn (TimeoutError _) => (deadline <= clock s')%Z | Exn _ => foreign r | _ => False end ->
    answered self job_id deadline bound s r s').
  { intros bound r s' Hq Hm Hr. split_and!; [exists 0; split; [lia|]|done|].
    - by rewrite app_nil_r.
    - destruct r as [|[]]; done. }
  tool_step. eapply ends_silent; [apply law_monotonic|].
  intros [t|x] s1 Hc1 Hq1 Hm1 Hx Ht; [|apply Hstop; try done; by destruct x].
  destruct (Z.ltb_spec t deadline) as [Hlt|Hge]; [|tool_step; apply Hstop; try done; lia].
  assert (Hpos : (0 < deadline - clock s)%Z) by lia.
  pose proof (rounds_pos _ _ Hi Hpos) as H1.
  assert (Hone : forall (r : result terr (option json)) s',
    requests s' = (requests s ++ [job_request self job_id])%list -> commands s' = commands s ->
    match r with
    | Ok None => False
    | Ok (Some job) => get_item "status" job = Some (JStr "completed")
    | Exn (JobFailed job) => get_item "status" job = Some (JStr "failed")
    | Exn _ => foreign r
    end -> answered self job_id deadline (rounds (deadline - clock s) interval) s r s').
  { intros r s' Hq Hm Hr. split_and!; [by exists 1|done|]. destruct r as [[]|[]]; done. }
  tool_step. eapply ends_behaves; [apply poll_behaves|].
  intros r s2 Hc2 Hq2 Hm2 Hx2 Hr. rewrite app_nil_r in Hm2.
  assert (Hq : requests s2 = (requests s ++ [job_request self job_id])%list) by congruence.
  assert (Hm : commands s2 = commands s) by congruence.
  destruct r as [[job status]|x]; [|by apply Hone; try done; destruct x]. cbn in Hr.
  destruct (is_str "completed" status) eqn:E1.
  { tool_step. apply Hone; try done. rewrite Hr. f_equal. by apply is_str_eq. }
  destruct (is_str "failed" status) eqn:E2.
  { tool_step. apply Hone; try done. rewrite Hr. f_equal. by apply is_str_eq. }
  tool_step. eapply ends_silent; [apply law_sleep|].
  intros [[]|x] s3 Hc3 Hq3 Hm3 Hx3 Hs; [|apply Hone; try congruence; by destruct x].
  assert (Hle : (deadline - clock s3 <= deadline - clock s - interval)%Z) by lia.
  pose proof (rounds_step _ _ _ Hi Hpos Hle).
  eapply ends_mono; [|apply IH; lia]. intros r s4 ([n [Hn Hq4]] & Hm4 & Hr4).
  split_and!; [|congruence|done]. exists (Datatypes.S n). split; [lia|].
  rewrite Hq4, Hq3, Hq. by rewrite <- app_assoc.
Qed.

Lemma wait_for_completion_answers self job_id timeout interval fuel s :
  (0 < interval)%Z -> (rounds timeout interval < fuel)%nat ->
  ends (wait_for_completion raise_for_status limit seconds fuel self job_id timeout interval)
    (answered self job_id (clock s + timeout) (rounds timeout interval) s) s.
Proof.
  intros Hi Hf. unfold wait_for_completion. tool_step. eapply ends_silent; [apply law_monotonic|].
  intros [t|x] s1 Hc1 Hq1 Hm1 Hx Ht.
  - assert (Hle : (t + timeout - clock s1 <= timeout)%Z) by lia.
    pose proof (rounds_mono _ _ _ Hi Hle).
    eapply ends_mono; [|apply poll_until_answers; [done|lia]].
    intros r s2 ([n [Hn Hq]] & Hm & Hr). split_and!.
    + exists n. split; [lia|congruence].
    + congruence.
    + destruct r as [|[]]; try done. lia.
  - split_and!; [exists 0; split; [lia|by rewrite app_nil_r]|done|by destruct x].
Qed.
(** [wait_for_completion] ends: it sends at most as many requests as fit between its start
    and its deadline, returns a job only when its status is [completed], raises [JobFailed]
    only when it is [failed], and [TimeoutError] only once the timeout has passed. *)
Theorem wait_for_completion_ends self job_id timeout interval fuel s :
  (0 < interval)%Z -> (rounds timeout interval < fuel)%nat ->
  ends (wait_for_completion raise_for_status limit seconds fuel self job_id timeout interval)
    (answered self job_id (clock s + timeout) (rounds timeout interval) s) s.
Proof. apply wait_for_completion_answers. Qed.
End client.

(** ** Reading jobs *)

Section jobs.
Context {S} `{!Bench S, !BenchView S, !BenchLaws S}.
Context (show_cmd : list string -> string) (show_snapshot : JobSnapshot.t -> string).
Context (lower : string -> string) (others : string -> option Datetime.t).

Abbreviation query job_id := (query_command (snapshot_sql job_id)).

Lemma run_behaves cmd : behaves (_run show_cmd cmd) [] [cmd] (fun _ _ _ => True).
Proof.
  intros s. unfold _run, raise, mbind, tool_bind, mret, tool_ret.
  pose proof (law_command cmd s) as H.
  destruct (run_command cmd s) as [[c|x] s1]; [|done]. by destruct (_ =? _)%Z.
Qed.

Lemma snapshot_behaves job_id :
  behaves (snapshot show_cmd lower others job_id) [] [query job_id] (fun _ _ _ => True).
Proof.
  intros s. unfold snapshot, _run_query, unless, raise, mbind, tool_bind, mret, tool_ret.
  pose proof (run_behaves (query job_id) s) as H.
  destruct (_run _ _ s) as [[out|x] s1]; [|done].
  destruct (bool_decide _); [done|]. by destruct (_parse_row _ _ _).
Qed.

(** Nothing but [n] queries for the job. *)
Definition queried (job_id : uuid) (n : nat) (s s' : S) : Prop :=
  requests s' = requests s /\ commands s' = (commands s ++ repeat (query job_id) n)%list.

Lemma queried_refl job_id s s' :
  requests s' = requests s -> commands s' = commands s -> queried job_id 0 s s'.
Proof. intros H1 H2. split; [done|]. by rewrite app_nil_r. Qed.

Lemma queried_one job_id s s1 s' :
  requests s1 = requests s -> commands s1 = commands s -> requests s' = requests s1 ->
  commands s' = (commands s1 ++ [query job_id])%list -> queried job_id 1 s s'.
Proof. intros H1 H2 H3 H4. split; [congruence|]. by rewrite H4, H2. Qed.

Lemma queried_trans job_id n m s1 s2 s3 :
  queried job_id n s1 s2 -> queried job_id m s2 s3 -> queried job_id (n + m) s1 s3.
Proof.
  intros [Hr Hc] [Hr' Hc']. split; [congruence|]. rewrite Hc', Hc, <- app_assoc.
  by rewrite repeat_app.
Qed.

(** A round of the loops: the time is read before the deadline, and the round takes at least
    the interval. *)
Lemma round_passes deadline interval (s s1 s' : S) t :
  (0 < interval)%Z -> (t < deadline)%Z -> (clock s <= t <= clock s1)%Z ->
  (clock s1 + interval <= clock s')%Z ->
  (rounds (deadline - clock s') interval < rounds (deadline - clock s) interval)%nat.
Proof. intros Hi Hlt Ht Hs. apply rounds_step; lia. Qed.

Definition looped (job_id : uuid) (status : string) (deadline : Z) (bound : nat) (s : S)
    (r : result terr (option JobSnapshot.t)) (s' : S) : Prop :=
  (exists n, (n <= bound)%nat /\ queried job_id n s s') /\
  match r with
  | Ok None => False
  | Ok (Some snap) => JobSnapshot.status snap = status \/ (deadline <= clock s')%Z
  | Exn x => foreign (Exn x : result terr unit)
  end.

Lemma foreign_any {A B} x : foreign (Exn x : result terr A) -> foreign (Exn x : result terr B).
Proof. done. Qed.

Lemma wait_loop_ends fuel job_id status deadline interval snap s :
  (0 < interval)%Z -> (rounds (deadline - clock s) interval < fuel)%nat ->
  ends (wait_loop show_cmd lower others fuel job_id status deadline interval snap)
    (looped job_id status deadline (rounds (deadline - clock s) interval) s) s.
Proof.
  intros Hi. revert snap s. induction fuel as [|fuel IH]; intros snap s Hf; [lia|].
  cbn [wait_loop]. destruct (bool_decide_reflect (JobSnapshot.status snap = status)) as [E|_].
  { tool_step. split; [exists 0; split; [lia|by apply queried_refl]|by left]. }
  tool_step. eapply ends_silent; [apply law_monotonic|].
  intros [t|x] s1 Hc1 Hq1 Hm1 Hx1 Ht;
    [|split; [exists 0; split; [lia|by apply queried_refl]|exact Hx1]].
  destruct (Z.ltb_spec t deadline) as [Hlt|Hge].
  2: { tool_step. split; [exists 0; split; [lia|by apply queried_refl]|right; lia]. }
  tool_step. eapply ends_silent; [apply law_sleep|].
  intros [[]|x] s2 Hc2 Hq2 Hm2 Hx2 Hs;
    [|split; [exists 0; split; [lia|apply queried_refl; congruence]|exact Hx2]].
  pose proof (round_passes deadline interval s s1 s2 t Hi Hlt Ht Hs) as Hr.
  tool_step. eapply ends_behaves; [apply snapshot_behaves|].
  intros r s3 Hc3 Hq3 Hm3 Hx3 _. rewrite app_nil_r in Hq3.
  assert (H1 : queried job_id 1 s s3) by (apply (queried_one _ s s2); congruence).
  destruct r as [snap'|x]; [|split; [exists 1; split; [lia|done]|exact Hx3]].
  assert (Hle : (deadline - clock s3 <= deadline - clock s2)%Z) by lia.
  pose proof (rounds_mono _ _ _ Hi Hle).
  eapply ends_mono; [|apply IH; lia]. intros r s4 ([n [Hn Hq]] & Hr4). split; [|done].
  exists (1 + n). split; [lia|]. by eapply queried_trans.
Qed.

(** [wait_for_status] ends: it reads the job once and then at most once per interval until
    the timeout, returns a snapshot only when it has the status asked for, whatever the case
    it was written in, and raises [TimeoutError] only once the timeout has passed. *)
Theorem wait_for_status_ends fuel job_id status timeout interval s :
  (0 < interval)%Z -> (rounds timeout interval < fuel)%nat ->
  ends (wait_for_status show_cmd show_snapshot lower others fuel job_id status timeout interval)
    (fun r s' =>
       (exists n, (n <= 1 + rounds timeout interval)%nat /\ queried job_id n s s') /\
       match r with
       | Ok None => False
       | Ok (Some snap) => JobSnapshot.status snap = lower status
       | Exn (TimeoutError _) => (clock s + timeout <= clock s')%Z
       | Exn x => foreign (Exn x : result terr unit)
       end) s.
Proof.
  intros Hi Hf. unfold wait_for_status. tool_step. eapply ends_silent; [apply law_monotonic|].
  intros [t|x] s1 Hc1 Hq1 Hm1 Hx1 Ht.
  2: { split; [exists 0; split; [lia|by apply queried_refl]|by destruct x]. }
  tool_step. eapply ends_behaves; [apply snapshot_behaves|].
  intros r s2 Hc2 Hq2 Hm2 Hx2 _. rewrite app_nil_r in Hq2.
  assert (H1 : queried job_id 1 s s2) by (apply (queried_one _ s s1); congruence).
  destruct r as [snap|x]; [|split; [exists 1; split; [lia|done]|by destruct x]].
  assert (Hle : (t + timeout - clock s2 <= timeout)%Z) by lia.
  pose proof (rounds_mono _ _ _ Hi Hle).
  tool_step. eapply ends_mono; [|apply wait_loop_ends; [done|lia]].
  intros r s3 ([n [Hn Hq]] & Hr).
  assert (Hqs : exists n, (n <= 1 + rounds timeout interval)%nat /\ queried job_id n s s3).
  { exists (1 + n). split; [lia|]. by eapply queried_trans. }
  destruct r as [[snap'|]|x]; [|done|split; [done|by destruct x]].
  destruct (bool_decide_reflect (JobSnapshot.status snap' = lower status)).
  - by tool_step.
  - tool_step. split; [done|]. destruct Hr as [|Hr]; [done|]. lia.
Qed.

(** ** Watching *)

(** The status changes from every snapshot to the next. *)
Definition changing (seen : list JobSnapshot.t) : Prop :=
  forall i a b, seen !! i = Some a -> seen !! (1 + i) = Some b ->
    JobSnapshot.status a <> JobSnapshot.status b.

Lemma observe_changing seen snap : changing seen -> changing (observe seen snap).
Proof.
  intros H. unfold observe.
  assert (Hsnoc : (forall a, list.last seen = Some a -> JobSnapshot.status a <> JobSnapshot.status snap) ->
    changing (seen ++ [snap])).
  { intros Hl i a b Ha Hb. rewrite lookup_snoc_Some in Hb. destruct Hb as [[Hlt Hb]|[Hi <-]].
    - rewrite lookup_app_l in Ha by lia. by eapply H.
    - rewrite lookup_app_l in Ha by lia. apply Hl. rewrite last_lookup, <- Hi. exact Ha. }
  destruct (list.last seen) as [prev|] eqn:E; [|by apply Hsnoc].
  destruct (bool_decide_reflect (JobSnapshot.status prev = JobSnapshot.status snap)); [done|].
  apply Hsnoc. by intros a [= <-].
Qed.

Lemma observe_length seen snap : (length (observe seen snap) <= 1 + length seen)%nat.
Proof.
  unfold observe. destruct (list.last seen); [destruct (bool_decide _)|];
    rewrite ?length_app; cbn; lia.
Qed.

Definition watched (job_id : uuid) (deadline : Z) (bound seen_before : nat) (s : S)
    (r : result terr (option (list JobSnapshot.t))) (s' : S) : Prop :=
  exists n, (n <= bound)%nat /\ queried job_id n s s' /\
    match r with
    | Ok None => False
    | Ok (Some seen) => changing seen /\ (length seen <= seen_before + n)%nat /\
                        (deadline <= clock s')%Z
    | Exn x => foreign (Exn x : result terr unit)
    end.

Lemma watch_loop_ends fuel job_id deadline interval seen s :
  (0 < interval)%Z -> (rounds (deadline - clock s) interval < fuel)%nat -> changing seen ->
  ends (watch_loop show_cmd lower others fuel job_id deadline interval seen)
    (watched job_id deadline (rounds (deadline - clock s) interval) (length seen) s) s.
Proof.
  intros Hi. revert seen s. induction fuel as [|fuel IH]; intros seen s Hf Hseen; [lia|].
  cbn [watch_loop]. tool_step. eapply ends_silent; [apply law_monotonic|].
  intros [t|x] s1 Hc1 Hq1 Hm1 Hx1 Ht;
    [|exists 0; split_and!; [lia|by apply queried_refl|exact Hx1]].
  destruct (Z.ltb_spec t deadline) as [Hlt|Hge].
  2: { tool_step. exists 0. split_and!; [lia|by apply queried_refl|done|lia|lia]. }
  assert (Hpos : (0 < rounds (deadline - clock s) interval)%nat) by (apply rounds_pos; lia).
  tool_step. eapply ends_behaves; [apply snapshot_behaves|].
  intros r s2 Hc2 Hq2 Hm2 Hx2 _. rewrite app_nil_r in Hq2.
  assert (H1 : queried job_id 1 s s2) by (apply (queried_one _ s s1); congruence).
  destruct r as [snap|x]; [|exists 1; split_and!; [lia|done|exact Hx2]].
  tool_step. eapply ends_silent; [apply law_sleep|].
  intros [[]|x] s3 Hc3 Hq3 Hm3 Hx3 Hs.
  2: { exists 1. split_and!; [lia| |exact Hx3]. destruct H1. split; congruence. }
  assert (Hq13 : queried job_id 1 s s3) by (destruct H1; split; congruence).
  assert (Hs1 : (clock s1 + interval <= clock s3)%Z) by lia.
  pose proof (round_passes deadline interval s s1 s3 t Hi Hlt Ht Hs1) as Hr.
  eapply ends_mono; [|apply IH; [lia|by apply observe_changing]].
  intros r s4 (n & Hn & Hq & Hres). pose proof (observe_length seen snap).
  exists (1 + n). split_and!; [lia|by eapply queried_trans|].
  destruct r as [[l|]|]; [|done|done]. destruct Hres as (?&?&?). split_and!; [done|lia|done].
Qed.

(** [watch] ends once the duration has passed; it reads the job at most once per interval
    and returns the snapshots at which the status changed: neighbours always differ. *)
Theorem watch_ends fuel job_id duration interval s :
  (0 < interval)%Z -> (rounds duration interval < fuel)%nat ->
  ends (watch show_cmd lower others fuel job_id duration interval)
    (watched job_id (clock s + duration) (rounds duration interval) 0 s) s.
Proof.
  intros Hi Hf. unfold watch. tool_step. eapply ends_silent; [apply law_monotonic|].
  intros [t|x] s1 Hc1 Hq1 Hm1 Hx1 Ht.
  2: { exists 0. split_and!; [lia|by apply queried_refl|exact Hx1]. }
  assert (Hle : (t + duration - clock s1 <= duration)%Z) by lia.
  pose proof (rounds_mono _ _ _ Hi Hle).
  eapply ends_mono; [|apply watch_loop_ends; [done|lia|done]].
  intros r s2 (n & Hn & Hq & Hr). exists n. split_and!; [lia| |].
  - by eapply (queried_trans _ 0 n); [apply queried_refl|].
  - destruct r as [[l|]|]; [|done|done]. destruct Hr as (?&?&?). split_and!; [done|done|lia].
Qed.
End jobs.

(** ** A bench with prepared answers *)

(** Time passes with every operation; requests and commands are answered from two lists. *)
Record desk : Type := Desk {
  d_clock : Z;
  d_exchanges : list exchange;
  d_commands : list (list string);
  d_responses : list response;
  d_outputs : list completed;
  d_printed : list string
}.

#[export] Instance desk_view : BenchView desk :=
  { clock := d_clock; exchanges := d_exchanges; commands := d_commands; printed := d_printed }.

Definition passing (t : Z) (d : desk) : desk :=
  Desk (d_clock d + Z.max 0 t) (d_exchanges d) (d_commands d) (d_responses d) (d_outputs d)
    (d_printed d).

Definition idle {A} (a : A) : tool terr desk A := fun d => (Ok a, d).

#[export] Instance desk_bench : Bench desk := {
  monotonic := fun d => (Ok (d_clock d), d);
  sleep t := fun d => (Ok tt, passing t d);
  now := idle 0%Z;
  open_client _ := idle tt;
  aclose _ := idle tt;
  send q := fun d =>
    match d_responses d with
    | r :: rs => (Ok r, Desk (d_clock d + 1) (d_exchanges d ++ [(q, Ok r)]) (d_commands d) rs
                          (d_outputs d) (d_printed d))
    | [] => let x := Unforeseen "ConnectError" "All connection attempts failed" in
            (Exn x, Desk (d_clock d + 1) (d_exchanges d ++ [(q, Exn x)]) (d_commands d) []
                      (d_outputs d) (d_printed d))
    end;
  run_command c := fun d =>
    match d_outputs d with
    | o :: os => (Ok o, Desk (d_clock d + 1) (d_exchanges d) (d_commands d ++ [c])
                          (d_responses d) os (d_printed d))
    | [] => (Ok (Completed 1 "" "no such container"),
             Desk (d_clock d + 1) (d_exchanges d) (d_commands d ++ [c]) (d_responses d) []
               (d_printed d))
    end;
  read_text _ := idle "";
  read_bytes _ := idle "";
  print m := fun d =>
    (Ok tt, Desk (d_clock d) (d_exchanges d) (d_commands d) (d_responses d) (d_outputs d)
              (d_printed d ++ [m]))
}.

(** An answer of the desk is checked by computation. *)
Ltac at_desk :=
  cbn; split; [lia|]; split;
    [eexists; split; [first [symmetry; apply app_nil_r|reflexivity]|done]
    |rewrite ?app_nil_r; repeat split; try done; lia].

#[export] Instance desk_laws : BenchLaws desk.
Proof.
  constructor; try (intros; intros d; at_desk).
  - intros d. by eexists.
  - intros t d. at_desk.
  - intros d. by eexists.
  - intros m d. cbn. by repeat split.
  - intros q d. cbn. destruct (d_responses d); at_desk.
  - intros q d. cbn. by destruct (d_responses d).
  - intros c d. cbn. destruct (d_outputs d); at_desk.
Qed.

Definition plain_status (r : response) : option terr :=
  if (400 <=? status_code r)%Z then Some (HTTPStatusError (status_code r) "") else None.

#[export] Instance plain_status_laws : RaiseForStatus plain_status.
Proof.
  constructor; unfold plain_status; intros r.
  - intros H. by destruct (Z.leb_spec 400 (status_code r)); [lia|].
  - intros H. destruct (Z.leb_spec 400 (status_code r)); [by eexists|lia].
  - by destruct (_ <=? _)%Z.
Qed.

Definition job_answer (status : string) : response :=
  Response 200 (dumps (JObj [("status", JStr status); ("error_message", JNull)])).

Definition demo_client : PipelineClient := Entered (ApiClient BASE_URL "key") BareClient.

Definition patient : desk :=
  Desk 0 [] [] [job_answer "queued"; job_answer "started"; job_answer "completed"] [] [].

Lemma wait_for_completion_ends_witness :
  is_ok (wait_for_completion plain_status 100 pretty 11 demo_client 7 10 2 patient).1 = true /\
  ends (wait_for_completion plain_status 100 pretty 11 demo_client 7 10 2)
    (answered demo_client 7 (clock patient + 10) (rounds 10 2) patient) patient.
Proof.
  split; [by vm_compute|].
  apply (wait_for_completion_ends plain_status 100 pretty demo_client 7 10 2 11 patient);
    [lia|]. vm_compute. lia.
Defined.

Definition bar : string := "|".
Definition job_line (status : string) : completed :=
  Completed 0 ("00000000-0000-0000-0000-000000000007" ++ bar ++ status
    ++ "|1|3|2026-05-13 08:41:37.31|||||" ++ String (ascii_of_N 10) "") "".

Definition lower_demo (s : string) : string :=
  string_of_list (map lower_char (list_of_string s)).

Definition watching : desk :=
  Desk 0 [] [] [] [job_line "QUEUED"; job_line "STARTED"; job_line "STARTED"] [].

Abbreviation demo_others := (fun _ : string => @None Datetime.t).

Lemma wait_for_status_ends_witness :
  let waiting := wait_for_status (fun _ => "") (fun _ => "") lower_demo demo_others 11 7
                   "Started" 10 2 in
  is_ok (waiting watching).1 = true /\
  ends waiting (fun r s' =>
       (exists n, (n <= 1 + rounds 10 2)%nat /\ queried 7 n watching s') /\
       match r with
       | Ok None => False
       | Ok (Some snap) => JobSnapshot.status snap = lower_demo "Started"
       | Exn (TimeoutError _) => (clock watching + 10 <= clock s')%Z
       | Exn x => foreign (Exn x : result terr unit)
       end) watching.
Proof.
  split; [by vm_compute|].
  apply (wait_for_status_ends (fun _ => "") (fun _ => "") lower_demo demo_others 11 7 "Started"
           10 2 watching); [lia|]. vm_compute. lia.
Defined.

Lemma watch_ends_witness :
  let watching_job := watch (fun _ => "") lower_demo demo_others 11 7 6 2 in
  (exists a b, (watching_job watching).1 = Ok (Some [a; b])) /\
  ends watching_job (watched 7 (clock watching + 6) (rounds 6 2) 0 watching) watching.
Proof.
  split; [do 2 eexists; by vm_compute|].
  apply (watch_ends (fun _ => "") lower_demo demo_others 11 7 6 2 watching); [lia|].
  vm_compute. lia.
Defined.
