(* ===== verification/SmokeTheorems.v ===== *)
(** * Theorems about the smoke test ([local/smoke.py])

    What the exit code and the output of the smoke test say about the requests it has sent and
    the answers it got, on every bench and for every [asyncio.gather] that keeps its
    documentation. *)

From stdpp Require Import pretty.
From S2P Require Import Prelude PyStr PyUuid PyText Json PyCsv Tool Bench LocalClient.
From S2P Require Import PollTheorems.

(** ** [asyncio.gather] *)

Abbreviation coroutine := (forall S', Bench S' -> tool terr S' (option Result)).

(** The coroutine ran between two times, exchanged [log], printed [out] and ended with [r].
    To a coroutine the others are part of its surroundings, so that it runs on a bench of its
    own. *)
Inductive ran (t : coroutine) (r : result terr (option Result)) (from to : Z)
    (log : list exchange) (out : list string) : Prop :=
| Ran S' (B : Bench S') (V : BenchView S') (L : BenchLaws S') s :
    (t S' B s).1 = r -> (from <= clock s)%Z -> (clock (t S' B s).2 <= to)%Z ->
    exchanges (t S' B s).2 = (exchanges s ++ log)%list ->
    printed (t S' B s).2 = (printed s ++ out)%list ->
    ran t r from to log out.

(** The coroutine ended with this exception. *)
Inductive raised (t : coroutine) (x : terr) : Prop :=
| Raised S' (B : Bench S') (V : BenchView S') (L : BenchLaws S') s :
    (t S' B s).1 = Exn x -> raised t x.

(** A coroutine that takes back nothing of what can be seen. *)
Definition tame (t : coroutine) : Prop :=
  forall S' (B : Bench S') (V : BenchView S') (L : BenchLaws S') s, exists log out,
    (clock s <= clock (t S' B s).2)%Z /\
    exchanges (t S' B s).2 = (exchanges s ++ log)%list /\
    printed (t S' B s).2 = (printed s ++ out)%list.

(** The results are in the order of the coroutines, and what was exchanged and printed in the
    meantime is what the coroutines exchanged and printed, interleaved.  An exception is that
    of one of them. *)
Class Gather {S} `{!BenchView S} (gather : list coroutine -> tool terr S (list (option Result)))
    : Prop :=
  gathers ts s : Forall tame ts -> match gather ts s with
    | (Ok rs, s') =>
        exists runs l o, (clock s <= clock s')%Z /\
          Forall3 (fun t r run => ran t (Ok r) (clock s) (clock s') run.1 run.2) ts rs runs /\
          exchanges s' = (exchanges s ++ l)%list /\ interleaved runs.*1 l /\
          printed s' = (printed s ++ o)%list /\ interleaved runs.*2 o
    | (Exn x, s') => exists t, t ∈ ts /\ raised t x
    end.

(** ** What a program exchanges *)

Section sends.
Context {S} `{!Bench S, !BenchView S, !BenchLaws S}.

(** It prints nothing and no clock runs backwards; [Q] holds of a value and what was exchanged,
    [E] of an exception. *)
Definition sends {A} (m : tool terr S A) (E : terr -> list exchange -> S -> Prop)
    (Q : A -> list exchange -> S -> Prop) (s : S) : Prop :=
  ends m (fun r s' => (clock s <= clock s')%Z /\ printed s' = printed s /\
    exists xs, exchanges s' = (exchanges s ++ xs)%list /\
      match r with Ok a => Q a xs s' | Exn x => E x xs s' end) s.

Lemma sends_bind {A B} (m : tool terr S A) (f : A -> tool terr S B) E Q s :
  sends m E (fun a xs s' => (clock s <= clock s')%Z ->
    sends (f a) (fun x ys => E x (xs ++ ys)) (fun b ys => Q b (xs ++ ys)) s')%list s ->
  sends (m ≫= f) E Q s.
Proof.
  intros H. red in H. apply ends_bind. eapply ends_mono; [|exact H].
  intros [a|x] s1 (Hc & Hp & xs & Hx & H1); [|by repeat (split; [done|]); exists xs].
  specialize (H1 Hc). red in H1. eapply ends_mono; [|exact H1].
  intros r s2 (Hc2 & Hp2 & ys & Hy & H2). split; [lia|]. split; [congruence|].
  exists (xs ++ ys)%list. split; [by rewrite Hy, Hx, <- app_assoc|done].
Qed.

Lemma sends_mono {A} (m : tool terr S A) (E E' : terr -> list exchange -> S -> Prop)
    (Q Q' : A -> list exchange -> S -> Prop) s :
  sends m E Q s -> (forall x xs s', E x xs s' -> E' x xs s') ->
  (forall a xs s', Q a xs s' -> Q' a xs s') -> sends m E' Q' s.
Proof.
  intros Hm HE HQ. red in Hm. eapply ends_mono; [|exact Hm].
  intros [a|x] s' (Hc & Hp & xs & Hx & H); repeat (split; [done|]); exists xs; eauto.
Qed.

Lemma sends_ret {A} (a : A) E (Q : A -> list exchange -> S -> Prop) s :
  Q a [] s -> sends (mret a) E Q s.
Proof.
  intros H. apply ends_ret. split; [lia|]. split; [done|]. exists [].
  split; [by rewrite app_nil_r|done].
Qed.

Lemma sends_raise {A} x (E : terr -> list exchange -> S -> Prop)
    (Q : A -> list exchange -> S -> Prop) s :
  E x [] s -> sends (raise x) E Q s.
Proof.
  intros H. apply ends_raise. split; [lia|]. split; [done|]. exists [].
  split; [by rewrite app_nil_r|done].
Qed.

Lemma sends_unseen {A} (m : tool terr S A) P E Q s :
  behaves m [] [] P ->
  (forall x s', foreign (Exn x : result terr unit) -> E x [] s') ->
  (forall a s', P s a s' -> Q a [] s') -> sends m E Q s.
Proof.
  intros Hm HE HQ. eapply ends_unseen; [exact Hm|]. intros r s' Hc Hx Hp Hf Hr.
  split; [done|]. split; [done|]. exists []. split; [by rewrite app_nil_r|].
  destruct r as [a|x]; [by apply HQ|apply HE; by destruct x].
Qed.

Lemma sends_monotonic E (Q : Z -> list exchange -> S -> Prop) s :
  (forall t s', (clock s <= t <= clock s')%Z -> Q t [] s') -> sends monotonic E Q s.
Proof.
  intros HQ. destruct (law_monotonic_reads s) as [t Ht].
  pose proof (law_monotonic s) as H. unfold sends, ends.
  destruct (monotonic s) as [r s']. cbn in *. subst r.
  destruct H as (?&(xs & Hx & Hn)&_&[_ ?]&?). apply fmap_nil_inv in Hn as ->.
  split; [done|]. split; [done|]. exists []. auto.
Qed.

Lemma sends_send q E (Q : response -> list exchange -> S -> Prop) s :
  (forall x s', foreign (Exn x : result terr unit) -> E x [(q, Exn x)] s') ->
  (forall r s', Q r [(q, Ok r)] s') -> sends (send q) E Q s.
Proof.
  intros HE HQ. pose proof (law_send q s) as H. pose proof (law_send_answers q s) as Ha.
  unfold sends, ends. destruct (send q s) as [r s']. cbn in *.
  destruct H as (?&_&_&[Hf ?]&_). split; [done|]. split; [done|]. exists [(q, r)].
  split; [done|]. destruct r as [r|x]; [apply HQ|apply HE; by destruct x].
Qed.
End sends.

(** ** What an answer says *)

Definition submit_request (c : PipelineClient) : request := Request (_api c) "POST" "/documents" "".
Definition upload_request (c : PipelineClient) (url pdf : string) : request :=
  Request (_upload c) "PUT" url pdf.
Definition process_request (c : PipelineClient) (id : uuid) : request :=
  Request (_api c) "POST" ("/documents/" ++ uuid_str id ++ "/process") "{}".

Section answers.
Context (raise_for_status : response -> option terr) (limit : nat).

(** The request was answered with a status of success. *)
Definition accepted (x : exchange) : Prop :=
  match x.2 with Ok r => raise_for_status r = None | Exn _ => False end.

(** The body of such an answer. *)
Definition answer (x : exchange) : option json :=
  match x.2 with
  | Ok r =>
      match raise_for_status r with
      | Some _ => None
      | None => match loads limit (content r) with DVal j _ => Some j | _ => None end
      end
  | Exn _ => None
  end.

(** The document was registered: its id, and where to upload it. *)
Definition registers (c : PipelineClient) (id : uuid) (url : json) (x : exchange) : Prop :=
  x.1 = submit_request c /\
  exists j t, answer x = Some j /\ get_item "document_id" j = Some (JStr t) /\
    uuid_of_str t = Some id /\ get_item "upload_url" j = Some url.

(** A job for the document was made. *)
Definition enqueues (c : PipelineClient) (id job_id : uuid) (x : exchange) : Prop :=
  x.1 = process_request c id /\
  exists j t, answer x = Some j /\ get_item "id" j = Some (JStr t) /\ uuid_of_str t = Some job_id.

(** A poll of the job, answered with this status. *)
Definition shows (c : PipelineClient) (job_id : uuid) (status : string) (job : json)
    (x : exchange) : Prop :=
  x.1 = job_request c job_id /\ answer x = Some job /\ get_item "status" job = Some (JStr status).

(** The last exchange shows no completed job. *)
Definition unfinished (xs : list exchange) : Prop :=
  forall x c job_id job, list.last xs = Some x -> ~ shows c job_id "completed" job x.

(** The document was registered, its file uploaded where the answer said, a job made for it,
    and this job polled until an answer showed it completed; these are its exchanges, in this
    order. *)
Definition carried_through (c : PipelineClient) (pdf : string) (bound : nat)
    (log : list exchange) : Prop :=
  exists id url job_id x1 x2 x3 polls x job,
    log = ([x1; x2; x3] ++ polls ++ [x])%list /\ (length polls < bound)%nat /\
    registers c id (JStr url) x1 /\
    x2.1 = upload_request c url pdf /\ accepted x2 /\
    enqueues c id job_id x3 /\
    Forall (fun y => y.1 = job_request c job_id) polls /\
    shows c job_id "completed" job x.

Lemma unfinished_not_carried c pdf bound log : unfinished log -> ~ carried_through c pdf bound log.
Proof.
  intros Hu (id & url & job_id & x1 & x2 & x3 & polls & x & job & -> & _ & _ & _ & _ & _ & _ & Hs).
  rewrite app_assoc in Hu. by eapply Hu; [apply last_snoc|].
Qed.

Lemma unfinished_nil : unfinished [].
Proof. by intros ????. Qed.

Lemma unfinished_app xs ys : unfinished ys -> (ys = [] -> unfinished xs) -> unfinished (xs ++ ys).
Proof.
  intros Hy Hx. destruct ys as [|y ys _] using rev_ind; [rewrite app_nil_r; auto|].
  intros z c i j. rewrite app_assoc, last_snoc. intros [= <-]. eapply Hy. apply last_snoc.
Qed.

Lemma unfinished_one x :
  rq_method x.1 <> "GET" \/ answer x = None -> unfinished [x].
Proof. intros H y c i j [= <-] (Hr & Ha & _). destruct H as [H|H]; [by rewrite Hr in H|congruence]. Qed.

Lemma unfinished_status c job_id job v x :
  x.1 = job_request c job_id -> answer x = Some job -> get_item "status" job = Some v ->
  is_str "completed" v = false -> unfinished [x].
Proof.
  intros _ Ha Hs Hv y c' i j [= <-] (_ & Ha' & Hs').
  assert (v = JStr "completed") as -> by congruence. done.
Qed.
End answers.

(** ** One document *)

Section document.
Context {S} `{!Bench S, !BenchView S, !BenchLaws S}.
Context (raise_for_status : response -> option terr) `{!RaiseForStatus raise_for_status}.
Context (limit : nat) (seconds : Z -> string) (repr : json -> string).
Abbreviation unfinished := (unfinished raise_for_status limit).
Abbreviation registers := (registers raise_for_status limit).
Abbreviation enqueues := (enqueues raise_for_status limit).
Abbreviation shows := (shows raise_for_status limit).
Abbreviation answer := (answer raise_for_status limit).
Abbreviation carried_through := (carried_through raise_for_status limit).

(** Not an outcome of the polling. *)
Definition early (x : terr) : Prop :=
  match x with JobFailed _ | TimeoutError _ => False | _ => True end.

Lemma foreign_early x : foreign (Exn x : result terr unit) -> early x.
Proof. by destruct x. Qed.

(** An exception before the polling, or in it, that is no outcome of it. *)
Definition stopped (x : terr) (xs : list exchange) (_ : S) : Prop := early x /\ unfinished xs.

(** The steps that look only at a response. *)
Lemma check_status_sends r (E : terr -> list exchange -> S -> Prop) (Q : unit -> list exchange -> S -> Prop) s :
  (forall x, early x -> raise_for_status r <> None -> E x [] s) ->
  (raise_for_status r = None -> Q tt [] s) ->
  sends (check_status raise_for_status r) E Q s.
Proof.
  intros HE HQ. unfold check_status. pose proof (raises_foreign r).
  destruct (raise_for_status r) as [x|]; [|by apply sends_ret, HQ].
  apply sends_raise. apply HE; by destruct x.
Qed.

Lemma response_json_sends r E (Q : json -> list exchange -> S -> Prop) s :
  (forall x, early x -> (forall j rest, loads limit (content r) <> DVal j rest) -> E x [] s) ->
  (forall j rest, loads limit (content r) = DVal j rest -> Q j [] s) ->
  sends (response_json limit r) E Q s.
Proof.
  intros HE HQ. unfold response_json.
  destruct (loads limit (content r)) as [j rest| | |] eqn:El; [by eapply sends_ret, HQ|..];
    apply sends_raise; by apply HE.
Qed.

Lemma item_sends key j E (Q : json -> list exchange -> S -> Prop) s :
  (forall x, early x -> get_item key j = None -> E x [] s) ->
  (forall v, get_item key j = Some v -> Q v [] s) -> sends (item key j) E Q s.
Proof.
  intros HE HQ. unfold item, unless. destruct (get_item key j) eqn:Eg.
  - by apply sends_ret, HQ.
  - by apply sends_raise, HE.
Qed.

Lemma uuid_arg_sends v E (Q : uuid -> list exchange -> S -> Prop) s :
  (forall x, early x -> E x [] s) ->
  (forall t u, v = JStr t -> uuid_of_str t = Some u -> Q u [] s) -> sends (uuid_arg v) E Q s.
Proof.
  intros HE HQ. unfold uuid_arg, unless. destruct v; try by apply sends_raise, HE.
  destruct (uuid_of_str _) eqn:Eu; [by eapply sends_ret, HQ|by apply sends_raise, HE].
Qed.

Lemma answer_ok q r j rest :
  raise_for_status r = None -> loads limit (content r) = DVal j rest ->
  answer (q, Ok r) = Some j.
Proof. intros H1 H2. unfold SmokeTheorems.answer. cbn. by rewrite H1, H2. Qed.

(** ** The requests of a document *)

Lemma submit_document_sends c s :
  sends (submit_document raise_for_status limit c) stopped
    (fun doc xs _ => exists x, xs = [x] /\
       registers c (Document.id doc) (Document.upload_url doc) x) s.
Proof.
  assert (Hpost : forall a, unfinished [(submit_request c, a)])
    by (intros a; apply unfinished_one; by left).
  assert (Hstop : forall a x s', early x -> stopped x ([(submit_request c, a)] ++ [])%list s')
    by (intros; split; [done|apply Hpost]).
  apply sends_bind, sends_send.
  { intros x s' Hx. split; [by apply foreign_early|apply Hpost]. }
  intros r s1 _. apply sends_bind, check_status_sends; [by auto|]. intros Hr _.
  apply sends_bind, response_json_sends; [by auto|]. intros j rest Hj _.
  apply sends_bind, item_sends; [by auto|]. intros v Hv _.
  apply sends_bind, uuid_arg_sends; [by auto|]. intros t id -> Hid _.
  apply sends_bind, item_sends; [by auto|]. intros u Hu _. apply sends_ret.
  eexists. split; [reflexivity|]. split; [done|]. exists j, t. by rewrite (answer_ok _ _ _ _ Hr Hj).
Qed.

Lemma upload_sends c v pdf s :
  sends (upload raise_for_status c v pdf) stopped
    (fun _ xs _ => exists url x, v = JStr url /\ xs = [x] /\
       x.1 = upload_request c url pdf /\ accepted raise_for_status x) s.
Proof.
  unfold upload. destruct v as [| | | |url| |];
    try (apply sends_raise; split; [done|apply unfinished_nil]).
  assert (Hput : forall a, unfinished [(upload_request c url pdf, a)])
    by (intros a; apply unfinished_one; by left).
  apply sends_bind, sends_send.
  { intros x s' Hx. split; [by apply foreign_early|apply Hput]. }
  intros r s1 _. apply check_status_sends.
  - intros x Hx _. split; [done|apply Hput].
  - intros Hr. eexists url, _. by split_and!.
Qed.

Lemma start_processing_sends c id s :
  sends (start_processing raise_for_status limit c id) stopped
    (fun job_id xs _ => exists x, xs = [x] /\ enqueues c id job_id x) s.
Proof.
  assert (Hpost : forall a, unfinished [(process_request c id, a)])
    by (intros a; apply unfinished_one; by left).
  assert (Hstop : forall a x s', early x -> stopped x ([(process_request c id, a)] ++ [])%list s')
    by (intros; split; [done|apply Hpost]).
  apply sends_bind, sends_send.
  { intros x s' Hx. split; [by apply foreign_early|apply Hpost]. }
  intros r s1 _. destruct (_ =? 429)%Z; [by apply sends_raise, Hstop|].
  apply sends_bind, check_status_sends; [by auto|]. intros Hr _.
  apply sends_bind, response_json_sends; [by auto|]. intros j rest Hj _.
  apply sends_bind, item_sends; [by auto|]. intros v Hv _.
  apply uuid_arg_sends; [by auto|]. intros t job_id -> Hid.
  eexists. split; [reflexivity|]. split; [done|]. exists j, t. by rewrite (answer_ok _ _ _ _ Hr Hj).
Qed.

Lemma poll_job_sends c job_id s :
  sends (poll_job raise_for_status limit c job_id) stopped
    (fun p xs _ => exists x, xs = [x] /\ x.1 = job_request c job_id /\
       answer x = Some p.1 /\ get_item "status" p.1 = Some p.2) s.
Proof.
  apply sends_bind, sends_send.
  { intros x s' Hx. split; [by apply foreign_early|]. apply unfinished_one. by right. }
  intros r s1 _. apply sends_bind, check_status_sends.
  { intros x Hx Hr. split; [done|]. apply unfinished_one. right. unfold SmokeTheorems.answer. cbn.
    by destruct (raise_for_status r). }
  intros Hr _. apply sends_bind, response_json_sends.
  { intros x Hx Hj. split; [done|]. apply unfinished_one. right. unfold SmokeTheorems.answer. cbn.
    rewrite Hr. destruct (loads _ _) as [j rest| | |]; [by destruct (Hj j rest)|done..]. }
  intros j rest Hj _. pose proof (answer_ok (job_request c job_id) _ _ _ Hr Hj) as Ha.
  apply sends_bind, item_sends.
  { intros x Hx Hs. split; [done|]. intros y c' i j' [= <-] (_ & Ha' & Hs'). congruence. }
  intros v Hv _. apply sends_ret. by eexists.
Qed.

(** What an exception of the polling means. *)
Definition given_up (c : PipelineClient) (job_id : uuid) (deadline : Z) (x : terr)
    (xs : list exchange) (s' : S) : Prop :=
  unfinished xs /\
  match x with
  | JobFailed job => exists y, list.last xs = Some y /\ shows c job_id "failed" job y
  | TimeoutError _ => (deadline <= clock s')%Z
  | _ => True
  end.

(** The polling was successful. *)
Definition polled (c : PipelineClient) (job_id : uuid) (bound : nat) (o : option json)
    (xs : list exchange) : Prop :=
  exists polls x job, o = Some job /\ xs = (polls ++ [x])%list /\ (length polls < bound)%nat /\
    Forall (fun y => y.1 = job_request c job_id) polls /\ shows c job_id "completed" job x.

Lemma given_up_after c job_id deadline x xs ys s' :
  unfinished xs -> given_up c job_id deadline x ys s' ->
  given_up c job_id deadline x (xs ++ ys)%list s'.
Proof.
  intros Hxs [Hys Hx]. split; [by apply unfinished_app|].
  destruct x; try done. destruct Hx as (y & Hy & Hs). exists y. split; [|done].
  by rewrite last_app, Hy.
Qed.

Lemma poll_until_sends fuel c job_id timeout deadline interval s :
  (0 < interval)%Z -> (rounds (deadline - clock s) interval < fuel)%nat ->
  sends (poll_until raise_for_status limit seconds fuel c job_id timeout deadline interval)
    (given_up c job_id deadline)
    (fun o xs _ => polled c job_id (rounds (deadline - clock s) interval) o xs) s.
Proof.
  intros Hi. revert s. induction fuel as [|fuel IH]; intros s Hf; [lia|]. cbn [poll_until].
  apply sends_bind, sends_monotonic. intros t s1 Ht Hc1.
  destruct (Z.ltb_spec t deadline) as [Hlt|Hge].
  2: { apply sends_raise. split; [apply unfinished_nil|lia]. }
  assert (Hpos : (0 < deadline - clock s)%Z) by lia.
  pose proof (rounds_pos _ _ Hi Hpos) as H1.
  apply sends_bind. eapply sends_mono; [apply poll_job_sends| |].
  { intros x xs s2 [Hx Hu]. split; [done|]. by destruct x. }
  intros [job status] xs s2 (x & -> & Hx & Ha & Hs) Hc2. cbn [fst snd app] in *.
  destruct (is_str "completed" status) eqn:E1.
  { apply sends_ret. exists [], x, job. rewrite (is_str_eq _ _ E1) in Hs. by split_and!. }
  pose proof (unfinished_status raise_for_status limit c job_id job status x Hx Ha Hs E1) as Hu.
  destruct (is_str "failed" status) eqn:E2.
  { apply sends_raise. rewrite (is_str_eq _ _ E2) in Hs. split; [done|]. by exists x. }
  apply sends_bind. eapply sends_unseen; [apply law_sleep|intros y s3 Hy; split; [done|by destruct y]|].
  intros [] s3 Hs3 Hc3.
  assert (Hle : (deadline - clock s3 <= deadline - clock s - interval)%Z) by lia.
  pose proof (rounds_step _ _ _ Hi Hpos Hle).
  eapply sends_mono; [apply IH; lia| |].
  - intros y ys s4 Hy. by apply (given_up_after _ _ _ _ [x]).
  - intros o ys s4 (polls & z & job' & -> & -> & Hl & Hp & Hz).
    exists (x :: polls), z, job'. split_and!; [done|done|cbn; lia|by constructor|done..].
Qed.

Lemma wait_for_completion_sends fuel c job_id timeout interval s :
  (0 < interval)%Z -> (rounds timeout interval < fuel)%nat ->
  sends (wait_for_completion raise_for_status limit seconds fuel c job_id timeout interval)
    (given_up c job_id (clock s + timeout))
    (fun o xs _ => polled c job_id (rounds timeout interval) o xs) s.
Proof.
  intros Hi Hf. apply sends_bind, sends_monotonic. intros t s1 Ht Hc1.
  assert (Hle : (t + timeout - clock s1 <= timeout)%Z) by lia.
  pose proof (rounds_mono _ _ _ Hi Hle).
  eapply sends_mono; [apply poll_until_sends; [done|lia]| |].
  - intros x xs s2 [Hu Hx]. split; [done|]. destruct x; try done. lia.
  - intros o xs s2 (polls & x & job & -> & -> & Hl & Hp). exists polls, x, job.
    split_and!; [done|done|lia|apply Hp..].
Qed.
End document.

(** ** The result of a document *)

(** Why a document failed. *)
Definition explains (raise_for_status : response -> option terr) (limit : nat)
    (c : PipelineClient) (timeout : Z) (log : list exchange) (res : Result) (e : terr) : Prop :=
  match e with
  | JobFailed job => exists x job_id, list.last log = Some x /\
                       shows raise_for_status limit c job_id "failed" job x
  | TimeoutError _ => (timeout <= elapsed res)%Z
  | _ => True
  end.

(** The result is a success exactly if what was exchanged for the document shows that it was
    carried through; otherwise it names the reason. *)
Definition reported (raise_for_status : response -> option terr) (limit : nat)
    (repr : json -> string) (c : PipelineClient) (pdf : string) (timeout : Z) (i : Z)
    (log : list exchange) (res : Result) : Prop :=
  index res = i /\ (0 <= elapsed res)%Z /\
  (ok res = true <-> carried_through raise_for_status limit c pdf
                       (rounds timeout (POLL_INTERVAL_SECONDS * second)) log) /\
  (ok res = false -> exists e, error res = Some (failure_text repr e) /\
                       explains raise_for_status limit c timeout log res e).

Section one.
Context {S} `{!Bench S, !BenchView S, !BenchLaws S}.
Context (raise_for_status : response -> option terr) `{!RaiseForStatus raise_for_status}.
Context (limit : nat) (seconds : Z -> string) (repr : json -> string).
Abbreviation unfinished := (unfinished raise_for_status limit).
Abbreviation reported := (reported raise_for_status limit repr).
Abbreviation carried_through := (carried_through raise_for_status limit).
Abbreviation bound timeout := (rounds timeout (POLL_INTERVAL_SECONDS * second)).

(** An exception of the document's requests. *)
Definition excused (c : PipelineClient) (deadline : Z) (x : terr) (xs : list exchange) (s' : S)
    : Prop :=
  unfinished xs /\
  match x with
  | JobFailed job => exists y job_id, list.last xs = Some y /\
                       shows raise_for_status limit c job_id "failed" job y
  | TimeoutError _ => (deadline <= clock s')%Z
  | _ => True
  end.

Lemma stopped_excused c deadline x xs ys s' :
  unfinished xs -> stopped raise_for_status limit x ys s' ->
  excused c deadline x (xs ++ ys)%list s'.
Proof.
  intros Hxs [Hx Hys]. split; [by apply unfinished_app|]. by destruct x.
Qed.

(** The body of the [try]. *)
Lemma body_reports fuel c i pdf timeout start s :
  (bound timeout < fuel)%nat -> (start <= clock s)%Z ->
  sends
    (doc ← submit_document raise_for_status limit c;
     upload raise_for_status c (Document.upload_url doc) pdf;;
     job_id ← start_processing raise_for_status limit c (Document.id doc);
     job ← wait_for_completion raise_for_status limit seconds fuel c job_id timeout
             (POLL_INTERVAL_SECONDS * second)%Z;
     match job with
     | None => mret None
     | Some _ => time ← monotonic; mret (Some (MakeResult i true (time - start)%Z None))
     end)
    (excused c (start + timeout))
    (fun o xs _ => exists t, o = Some (MakeResult i true t None) /\ (0 <= t)%Z /\
       carried_through c pdf (bound timeout) xs) s.
Proof.
  intros Hf Hstart. apply sends_bind. eapply sends_mono; [by apply submit_document_sends| |].
  { intros x xs s1 H. by apply (stopped_excused c _ x []); [apply unfinished_nil|]. }
  intros doc xs s1 (x1 & -> & H1) Hc1.
  assert (Hu1 : unfinished [x1]) by (apply unfinished_one; left; by rewrite (proj1 H1)).
  apply sends_bind. eapply sends_mono; [by apply upload_sends| |].
  { intros x ys s2. by apply stopped_excused. }
  intros _ ys s2 (url & x2 & Hurl & -> & H2 & H2') Hc2. cbn [app].
  assert (Hu2 : unfinished [x1; x2]).
  { apply (unfinished_app _ _ [x1] [x2]); [apply unfinished_one; left; by rewrite H2|done]. }
  apply sends_bind. eapply sends_mono; [by apply start_processing_sends| |].
  { intros x ys s3. by apply (stopped_excused c _ x [x1; x2]). }
  intros job_id ys s3 (x3 & -> & H3) Hc3. cbn [app].
  assert (Hu3 : unfinished [x1; x2; x3]).
  { apply (unfinished_app _ _ [x1; x2] [x3]); [apply unfinished_one; left; by rewrite (proj1 H3)|done]. }
  apply sends_bind. eapply sends_mono; [by apply wait_for_completion_sends| |].
  { intros x ys s4 Hx. apply (given_up_after _ _ _ _ _ _ [x1; x2; x3]) in Hx as [Hu Hx]; [|done].
    split; [exact Hu|]. destruct x; try done; [|lia].
    destruct Hx as (y & Hy & Hs). by exists y, job_id. }
  intros o ys s4 (polls & x & job & -> & -> & Hl & Hp & Hx) Hc4.
  apply sends_bind, sends_monotonic. intros t s5 Ht Hc5. apply sends_ret.
  exists (t - start)%Z. split; [done|]. split; [lia|].
  exists (Document.id doc), url, job_id, x1, x2, x3, polls, x, job.
  rewrite !app_nil_r. rewrite Hurl in H1. by split_and!.
Qed.

(** The body of either [except]. *)
Lemma failed_result i start text (s : S) :
  sends (time ← monotonic; mret (Some (MakeResult i false (time - start)%Z (Some text))))
    (fun _ _ _ => False)
    (fun o ys s' => ys = [] /\ exists time, (clock s <= time <= clock s')%Z /\
       o = Some (MakeResult i false (time - start)%Z (Some text))) s.
Proof.
  apply sends_bind, sends_monotonic. intros time s1 Ht _. apply sends_ret.
  split; [done|]. by exists time.
Qed.

(** Whatever happens, a document gives a result that tells what happened. *)
Lemma run_one_reports fuel c i pdf timeout s :
  (bound timeout < fuel)%nat ->
  sends (_run_one raise_for_status limit seconds repr fuel c i pdf timeout)
    (fun _ _ _ => False)
    (fun o log _ => exists res, o = Some res /\ reported c pdf timeout i log res) s.
Proof.
  intros Hf. apply sends_bind, sends_monotonic. intros start s1 Hs1 Hc1.
  pose proof (body_reports fuel c i pdf timeout start s1 Hf ltac:(lia)) as Hbody. red in Hbody.
  unfold sends. apply ends_except. eapply ends_mono; [|exact Hbody].
  intros [o|e] s2 (Hc2 & Hp2 & xs & Hx & H2).
  - split; [done|]. split; [done|]. exists xs. split; [done|]. cbn [app].
    destruct H2 as (t & -> & Ht & Hd). eexists. split; [done|].
    split; [done|]. split; [done|]. by split.
  - destruct H2 as [Hu He].
    pose proof (failed_result i start (failure_text repr e) s2) as Hr. red in Hr.
    eapply ends_mono; [|exact Hr].
    intros r s4 (Hc4 & Hp4 & ys & Hy & H4). split; [lia|]. split; [congruence|].
    exists (xs ++ ys)%list. split; [by rewrite Hy, Hx, app_assoc|].
    destruct r as [o|]; [|done]. destruct H4 as (-> & time & Ht & ->).
    rewrite app_nil_r. cbn [app].
    eexists. split; [done|]. split; [done|]. split; [cbn; lia|]. split.
    + split; [done|]. intros Hd. exfalso. by eapply unfinished_not_carried.
    + intros _. exists e. split; [done|]. unfold explains. destruct e; try done. cbn. lia.
Qed.
End one.

(** ** All documents *)

Definition poll_timeout (count : Z) : Z := (BASE_POLL_TIMEOUT_SECONDS + count) * second.

Lemma rounds_seconds n : rounds (n * second) (POLL_INTERVAL_SECONDS * second) = Z.to_nat n.
Proof.
  unfold rounds. f_equal. unfold POLL_INTERVAL_SECONDS. rewrite Z.mul_1_l.
  change second with 1000000000%Z.
  replace (n * 1000000000 + 1000000000 - 1)%Z with (999999999 + n * 1000000000)%Z by lia.
  rewrite Z.div_add by lia. change (999999999 / 1000000000)%Z with 0%Z. lia.
Qed.

Lemma passed_all results :
  (passed results <= Z.of_nat (List.length results))%Z /\
  (passed results = Z.of_nat (List.length results) <-> Forall (fun r => ok r = true) results).
Proof.
  unfold passed. induction results as [|r rs [IHle IH]]; [done|]. cbn.
  rewrite Forall_cons_iff. destruct (ok r); cbn [List.length]; (split; [lia|]); split.
  - intros H. split; [done|]. apply IH. lia.
  - intros [_ H%IH]. lia.
  - lia.
  - by intros [? _].
Qed.

(** The comparison with the number asked for. *)
Lemma passed_count count results :
  List.length results = Z.to_nat count ->
  (passed results = count <-> (0 <= count)%Z /\ Forall (fun r => ok r = true) results).
Proof.
  intros Hl. destruct (passed_all results) as [Hle Hall]. rewrite <- Hall. unfold passed in *. lia.
Qed.

(** Coroutines that each give a result and print nothing. *)
Lemma gathered {I} (f : I -> coroutine) (P : I -> list exchange -> Result -> Prop) from to ids os runs :
  (forall i r log out, ran (f i) (Ok r) from to log out ->
     exists res, r = Some res /\ P i log res /\ out = []) ->
  Forall3 (fun t r run => ran t (Ok r) from to run.1 run.2) (f <$> ids) os runs ->
  exists results, mapM id os = Some results /\ Forall3 P ids runs.*1 results /\
    Forall (fun out => out = []) runs.*2.
Proof.
  intros Hf. revert os runs. induction ids as [|i ids IH]; intros os runs H.
  { inversion H. subst. exists []. by repeat constructor. }
  apply Forall3_cons_inv_l in H as (o & os' & run & runs' & -> & -> & H1 & H).
  apply Hf in H1 as (res & -> & HP & Ho). apply IH in H as (results & Hm & HPs & Hos).
  exists (res :: results). cbn. rewrite Hm. by repeat constructor.
Qed.

(** The last line. *)
Definition summary_line (tenths : Z -> string) (count : Z) (results : list Result) (total : Z)
    : string :=
  (pretty (passed results) ++ "/" ++ pretty count ++ " passed (" ++ tenths total ++ "s total)")%string.

Section main.
Context {S} `{!Bench S, !BenchView S, !BenchLaws S} {here : Checkout}.
Context (raise_for_status : response -> option terr) `{!RaiseForStatus raise_for_status}.
Context (limit : nat) (seconds tenths : Z -> string) (repr : json -> string).
Context (gather : list coroutine -> tool terr S (list (option Result))) `{!Gather gather}.

(** A client is opened with the key in the file, and closed; what is seen meanwhile is what its
    body does. *)
Lemma with_client_ends {A} (body : PipelineClient -> tool terr S A) (Q : result terr A -> S -> Prop) s :
  (forall key s1 s2, _load_api_key ACCOUNTS_CSV s = (Ok (Some key), s1) ->
     exchanges s2 = exchanges s -> printed s2 = printed s ->
     ends (body (Entered (ApiClient BASE_URL key) BareClient)) (fun r s3 => match r with
       | Ok a => forall s4, exchanges s4 = exchanges s3 -> printed s4 = printed s3 -> Q (Ok a) s4
       | Exn x => foreign (Exn x : result terr unit)
       end) s2) ->
  (forall x s', foreign (Exn x : result terr unit) -> Q (Exn x) s') ->
  ends (with_client body) Q s.
Proof.
  intros Hb HE. unfold with_client, __aenter__. tool_step. tool_step.
  assert (Hload : ends (_load_api_key ACCOUNTS_CSV) (fun r s' =>
    exchanges s' = exchanges s /\ printed s' = printed s /\ foreign r) s).
  { unfold _load_api_key. tool_step. eapply ends_unseen; [apply law_read_text|].
    intros [text|x] s1 _ Hx Hp Hf _; [|split_and!; by try destruct x]. unfold unless.
    tool_step. destruct (first_dict _) as [row|]; [|by apply ends_raise]. apply ends_ret.
    destruct (dict_get _ row); [by apply ends_ret|by apply ends_raise]. }
  unfold ends in Hload. unfold ends at 1.
  destruct (_load_api_key ACCOUNTS_CSV s) as [[[key|]|x] s1] eqn:Ek; cbn [fst snd] in *;
    destruct Hload as (Hx1 & Hp1 & Hf1); [|by apply HE|by apply HE; destruct x].
  tool_step. eapply ends_unseen; [apply law_open|].
  intros [[]|x] s2 _ Hx2 Hp2 Hf2 _; [|by apply HE; destruct x].
  tool_step. eapply ends_unseen; [apply law_open|].
  intros [[]|x] s3 _ Hx3 Hp3 Hf3 _; [|by apply HE; destruct x].
  tool_step. tool_step. eapply ends_mono; [|apply (Hb key s1 s3); [done|congruence|congruence]].
  intros r s4 Hr. unfold __aexit__. tool_step. eapply ends_unseen; [apply law_aclose|].
  intros [[]|x] s5 _ Hx5 Hp5 Hf5 _; [|by apply HE; destruct x].
  eapply ends_unseen; [apply law_aclose|].
  intros [[]|x] s6 _ Hx6 Hp6 Hf6 _; [|by apply HE; destruct x].
  destruct r as [a|x]; [apply Hr; congruence|by apply HE].
Qed.

(** The results of the documents, with what each of them exchanged. *)
Lemma gather_reports fuel c pdf count s :
  (Z.to_nat (BASE_POLL_TIMEOUT_SECONDS + count) < fuel)%nat ->
  ends (gather ((fun i S' (_ : Bench S') =>
          _run_one raise_for_status limit seconds repr fuel c i pdf (poll_timeout count))
            <$> indices count))
    (fun r s' => exists os logs results l, r = Ok os /\ mapM id os = Some results /\
       exchanges s' = (exchanges s ++ l)%list /\ interleaved logs l /\ printed s' = printed s /\
       Forall3 (reported raise_for_status limit repr c pdf (poll_timeout count))
         (indices count) logs results) s.
Proof.
  intros Hf.
  assert (Hb : (rounds (poll_timeout count) (POLL_INTERVAL_SECONDS * second) < fuel)%nat)
    by (unfold poll_timeout; by rewrite rounds_seconds).
  assert (Hone : forall i S' (B : Bench S') (V : BenchView S') (L : BenchLaws S') (s : S'),
    sends (_run_one raise_for_status limit seconds repr fuel c i pdf (poll_timeout count))
      (fun _ _ _ => False) (fun o log _ => exists res, o = Some res /\
         reported raise_for_status limit repr c pdf (poll_timeout count) i log res) s)
    by (intros; by apply run_one_reports).
  set (f := fun i S' (_ : Bench S') =>
    _run_one raise_for_status limit seconds repr fuel c i pdf (poll_timeout count)).
  assert (Hran : forall i r log out, ran (f i) r (clock s) (clock (gather (f <$> indices count) s).2)
      log out -> exists res, r = Ok (Some res) /\
      reported raise_for_status limit repr c pdf (poll_timeout count) i log res /\ out = []).
  { intros i r log out [S' B V L s0 Er _ _ Elog Eout]. pose proof (Hone i S' B V L s0) as R.
    unfold f in Er, Elog, Eout. red in R. red in R. cbn beta in *. rewrite Er in R. destruct R as (_ & Hp0 & xs & Hx0 & R).
    rewrite Hx0 in Elog. apply app_inv_head in Elog as <-.
    destruct r as [o|]; [|done]. destruct R as (res & -> & R). exists res. split_and!; [done..|].
    rewrite Hp0, <- (app_nil_r (printed s0)) in Eout at 1. by apply app_inv_head in Eout. }
  assert (Htame : Forall tame (f <$> indices count)).
  { apply Forall_fmap, Forall_true. intros i S' B V L s0. pose proof (Hone i S' B V L s0) as R.
    red in R. red in R. destruct R as (Hc & Hp & xs & Hx & _). exists xs, [].
    by rewrite app_nil_r. }
  pose proof (gathers (gather := gather) (f <$> indices count) s Htame) as HG. unfold ends.
  destruct (gather _ s) as [[os|x] s']; cbn [fst snd] in *.
  - destruct HG as (runs & l & o & _ & HF & Hx & Hl & Hp & Ho).
    destruct (gathered f (reported raise_for_status limit repr c pdf (poll_timeout count))
      (clock s) (clock s') (indices count) os runs) as (results & Hm & Hres & Hout); [|exact HF|].
    { intros i r log out Hr. apply Hran in Hr as (res & E & HR & ->). injection E as ->.
      by exists res. }
    exists os, runs.*1, results, l. split_and!; try done.
    rewrite Hp, (interleaved_empty _ _ Hout Ho). apply app_nil_r.
  - exfalso. destruct HG as (t & (i & -> & _)%list_elem_of_fmap & [S' B V L s0 E]).
    pose proof (Hone i S' B V L s0) as R. red in R. red in R. unfold f in E. cbn beta in E. rewrite E in R.
    by destruct R as (_ & _ & _ & _ & ?).
Qed.

Lemma print_all_ends lines s (Q : result terr unit -> S -> Prop) :
  (forall s', exchanges s' = exchanges s -> printed s' = (printed s ++ lines)%list -> Q (Ok tt) s') ->
  (forall x s', foreign (Exn x : result terr unit) -> Q (Exn x) s') ->
  ends (print_all lines) Q s.
Proof.
  intros HQ HE. revert s HQ. induction lines as [|line lines IH]; intros s HQ; cbn [print_all].
  { apply ends_ret, HQ; [done|]. by rewrite app_nil_r. }
  tool_step. pose proof (law_print line s) as H. unfold ends at 1.
  destruct (print line s) as [[[]|x] s1]; cbn [fst snd]; destruct H as (_ & Hx & _ & Hf & Hp);
    [|by apply HE].
  specialize (Hp eq_refl). apply IH. intros s2 Hx2 Hp2. apply HQ; [congruence|].
  by rewrite Hp2, Hp, <- app_assoc.
Qed.

(** Every document was carried through, and there were as many as asked for. *)
Definition all_carried (count : Z) (key pdf : string) (logs : list (list exchange)) : Prop :=
  (0 <= count)%Z /\
  Forall (carried_through raise_for_status limit (Entered (ApiClient BASE_URL key) BareClient) pdf
            (rounds (poll_timeout count) (POLL_INTERVAL_SECONDS * second))) logs.

(** What a run of [count] documents has done when it ends with an exit code: it has read the
    file and the key; what it exchanged since is an interleaving of what each document
    exchanged; it has printed the result of each document and the summary. *)
Definition smoked (count : Z) (s : S) (code : option Z) (s' : S) : Prop :=
  exists t s1 pdf s2 key s3 logs results total l,
    monotonic s = (Ok t, s1) /\ read_bytes SAMPLE_PDF s1 = (Ok pdf, s2) /\
    _load_api_key ACCOUNTS_CSV s2 = (Ok (Some key), s3) /\
    exchanges s' = (exchanges s ++ l)%list /\ interleaved logs l /\
    Forall3 (reported raise_for_status limit repr (Entered (ApiClient BASE_URL key) BareClient) pdf
               (poll_timeout count)) (indices count) logs results /\
    printed s' = (printed s ++ (_format_result tenths <$> results)
                    ++ [summary_line tenths count results total])%list /\
    ((code = Some 0%Z /\ all_carried count key pdf logs) \/
     (code = Some 1%Z /\ ~ all_carried count key pdf logs)).

Lemma reported_ok c pdf timeout ids logs results :
  Forall3 (reported raise_for_status limit repr c pdf timeout) ids logs results ->
  Forall (fun r => ok r = true) results <->
  Forall (carried_through raise_for_status limit c pdf
            (rounds timeout (POLL_INTERVAL_SECONDS * second))) logs.
Proof.
  intros H. induction H as [|i log res ids logs results (_ & _ & Hok & _) _ IH]; [done|].
  by rewrite !Forall_cons_iff, Hok, IH.
Qed.

Lemma smoke_main_ends fuel count s :
  (Z.to_nat (BASE_POLL_TIMEOUT_SECONDS + count) < fuel)%nat ->
  ends (smoke_main raise_for_status limit seconds repr tenths gather fuel count)
    (fun r s' => match r with
                 | Ok code => smoked count s code s'
                 | Exn x => foreign (Exn x : result terr unit)
                 end) s.
Proof.
  intros Hf. unfold smoke_main. destruct (law_monotonic_reads s) as [t Ht].
  pose proof (ends_unseen monotonic _ (fun _ s' => exchanges s' = exchanges s /\ printed s' = printed s)
    s law_monotonic ltac:(by intros)) as H1.
  tool_step. unfold ends in H1. unfold ends at 1.
  destruct (monotonic s) as [r s1] eqn:E1. cbn [fst snd] in *. subst r. destruct H1 as [Hx1 Hp1].
  pose proof (ends_unseen (read_bytes SAMPLE_PDF) _ (fun r s' => exchanges s' = exchanges s1 /\
    printed s' = printed s1 /\ foreign r) s1 (law_read_bytes _) ltac:(by intros)) as H2.
  tool_step. unfold ends in H2. unfold ends at 1.
  destruct (read_bytes SAMPLE_PDF s1) as [[pdf|x] s2] eqn:E2; cbn [fst snd] in *;
    destruct H2 as (Hx2 & Hp2 & Hf2); [|by destruct x].
  tool_step. apply with_client_ends; [|done].
  intros key s3 s4 E3 Hx4 Hp4. eapply ends_mono; [|by apply gather_reports].
  intros r s5 (os & logs & results & l & -> & Hm & Hx5 & Hl & Hp5 & Hres) s6 Hx6 Hp6.
  rewrite Hm. tool_step. apply print_all_ends; [|done]. intros s7 Hx7 Hp7.
  tool_step. eapply ends_unseen; [apply law_monotonic|].
  intros [time|x] s8 _ Hx8 Hp8 Hf8 _; [|by destruct x].
  tool_step. pose proof (law_print (summary_line tenths count results (time - t)) s8) as H9.
  unfold summary_line in H9. unfold ends at 1.
  destruct (print _ s8) as [[[]|x] s9]; cbn [fst snd]; destruct H9 as (_ & Hx9 & _ & Hf9 & Hp9);
    [|by destruct x].
  specialize (Hp9 eq_refl). tool_step.
  exists t, s1, pdf, s2, key, s3, logs, results, (time - t)%Z, l.
  split; [done|]. split; [done|]. split; [done|].
  split; [congruence|]. split; [done|]. split; [done|].
  split; [rewrite Hp9, Hp8, Hp7, <- app_assoc; unfold summary_line; congruence|].
  assert (Hlen : List.length results = Z.to_nat count).
  { rewrite <- (Forall3_length_lr _ _ _ _ Hres). unfold indices. by rewrite length_fmap, length_seq. }
  pose proof (passed_count count results Hlen) as Hc. rewrite (reported_ok _ _ _ _ _ _ Hres) in Hc.
  destruct (Z.eqb_spec (passed results) count) as [E|E].
  - left. split; [done|]. by apply Hc.
  - right. split; [done|]. intros H. by apply E, Hc.
Qed.

End main.

(** ** Examples *)

#[local] Existing Instance repository_root.

(** [gather] when no coroutine gives way before its end. *)
Fixpoint gather_in_turn {S} `{!Bench S} (ts : list coroutine)
  : tool terr S (list (option Result)) :=
  match ts with
  | [] => mret []
  | t :: ts => r ← t S _; rs ← gather_in_turn ts; mret (r :: rs)
  end.

(** Each runs on the bench itself, between the others. *)
Lemma gather_in_turn_runs {S} `{!Bench S, !BenchView S, !BenchLaws S} ts (s : S) from :
  Forall tame ts -> (from <= clock s)%Z ->
  match gather_in_turn ts s with
  | (Ok rs, s') => exists runs, (clock s <= clock s')%Z /\
      Forall3 (fun t r run => ran t (Ok r) from (clock s') run.1 run.2) ts rs runs /\
      exchanges s' = (exchanges s ++ concat runs.*1)%list /\
      printed s' = (printed s ++ concat runs.*2)%list
  | (Exn x, s') => exists t, t ∈ ts /\ raised t x
  end.
Proof.
  intros Ht. revert s. induction Ht as [|t ts Ht Hts IH]; intros s Hs; cbn.
  { exists []. rewrite !app_nil_r. repeat split; [lia|constructor]. }
  unfold mbind, tool_bind. destruct (Ht S _ _ _ s) as (log & out & Hc & Hx & Hp).
  destruct (t S _ s) as [[r|x] s1] eqn:E; cbn [snd] in *.
  2: { exists t. split; [left|]. apply (Raised t x S _ _ _ s). by rewrite E. }
  specialize (IH s1 ltac:(lia)). destruct (gather_in_turn ts s1) as [[rs|x] s2]; cbn.
  - destruct IH as (runs & Hc2 & Hr & Hx2 & Hp2). exists ((log, out) :: runs).
    split; [lia|]. split; [|cbn; by rewrite Hx2, Hx, Hp2, Hp, <- !app_assoc].
    constructor; [|exact Hr]. apply (Ran t (Ok r) from (clock s2) log out S _ _ _ s);
      rewrite ?E; cbn; (done || lia).
  - destruct IH as (u & Hu & Hx2). exists u. split; [by right|done].
Qed.

#[export] Instance gather_in_turn_gathers {S} `{!Bench S, !BenchView S, !BenchLaws S} :
  Gather (gather_in_turn (S := S)).
Proof.
  intros ts s Ht. pose proof (gather_in_turn_runs ts s (clock s) Ht ltac:(apply Z.le_refl)) as H.
  destruct (gather_in_turn ts s) as [[rs|x] s']; [|done].
  destruct H as (runs & Hc & Hr & Hx & Hp). exists runs, (concat runs.*1), (concat runs.*2).
  split_and!; try done; apply interleaved_concat.
Qed.

(** The desk with an accounts file. *)
Definition office_csv : string := "account_id,api_key" ++ String "010" "1,key" ++ String "010" "".

#[local] Instance office : Bench desk := {
  monotonic := monotonic; sleep := sleep; now := now;
  open_client := open_client; aclose := aclose; send := send; run_command := run_command;
  read_text _ := idle office_csv;
  read_bytes := read_bytes; print := print
}.

#[local] Instance office_laws : BenchLaws desk (Bench0 := office).
Proof. destruct desk_laws. by constructor. Qed.

Definition json_answer (fields : list (string * json)) : response :=
  Response 200 (dumps (JObj fields)).

Definition document_answers (status : string) : list response :=
  [json_answer [("document_id", JStr (uuid_str 7)); ("upload_url", JStr "http://s3/7")];
   Response 200 ""; json_answer [("id", JStr (uuid_str 8))]; job_answer status].

(** The script with its arguments, answered from a list. *)
Abbreviation smoke_day argv answers :=
  (smoke_script plain_status 100 pretty (fun _ => "") pretty (gather_in_turn (S := desk)) 63 argv
     (Desk 0 [] [] answers [] [])).

(** What was printed: the number of seconds is one in a thousand million of the clock. *)
Lemma one_of_two_completed :
  let day := smoke_day ["smoke.py"; "2"]
               (document_answers "completed" ++ document_answers "failed") in
  (day.1, d_printed day.2)
  = (Ok (Some 1%Z), ["[1] ok (4s)"; "[2] FAILED: job failed: None"; "1/2 passed (8s total)"]).
Proof. by vm_compute. Qed.

