(* ===== verification/TextFacts.v ===== *)
(** * Facts about the text methods

    Stripping, splitting, [int()] of printed numbers and [fromisoformat] of printed dates. *)

From stdpp Require Import pretty.
From S2P Require Import Prelude PyStr Json JsonFacts PyText.

(** ** Decoding *)

Lemma utf8_decode_app l1 l2 ps :
  utf8_decode l1 = Some ps -> utf8_decode (l1 ++ l2) = app ps <$> utf8_decode l2.
Proof.
  remember (length l1) as n eqn:Hn. revert l1 ps Hn.
  induction n as [n IH] using lt_wf_ind. intros l1 ps ->.
  assert (Hcons : forall x (o : option (list N)) l1',
    (length l1' < length l1)%nat -> o = utf8_decode l1' -> cons x <$> o = Some ps ->
    cons x <$> utf8_decode (l1' ++ l2) = app ps <$> utf8_decode l2).
  { intros x o l1' Hl -> H. destruct (utf8_decode l1') as [ps'|] eqn:E; [|done].
    injection H as <-. rewrite (IH _ Hl l1' ps' eq_refl E). by destruct (utf8_decode l2). }
  destruct l1 as [|c l1]; [intros [= <-]; cbn; by destruct (utf8_decode l2)|].
  cbn [utf8_decode app].
  destruct (byte_in 0 127 c); [intros H; eapply Hcons; [|reflexivity|exact H]; cbn; lia|].
  destruct (byte_in 194 223 c).
  { destruct l1 as [|c1 l1]; [done|]. cbn [app]. destruct (is_cont c1); [|done].
    intros H. eapply Hcons; [|reflexivity|exact H]. cbn. lia. }
  destruct (byte_in 224 239 c).
  { destruct l1 as [|c1 [|c2 l1]]; [done..|]. cbn [app]. destruct (_ && _ && _); [|done].
    intros H. eapply Hcons; [|reflexivity|exact H]. cbn. lia. }
  destruct (byte_in 240 244 c); [|done].
  destruct l1 as [|c1 [|c2 [|c3 l1]]]; [done..|]. cbn [app]. destruct (_ && _); [|done].
  intros H. eapply Hcons; [|reflexivity|exact H]. cbn. lia.
Qed.

(** Printable ASCII without the space. *)
Definition solid (l : list ascii) : Prop := Forall (fun c => byte_in 33 126 c = true) l.

Lemma byte_in_spec lo hi c : byte_in lo hi c = true <-> (lo <= code c <= hi)%N.
Proof. unfold byte_in. by rewrite andb_true_iff, !N.leb_le. Qed.

Lemma byte_in_weaken lo hi lo' hi' c :
  byte_in lo hi c = true -> (lo' <= lo)%N -> (hi <= hi')%N -> byte_in lo' hi' c = true.
Proof. rewrite !byte_in_spec. lia. Qed.

Lemma solid_ascii l : solid l -> ascii_chars l.
Proof. intros H. eapply Forall_impl; [|exact H]. intros c Hc. eapply byte_in_weaken; [exact Hc|lia|lia]. Qed.

Lemma decode_ascii l : ascii_chars l -> utf8_decode l = Some (map code l).
Proof. apply utf8_decode_ascii. Qed.

Lemma encode_points_app ps qs : encode_points (ps ++ qs) = (encode_points ps ++ encode_points qs)%list.
Proof. unfold encode_points. by rewrite map_app, concat_app. Qed.

(** ** Stripping *)

Definition solid_point (n : N) : Prop := is_space_point n = false.

Lemma is_space_point_solid n : (33 <= n <= 126)%N -> is_space_point n = false.
Proof.
  intros H. unfold is_space_point.
  rewrite !orb_false_iff, !andb_false_iff, !N.leb_gt, !N.eqb_neq. lia.
Qed.

Lemma solid_points l : solid l -> Forall solid_point (map code l).
Proof.
  intros H. induction H as [|c l Hc _ IH]; [done|]. cbn. constructor; [|done].
  apply is_space_point_solid. by apply byte_in_spec.
Qed.

Lemma drop_spaces_app ps p qs :
  solid_point p -> drop_spaces (ps ++ p :: qs) = (drop_spaces ps ++ p :: qs)%list.
Proof.
  intros Hp. induction ps as [|q ps IH]; cbn [app drop_spaces]; [by rewrite Hp|].
  destruct (is_space_point q); [done|]. reflexivity.
Qed.

Lemma drop_spaces_solid ps : Forall solid_point ps -> drop_spaces ps = ps.
Proof. intros [|p qs Hp _]; [done|]. cbn [drop_spaces]. by rewrite Hp. Qed.

Lemma drop_spaces_head ps qs :
  Forall solid_point ps -> ps <> [] -> drop_spaces (ps ++ qs) = (ps ++ qs)%list.
Proof. intros [|p ps' Hp _] H; [done|]. cbn [app drop_spaces]. by rewrite Hp. Qed.

Lemma rstrip_points_solid ps : Forall solid_point ps -> rstrip_points ps = ps.
Proof.
  intros H. unfold rstrip_points. rewrite drop_spaces_solid, reverse_involutive; [done|].
  by apply Forall_reverse.
Qed.

(** What is stripped at the end stays behind the last solid character. *)
Lemma rstrip_points_after ps p qs :
  solid_point p -> rstrip_points ((ps ++ [p]) ++ qs) = ((ps ++ [p]) ++ rstrip_points qs)%list.
Proof.
  intros Hp. unfold rstrip_points. rewrite !reverse_app. cbn [reverse app].
  change (reverse [p]) with [p]. cbn [app]. rewrite drop_spaces_app by done.
  rewrite reverse_app, reverse_cons, reverse_involutive. done.
Qed.

Lemma rstrip_points_newline qs : rstrip_points (qs ++ [10%N]) = rstrip_points qs.
Proof. unfold rstrip_points. by rewrite reverse_app. Qed.

Lemma strip_solid s : solid (list_of_string s) -> strip s = s.
Proof.
  intros H. unfold strip, points, of_points.
  rewrite decode_ascii by by apply solid_ascii. cbn [default from_option id].
  pose proof (solid_points _ H) as Hp.
  rewrite drop_spaces_solid, rstrip_points_solid by done.
  rewrite encode_points_ascii by by apply solid_ascii. apply string_of_list_of_string.
Qed.

(** ASCII text between two solid characters, any text and a line end. *)
Lemma strip_line c0 pre c e pe :
  byte_in 33 126 c0 = true -> ascii_chars pre -> byte_in 33 126 c = true ->
  utf8_decode (list_of_string e) = Some pe ->
  strip (string_of_list (((c0 :: pre) ++ [c]) ++ list_of_string e ++ [chr 10]))
  = string_of_list (((c0 :: pre) ++ [c]) ++ list_of_string (rstrip e)).
Proof.
  intros Hc0 Hpre Hc He. unfold strip, rstrip, points, of_points.
  rewrite list_of_string_of_list, He. cbn [default from_option id].
  assert (Hs : ascii_chars ((c0 :: pre) ++ [c])).
  { apply Forall_app. split; [constructor; [|done]|apply Forall_singleton];
      eapply byte_in_weaken; [exact Hc0|lia|lia|exact Hc|lia|lia]. }
  erewrite utf8_decode_app by (apply decode_ascii; exact Hs).
  erewrite utf8_decode_app by exact He.
  replace (utf8_decode [chr 10]) with (Some [10%N]) by done.
  cbn [fmap option_fmap option_map default from_option id].
  assert (Hsolid : forall x, byte_in 33 126 x = true -> solid_point (code x)).
  { intros x Hx. apply is_space_point_solid. by apply byte_in_spec. }
  rewrite map_app. cbn [map]. change (code c0 :: map code pre) with (map code (c0 :: pre)).
  assert (Hd : forall qs, drop_spaces ((map code (c0 :: pre) ++ [code c]) ++ qs)
                          = ((map code (c0 :: pre) ++ [code c]) ++ qs)%list).
  { intros qs. cbn [map app drop_spaces]. by rewrite (Hsolid c0 Hc0). }
  rewrite Hd, rstrip_points_after, rstrip_points_newline by by apply Hsolid.
  rewrite encode_points_app, list_of_string_of_list. f_equal. f_equal.
  change [code c] with (map code [c]). rewrite <- map_app. by apply encode_points_ascii.
Qed.

(** ** Splitting *)

Lemma split_chars_cons sep f l :
  sep ∉ f -> split_chars sep (f ++ sep :: l) = f :: split_chars sep l.
Proof.
  induction f as [|c f IH]; intros Hf; cbn [split_chars app].
  - by rewrite bool_decide_eq_true_2.
  - apply not_elem_of_cons in Hf as [Hc Hf]. rewrite bool_decide_eq_false_2 by congruence.
    by rewrite IH.
Qed.

Lemma split_chars_nonempty sep l : exists f fs, split_chars sep l = f :: fs.
Proof.
  destruct l as [|c l]; cbn; [by do 2 eexists|]. destruct (bool_decide _); [by do 2 eexists|].
  destruct (split_chars sep l); by do 2 eexists.
Qed.

(** ** Numbers *)

Lemma is_digit_char n : (n < 10)%N -> is_digit (pretty_N_char n) = true /\
  (code (pretty_N_char n) - 48 = n)%N.
Proof.
  intros H. assert (n = 0 \/ n = 1 \/ n = 2 \/ n = 3 \/ n = 4 \/ n = 5 \/ n = 6 \/ n = 7 \/ n = 8
    \/ n = 9)%N as Hn by lia.
  repeat (destruct Hn as [->|Hn]; [by vm_compute|]). subst. by vm_compute.
Qed.

Definition digits (l : list ascii) : Prop := Forall (fun c => is_digit c = true) l.

Lemma digits_solid l : digits l -> solid l.
Proof. intros H. eapply Forall_impl; [|exact H]. intros c Hc. eapply byte_in_weaken; [exact Hc|lia|lia]. Qed.

Lemma int_digits_step acc c l :
  is_digit c = true ->
  int_digits acc false (c :: l) = int_digits (10 * acc + Z.of_N (code c - 48)) false l.
Proof.
  intros H. cbn [int_digits]. rewrite bool_decide_eq_false_2; [by rewrite H|]. by intros ->.
Qed.

(** The digits that [pretty] writes. *)
Lemma pretty_digits x :
  exists ds, digits ds /\ (0 < x -> ds <> [])%N /\
    (forall s, list_of_string (pretty_N_go x s) = ds ++ list_of_string s)%list /\
    (forall acc l, int_digits acc false (ds ++ l)
       = int_digits (acc * 10 ^ Z.of_nat (length ds) + Z.of_N x) false l) /\
    forall n, (x < 10 ^ N.of_nat n)%N -> (length ds <= n)%nat.
Proof.
  induction (N.lt_wf_0 x) as [x _ IH]. destruct (N.eq_dec x 0%N) as [->|Hx].
  { exists []. split_and!; [constructor|lia|done| |intros; cbn; lia]. intros acc l. cbn.
    f_equal. lia. }
  assert (Hlt : (x / 10 < x)%N) by (apply N.div_lt; lia).
  destruct (IH _ Hlt) as (ds & Hds & _ & Hstr & Hint & Hlen).
  assert (Hm : (x mod 10 < 10)%N) by (apply N.mod_lt; lia).
  destruct (is_digit_char _ Hm) as [Hd Hv].
  exists (ds ++ [pretty_N_char (x mod 10)])%list. split_and!.
  - apply Forall_app. split; [done|by constructor].
  - intros _ [_ E]%app_eq_nil. done.
  - intros s. rewrite pretty_N_go_step by lia. rewrite Hstr, <- app_assoc. done.
  - intros acc l. rewrite <- app_assoc, Hint. cbn [app]. rewrite int_digits_step, Hv by done.
    f_equal. rewrite length_app, Nat2Z.inj_add, Z.pow_add_r by (cbn; lia). cbn [length].
    pose proof (N.div_mod x 10 ltac:(lia)). change (Z.of_nat 1) with 1%Z. rewrite Z.pow_1_r. lia.
  - intros [|n] Hn; [cbn in Hn; lia|]. rewrite length_app. cbn [length].
    enough (length ds <= n)%nat by lia. apply Hlen. rewrite Nat2N.inj_succ, N.pow_succ_r' in Hn.
    apply N.Div0.div_lt_upper_bound. lia.
Qed.

Lemma filter_digits ds : digits ds -> List.filter is_digit ds = ds.
Proof. induction 1 as [|c ds Hc _ IH]; [done|]. cbn. by rewrite Hc, IH. Qed.

(** The digits of a natural number, and of a number with its sign. *)
Lemma pretty_N_digits x :
  (x < 10 ^ 4300)%N ->
  exists c ds, list_of_string (pretty x) = c :: ds /\ digits (c :: ds) /\
    (length (c :: ds) <= max_str_digits)%nat /\
    int_digits 0 false (c :: ds) = Some (Z.of_N x).
Proof.
  intros Hx. unfold pretty, pretty_N. destruct (decide (x = 0)%N) as [->|Hn].
  { exists "0"%char, []. split_and!; [done|by repeat constructor|by apply Nat.leb_le|done]. }
  destruct (pretty_digits x) as (ds & Hds & Hne & Hstr & Hint & Hlen).
  specialize (Hlen 4300%nat Hx). clear Hx.
  assert (Hd : ds <> []) by (apply Hne; lia). destruct ds as [|c ds]; [done|].
  exists c, ds. split_and!; [rewrite Hstr; apply app_nil_r|done|exact Hlen|].
  rewrite <- (app_nil_r (c :: ds)), Hint. done.
Qed.

(** Every printed number is solid. *)
Lemma pretty_solid (z : Z) : solid (list_of_string (pretty z)).
Proof.
  assert (HN : forall x : N, solid (list_of_string (pretty x))).
  { intros x. unfold pretty, pretty_N. destruct (decide (x = 0)%N); [by repeat constructor|].
    destruct (pretty_digits x) as (ds & Hds & _ & Hstr & _). rewrite Hstr, app_nil_r.
    by apply digits_solid. }
  destruct z as [|p|p]; [by repeat constructor|exact (HN (N.pos p))|].
  change (pretty (Z.neg p)) with (String "-" (pretty (N.pos p))). cbn [list_of_string].
  constructor; [done|exact (HN (N.pos p))].
Qed.

Definition printable_int (z : Z) : Prop := (Z.abs z < 10 ^ 4300)%Z.

Lemma is_digit_not_sign c : is_digit c = true -> c <> "-"%char /\ c <> "+"%char.
Proof. intros H. split; by intros ->. Qed.

(** [int()] reads what [str()] writes. *)
Lemma int_of_pretty z : printable_int z -> int_of_str (pretty z) = Some z.
Proof.
  intros Hz. unfold int_of_str.
  assert (Hx : (Z.abs_N z < 10 ^ 4300)%N).
  { apply N2Z.inj_lt. rewrite N2Z.inj_abs_N, N2Z.inj_pow. exact Hz. }
  clear Hz.
  destruct (pretty_N_digits _ Hx) as (c & ds & Hstr & Hds & Hlen & Hint).
  assert (Hc : is_digit c = true) by by inversion Hds.
  destruct (is_digit_not_sign c Hc) as [Hm Hp].
  assert (Hrest : forall neg : bool,
    (if is_digit c && (List.length (List.filter is_digit (c :: ds)) <=? max_str_digits)%nat
     then (fun z => if neg then (- z)%Z else z) <$> int_digits 0 false (c :: ds) else None)
    = Some (if neg then (- Z.of_N (Z.abs_N z))%Z else Z.of_N (Z.abs_N z))).
  { intros neg. rewrite filter_digits by done. rewrite Hc, Hint.
    replace (_ <=? _)%nat with true by (symmetry; by apply Nat.leb_le). done. }
  destruct z as [|p|p].
  - by vm_compute.
  - change (pretty (Z.pos p)) with (pretty (N.pos p)). cbn [Z.abs_N] in *.
    rewrite strip_solid by (rewrite Hstr; by apply digits_solid). rewrite Hstr.
    specialize (Hrest false). cbn [Z.of_N] in Hrest. rewrite <- Hrest.
    repeat (destruct c as [[] [] [] [] [] [] [] []]; try done).
  - assert (Hneg : list_of_string (pretty (Z.neg p)) = "-"%char :: c :: ds).
    { change (pretty (Z.neg p)) with (String "-" (pretty (N.pos p))). cbn [list_of_string].
      f_equal. exact Hstr. }
    rewrite strip_solid by (rewrite Hneg; constructor; [done|by apply digits_solid]).
    rewrite Hneg. exact (Hrest true).
Qed.
