(* ===== verification/PsqlTheorems.v ===== *)
(** * Reading back what [psql] prints

    [psql -t -A -F'|'] prints a row as its columns separated by bars, a null as nothing, a
    timestamp in the ISO format without trailing zeros.  [snapshot] reads such a row back,
    but for the error message, whose end is stripped and which is cut at its first bar. *)

From stdpp Require Import pretty.
From S2P Require Import Prelude PyStr PyUuid Json JsonFacts PyText TextFacts Dtos Models.
From S2P Require Import Tool Bench LocalJobs PollTheorems.

(** ** Timestamps *)

Definition digit (d : Z) : ascii := chr (48 + Z.to_N d).

Fixpoint fixed (k : nat) (n : Z) : list ascii :=
  match k with
  | O => []
  | S k => digit (n / 10 ^ Z.of_nat k) :: fixed k (n mod 10 ^ Z.of_nat k)
  end.

(** A fraction of [k] digits without its trailing zeros. *)
Fixpoint trimmed (k : nat) (n : Z) : list ascii :=
  match k with
  | O => []
  | S k =>
      if (n =? 0)%Z then []
      else digit (n / 10 ^ Z.of_nat k) :: trimmed k (n mod 10 ^ Z.of_nat k)
  end.

Definition pg_timestamp_chars (d : Datetime.t) : list ascii :=
  let '(Datetime.Make y mo d h mi s us) := d in
  (fixed 4 y ++ "-"%char :: fixed 2 mo ++ "-"%char :: fixed 2 d ++ " "%char ::
   fixed 2 h ++ ":"%char :: fixed 2 mi ++ ":"%char :: fixed 2 s ++
   (if (us =? 0)%Z then [] else "."%char :: trimmed 6 us))%list.

Definition pg_timestamp (d : Datetime.t) : string := string_of_list (pg_timestamp_chars d).

Lemma digit_range d : (0 <= d < 10)%Z ->
  is_digit (digit d) = true /\ digit_value (digit d) = Some d.
Proof.
  intros H. assert (d = 0 \/ d = 1 \/ d = 2 \/ d = 3 \/ d = 4 \/ d = 5 \/ d = 6 \/ d = 7 \/ d = 8
    \/ d = 9)%Z as Hd by lia.
  repeat (destruct Hd as [->|Hd]; [by vm_compute|]). subst. by vm_compute.
Qed.

Lemma leading_digit k n :
  (0 <= n < 10 ^ Z.of_nat (S k))%Z ->
  (0 <= n / 10 ^ Z.of_nat k < 10)%Z /\ (0 <= n mod 10 ^ Z.of_nat k < 10 ^ Z.of_nat k)%Z /\
  (n = 10 ^ Z.of_nat k * (n / 10 ^ Z.of_nat k) + n mod 10 ^ Z.of_nat k)%Z.
Proof.
  rewrite Nat2Z.inj_succ, Z.pow_succ_r by lia. intros H.
  assert (Hp : (0 < 10 ^ Z.of_nat k)%Z) by (apply Z.pow_pos_nonneg; lia).
  split_and!.
  - apply Z.div_pos; lia.
  - apply Z.div_lt_upper_bound; lia.
  - by apply Z.mod_pos_bound.
  - by apply Z.mod_pos_bound.
  - apply Z.div_mod. lia.
Qed.

Lemma fixed_digits k n : (0 <= n < 10 ^ Z.of_nat k)%Z -> digits (fixed k n).
Proof.
  revert n. induction k as [|k IH]; intros n H; cbn [fixed]; [constructor|].
  destruct (leading_digit k n H) as (H1 & H2 & _). constructor; [by apply digit_range|by apply IH].
Qed.

Lemma trimmed_digits k n : (0 <= n < 10 ^ Z.of_nat k)%Z -> digits (trimmed k n).
Proof.
  revert n. induction k as [|k IH]; intros n H; cbn [trimmed]; [constructor|].
  destruct (n =? 0)%Z; [constructor|].
  destruct (leading_digit k n H) as (H1 & H2 & _). constructor; [by apply digit_range|by apply IH].
Qed.

Lemma take_digits_fixed k n acc l :
  (0 <= n < 10 ^ Z.of_nat k)%Z ->
  take_digits k acc (fixed k n ++ l) = Some (acc * 10 ^ Z.of_nat k + n, l)%Z.
Proof.
  revert n acc. induction k as [|k IH]; intros n acc H.
  - cbn in *. f_equal. f_equal. lia.
  - destruct (leading_digit k n H) as (H1 & H2 & H3). cbn [fixed take_digits app].
    destruct (digit_range _ H1) as [_ ->]. cbn [mbind option_bind]. rewrite IH by done.
    f_equal. f_equal. rewrite Nat2Z.inj_succ, Z.pow_succ_r by lia. lia.
Qed.

Lemma fraction_trimmed k n acc :
  (0 <= n < 10 ^ Z.of_nat k)%Z ->
  fraction k acc (trimmed k n) = Some (acc * 10 ^ Z.of_nat k + n)%Z.
Proof.
  revert n acc. induction k as [|k IH]; intros n acc H.
  - cbn in *. f_equal. lia.
  - cbn [trimmed]. destruct (Z.eqb_spec n 0) as [->|Hn]; [cbn [fraction]; f_equal; lia|].
    destruct (leading_digit k n H) as (H1 & H2 & H3). cbn [fraction].
    destruct (digit_range _ H1) as [_ ->]. cbn [mbind option_bind]. rewrite IH by done.
    f_equal. rewrite Nat2Z.inj_succ, Z.pow_succ_r by lia. lia.
Qed.

(** The ranges of the fields. *)
Lemma valid_ranges y mo d h mi s us :
  valid_datetime (Datetime.Make y mo d h mi s us) = true ->
  (0 <= y < 10 ^ 4 /\ 0 <= mo < 10 ^ 2 /\ 0 <= d < 10 ^ 2 /\ 0 <= h < 10 ^ 2 /\
   0 <= mi < 10 ^ 2 /\ 0 <= s < 10 ^ 2 /\ 0 <= us < 10 ^ 6)%Z.
Proof.
  cbn [valid_datetime]. rewrite !andb_true_iff, !Z.leb_le. intros H.
  assert (days_in_month y mo <= 31)%Z; [|lia]. unfold days_in_month.
  destruct (mo =? 2)%Z; [destruct (leap y); lia|]. destruct (_ || _); lia.
Qed.

Lemma scan_pg_timestamp d :
  valid_datetime d = true -> scan_datetime (pg_timestamp_chars d) = Some d.
Proof.
  destruct d as [y mo d h mi s us]. intros Hv. apply valid_ranges in Hv as (Hy & Hmo & Hd & Hh & Hmi & Hs & Hus).
  unfold scan_datetime, pg_timestamp_chars.
  rewrite (take_digits_fixed 4 y 0) by done. cbn [mbind option_bind expect].
  rewrite bool_decide_eq_true_2 by done. cbn [mbind option_bind].
  rewrite (take_digits_fixed 2 mo 0) by done. cbn [mbind option_bind expect].
  rewrite bool_decide_eq_true_2 by done. cbn [mbind option_bind].
  rewrite (take_digits_fixed 2 d 0) by done. cbn [mbind option_bind].
  rewrite (take_digits_fixed 2 h 0) by done. cbn [mbind option_bind expect].
  rewrite bool_decide_eq_true_2 by done. cbn [mbind option_bind].
  rewrite (take_digits_fixed 2 mi 0) by done. cbn [mbind option_bind expect].
  rewrite bool_decide_eq_true_2 by done. cbn [mbind option_bind].
  rewrite (take_digits_fixed 2 s 0) by done. cbn [mbind option_bind].
  destruct (Z.eqb_spec us 0) as [->|Hn]; [by rewrite !Z.add_0_l|].
  rewrite bool_decide_eq_true_2 by done. cbn [orb].
  pose proof (fraction_trimmed 6 us 0 Hus) as Hf.
  destruct (trimmed 6 us) as [|c l] eqn:E.
  { cbn [trimmed] in E. by rewrite (proj2 (Z.eqb_neq us 0) Hn) in E. }
  rewrite Hf. cbn [fmap option_fmap option_map]. by rewrite !Z.add_0_l.
Qed.

Lemma fromisoformat_pg others d :
  valid_datetime d = true -> fromisoformat others (pg_timestamp d) = Some d.
Proof.
  intros H. unfold fromisoformat, pg_timestamp. rewrite list_of_string_of_list.
  by rewrite scan_pg_timestamp, H.
Qed.

(** ** Rows *)

(** The columns of the query, as the database holds them. *)
Record job_row : Type := JobRow {
  r_id : uuid; r_status : JobStatus; r_attempts : Z; r_max_attempts : Z;
  r_queued_at : option Datetime.t; r_started_at : option Datetime.t;
  r_completed_at : option Datetime.t; r_failed_at : option Datetime.t;
  r_error_message : option string
}.

Definition label (s : JobStatus) : string :=
  match s with
  | QUEUED => "QUEUED" | STARTED => "STARTED" | COMPLETED => "COMPLETED" | FAILED => "FAILED"
  end.

Definition timestamp_chars (d : option Datetime.t) : list ascii :=
  match d with Some d => pg_timestamp_chars d | None => [] end.

Definition leading_fields (r : job_row) : list (list ascii) := [
  uuid_chars (r_id r); list_of_string (label (r_status r));
  list_of_string (pretty (r_attempts r)); list_of_string (pretty (r_max_attempts r));
  timestamp_chars (r_queued_at r); timestamp_chars (r_started_at r);
  timestamp_chars (r_completed_at r); timestamp_chars (r_failed_at r)
].

Definition bar : ascii := "|"%char.

(** Every field but the last has a bar after it. *)
Definition barred (fields : list (list ascii)) : list ascii :=
  concat (map (fun f => f ++ [bar])%list fields).

Definition psql_line (r : job_row) : string :=
  string_of_list (barred (leading_fields r) ++ list_of_string (default "" (r_error_message r))).

Definition newline : string := String (chr 10) "".

Definition wf_date (d : option Datetime.t) : Prop :=
  match d with Some d => valid_datetime d = true | None => True end.

Definition wf_row (r : job_row) : Prop :=
  valid_uuid (r_id r) /\ printable_int (r_attempts r) /\ printable_int (r_max_attempts r) /\
  wf_date (r_queued_at r) /\ wf_date (r_started_at r) /\ wf_date (r_completed_at r) /\
  wf_date (r_failed_at r) /\
  is_Some (utf8_decode (list_of_string (default "" (r_error_message r)))).

(** What is left of the error message. *)
Definition shown_error (m : option string) : option string :=
  let text := before bar (rstrip (default "" m)) in
  if bool_decide (text = "") then None else Some text.

Definition read_row (r : job_row) : JobSnapshot.t :=
  JobSnapshot.Make (r_id r) (job_status_value (r_status r)) (r_attempts r) (r_max_attempts r)
    (r_queued_at r) (r_started_at r) (r_completed_at r) (r_failed_at r)
    (shown_error (r_error_message r)).

(** The characters of a field that is not the last. *)
Definition field_char (c : ascii) : bool := byte_in 0 127 c && negb (bool_decide (c = bar)).
Abbreviation field := (Forall (fun c => field_char c = true)).

Lemma field_digits l : digits l -> field l.
Proof.
  intros H. eapply Forall_impl; [|exact H]. intros c Hc. apply andb_true_iff. split.
  - eapply byte_in_weaken; [exact Hc|lia|lia].
  - apply negb_true_iff, bool_decide_eq_false_2. by intros ->.
Qed.

Lemma field_uuid u : field (uuid_chars u).
Proof. apply hex_or_dash_check; [done..|apply uuid_chars_hex]. Qed.

Lemma field_pretty z : printable_int z -> field (list_of_string (pretty z)).
Proof.
  intros Hz. assert (Hx : (Z.abs_N z < 10 ^ 4300)%N).
  { apply N2Z.inj_lt. rewrite N2Z.inj_abs_N, N2Z.inj_pow. exact Hz. }
  clear Hz. destruct (pretty_N_digits _ Hx) as (c & ds & Hstr & Hds & _). clear Hx.
  destruct z as [|p|p]; cbn [Z.abs_N] in Hstr.
  - by repeat constructor.
  - change (pretty (Z.pos p)) with (pretty (N.pos p)). rewrite Hstr. by apply field_digits.
  - change (pretty (Z.neg p)) with (String "-" (pretty (N.pos p))). cbn [list_of_string].
    rewrite Hstr. constructor; [done|by apply field_digits].
Qed.

Lemma field_timestamp d : wf_date d -> field (timestamp_chars d).
Proof.
  destruct d as [[y mo d h mi s us]|]; [|constructor]. intros Hv.
  apply valid_ranges in Hv as (Hy & Hmo & Hd & Hh & Hmi & Hs & Hus).
  assert (Hf : forall k n, (0 <= n < 10 ^ Z.of_nat k)%Z -> field (fixed k n)).
  { intros k n Hn. by apply field_digits, fixed_digits. }
  unfold timestamp_chars, pg_timestamp_chars.
  repeat (apply Forall_app; split; [by apply Hf|]; apply Forall_cons_iff; split; [done|]).
  apply Forall_app. split; [by apply Hf|]. destruct (us =? 0)%Z; [constructor|].
  apply Forall_cons_iff; split; [done|]. by apply field_digits, trimmed_digits.
Qed.

Lemma leading_fields_ok r : wf_row r -> Forall field (leading_fields r).
Proof.
  intros (_ & Ha & Hm & H1 & H2 & H3 & H4 & _).
  apply Forall_cons; [apply field_uuid|].
  apply Forall_cons; [by destruct (r_status r); repeat constructor|].
  do 2 (apply Forall_cons; [by apply field_pretty|]).
  do 4 (apply Forall_cons; [by apply field_timestamp|]). constructor.
Qed.

Lemma field_no_bar f : field f -> bar ∉ f.
Proof.
  intros H Hin. rewrite List.Forall_forall in H. apply list_elem_of_In, H in Hin. done.
Qed.

Lemma split_barred fields l :
  Forall field fields -> split_chars bar (barred fields ++ l) = (fields ++ split_chars bar l)%list.
Proof.
  induction 1 as [|f fields Hf _ IH]; [done|]. unfold barred in *. cbn [map concat].
  rewrite <- app_assoc, <- app_assoc. cbn [app]. rewrite split_chars_cons by by apply field_no_bar.
  by rewrite IH.
Qed.

Lemma barred_snoc fields f :
  barred (fields ++ [f]) = ((barred fields ++ f) ++ [bar])%list.
Proof. unfold barred. rewrite map_app, concat_app. cbn. by rewrite app_nil_r, app_assoc. Qed.

Lemma barred_ascii fields : Forall field fields -> ascii_chars (barred fields).
Proof.
  induction 1 as [|f fields Hf _ IH]; [constructor|]. apply Forall_app. split; [|exact IH].
  apply Forall_app. split; [|by repeat constructor]. eapply Forall_impl; [|exact Hf].
  intros c Hc. by apply andb_true_iff in Hc as [Hc _].
Qed.

(** The first character of a UUID is solid. *)
Lemma uuid_head u : valid_uuid u -> exists c l, uuid_chars u = c :: l /\ byte_in 33 126 c = true.
Proof.
  intros Hu. pose proof (uuid_of_str_uuid_str u Hu) as H. unfold uuid_str in H.
  assert (Hs : Forall (fun c => byte_in 33 126 c = true) (uuid_chars u)).
  { apply hex_or_dash_check; [done..|apply uuid_chars_hex]. }
  destruct (uuid_chars u) as [|c l]; [done|]. exists c, l. split; [done|]. by inversion Hs.
Qed.

(** [_run_query(sql).strip()] of a row. *)
Lemma strip_psql_line r :
  wf_row r ->
  strip (psql_line r ++ newline)
  = string_of_list (barred (leading_fields r)
                    ++ list_of_string (rstrip (default "" (r_error_message r)))).
Proof.
  intros Hw. pose proof (leading_fields_ok r Hw) as Hf. apply barred_ascii in Hf.
  destruct Hw as (Hu & _ & _ & _ & _ & _ & _ & [pe He]).
  destruct (uuid_head _ Hu) as (c0 & l0 & Ec & Hc0).
  set (e := default "" (r_error_message r)) in *.
  assert (Hpre : exists pre, barred (leading_fields r) = ((c0 :: pre) ++ [bar])%list).
  { change (leading_fields r) with (uuid_chars (r_id r) :: tail (leading_fields r)).
    change (tail (leading_fields r)) with
      (removelast (tail (leading_fields r)) ++ [timestamp_chars (r_failed_at r)])%list.
    rewrite app_comm_cons, barred_snoc, Ec. unfold barred. cbn [map concat app].
    by eexists. }
  destruct Hpre as [pre Hpre]. unfold psql_line. rewrite Hpre in Hf |- *.
  apply Forall_app in Hf as [Hf _]. apply Forall_cons_iff in Hf as [_ Hf].
  rewrite <- (strip_line c0 pre bar e pe) by done. f_equal. apply list_of_string_inj.
  rewrite list_of_string_app, !list_of_string_of_list. cbn [newline list_of_string].
  by rewrite <- app_assoc.
Qed.

(** A timestamp column, empty for a null. *)
Lemma dt_reads others d :
  wf_date d -> _dt others (string_of_list (timestamp_chars d)) = Some d.
Proof.
  destruct d as [d|]; [|done]. intros Hd. cbn [timestamp_chars wf_date] in *. unfold _dt.
  pose proof (fromisoformat_pg others d Hd) as H. unfold pg_timestamp in H.
  rewrite bool_decide_eq_false_2; [by rewrite H|].
  intros E. apply (f_equal list_of_string) in E. rewrite list_of_string_of_list in E.
  pose proof (scan_pg_timestamp d Hd) as Hs. by rewrite E in Hs.
Qed.

Lemma lower_label lower `{!StrLower lower} s : lower (label s) = job_status_value s.
Proof. rewrite lower_ascii; [by destruct s|]. by destruct s; repeat constructor. Qed.

(** The nine fields of a line. *)
Lemma parse_psql_line lower `{!StrLower lower} others r rest :
  wf_row r ->
  _parse_row lower others (string_of_list (barred (leading_fields r) ++ list_of_string rest))
  = Some (JobSnapshot.Make (r_id r) (job_status_value (r_status r)) (r_attempts r)
            (r_max_attempts r) (r_queued_at r) (r_started_at r) (r_completed_at r)
            (r_failed_at r) (_text (before bar rest))).
Proof.
  intros Hw. unfold _parse_row, split. rewrite list_of_string_of_list.
  change "|"%char with bar. rewrite split_barred by by apply leading_fields_ok.
  destruct Hw as (Hu & Ha & Hm & H1 & H2 & H3 & H4 & _).
  assert (Hlast : exists fs, map string_of_list (split_chars bar (list_of_string rest))
                             = before bar rest :: fs).
  { unfold before, split. destruct (split_chars_nonempty bar (list_of_string rest)) as (f & fs & ->).
    by eexists. }
  destruct Hlast as [fs Hlast]. rewrite map_app, Hlast. unfold leading_fields, parse_fields.
  cbn [map app lookup list_lookup]. rewrite !string_of_list_of_string.
  change (string_of_list (uuid_chars (r_id r))) with (uuid_str (r_id r)).
  cbn [fmap option_fmap option_map mbind option_bind].
  rewrite (uuid_of_str_uuid_str _ Hu). cbn [mbind option_bind].
  rewrite lower_label by done. rewrite (int_of_pretty _ Ha). cbn [mbind option_bind].
  rewrite (int_of_pretty _ Hm). cbn [mbind option_bind].
  rewrite (dt_reads others _ H1). cbn [mbind option_bind].
  rewrite (dt_reads others _ H2). cbn [mbind option_bind].
  rewrite (dt_reads others _ H3). cbn [mbind option_bind].
  by rewrite (dt_reads others _ H4).
Qed.

(** C29: [snapshot] reads back the row that [psql] prints for the job: the id, the status in
    lower case, the counters and the timestamps exactly, and of the error message what
    precedes its first bar, without white space at the end ([None] if nothing is left). *)
Theorem snapshot_reads_row {S} `{!Bench S} show_cmd lower `{!StrLower lower} others job_id r err
    (s s' : S) :
  wf_row r ->
  run_command (query_command (snapshot_sql job_id)) s
    = (Ok (Completed 0 (psql_line r ++ newline) err), s') ->
  snapshot show_cmd lower others job_id s = (Ok (read_row r), s').
Proof.
  intros Hw Hrun. unfold snapshot, _run_query, _run, mbind, tool_bind. rewrite Hrun.
  cbn [returncode stdout Z.eqb]. unfold mret at 1, tool_ret. rewrite (strip_psql_line r Hw).
  pose proof (parse_psql_line lower others r (rstrip (default "" (r_error_message r))) Hw) as Hp.
  rewrite bool_decide_eq_false_2; [by rewrite Hp|].
  intros E. by rewrite E in Hp.
Qed.

Definition demo_row : job_row :=
  JobRow 7 FAILED 3 3 (Some (Datetime.Make 2026 5 13 8 41 37 310000)) None None
    (Some (Datetime.Make 2026 5 13 8 42 0 0)) (Some "no space | on device  ").

#[export] Instance lower_demo_ascii : StrLower lower_demo.
Proof. done. Qed.

Definition printing : desk := Desk 0 [] [] [] [Completed 0 (psql_line demo_row ++ newline) ""] [].

Lemma snapshot_reads_row_witness :
  JobSnapshot.error_message (read_row demo_row) = Some "no space " /\
  snapshot (fun _ => "") lower_demo demo_others 7 printing
  = (Ok (read_row demo_row), (run_command (query_command (snapshot_sql 7)) printing).2).
Proof.
  split; [by vm_compute|].
  apply (snapshot_reads_row (fun _ => "") lower_demo demo_others 7 demo_row "" printing).
  - repeat split; try by vm_compute. by eexists.
  - reflexivity.
Defined.
