(* ===== verification/ScenarioTheorems.v ===== *)
(** * Theorems about the scenarios and their fixtures *)

From stdpp Require Import pretty.
From S2P Require Import Prelude PyStr PyUuid PyText Json Tool Bench.
From S2P Require Import LocalClient LocalJobs LocalDocker LocalScenarios PollTheorems.

(** ** The slow PDF *)

(** Open documents and stored files, by their numbers of pages. *)
Class PdfView (S : Type) : Type := {
  docs : S -> gmap N Z;
  stored : S -> gmap string Z
}.

(** A call that succeeds as [P] says, or fails without touching files. *)
Definition pdf_call {S} `{!PdfView S} {A} (m : tool terr S A) (P : S -> A -> S -> Prop) : Prop :=
  forall s, match m s with
    | (Ok a, s') => P s a s'
    | (Exn _, s') => stored s' = stored s
    end.

Class PdfLaws (S : Type) `{!PdfFiles S, !PdfView S} : Prop := {
  law_exists p : pdf_call (file_exists p) (fun s b s' =>
    docs s' = docs s /\ stored s' = stored s /\ (b = true <-> is_Some (stored s !! p)));
  law_make_dirs p : pdf_call (make_dirs p) (fun s _ s' =>
    docs s' = docs s /\ stored s' = stored s);
  law_open p : pdf_call (pdf_open p) (fun s h s' =>
    docs s !! h = None /\ stored s' = stored s /\
    exists n, docs s' = <[h := n]> (docs s) /\
      match p with Some path => stored s !! path = Some n | None => n = 0%Z end);
  law_count h : pdf_call (page_count h) (fun s n s' =>
    docs s' = docs s /\ stored s' = stored s /\ docs s !! h = Some n);
  law_insert out src : pdf_call (insert_pdf out src) (fun s _ s' =>
    stored s' = stored s /\ forall a b, docs s !! out = Some a -> docs s !! src = Some b ->
      docs s' = <[out := (a + b)%Z]> (docs s));
  law_save h p : pdf_call (save h p) (fun s _ s' =>
    docs s' = docs s /\ forall n, docs s !! h = Some n -> stored s' = <[p := n]> (stored s));
  law_close h : pdf_call (close h) (fun s _ s' => stored s' = stored s)
}.

Section fixtures.
Context {S} `{!PdfFiles S, !PdfView S, !PdfLaws S}.

Lemma ends_pdf {A} (m : tool terr S A) P Q s :
  pdf_call m P -> (forall a s', P s a s' -> Q (Ok a) s') ->
  (forall x s', stored s' = stored s -> Q (Exn x) s') -> ends m Q s.
Proof.
  intros H Hg Hb. specialize (H s). unfold ends. destruct (m s) as [[a|x] s']; cbn; auto.
Qed.

(** The loop adds the source until there are enough pages; it never overshoots by a whole
    source, and never ends with an empty one. *)
Lemma fill_pages_ends fuel out src a n s :
  out <> src -> docs s !! out = Some a -> docs s !! src = Some n -> (0 <= n)%Z ->
  ends (fill_pages fuel out src) (fun r s' =>
    stored s' = stored s /\
    match r with
    | Ok true => exists m, docs s' !! out = Some m /\ (SLOW_PDF_MIN_PAGES <= m)%Z /\
                   (SLOW_PDF_MIN_PAGES <= a -> m = a)%Z /\
                   (a < SLOW_PDF_MIN_PAGES -> m < SLOW_PDF_MIN_PAGES + n)%Z
    | Ok false => (0 < n -> Z.of_nat fuel <= Z.max 0 (SLOW_PDF_MIN_PAGES - a))%Z
    | Exn _ => True
    end) s.
Proof.
  intros Hne. revert a s. induction fuel as [|fuel IH]; intros a s Ho Hs Hn; cbn [fill_pages].
  { tool_step. split; [done|]. lia. }
  tool_step. eapply ends_pdf; [apply law_count| |by intros x s1 H].
  intros m s1 (Ed & Es & Hm). assert (m = a) as -> by congruence.
  destruct (Z.ltb_spec a SLOW_PDF_MIN_PAGES) as [Hlt|Hge].
  2: { tool_step. split; [done|]. exists a. rewrite Ed. split_and!; [done|done|done|lia]. }
  tool_step. eapply ends_pdf; [apply law_insert| |intros x s2 H; split; [congruence|done]].
  intros [] s2 (Es2 & Hd2). rewrite Ed in Hd2. specialize (Hd2 a n Ho Hs).
  assert (Ho2 : docs s2 !! out = Some (a + n)%Z) by (rewrite Hd2; apply lookup_insert_eq).
  assert (Hs2 : docs s2 !! src = Some n) by (rewrite Hd2; by rewrite lookup_insert_ne).
  eapply ends_mono; [|exact (IH _ _ Ho2 Hs2 Hn)]. intros r s3 [Es3 Hr].
  split; [congruence|]. destruct r as [[]|x]; [| |done].
  - destruct Hr as (m & Hm3 & Hmin & Hstop & Hover). exists m. split_and!; [done|done|lia|].
    intros _. destruct (Z.lt_ge_cases (a + n) SLOW_PDF_MIN_PAGES); [by apply Hover|].
    rewrite Hstop by done. lia.
  - intros Hp. specialize (Hr Hp). lia.
Qed.

Lemma close_both out src Q s :
  (forall r s', stored s' = stored s -> Q r s') -> ends (close out;; close src) Q s.
Proof.
  intros HQ. tool_step. eapply ends_pdf; [apply law_close| |auto].
  intros [] s1 E1. eapply ends_pdf; [apply law_close| |]; intros; apply HQ; congruence.
Qed.

(** From a source of [n] pages, [slow_pdf] returns the path of a file of at least 30 pages
    and, if it had to make it, of fewer than 30 + [n]; with more than 30 rounds it does not
    run out of them unless the source is empty, and then it never makes a file. *)
Theorem slow_pdf_pages fuel dest_dir source n (s : S) :
  let path := (dest_dir ++ "/slow.pdf")%string in
  stored s !! source = Some n -> stored s !! path = None -> (0 <= n)%Z -> (30 < fuel)%nat ->
  ends (slow_pdf fuel dest_dir source) (fun r (s' : S) =>
    match r with
    | Ok (Some p) => p = path /\ exists m, stored s' = <[path := m]> (stored s) /\
                       (30 <= m < 30 + n)%Z
    | Ok None => n = 0%Z /\ stored s' = stored s
    | Exn _ => True
    end) s.
Proof.
  intros path Hsrc Hnew Hn Hfuel. unfold slow_pdf. fold path.
  tool_step. eapply ends_pdf; [apply law_exists| |done].
  intros b s1 (Ed1 & Es1 & Hb). destruct b.
  { destruct (proj1 Hb eq_refl) as [m Hm]. congruence. }
  tool_step. eapply ends_pdf; [apply law_make_dirs| |done]. intros [] s2 (Ed2 & Es2).
  tool_step. eapply ends_pdf; [apply law_open| |done].
  intros src s3 (Hf3 & Es3 & n3 & Ed3 & Hn3). assert (n3 = n) as -> by congruence.
  tool_step. eapply ends_pdf; [apply law_open| |done].
  intros out s4 (Hf4 & Es4 & n4 & Ed4 & ->).
  assert (Hne : out <> src).
  { intros ->. rewrite Ed3 in Hf4. by rewrite lookup_insert_eq in Hf4. }
  assert (Hs4 : docs s4 !! src = Some n).
  { rewrite Ed4, lookup_insert_ne, Ed3 by done. apply lookup_insert_eq. }
  assert (Ho4 : docs s4 !! out = Some 0%Z) by (rewrite Ed4; apply lookup_insert_eq).
  assert (E4 : stored s4 = stored s) by congruence.
  tool_step. tool_step. tool_step.
  eapply ends_mono; [|exact (fill_pages_ends fuel out src 0 n s4 Hne Ho4 Hs4 Hn)].
  intros r s5 [E5 Hr]. destruct r as [[]|x].
  - destruct Hr as (m & Hm & Hmin & _ & Hover). unfold SLOW_PDF_MIN_PAGES in *.
    tool_step. eapply ends_pdf; [apply law_save| |].
    + intros [] s6 (_ & Es6). tool_step. apply close_both. intros [[]|x] s7 E7; [|done].
      tool_step. split; [done|]. exists m. split; [|lia]. rewrite E7, (Es6 m Hm). congruence.
    + intros x s6 _. apply close_both. by intros [[]|] s7 _.
  - tool_step. apply close_both. intros [[]|x] s6 E6; [|done]. tool_step.
    unfold SLOW_PDF_MIN_PAGES in *. split; [|congruence]. lia.
  - apply close_both. by intros [[]|] s6 _.
Qed.
End fixtures.

(** ** Programs that only add commands *)

Section grows.
Context {T : Type} (cmds : T -> list (list string)).

Definition grows {A} (m : tool terr T A) : Prop :=
  forall t, exists cs, cmds (m t).2 = (cmds t ++ cs)%list.

Lemma grows_same {A} (m : tool terr T A) : (forall t, cmds (m t).2 = cmds t) -> grows m.
Proof. intros H t. exists []. by rewrite app_nil_r. Qed.

Lemma grows_ret {A} (a : A) : grows (mret a).
Proof. by apply grows_same. Qed.

Lemma grows_raise {A} x : grows (raise x : tool terr T A).
Proof. by apply grows_same. Qed.

Lemma grows_unless {A} (o : option A) x : grows (unless o x).
Proof. destruct o; [apply grows_ret|apply grows_raise]. Qed.

Lemma grows_bind {A B} (m : tool terr T A) (f : A -> tool terr T B) :
  grows m -> (forall a, grows (f a)) -> grows (m ≫= f).
Proof.
  intros Hm Hf t. unfold mbind, tool_bind. destruct (Hm t) as [cs Hcs].
  destruct (m t) as [[a|x] t1]; cbn in Hcs; [|by exists cs].
  destruct (Hf a t1) as [cs' Hcs']. exists (cs ++ cs')%list. by rewrite Hcs', Hcs, app_assoc.
Qed.

Lemma grows_except {A} (m : tool terr T A) h :
  grows m -> (forall x k, h x = Some k -> grows k) -> grows (try_except m h).
Proof.
  intros Hm Hh t. unfold try_except. destruct (Hm t) as [cs Hcs].
  destruct (m t) as [[a|x] t1]; cbn in Hcs; [by exists cs|].
  destruct (h x) as [k|] eqn:E; [|by exists cs].
  destruct (Hh x k E t1) as [cs' Hcs']. exists (cs ++ cs')%list. by rewrite Hcs', Hcs, app_assoc.
Qed.

Lemma grows_finally {A} (m : tool terr T A) f : grows m -> grows f -> grows (try_finally m f).
Proof.
  intros Hm Hf t. unfold try_finally. destruct (Hm t) as [cs Hcs].
  destruct (m t) as [r t1]. cbn in Hcs. destruct (Hf t1) as [cs' Hcs'].
  exists (cs ++ cs')%list. destruct (f t1) as [[]  t2]; cbn in *; by rewrite Hcs', Hcs, app_assoc.
Qed.
End grows.

(** PyMuPDF starts no commands. *)
Class PdfQuiet (S : Type) `{!PdfFiles S, !BenchView S} : Prop := {
  quiet_exists p s : commands (file_exists p s).2 = commands s;
  quiet_make_dirs p s : commands (make_dirs p s).2 = commands s;
  quiet_open p s : commands (pdf_open p s).2 = commands s;
  quiet_count h s : commands (page_count h s).2 = commands s;
  quiet_insert out src s : commands (insert_pdf out src s).2 = commands s;
  quiet_save h p s : commands (save h p s).2 = commands s;
  quiet_close h s : commands (close h s).2 = commands s
}.

(** ** The scenario that kills a worker *)

Section kill.
Context {S} `{!Bench S, !BenchView S, !BenchLaws S, !PdfFiles S, !PdfQuiet S}
  {here : Checkout}.
Context (raise_for_status : response -> option terr) (limit : nat).
Context (show_cmd : list string -> string) (show_snapshot : JobSnapshot.t -> string).
Context (lower : string -> string) (others : string -> option Datetime.t).
Context (truncate : string -> option Z) (repr : json -> string) (fuel : nat).

Lemma grows_behaves {A} (m : tool terr S A) qs cs P : behaves m qs cs P -> grows commands m.
Proof.
  intros H s. specialize (H s). destruct (m s) as [r s']. destruct H as (_ & _ & Hc & _).
  by exists cs.
Qed.

Lemma grows_lift {A} (m : tool terr S A) :
  grows commands m -> grows (fun rs : Report.t * S => commands rs.2) (lift m).
Proof.
  intros H [rp s]. destruct (H s) as [cs Hcs]. exists cs. unfold lift. cbn.
  by destruct (m s) as [r s'].
Qed.

Lemma grows_modify f : grows (fun rs : Report.t * S => commands rs.2) (modify f).
Proof. by apply grows_same. Qed.

Lemma grows_result {A} (r : result terr A) : grows (commands (S := S)) (of_result r).
Proof. by apply grows_same. Qed.

(** Descend into a program, down to its operations. *)
Ltac growing :=
  repeat first
    [ eapply grows_behaves; first [apply law_monotonic | apply law_sleep | apply law_now
        | apply law_send | apply law_read_bytes | apply run_behaves | apply snapshot_behaves]
    | apply grows_same; first [apply quiet_exists | apply quiet_make_dirs | apply quiet_open
        | apply quiet_count | apply quiet_insert | apply quiet_save | apply quiet_close]
    | apply grows_modify | apply grows_result | apply grows_ret | apply grows_raise | apply grows_unless
    | apply grows_bind; [|intros ?] | apply grows_finally | apply grows_lift
    | assumption | match goal with |- grows _ (match ?x with _ => _ end) => destruct x end
    | match goal with |- grows _ (let _ := _ in _) => cbn zeta end ].

Lemma grows_fill n out src : grows commands (fill_pages (S := S) n out src).
Proof. induction n as [|n IH]; cbn [fill_pages]; growing. Qed.

Lemma grows_wait_loop n job_id status deadline interval snap :
  grows commands (wait_loop (S := S) show_cmd lower others n job_id status deadline interval snap).
Proof. revert snap. induction n as [|n IH]; intros snap; cbn [wait_loop]; growing. apply IH. Qed.

Lemma grows_watch_loop n job_id deadline interval seen :
  grows commands (watch_loop (S := S) show_cmd lower others n job_id deadline interval seen).
Proof. revert seen. induction n as [|n IH]; intros seen; cbn [watch_loop]; growing. apply IH. Qed.

Lemma grows_find_queue queue name rows :
  grows commands (find_queue (S := S) truncate queue name rows).
Proof. induction rows as [|row rows IH]; cbn [find_queue]; unfold item, int_item; growing. Qed.

Lemma grows_history history :
  grows (fun rs : Report.t * S => commands rs.2) (record_history history).
Proof.
  induction history as [|snap history IH]; cbn [record_history]; unfold record; growing.
Qed.

Abbreviation inject_ := (inject raise_for_status limit show_cmd show_snapshot lower others truncate
  fuel).

Lemma grows_inject client : grows (fun rs : Report.t * S => commands rs.2) (inject_ client).
Proof.
  unfold inject, record, set_summary, submit_document, slow_pdf, upload, start_processing,
    check_status, response_json, item, uuid_arg, wait_for_status, _find_claiming_worker,
    worker_containers, logs, kill, run_, watch, queue_depth, _list_queues, loads_out, rows_of.
  growing; try apply grows_fill; try apply grows_wait_loop; try apply grows_watch_loop;
    try apply grows_find_queue; try apply grows_history.
Qed.

(** ** How it ends *)

(** The number of replicas in the answer of the config command. *)
Definition configured (out : string) : option Z :=
  match loads_text limit (list_of_string out) with
  | DVal data _ =>
      services ← get_item "services" data;
      worker ← get_item "worker" services;
      deploy ← get_item "deploy" worker;
      v ← get_item "replicas" deploy;
      int_of_json truncate v
  | _ => None
  end.

(** What [restore] does: it asks for the configuration, and scales to the number that is in
    the answer.  It fails only if a command fails or there is no number. *)
Definition restored (s : S) (r : result terr unit) (s' : S) : Prop :=
  exists answer s1, _run show_cmd config_command s = (answer, s1) /\
    commands s1 = (commands s ++ [config_command])%list /\
    match answer with
    | Ok out =>
        match configured out with
        | Some n => exists o, _run show_cmd (scale_command n) s1 = (o, s') /\
            commands s' = (commands s1 ++ [scale_command n])%list /\ is_ok r = is_ok o
        | None => s' = s1 /\ is_ok r = false
        end
    | Exn x => s' = s1 /\ r = Exn x
    end.

Lemma configured_replicas_reads out s :
  exists r, (data ← loads_out limit out;
             services ← item "services" data;
             worker ← item "worker" services;
             deploy ← item "deploy" worker;
             int_item truncate "replicas" deploy : tool terr S Z) s = (r, s) /\
    match r with Ok n => configured out = Some n | Exn _ => configured out = None end.
Proof.
  unfold loads_out, configured, int_item, item, unless, mbind, tool_bind, mret, tool_ret, raise.
  destruct (loads_text _ _) as [data rest| | |]; [|by eexists..].
  destruct (get_item "services" data) as [services|]; [|by eexists]. cbn.
  destruct (get_item "worker" services) as [worker|]; [|by eexists]. cbn.
  destruct (get_item "deploy" worker) as [deploy|]; [|by eexists]. cbn.
  destruct (get_item "replicas" deploy) as [v|]; [|by eexists]. cbn.
  destruct (int_of_json truncate v); by eexists.
Qed.

Lemma run_adds cmd s : commands (_run show_cmd cmd s).2 = (commands s ++ [cmd])%list.
Proof.
  pose proof (run_behaves show_cmd cmd s) as H. destruct (_run _ _ _). by destruct H as (_&_&?&_).
Qed.

Lemma restore_commands s : ends (restore limit show_cmd truncate) (restored s) s.
Proof.
  unfold restore, configured_worker_replicas, scale_workers, run_.
  pose proof (run_adds config_command s) as Hc. tool_step. tool_step. unfold ends at 1.
  destruct (_run show_cmd config_command s) as [[out|x] s1] eqn:E; cbn [fst snd] in *.
  2: { by exists (Exn x), s1. }
  destruct (configured_replicas_reads out s1) as (r & Hr & Hn). unfold ends at 1. rewrite Hr.
  destruct r as [n|x]; cbn [fst snd].
  - pose proof (run_adds (scale_command n) s1) as Hs. tool_step. unfold ends at 1.
    destruct (_run show_cmd (scale_command n) s1) as [o s2] eqn:E2; cbn [fst snd] in *.
    assert (Hd : forall r : result terr unit, is_ok r = is_ok o -> restored s r s2).
    { intros r Ho. exists (Ok out), s1. split_and!; [done..|]. rewrite Hn. by exists o. }
    destruct o; by apply Hd.
  - exists (Ok out), s1. split_and!; [done..|]. by rewrite Hn.
Qed.

Definition summarised (r : Report.t) : Prop :=
  exists text, Report.summary r = ("final_status=" ++ text)%string \/
               Report.summary r = ("scenario raised before completing: " ++ text)%string.

Lemma record_reads event detail (Q : result terr unit -> Report.t * S -> Prop) rs :
  (forall rs', Q (Ok tt) rs') -> ends (record event detail) Q rs.
Proof.
  intros HQ. unfold record, ends, lift, modify, mbind, tool_bind.
  destruct (law_now_reads rs.2) as [t Ht]. destruct (now rs.2) as [r s'] eqn:E. cbn in Ht. subst.
  apply HQ.
Qed.

(** A scenario that gets to its end has a summary. *)
Lemma inject_summarised client rs :
  ends (inject_ client) (fun r rs' =>
    match r with Ok (Some _) => summarised rs'.1 | _ => True end) rs.
Proof.
  unfold inject. do 2 (apply ends_skip; [done|]; intros). case_match; [|by tool_step].
  do 6 (apply ends_skip; [done|]; intros). case_match; [|by tool_step].
  do 6 (apply ends_skip; [done|]; intros). case_match; [|by tool_step].
  do 3 (apply ends_skip; [done|]; intros). tool_step. unfold set_summary, ends, modify. cbn.
  eexists. left. reflexivity.
Qed.

Abbreviation attempted_ := (attempted raise_for_status limit show_cmd show_snapshot lower others
  truncate repr fuel).

Lemma body_summarised client rs :
  ends (attempted_ client)
    (fun r rs' => exists finished, r = Ok finished /\
       match finished with Some _ => summarised rs'.1 | None => True end) rs.
Proof.
  unfold attempted. tool_step. eapply ends_mono; [|apply inject_summarised].
  intros [finished|x] rs1 H.
  - by exists finished.
  - tool_step. apply record_reads. intros rs2. unfold set_summary, ends, modify. cbn.
    exists (Some tt). split; [done|]. eexists. right. reflexivity.
Qed.

Lemma grows_attempted client : grows (fun rs : Report.t * S => commands rs.2) (attempted_ client).
Proof.
  apply grows_except; [apply grows_inject|]. intros x k [= <-].
  unfold record, set_summary. growing.
Qed.

(** C28: whatever fails in the scenario, the workers are restored after every command it has
    given: it asks for the configuration and scales to the number of replicas in the answer.
    It raises only if one of these two commands fails or the answer has no number; otherwise
    it returns the report of what it attempted, which ends in a summary, of the observations
    or of the exception. *)
Theorem worker_kill_restores client s :
  ends (run raise_for_status limit show_cmd show_snapshot lower others truncate repr fuel client)
    (fun r s' => exists finished report s1,
       attempted_ client (Report.Make "worker-kill" [] "", s) = (Ok finished, (report, s1)) /\
       (exists cs, commands s1 = (commands s ++ cs)%list) /\
       match r with
       | Ok o => restored s1 (Ok tt) s' /\ o = const report <$> finished /\
                 (is_Some o -> summarised report)
       | Exn x => restored s1 (Exn x) s'
       end) s.
Proof.
  unfold run, ends, reported, try_finally. set (rs := (Report.Make "worker-kill" [] "", s)).
  pose proof (body_summarised client rs) as Hb. unfold ends in Hb.
  destruct (grows_attempted client rs) as [cs Hcs].
  destruct (attempted_ client rs) as [r [rp s1]]. cbn [fst snd] in Hb, Hcs.
  destruct Hb as (finished & -> & Hsum).
  pose proof (restore_commands s1) as Hr. unfold ends in Hr. unfold lift. cbn [fst snd].
  destruct (restore limit show_cmd truncate s1) as [[[]|x] s2]; cbn [fst snd] in *;
    exists finished, rp, s1; (split; [done|]); (split; [by exists cs|]); [|exact Hr].
  split; [exact Hr|]. split; [done|]. destruct finished; [done|]. by intros [? ?].
Qed.
End kill.

(** ** Examples *)

#[local] Existing Instance repository_root.

(** Documents and files in memory. *)
Record shelf : Type := Shelf { sh_docs : gmap N Z; sh_stored : gmap string Z }.

#[export] Instance shelf_view : PdfView shelf := { docs := sh_docs; stored := sh_stored }.

Definition pdf_error {A} : tool terr shelf A := raise (Unforeseen "FileDataError" "").

#[export] Instance shelf_files : PdfFiles shelf := {
  file_exists p := fun s => (Ok (bool_decide (is_Some (sh_stored s !! p))), s);
  make_dirs _ := mret tt;
  write_bytes _ _ := mret tt;
  pdf_open p := fun s =>
    let h := fresh (dom (sh_docs s)) in
    match (match p with Some path => sh_stored s !! path | None => Some 0%Z end) with
    | Some n => (Ok h, Shelf (<[h := n]> (sh_docs s)) (sh_stored s))
    | None => pdf_error s
    end;
  page_count h := fun s => unless (sh_docs s !! h) (Unforeseen "ValueError" "document closed") s;
  insert_pdf out src := fun s =>
    match sh_docs s !! out, sh_docs s !! src with
    | Some a, Some b => (Ok tt, Shelf (<[out := (a + b)%Z]> (sh_docs s)) (sh_stored s))
    | _, _ => pdf_error s
    end;
  save h p := fun s =>
    match sh_docs s !! h with
    | Some n => (Ok tt, Shelf (sh_docs s) (<[p := n]> (sh_stored s)))
    | None => pdf_error s
    end;
  close h := fun s => (Ok tt, Shelf (delete h (sh_docs s)) (sh_stored s))
}.

#[export] Instance shelf_laws : PdfLaws shelf.
Proof.
  constructor; try done.
  - intros p s. cbn. split_and!; try done; by rewrite bool_decide_eq_true.
  - intros p s. cbn. destruct (match p with Some path => sh_stored s !! path | None => Some 0%Z end)
      as [n|] eqn:E; [|done]. cbn. split_and!; [|done|].
    + apply not_elem_of_dom, is_fresh.
    + exists n. split; [done|]. destruct p; [done|congruence].
  - intros h s. cbn. unfold unless. by destruct (sh_docs s !! h).
  - intros out src s. cbn. destruct (sh_docs s !! out) as [a|] eqn:Ea; [|done].
    destruct (sh_docs s !! src) as [b|] eqn:Eb; [|done]. cbn. split; [done|].
    intros a' b' [= <-] [= <-]. done.
  - intros h p s. cbn. destruct (sh_docs s !! h) as [n|] eqn:E; [|done]. cbn. split; [done|].
    by intros n' [= <-].
Qed.

Definition sample_shelf : shelf := Shelf ∅ {[SAMPLE_PDF := 4%Z]}.

Lemma slow_pdf_pages_witness :
  (slow_pdf 31 FIXTURES_DIR SAMPLE_PDF sample_shelf).1 = Ok (Some (FIXTURES_DIR ++ "/slow.pdf")%string) /\
  ends (slow_pdf 31 FIXTURES_DIR SAMPLE_PDF) (fun r (s' : shelf) =>
    match r with
    | Ok (Some p) => p = (FIXTURES_DIR ++ "/slow.pdf")%string /\
        exists m, stored s' = <[(FIXTURES_DIR ++ "/slow.pdf")%string := m]> (stored sample_shelf) /\
                  (30 <= m < 30 + 4)%Z
    | Ok None => 4%Z = 0%Z /\ stored s' = stored sample_shelf
    | Exn _ => True
    end) sample_shelf.
Proof.
  split; [by vm_compute|].
  apply (slow_pdf_pages 31 FIXTURES_DIR SAMPLE_PDF 4 sample_shelf); [done|done|lia|lia].
Defined.

(** A desk where the slow PDF is there already. *)
#[export] Instance desk_files : PdfFiles desk := {
  file_exists _ := idle true;
  make_dirs _ := idle tt;
  write_bytes _ _ := idle tt;
  pdf_open _ := idle 0%N;
  page_count _ := idle 30%Z;
  insert_pdf _ _ := idle tt;
  save _ _ := idle tt;
  close _ := idle tt
}.

#[export] Instance desk_quiet : PdfQuiet desk.
Proof. by constructor. Qed.

Definition out (text : string) : completed := Completed 0 (text ++ Report.newline) "".
Definition uuid7 : string := uuid_str 7.

(** A stack with three workers in which the job of the scenario stays started. *)
Definition stack : desk :=
  Desk 0 [] []
    [Response 201 (dumps (JObj [("document_id", JStr uuid7); ("upload_url", JStr "http://s3/put")]));
     Response 200 ""; Response 201 (dumps (JObj [("id", JStr uuid7)]))]
    ([job_line "STARTED"; out "doc-pipeline-worker-1"; out ("worker-1  | job_started " ++ uuid7); out ""]
     ++ repeat (job_line "STARTED") 60
     ++ [out (dumps (JArr [JObj [("name", JStr "jobs"); ("messages", JInt 1)]]));
         out (dumps (JObj [("services", JObj [("worker", JObj [("deploy",
                 JObj [("replicas", JInt 3)])])])])); out ""])%list [].

Definition summary_of (r : result terr (option Report.t)) : option string :=
  match r with Ok (Some report) => Some (Report.summary report) | _ => None end.

(** Three workers are configured, and three are restored. *)
Lemma worker_kill_restores_witness :
  let scenario := run plain_status 100 (fun _ => "") (fun _ => "") lower_demo demo_others
                    (fun _ => None) (fun _ => "") 100 demo_client in
  summary_of (scenario stack).1
    = Some "final_status=started attempts=1 reached_terminal=False queue_depth=1" /\
  list.last (commands (scenario stack).2) = Some (scale_command 3) /\
  ends scenario (fun r s' => exists finished report s1,
       attempted plain_status 100 (fun _ => "") (fun _ => "") lower_demo demo_others
         (fun _ => None) (fun _ => "") 100 demo_client
         (Report.Make "worker-kill" [] "", stack) = (Ok finished, (report, s1)) /\
       (exists cs, commands s1 = (commands stack ++ cs)%list) /\
       match r with
       | Ok o => restored 100 (fun _ => "") (fun _ => None) s1 (Ok tt) s' /\
                 o = const report <$> finished /\ (is_Some o -> summarised report)
       | Exn x => restored 100 (fun _ => "") (fun _ => None) s1 (Exn x) s'
       end) stack.
Proof.
  split; [by vm_compute|]. split; [by vm_compute|].
  apply (worker_kill_restores plain_status 100 (fun _ => "") (fun _ => "") lower_demo demo_others
           (fun _ => None) (fun _ => "") 100 demo_client stack).
Defined.
