(* ===== verification/AccessTheorems.v ===== *)
(** * From [setup] to an authenticated request

    The account that [setup] makes, the CSV file it writes, the key the pipeline client reads
    from that file and the account the API finds for the key are one and the same. *)

From stdpp Require Import pretty.
From S2P Require Import Prelude PyStr PyText PyCsv Sha256 Json JsonFacts TextFacts Exceptions.
From S2P Require Import Models Settings Program Environment Tool Postgres Migrations Cli.
From S2P Require Import CliTheorems Bench LocalClient HttpTheorems.

(** The environment is set up and used from the root of the repository. *)
#[local] Existing Instance repository_root.

(** The rows of the accounts table that are in the model's tables. *)
Definition holds_accounts (d : tables) (rows : list (gmap string Pg.value)) : Prop :=
  forall id h, account_row (id, h) ∈ rows -> accounts d !! id = Some (Account.Make id (Some h)).

Lemma solid_plain l : solid l -> no_cr l.
Proof.
  intros H. unfold no_cr. apply forallb_forall. rewrite <- List.Forall_forall.
  eapply Forall_impl; [|exact H]. intros c Hc. apply negb_true_iff. unfold eqc.
  apply N.eqb_neq. apply byte_in_spec in Hc. intros E. rewrite E in Hc. cbn in Hc. lia.
Qed.

Lemma urlsafe_solid k : forallb urlsafe (list_of_string k) = true -> solid (list_of_string k).
Proof.
  rewrite forallb_forall. intros H. apply List.Forall_forall. intros c Hc. apply H in Hc.
  unfold urlsafe in Hc. rewrite !orb_true_iff, !byte_in_spec in Hc. apply byte_in_spec. lia.
Qed.

(** The file of one account. *)
Lemma read_one_account (id : Z) key :
  forallb urlsafe (list_of_string key) = true ->
  reader (writerows [account.csv_header; account.csv_row (id, key)])
  = [account.csv_header; account.csv_row (id, key)].
Proof.
  intros Hk. rewrite <- (append_nil_r (writerows _)), reader_writerows; [done|].
  repeat (constructor; [split; [done|]|]); [by repeat constructor| |constructor].
  constructor; [|constructor; [|constructor]]; apply solid_plain.
  - apply pretty_solid.
  - by apply urlsafe_solid.
Qed.

(** A world with these tables. *)
Definition world_of (d : tables) : world := World d (TxActive []) ∅ ∅ None [] [] false [] all_up.

(** C25: after [setup], run in the root of the repository, in an environment without an
    accounts file, the database is at the head of the migration chain and the bucket exists;
    the client of the pipeline loads from the file the key of the account that was made, and
    the API, over a database that holds the rows of the accounts table, finds that account
    for the key. *)
Theorem setup_key_authenticates {S} `{!Host S, !HostView S, !HostLaws S} settings (s : S) :
  h_tx s = [] -> h_files s !! ACCOUNTS_CSV = None ->
  ends (setup.setup settings) (fun r s' => r = Ok tt ->
    prepared settings s s' /\
    exists id key,
      (forall T (B : Bench T) (t t' : T),
         read_text ACCOUNTS_CSV t = (Ok (Cli.content s' ACCOUNTS_CSV), t') ->
         _load_api_key ACCOUNTS_CSV t = (Ok (Some key), t')) /\
      forall d, holds_accounts d (accounts_rows s') -> unique_keys d ->
        key_account d (Some key) = Some (Account.Make id (Some (sha256_hexdigest key)))) s.
Proof.
  intros Htx Hnew. eapply ends_mono; [|exact (setup_prepares settings s Htx)].
  intros r s' Hp Hr. split; [exact (Hp Hr)|].
  destruct (Hp Hr) as (o & d & id & key & _ & Hdb & _ & Hne & Hu & Hfile).
  change "local/accounts.csv" with ACCOUNTS_CSV in Hfile. exists id, key. split.
  - intros T B t t' Hread. unfold _load_api_key, mbind, tool_bind. rewrite Hread.
    assert (Hc : Cli.content s' ACCOUNTS_CSV
                 = writerows [account.csv_header; account.csv_row (id, key)]).
    { unfold Cli.content. rewrite Hfile. cbn [fmap option_fmap option_map fst default from_option Datatypes.id].
      unfold Cli.content, new_text. rewrite Hnew.
      by rewrite bool_decide_eq_false_2 by by intros [? [=]]. }
    rewrite Hc, read_one_account by done. reflexivity.
  - intros dt Hd Hk. apply (key_account_found (world_of dt) key key); try done;
      [by apply encode_key|].
    exists id. split; [|done]. apply Hd. unfold accounts_rows. rewrite Hdb. cbn [d_db].
    unfold Pg.rows_of, Pg.put_rows, Pg.set_rows, Pg.replace_rows. cbn [Pg.db_rows].
    rewrite String.eqb_refl. apply elem_of_app. right. by apply list_elem_of_singleton.
Qed.

Lemma setup_key_authenticates_witness :
  h_tx fresh = [] /\ h_files fresh !! ACCOUNTS_CSV = None /\
  (setup.setup demo_settings fresh).1 = Ok tt /\
  ends (setup.setup demo_settings) (fun r s' => r = Ok tt ->
    prepared demo_settings fresh s' /\
    exists id key,
      (forall T (B : Bench T) (t t' : T),
         read_text ACCOUNTS_CSV t = (Ok (Cli.content s' ACCOUNTS_CSV), t') ->
         _load_api_key ACCOUNTS_CSV t = (Ok (Some key), t')) /\
      forall d, holds_accounts d (accounts_rows s') -> unique_keys d ->
        key_account d (Some key) = Some (Account.Make id (Some (sha256_hexdigest key)))) fresh.
Proof.
  split; [done|]. split; [done|]. split; [by vm_compute|].
  apply (setup_key_authenticates demo_settings fresh); done.
Defined.
