(* ===== verification/EndToEnd.v ===== *)
(** * From the request to the result

    The API's [create] and the worker's [_handle], one after the other, on one database, one
    bucket and one queue. *)

From S2P Require Import Prelude PyStr PyUuid Json Dtos Exceptions Models Program.
From S2P Require Import Interfaces Settings Environment Container Logic Contracts.
From S2P Require Import ApiServices Worker Wiring ProcessingSpec ConsumerSpec ApiSpec.
From S2P Require Import Repositories Specs Reference WorkerOutcomes Examples WorkerTheorems ApiTheorems.
From S2P Require Import MessageTheorems.

(** ** The world an accepted request leaves *)

Section accepted.
Context (S : BaseAppSettings.t) (dto : CreateJobDTO.t) (w : world).
Abbreviation queue := (BaseAppSettings.rabbitmq_queue S).
Abbreviation bucket := (BaseAppSettings.s3_bucket S).

Record accepted (i : draw) (w' : world) : Prop := Accepted {
  ac_valid : valid_uuid (drawn_id i);
  ac_fresh : jobs (w_db w) !! drawn_id i = None;
  ac_idle : ~ active_job dto (w_db w);
  ac_db : w_db w' = apply_write (w_db w) (WJob (created_row dto i));
  ac_tx : w_tx w' = TxActive [];
  ac_objects : w_objects w' = w_objects w;
  ac_settled : w_settled w' = w_settled w;
  ac_health : w_health w' = w_health w;
  ac_queue : w_queues w' !! queue
    = Some (default [] (w_queues w !! queue) ++ [job_body (created_row dto i)])%list
}.

Lemma create_accepts env `{!Conforming env} n :
  ready w -> w_health w = all_up -> (exists v, valid_uuid v /\ unused (w_db w) v) ->
  is_Some (accounts (w_db w) !! CreateJobDTO.account_id dto) ->
  create_decision S w dto = None ->
  exists i, (create_job env S n w dto).1 = Ok (job_dto (created_row dto i)) /\
    accepted i (create_job env S n w dto).2.
Proof.
  intros Hr Hh Hu Hacc Hdec. pose proof (create_job_result env S n w dto Hr) as Hres.
  destruct (create_job env S n w dto) as [r w']. cbn [fst snd] in *.
  pose proof (healthy_no_trouble dto w Hh Hu Hacc) as Hnt.
  assert (Hmq : ~ fails (h_mq (w_health w))) by (rewrite Hh; intros H; by apply H).
  unfold create_decision in Hdec.
  destruct Hres as [Hd|doc Hd Hup|doc c Hd Hup Hq|doc c Hd Hup Hq Ha|doc i c c' Hd Hup Hq Ha Hf Hid|];
    [by rewrite Hd in Hdec| | | | |done]; rewrite Hd in Hdec; unfold uploaded in *.
  - by rewrite bool_decide_eq_false_2 in Hdec.
  - rewrite bool_decide_eq_true_2 in Hdec by done. by apply Z.leb_le in Hq as E; rewrite E in Hdec.
  - rewrite bool_decide_eq_true_2 in Hdec by done. apply has_active_job_spec in Ha.
    rewrite Ha in Hdec. by destruct (_ <=? _)%Z.
  - exists i. split; [done|].
    set (w1 := put_job (set_cached w c) (created_row dto i)).
    pose proof (mq_frame_published w1 queue (job_body (created_row dto i)) c') as F.
    split; try done.
    + by rewrite (mq_db _ _ F).
    + by rewrite (mq_tx _ _ F).
    + by rewrite (mq_objects _ _ F).
    + by rewrite (mq_settled _ _ F).
    + by rewrite (mq_health _ _ F).
    + by rewrite published_queue.
Qed.
End accepted.

(** ** What the worker finds *)

Section delivery.
Context (S : BaseAppSettings.t) (dto : CreateJobDTO.t) (w w' : world) (i : draw).
Context (Hac : accepted S dto w i w').

Lemma accepted_ready : ready w -> ready w'.
Proof.
  intros [Hwf _]. destruct Hac as [_ Hf Ha Hdb Htx]. split; [|done].
  rewrite Hdb. by apply wf_jobs_created.
Qed.

Lemma accepted_job : jobs (w_db w') !! drawn_id i = Some (created_row dto i).
Proof. rewrite (ac_db _ _ _ _ _ Hac). apply lookup_insert_eq. Qed.

Lemma accepted_document :
  job_document (w_db w') (created_row dto i) = requested_document dto (w_db w).
Proof. by rewrite (ac_db _ _ _ _ _ Hac). Qed.

(** Of two ids without a row one is still without. *)
Lemma accepted_unused v1 v2 :
  v1 <> v2 -> valid_uuid v1 -> unused (w_db w) v1 -> valid_uuid v2 -> unused (w_db w) v2 ->
  exists v, valid_uuid v /\ unused (w_db w') v.
Proof.
  intros Hne Hv1 Hu1 Hv2 Hu2.
  assert (Hkeep : forall v, v <> drawn_id i -> unused (w_db w) v -> unused (w_db w') v).
  { intros v Hv (Hd & Hj & Ha). rewrite (ac_db _ _ _ _ _ Hac). split_and!; [done| |done].
    cbn. by rewrite lookup_insert_ne by congruence. }
  destruct (decide (v1 = drawn_id i)) as [->|Hv]; [exists v2|exists v1]; auto.
Qed.

(** The document of an accepted request, uploaded. *)
Lemma accepted_upload : create_decision S w dto = None ->
  exists doc content, requested_document dto (w_db w) = Some doc /\
    w_objects w !! (BaseAppSettings.s3_bucket S, Document.object_key doc) = Some content.
Proof.
  unfold create_decision. destruct (requested_document _ _) as [doc|]; [|done].
  destruct (bool_decide_reflect (is_Some (w_objects w !! (BaseAppSettings.s3_bucket S,
    Document.object_key doc)))) as [[content Hc]|_]; [|done]. eauto.
Qed.

(** What the delivery of its message leaves. *)
Record completed (tag : N) (fin : result exn unit * world) (doc : Document.t) (row : Job.t)
    (a : Artifact.t) (b : bytes) : Prop := Completed {
  cp_ok : fin.1 = Ok tt;
  cp_settled : w_settled fin.2 = (w_settled w ++ [(tag, Acked)])%list;
  cp_health : w_health fin.2 = w_health w;
  cp_tx : w_tx fin.2 = TxActive [];
  cp_documents : documents (w_db fin.2) = documents (w_db w);
  cp_row : Job.id row = drawn_id i /\ Job.status row = COMPLETED /\ Job.attempts row = 1%Z /\
    Job.document_id row = CreateJobDTO.document_id dto /\
    Job.account_id row = CreateJobDTO.account_id dto;
  cp_jobs : jobs (w_db fin.2) = <[drawn_id i := row]> (jobs (w_db w));
  cp_artifacts : artifacts (w_db fin.2) !! Artifact.id a = Some a;
  cp_artifact : Artifact.job_id a = drawn_id i /\
    Artifact.document_id a = CreateJobDTO.document_id dto;
  cp_object : w_objects fin.2 !! (BaseAppSettings.s3_bucket S, Artifact.object_key a) = Some b
}.

Lemma accepted_completes env `{!Conforming env} limit n tag v1 v2 :
  ready w -> w_health w = all_up -> (2 <= limit)%nat -> create_decision S w dto = None ->
  v1 <> v2 -> valid_uuid v1 -> unused (w_db w) v1 -> valid_uuid v2 -> unused (w_db w) v2 ->
  exists doc row a b, requested_document dto (w_db w) = Some doc /\
    completed tag (handled env S limit n w' (Message tag (job_body (created_row dto i))))
      doc row a b.
Proof.
  intros Hr Hh Hl Hdec Hne Hv1 Hu1 Hv2 Hu2.
  destruct (accepted_upload Hdec) as (doc & content & Hdoc & Hc).
  destruct (handled_completes env S limit n w'
    (Message tag (job_body (created_row dto i))) (drawn_id i) (created_row dto i) doc content)
    as (Hok & Hset & _ & (Hh' & Htx & Hds) & t & t' & u & u' & a & b & Hjobs & Harts & Haj & Had
        & Hak & Hobj).
  - by apply accepted_ready.
  - by rewrite (ac_health _ _ _ _ _ Hac).
  - apply (parse_payload limit (job_dto (created_row dto i)) Hl). exact (ac_valid _ _ _ _ _ Hac).
  - apply accepted_job.
  - done.
  - by rewrite accepted_document.
  - by rewrite (ac_objects _ _ _ _ _ Hac).
  - by apply (accepted_unused v1 v2).
  - eexists doc, _, a, b. split; [done|]. split.
    + done.
    + by rewrite Hset, (ac_settled _ _ _ _ _ Hac).
    + by rewrite Hh', (ac_health _ _ _ _ _ Hac).
    + done.
    + by rewrite Hds, (ac_db _ _ _ _ _ Hac).
    + shelve.
    + rewrite Hjobs, (ac_db _ _ _ _ _ Hac). cbn. by rewrite insert_insert_eq.
    + rewrite Harts. apply lookup_insert_eq.
    + by split.
    + rewrite Hobj, Hak. apply lookup_insert_eq.
    Unshelve. by repeat split.
Qed.
End delivery.

(** From the request to the result, when the services work: a request that [create]
    accepts puts a message on the queue, and the worker that is given this message completes
    the job it names at the first attempt, acknowledges it, and leaves an artifact whose
    object is in the bucket.  The rows of all other jobs stay as they are. *)
Theorem accepted_job_completes env env' `{!Conforming env, !Conforming env'} S limit n n' w dto
    tag v1 v2 :
  ready w -> w_health w = all_up -> (2 <= limit)%nat ->
  v1 <> v2 -> valid_uuid v1 -> unused (w_db w) v1 -> valid_uuid v2 -> unused (w_db w) v2 ->
  is_Some (accounts (w_db w) !! CreateJobDTO.account_id dto) ->
  create_decision S w dto = None ->
  let out := create_job env S n w dto in
  exists job body, out.1 = Ok job /\ JobDTO.status job = QUEUED /\
    w_queues out.2 !! BaseAppSettings.rabbitmq_queue S
      = Some (default [] (w_queues w !! BaseAppSettings.rabbitmq_queue S) ++ [body])%list /\
    let fin := handled env' S limit n' out.2 (Message tag body) in
    fin.1 = Ok tt /\ w_settled fin.2 = (w_settled w ++ [(tag, Acked)])%list /\
    (exists row, jobs (w_db fin.2) !! JobDTO.id job = Some row /\
       Job.status row = COMPLETED /\ Job.attempts row = 1%Z /\
       Job.document_id row = CreateJobDTO.document_id dto) /\
    (exists a b, artifacts (w_db fin.2) !! Artifact.id a = Some a /\
       Artifact.job_id a = JobDTO.id job /\
       w_objects fin.2 !! (BaseAppSettings.s3_bucket S, Artifact.object_key a) = Some b) /\
    (forall k j, jobs (w_db w) !! k = Some j -> jobs (w_db fin.2) !! k = Some j).
Proof.
  intros Hr Hh Hl Hne Hv1 Hu1 Hv2 Hu2 Hacc Hdec out.
  destruct (create_accepts S dto w env n) as (i & Hout & Hac); [by eauto..|].
  fold out in Hout, Hac. exists (job_dto (created_row dto i)), (job_body (created_row dto i)).
  split_and!; [done..|exact (ac_queue _ _ _ _ _ Hac)|]. cbn zeta.
  destruct (accepted_completes S dto w out.2 i Hac env' limit n' tag v1 v2)
    as (doc & row & a & b & _ & [Hok Hset _ _ _ Hrow Hjobs Hart Ha Hobj]); try done.
  split_and!; [done..| | |].
  - exists row. rewrite Hjobs. split; [apply lookup_insert_eq|]. tauto.
  - exists a, b. by destruct Ha.
  - intros k j Hk. pose proof (ac_fresh _ _ _ _ _ Hac) as Hf.
    by rewrite Hjobs, lookup_insert_ne by congruence.
Qed.

Lemma accepted_job_completes_witness :
  let out := create_job (reference (fun _ => true)) demo_settings 0 (demo_world all_up ∅)
               demo_request in
  exists job body, out.1 = Ok job /\
    let fin := handled (reference (fun _ => true)) demo_settings 100 0 out.2 (Message 2 body) in
    fin.1 = Ok tt /\ exists row, jobs (w_db fin.2) !! JobDTO.id job = Some row /\
      Job.status row = COMPLETED.
Proof.
  destruct (accepted_job_completes (reference (fun _ => true)) (reference (fun _ => true))
    demo_settings 100 0 0 (demo_world all_up ∅) demo_request 2 20 21)
    as (job & body & Hjob & _ & _ & Hok & _ & (row & Hrow & Hst & _) & _).
  - by split; [split|].
  - done.
  - lia.
  - done.
  - done.
  - by repeat split.
  - done.
  - by repeat split.
  - by eexists.
  - by vm_compute.
  - exists job, body. split; [exact Hjob|]. split; [exact Hok|]. by exists row.
Defined.

(** ** What the client reads *)

(** A row that is not active can be stored under its key. *)
Lemma wf_jobs_idle m r : wf_jobs m -> Job.active r = false -> wf_jobs (<[Job.id r := r]> m).
Proof.
  intros [Hid Hone] Ha. split.
  - intros k x. rewrite lookup_insert_Some. intros [[<- <-]|[_ H]]; [done|by apply Hid].
  - intros k1 k2 r1 r2. rewrite !lookup_insert_Some.
    assert (Hno : forall x, same_slot r x = false /\ same_slot x r = false).
    { intros x. unfold same_slot. rewrite Ha. by rewrite andb_false_r. }
    intros [[<- <-]|[_ H1]] [[<- <-]|[_ H2]] Hs; [done| | |by eapply Hone].
    + by rewrite (proj1 (Hno _)) in Hs.
    + by rewrite (proj2 (Hno _)) in Hs.
Qed.

Lemma listed_artifact d doc_id acc doc a :
  select (fun r => (Document.account_id r =? acc)%Z) (documents d !! doc_id) = Some doc ->
  artifacts d !! Artifact.id a = Some a -> Artifact.document_id a = doc_id ->
  a ∈ document_artifacts d doc_id acc.
Proof.
  intros Hd Ha Hdoc. unfold document_artifacts. rewrite Hd. apply list_elem_of_In, filter_In.
  split; [|by apply N.eqb_eq]. apply list_elem_of_In.
  apply (list_elem_of_fmap_2 snd _ (Artifact.id a, a)). by apply elem_of_map_to_list.
Qed.

(** The message a request published last. *)
Definition waiting_last (S : BaseAppSettings.t) (w : world) : option bytes :=
  list.last (default [] (w_queues w !! BaseAppSettings.rabbitmq_queue S)).

Section reading.
Context (S : BaseAppSettings.t) (w : world) (Hready : ready w) (Hup : w_health w = all_up).

Lemma read_job env `{!Conforming env} n id acc :
  (run env n w (open_session (ApiContainer.job_get id acc))).1
  = Ok (job_dto <$> select (fun j => (Job.account_id j =? acc)%Z) (jobs (w_db w) !! id)).
Proof.
  destruct (reads_only_session env (ApiContainer.job_get id acc)
    (fun d => job_dto <$> select (fun j => (Job.account_id j =? acc)%Z) (jobs d !! id)) n w Hready
    (job_get_rule _ id acc)) as [_ [H|[_ H]]]; [exact H|].
  rewrite Hup in H. destruct H as [H|H]; by destruct H.
Qed.

Lemma read_artifacts env `{!Conforming env} n document_id acc doc :
  select (fun d => (Document.account_id d =? acc)%Z) (documents (w_db w) !! document_id) = Some doc ->
  exists l, (run env n w (open_session
               (ApiContainer.artifact_list_for_document S document_id acc))).1 = Ok l /\
    exists rows, Permutation rows (document_artifacts (w_db w) document_id acc) /\
      ArtifactWithUrlDTO.artifact <$> l = artifact_dto <$> rows.
Proof.
  intros Hdoc. destruct (list_for_document_result env S n w document_id acc Hready) as [_ H].
  destruct (run _ _ _ _) as [[l|x] w']; cbn [fst] in *.
  - exists l. split; [done|]. by destruct H.
  - destruct H as [[_ H]|H]; [by rewrite Hdoc in H|done].
Qed.
End reading.

(** C12: the client sees the result: after its request was accepted and the message delivered,
    [GET] of the job answers that it is completed, and the listing of the document's artifacts
    holds one of this job under the key where the worker stored it. *)
Theorem result_is_served env env' env'' `{!Conforming env, !Conforming env', !Conforming env''}
    S limit n n' n'' w dto tag v1 v2 :
  ready w -> w_health w = all_up -> (2 <= limit)%nat ->
  v1 <> v2 -> valid_uuid v1 -> unused (w_db w) v1 -> valid_uuid v2 -> unused (w_db w) v2 ->
  is_Some (accounts (w_db w) !! CreateJobDTO.account_id dto) ->
  create_decision S w dto = None ->
  let out := create_job env S n w dto in
  exists job body, out.1 = Ok job /\
    waiting_last S out.2 = Some body /\
    let fin := (handled env' S limit n' out.2 (Message tag body)).2 in
    let acc := CreateJobDTO.account_id dto in
    (exists seen, (run env'' n'' fin (open_session (ApiContainer.job_get (JobDTO.id job) acc))).1
                    = Ok (Some seen) /\
       JobDTO.id seen = JobDTO.id job /\ JobDTO.status seen = COMPLETED) /\
    exists l x b, (run env'' n'' fin (open_session (ApiContainer.artifact_list_for_document S
                     (CreateJobDTO.document_id dto) acc))).1 = Ok l /\
      x ∈ ArtifactWithUrlDTO.artifact <$> l /\ ArtifactDTO.job_id x = JobDTO.id job /\
      w_objects fin !! (BaseAppSettings.s3_bucket S, ArtifactDTO.object_key x) = Some b.
Proof.
  intros Hr Hh Hl Hne Hv1 Hu1 Hv2 Hu2 Hacc Hdec out.
  destruct (create_accepts S dto w env n) as (i & Hout & Hac); [by eauto..|].
  fold out in Hout, Hac. exists (job_dto (created_row dto i)), (job_body (created_row dto i)).
  split; [done|]. split.
  { unfold waiting_last. rewrite (ac_queue _ _ _ _ _ Hac). apply list.last_snoc. }
  cbn zeta.
  destruct (accepted_completes S dto w out.2 i Hac env' limit n' tag v1 v2)
    as (doc & row & a & b & Hdoc & [_ _ Hh' Htx Hds Hrow Hjobs Hart Ha Hobj]); try done.
  set (fin := (handled _ _ _ _ _ _).2) in *.
  assert (Hfin : ready fin).
  { split; [|done]. rewrite Hjobs. destruct Hrow as (<- & Hst & _). destruct Hr.
    apply wf_jobs_idle; [done|]. unfold Job.active. by rewrite Hst. }
  assert (Hup : w_health fin = all_up) by by rewrite Hh'.
  split.
  - exists (job_dto row). rewrite (read_job fin Hfin Hup env''). rewrite Hjobs, lookup_insert_eq.
    destruct Hrow as (Hid & Hst & _ & _ & Hacc'). cbn. rewrite Hacc', Z.eqb_refl. by split_and!.
  - destruct (read_artifacts S fin Hfin Hup env'' n'' (CreateJobDTO.document_id dto)
      (CreateJobDTO.account_id dto) doc) as (l & Hlist & rows & Hperm & Hrows).
    { by rewrite Hds. }
    exists l, (artifact_dto a), b. split_and!; [done| |by destruct Ha|done].
    rewrite Hrows. apply list_elem_of_fmap_2. rewrite Hperm.
    destruct Ha as [_ Ha]. eapply listed_artifact; [by rewrite Hds|done..].
Qed.

Lemma result_is_served_witness :
  let up := reference (fun _ => true) in
  let out := create_job up demo_settings 0 (demo_world all_up ∅) demo_request in
  exists job body, out.1 = Ok job /\ waiting_last demo_settings out.2 = Some body /\
    let fin := (handled up demo_settings 100 0 out.2 (Message 2 body)).2 in
    exists seen, (run up 0 fin (open_session (ApiContainer.job_get (JobDTO.id job) 1))).1
                 = Ok (Some seen) /\ JobDTO.status seen = COMPLETED.
Proof.
  destruct (result_is_served (reference (fun _ => true)) (reference (fun _ => true))
    (reference (fun _ => true)) demo_settings 100 0 0 0 (demo_world all_up ∅) demo_request 2 20 21)
    as (job & body & Hjob & Hbody & (seen & Hseen & _ & Hst) & _).
  - by split; [split|].
  - done.
  - lia.
  - done.
  - done.
  - by repeat split.
  - done.
  - by repeat split.
  - by eexists.
  - by vm_compute.
  - exists job, body. split; [exact Hjob|]. split; [exact Hbody|]. exists seen. by split.
Defined.
