(* ===== verification/Drain.v ===== *)
(** * Draining the queue

    Requests and deliveries one after the other, on the database, the bucket and the queue
    they share.  While all services but the parser work, the queue holds exactly one message
    for every queued job.  From such a queue, while database and broker work, delivering the
    messages ends every job, whatever the storage and the parser do. *)

From S2P Require Import Prelude PyStr PyUuid Json Dtos Exceptions Models Program.
From S2P Require Import Interfaces Settings Environment Container Logic Contracts.
From S2P Require Import ApiServices Worker Wiring ProcessingSpec ConsumerSpec ApiSpec.
From S2P Require Import Reference WorkerOutcomes Examples ApiTheorems MessageTheorems.
From S2P Require Import EndToEnd.

#[export] Instance settlement_eq_dec : EqDecision settlement.
Proof. solve_decision. Defined.

(** A final row, and a failed row whose attempts are used up. *)
Definition ended (j : Job.t) : Prop :=
  Job.status j = COMPLETED \/
  Job.status j = FAILED /\ (Job.max_attempts j <= Job.attempts j)%Z.

(** The deliveries a queued job has left. *)
Definition deliveries_left (j : Job.t) : nat :=
  Z.to_nat (Z.max 1 (Job.max_attempts j - Job.attempts j)).

(** ** One delivery *)

Section delivery.
Context (S : BaseAppSettings.t) (limit : nat).
Abbreviation queue := (BaseAppSettings.rabbitmq_queue S).

Definition waiting (w : world) : list bytes := default [] (w_queues w !! queue).

(** An environment, its clock and the tag of the delivery. *)
Record turn : Type := Turn { t_env : environment; t_n : nat; t_tag : N }.

(** The broker gives the first message to the worker and puts it back unless the worker
    acknowledges it. *)
Definition deliver (w : world) (t : turn) : world :=
  match waiting w with
  | [] => w
  | b :: rest =>
      let out := handled (t_env t) S limit (t_n t)
                   (set_queues w (<[queue := rest]> (w_queues w))) (Message (t_tag t) b) in
      if bool_decide (list.last (w_settled out.2) = Some (t_tag t, Acked)) then out.2
      else set_queues out.2 (<[queue := b :: waiting out.2]> (w_queues out.2))
  end.

Definition drain (w : world) (ts : list turn) : world := fold_left deliver ts w.

(** What a delivery makes of the job it names. *)
Record delivered_job (w w' : world) (id : uuid) (j row : Job.t) : Prop := DeliveredJob {
  dj_jobs : jobs (w_db w') = <[id := row]> (jobs (w_db w));
  dj_row : Job.id row = id /\ Job.account_id row = Job.account_id j /\
           Job.document_id row = Job.document_id j;
  dj_end : ended row /\ w_queues w' = w_queues w
    \/ (Job.status row = QUEUED /\ (deliveries_left row < deliveries_left j)%nat /\
        waiting w' = (waiting w ++ [requeue_body id])%list)
}.

Lemma failed_row_ends n mx x j t t' :
  Job.max_attempts j = mx -> Job.attempts j = n -> failure_status n mx = FAILED ->
  ended (failure_row n mx x j t t').
Proof.
  intros Hm Hn Hf. right. unfold failure_row. rewrite Hf. unfold failure_status in Hf.
  destruct (n <? mx)%Z eqn:E; [done|]. apply Z.ltb_ge in E. destruct j; cbn in *. by subst.
Qed.

Lemma retried_row_left n mx x j t t' t0 t0' :
  Job.max_attempts j = mx -> (Job.attempts j + 1)%Z = n -> failure_status n mx = QUEUED ->
  (deliveries_left (failure_row n mx x (claimed j t0 t0') t t') < deliveries_left j)%nat.
Proof.
  intros Hm Hn Hf. unfold failure_row. rewrite Hf. unfold failure_status in Hf.
  destruct (n <? mx)%Z eqn:E; [|done]. apply Z.ltb_lt in E. unfold deliveries_left.
  destruct j; cbn in *. lia.
Qed.

Lemma moved_keeps j st em t t' :
  Job.id (moved j st em t t') = Job.id j /\ Job.account_id (moved j st em t t') = Job.account_id j /\
  Job.document_id (moved j st em t t') = Job.document_id j.
Proof. by destruct j, st. Qed.

(** After a failed attempt: the row is final, or it is queued and its message published. *)
Lemma failed_attempt_outcome w j id t t' jr wr x w' :
  wf_jobs (jobs (w_db w)) -> jobs (w_db w) !! id = Some j -> ~ unhealthy w ->
  attempt (BaseAppSettings.s3_bucket S) id (put_job w (claimed j t t')) (claimed j t t') jr wr ->
  failure_result queue id (Job.attempts j + 1) (Job.max_attempts j) x wr jr (Ok tt) w' ->
  exists row, delivered_job w w' id j row.
Proof.
  intros Hwf Hj Hnu Hat Hres. pose proof (wf_jobs_id _ Hwf _ _ Hj) as Hid.
  assert (Hput : forall r m, Job.id r = id ->
    <[Job.id r := r]> (<[Job.id (claimed j t t') := claimed j t t']> m) = <[id := r]> (m : gmap uuid Job.t)).
  { intros r m ->. by rewrite claimed_id, Hid, insert_insert_eq. }
  assert (Hkeep : forall r, (exists st em u u', r = moved (claimed j t t') st em u u') ->
    Job.id r = id /\ Job.account_id r = Job.account_id j /\ Job.document_id r = Job.document_id j).
  { intros r (st & em & u & u' & ->).
    destruct (moved_keeps (claimed j t t') st em u u') as (-> & -> & ->).
    rewrite claimed_id, Hid. by destruct j. }
  destruct Hat as [o Ho|a jc o (_&_&doc&c&md&bs&i&u&u'&_&_&_&->&_&->)].
  - inversion Hres as [Hst|u u' Hst Hf|u u' c Hst Hf|u u' ? Hst Hf Hmq|]; subst; [by destruct j| | |].
    + eexists. split; [by apply Hput, Hkeep; repeat eexists|by apply Hkeep; repeat eexists|].
      left. split; [|done]. apply failed_row_ends; [by destruct j..|done].
    + eexists. split; [|by apply Hkeep; repeat eexists|].
      * rewrite (mq_db _ _ (mq_frame_published _ _ _ _)). by apply Hput, Hkeep; repeat eexists.
      * right. split_and!.
        -- unfold failure_row. rewrite Hf. by destruct j.
        -- by apply retried_row_left.
        -- unfold waiting. by rewrite published_queue.
    + destruct Hnu. by right; right; left.
  - inversion Hres as [Hst|u0 u0' Hst|u0 u0' c0 Hst|u0 u0' ? Hst|]; subst;
      [|by destruct j..]. eexists. split.
    + by apply Hput, Hkeep; repeat eexists.
    + by apply Hkeep; repeat eexists.
    + left. split; [left; by destruct j|done].
Qed.

Lemma delivery_outcome env `{!Conforming env} n w tag b id j :
  ready w -> ~ unhealthy w -> RabbitMQConsumer.parse_job_id limit b = Ok (Some id) ->
  jobs (w_db w) !! id = Some j -> Job.status j = QUEUED ->
  let out := handled env S limit n w (Message tag b) in
  w_settled out.2 = (w_settled w ++ [(tag, Acked)])%list /\ w_health out.2 = w_health w /\
  w_tx out.2 = TxActive [] /\ exists row, delivered_job w out.2 id j row.
Proof.
  intros Hr Hnu Hp Hj Hst out.
  pose proof (handled_result env S limit n w (Message tag b) id Hr Hp) as Hres. fold out in Hres.
  clearbody out. destruct out as [r w']. cbn [fst snd] in *. pose proof Hr as [Hwf Htx].
  assert (Hid : Job.id j = id) by exact (wf_jobs_id _ Hwf _ _ Hj).
  destruct Hres as [Hn|j' Hj' Hst' Hf|j' t t' a jc o Hj' Hst' Hwk Ho
                   |j' t t' jr wr x w2 Hj' Hst' Hwk Hat Hc' Hres|]; [| | | |by destruct Hnu].
  - by destruct (Hn j Hj).
  - destruct Hnu. by left.
  - assert (j' = j) as -> by congruence.
    destruct Ho as (_&_&doc&c&md&bs&i&u&u'&_&_&_&->&_&->).
    split_and!; [done..|]. exists (moved (claimed j t t') COMPLETED None u u'). split.
    + cbn. destruct (moved_keeps (claimed j t t') COMPLETED None u u') as (-> & _ & _).
      by rewrite claimed_id, Hid, insert_insert_eq.
    + split_and!; by destruct j.
    + left. split; [left; by destruct j|done].
  - assert (j' = j) as -> by congruence.
    assert (same_inbox w w2) as Hs by (eapply attempted_same_inbox; eassumption).
    split_and!.
    + cbn. by rewrite (si_settled _ _ Hs).
    + cbn. by rewrite (si_health _ _ Hs).
    + cbn. by apply (si_tx _ _ Hs).
    + destruct (failed_attempt_outcome w j id t t' jr wr x w2) as [row []]; try done.
      by exists row.
Qed.

(** ** The balance of queue and table *)

(** The message [b] names the job [id]. *)
Definition names (b : bytes) (id : uuid) : Prop :=
  RabbitMQConsumer.parse_job_id limit b = Ok (Some id) /\ valid_uuid id.

(** The queue holds one message for every queued job and no other; no job is started, and
    failed jobs have used up their attempts. *)
Record balanced (w : world) : Prop := Balanced {
  bl_ready : ready w;
  bl_messages : exists ids, Forall2 names (waiting w) ids /\ NoDup ids /\
    forall id, id ∈ ids <-> exists j, jobs (w_db w) !! id = Some j /\ Job.status j = QUEUED;
  bl_rows : forall id j, jobs (w_db w) !! id = Some j -> Job.status j = QUEUED \/ ended j
}.

Lemma ended_not_queued j : ended j -> Job.status j <> QUEUED.
Proof. by intros [->|[-> _]]. Qed.

Lemma requeue_names id : (2 <= limit)%nat -> valid_uuid id -> names (requeue_body id) id.
Proof. intros Hl Hv. split; [|done]. apply parse_flat; [done..|constructor|constructor]. Qed.

(** The messages and rows after a delivery. *)
Lemma delivered_balanced w w' b rest id ids j row :
  (2 <= limit)%nat -> balanced w ->
  Forall2 names (b :: rest) (id :: ids) -> NoDup (id :: ids) ->
  (forall i, i ∈ id :: ids <-> exists j, jobs (w_db w) !! i = Some j /\ Job.status j = QUEUED) ->
  jobs (w_db w) !! id = Some j -> Job.status j = QUEUED ->
  delivered_job (set_queues w (<[queue := rest]> (w_queues w))) w' id j row ->
  w_tx w' = TxActive [] -> balanced w'.
Proof.
  intros Hl [[Hwf _] _ Hrows] Hn Hnd Hids Hj Hst [Hjobs (Eid & Eacc & Edoc) Hend] Htx.
  cbn in Hjobs. apply list.NoDup_cons in Hnd as [Hnin Hnd].
  apply Forall2_cons_iff in Hn as [[Hp Hv] Hn].
  assert (Hwf' : wf_jobs (jobs (w_db w'))).
  { pose proof (wf_jobs_id _ Hwf _ _ Hj) as Ej. rewrite Hjobs, <- Eid.
    apply (wf_jobs_replace _ id j); [done..|]. split; [congruence|]. intros _.
    by split; [apply queued_active|]. }
  assert (Hq : forall i, (i ∈ ids /\ i <> id) \/ (i = id /\ Job.status row = QUEUED) <->
    exists j, jobs (w_db w') !! i = Some j /\ Job.status j = QUEUED).
  { intros i. rewrite Hjobs. destruct (decide (i = id)) as [->|Hne].
    - rewrite lookup_insert_eq. split; [intros [[_ []]|[_ H]]; [done|by exists row]|].
      intros (? & [= <-] & H). by right.
    - rewrite lookup_insert_ne by done. specialize (Hids i). rewrite elem_of_cons in Hids.
      rewrite <- Hids. tauto. }
  split; [by split| |].
  - destruct Hend as [[Hend Hqs]|(Hs & _ & Hw)].
    + exists ids. unfold waiting. rewrite Hqs. cbn. rewrite lookup_insert_eq.
      split_and!; [done..|]. intros i. rewrite <- Hq.
      pose proof (ended_not_queued _ Hend). split; [|by intros [[? _]|[_ ?]]].
      intros Hi. left. split; [done|congruence].
    + exists (ids ++ [id])%list. rewrite Hw. unfold waiting. cbn. rewrite lookup_insert_eq.
      split_and!.
      * apply Forall2_app; [done|]. constructor; [by apply requeue_names|constructor].
      * apply list.NoDup_app. split_and!; [done| |apply NoDup_singleton].
        intros i Hi ->%list_elem_of_singleton. done.
      * intros i. rewrite <- Hq, elem_of_app, list_elem_of_singleton.
        destruct (decide (i = id)); tauto.
  - intros i r. rewrite Hjobs, lookup_insert_Some. intros [[<- <-]|[_ H]]; [|by eapply Hrows].
    destruct Hend as [[He _]|[He _]]; auto.
Qed.

(** ** Deliveries *)

(** The deliveries the waiting messages need at most. *)
Definition message_deliveries (d : tables) (b : bytes) : nat :=
  match RabbitMQConsumer.parse_job_id limit b with
  | Ok (Some id) => match jobs d !! id with Some j => deliveries_left j | None => 0 end
  | _ => 0
  end.

Definition deliveries_needed (w : world) : nat :=
  sum_list (message_deliveries (w_db w) <$> waiting w).

Lemma deliveries_left_pos j : (0 < deliveries_left j)%nat.
Proof. unfold deliveries_left. lia. Qed.

(** Messages of other jobs need what they needed. *)
Lemma other_messages d d' id row bs ids :
  jobs d' = <[id := row]> (jobs d) -> Forall2 names bs ids -> id ∉ ids ->
  message_deliveries d' <$> bs = message_deliveries d <$> bs.
Proof.
  intros Hj Hn Hnin. induction Hn as [|b i bs ids [Hp _] Hn IH]; [done|].
  apply not_elem_of_cons in Hnin as [Hne Hnin]. cbn. rewrite IH by done. f_equal.
  unfold message_deliveries. rewrite Hp, Hj. by rewrite lookup_insert_ne.
Qed.

Lemma deliver_step w t :
  (2 <= limit)%nat -> Conforming (t_env t) -> ~ unhealthy w -> balanced w -> waiting w <> [] ->
  balanced (deliver w t) /\ w_health (deliver w t) = w_health w /\
  (deliveries_needed (deliver w t) < deliveries_needed w)%nat /\
  dom (jobs (w_db (deliver w t))) = dom (jobs (w_db w)) /\
  (List.length (waiting (deliver w t)) <= List.length (waiting w))%nat.
Proof.
  intros Hl Henv Hnu Hb Hne. pose proof Hb as [[Hwf Htx] (ids & Hn & Hnd & Hids) Hrows].
  unfold deliver. destruct (waiting w) as [|b rest] eqn:Ew; [done|].
  destruct ids as [|id ids]; [by inversion Hn|].
  destruct (proj1 (Hids id)) as (j & Hj & Hst); [left|].
  set (w0 := set_queues w (<[queue := rest]> (w_queues w))).
  pose proof Hn as ((Hp & Hv) & Hn')%Forall2_cons_iff.
  destruct (delivery_outcome (t_env t) (t_n t) w0 (t_tag t) b id j) as (Hs & Hh & Htx' & row & Hd);
    try done.
  cbn zeta. rewrite Hs, list.last_snoc, bool_decide_eq_true_2 by done.
  set (w' := (handled _ _ _ _ _ _).2) in *.
  pose proof (delivered_balanced w w' b rest id ids j row Hl Hb Hn Hnd Hids Hj Hst Hd Htx') as Hb'.
  split_and!; [done|done| | |].
  - apply list.NoDup_cons in Hnd as [Hnin _]. destruct Hd as [Hjobs _ Hend]. cbn in Hjobs.
    pose proof (other_messages (w_db w) (w_db w') id row rest ids Hjobs Hn' Hnin) as Ho.
    assert (Hb0 : message_deliveries (w_db w) b = deliveries_left j).
    { unfold message_deliveries. by rewrite Hp, Hj. }
    unfold deliveries_needed. rewrite Ew. cbn [fmap list_fmap sum_list]. rewrite Hb0.
    pose proof (deliveries_left_pos j).
    destruct Hend as [[_ Hq]|(_ & Hless & Hq)].
    + unfold waiting. rewrite Hq. cbn. rewrite lookup_insert_eq. cbn. rewrite Ho. lia.
    + assert (Hbn : message_deliveries (w_db w') (requeue_body id) = deliveries_left row).
      { unfold message_deliveries. destruct (requeue_names id Hl Hv) as [-> _].
        by rewrite Hjobs, lookup_insert_eq. }
      rewrite Hq. unfold waiting. cbn [w_queues w0 set_queues]. rewrite lookup_insert_eq.
      change (default [] (Some rest)) with rest. rewrite fmap_app, Ho, sum_list_with_app.
      cbn -[message_deliveries requeue_body]. rewrite Hbn. lia.
  - rewrite (dj_jobs _ _ _ _ _ Hd). apply dom_insert_lookup_L. by exists j.
  - assert (Hw0 : waiting w0 = rest) by (unfold waiting; cbn; by rewrite lookup_insert_eq).
    destruct (dj_end _ _ _ _ _ Hd) as [[_ Hq]|(_ & _ & ->)].
    + replace (waiting w') with rest; [cbn; lia|]. rewrite <- Hw0. unfold waiting. by rewrite Hq.
    + rewrite Hw0, length_app. cbn. lia.
Qed.

Lemma deliveries_needed_pos w : balanced w -> waiting w <> [] -> (0 < deliveries_needed w)%nat.
Proof.
  intros [_ (ids & Hn & _ & Hids) _] Hne. unfold deliveries_needed.
  destruct (waiting w) as [|b rest]; [done|]. destruct ids as [|id ids]; [by inversion Hn|].
  destruct (proj1 (Hids id)) as (j & Hj & _); [left|].
  apply Forall2_cons_iff in Hn as [[Hp _] _]. cbn. unfold message_deliveries at 1.
  rewrite Hp, Hj. pose proof (deliveries_left_pos j). lia.
Qed.

Lemma drain_ends ts w :
  (2 <= limit)%nat -> Forall (fun t => Conforming (t_env t)) ts -> ~ unhealthy w ->
  balanced w -> (deliveries_needed w <= List.length ts)%nat ->
  balanced (drain w ts) /\ waiting (drain w ts) = [] /\
  dom (jobs (w_db (drain w ts))) = dom (jobs (w_db w)).
Proof.
  intros Hl. revert w. induction ts as [|t ts IH]; intros w Hts Hnu Hb Hlen.
  - split_and!; [done| |done]. destruct (waiting w) eqn:E; [done|].
    pose proof (deliveries_needed_pos w Hb). rewrite E in *. cbn in Hlen. assert (0 < 0)%nat; [|lia].
    eapply Nat.lt_le_trans; [|exact Hlen]. auto.
  - apply Forall_cons_iff in Hts as [Ht Hts].
    change (drain w (t :: ts)) with (drain (deliver w t) ts).
    destruct (waiting w) eqn:E.
    + assert (deliver w t = w) as -> by (unfold deliver; by rewrite E).
      apply IH; try done. unfold deliveries_needed. rewrite E. cbn. lia.
    + destruct (deliver_step w t Hl Ht Hnu Hb) as (Hb' & Hh & Hless & Hdom & _); [by rewrite E|].
      destruct (IH (deliver w t)) as (IH1 & IH2 & IH3); try done.
      * unfold unhealthy in *. by rewrite Hh.
      * cbn in Hlen. lia.
      * split_and!; [done..|]. by rewrite IH3.
Qed.

Lemma nothing_waits w : balanced w -> waiting w = [] ->
  forall id j, jobs (w_db w) !! id = Some j -> ended j.
Proof.
  intros [_ (ids & Hn & _ & Hids) Hrows] Hw id j Hj. rewrite Hw in Hn. inversion Hn; subst.
  destruct (Hrows id j Hj) as [Hq|He]; [|done].
  assert (Hin : id ∈ []) by (apply Hids; by exists j). by apply not_elem_of_nil in Hin.
Qed.

(** ** Requests *)

(** Everything a request needs works; the parser may fail. *)
Definition serving (w : world) : Prop :=
  let h := w_health w in
  h_sql h = Up /\ h_txn h = Up /\ h_mq h = Up /\ h_ack h = Up /\ h_s3 h = Up /\ h_ids h = Up.

Lemma serving_not_unhealthy w : serving w -> ~ unhealthy w.
Proof.
  intros (H1 & H2 & H3 & H4 & _). unfold unhealthy. rewrite H1, H2, H3, H4.
  by intros [H|[H|[H|H]]]; apply H.
Qed.

Lemma serving_no_trouble dto w :
  serving w -> (exists v, valid_uuid v /\ unused (w_db w) v) ->
  is_Some (accounts (w_db w) !! CreateJobDTO.account_id dto) -> ~ create_trouble dto w.
Proof.
  intros (H1 & H2 & H3 & H4 & H5 & H6) Hu [a Ha]. unfold create_trouble.
  rewrite H1, H2, H3, H5, H6, Ha. intros [H|[H|[H|[H|[H|[H|H]]]]]]; try done; by apply H.
Qed.

Lemma balanced_cached w c : balanced w -> balanced (set_cached w c).
Proof. intros [[] ? ?]. split; [by split|done..]. Qed.

(** A new job and its message. *)
Lemma created_balanced dto w i c c' :
  (2 <= limit)%nat -> balanced w -> ~ active_job dto (w_db w) ->
  jobs (w_db w) !! drawn_id i = None -> valid_uuid (drawn_id i) ->
  balanced (set_cached (published (declared (put_job (set_cached w c) (created_row dto i)) queue)
                          queue (job_body (created_row dto i))) c').
Proof.
  intros Hl [[Hwf Htx] (ids & Hn & Hnd & Hids) Hrows] Hna Hf Hv.
  set (w1 := put_job (set_cached w c) (created_row dto i)).
  pose proof (mq_frame_published w1 queue (job_body (created_row dto i)) c') as F.
  set (w' := set_cached _ c') in *.
  assert (Hjobs : jobs (w_db w') = <[drawn_id i := created_row dto i]> (jobs (w_db w)))
    by by rewrite (mq_db _ _ F).
  assert (Hw : waiting w' = (waiting w ++ [job_body (created_row dto i)])%list).
  { unfold waiting, w'. by rewrite published_queue. }
  assert (Hnin : drawn_id i ∉ ids).
  { intros (j & Hj & _)%Hids. congruence. }
  split.
  - split; [rewrite Hjobs; by apply wf_jobs_created|by rewrite (mq_tx _ _ F)].
  - exists (ids ++ [drawn_id i])%list. rewrite Hw. split_and!.
    + apply Forall2_app; [done|]. constructor; [|constructor]. split; [|done].
      by apply (parse_payload limit (job_dto (created_row dto i)) Hl).
    + apply list.NoDup_app. split_and!; [done| |apply NoDup_singleton].
      by intros k Hk ->%list_elem_of_singleton.
    + intros k. rewrite Hjobs, elem_of_app, list_elem_of_singleton, Hids. split.
      * intros [(j & Hj & Hst)| ->]; [|rewrite lookup_insert_eq; by eexists].
        exists j. by rewrite lookup_insert_ne by congruence.
      * intros (j & [[<- <-]|[_ Hj]]%lookup_insert_Some & Hst); [by right|left; by exists j].
  - intros k j. rewrite Hjobs, lookup_insert_Some.
    intros [[<- <-]|[_ Hj]]; [by left|by eapply Hrows].
Qed.

(** The messages that wait, and their bound from a world on. *)
Definition backlog (w : world) : Z := Z.of_nat (List.length (waiting w)).

Definition bounded_from (w w' : world) : Prop :=
  (backlog w' <= Z.max (BaseAppSettings.backpressure_threshold S) (backlog w))%Z.

Lemma bounded_trans w1 w2 w3 : bounded_from w1 w2 -> bounded_from w2 w3 -> bounded_from w1 w3.
Proof. unfold bounded_from. lia. Qed.

Lemma create_balanced env `{!Conforming env} n w dto :
  (2 <= limit)%nat -> serving w -> balanced w ->
  (exists v, valid_uuid v /\ unused (w_db w) v) ->
  is_Some (accounts (w_db w) !! CreateJobDTO.account_id dto) ->
  balanced (create_job env S n w dto).2 /\ w_health (create_job env S n w dto).2 = w_health w /\
  bounded_from w (create_job env S n w dto).2.
Proof.
  intros Hl Hs Hb Hu Ha. pose proof (create_job_result env S n w dto (bl_ready _ Hb)) as Hres.
  destruct (create_job env S n w dto) as [r w']. cbn [fst snd] in *.
  pose proof (serving_no_trouble dto w Hs Hu Ha) as Hnt.
  destruct Hres as [| |doc c|doc c|doc i c c' Hd Hup Hq Hna Hf Hid|]; try done;
    try by (split_and!; [done || by apply balanced_cached|done|apply Z.le_max_r]).
  split_and!; [by apply created_balanced|by rewrite (mq_health _ _ (mq_frame_published _ _ _ _))|].
  destruct Hq as [Hq|Hf']; [|by destruct Hs as (_ & _ & Hmq & _); rewrite Hmq in Hf'; destruct Hf'].
  unfold bounded_from, backlog, depth in *. unfold waiting at 1. rewrite published_queue.
  cbn [default from_option id]. rewrite length_app. unfold waiting.
  cbn [List.length put_job set_cached set_db w_queues]. lia.
Qed.

(** A request for an existing account, or a delivery. *)
Inductive serial : world -> world -> Prop :=
| SRequest env n w dto : Conforming env ->
    (exists v, valid_uuid v /\ unused (w_db w) v) ->
    is_Some (accounts (w_db w) !! CreateJobDTO.account_id dto) ->
    serial w (create_job env S n w dto).2
| SDelivery w t : Conforming (t_env t) -> serial w (deliver w t).

Lemma serial_step w w' :
  (2 <= limit)%nat -> serving w -> balanced w -> serial w w' ->
  balanced w' /\ w_health w' = w_health w /\ bounded_from w w'.
Proof.
  intros Hl Hs Hb Hstep. revert Hs Hb.
  destruct Hstep as [env n w dto Henv Hu Ha|w t Ht]; intros Hs Hb; [by apply create_balanced|].
  destruct (waiting w) eqn:E.
  - assert (deliver w t = w) as -> by (unfold deliver; by rewrite E).
    unfold bounded_from. split_and!; [done..|lia].
  - destruct (deliver_step w t Hl Ht) as (? & ? & _ & _ & Hlen); try done;
      [by apply serving_not_unhealthy|by rewrite E|].
    unfold bounded_from, backlog. split_and!; [done..|lia].
Qed.

Lemma serial_invariant w w' :
  (2 <= limit)%nat -> serving w -> balanced w -> rtc serial w w' ->
  serving w' /\ balanced w' /\ bounded_from w w'.
Proof.
  intros Hl Hs Hb Hrun. induction Hrun as [w|w w1 w' Hstep _ IH].
  { unfold bounded_from. split_and!; [done..|lia]. }
  destruct (serial_step w w1 Hl Hs Hb Hstep) as (Hb1 & Hh & H1).
  destruct IH as (IH1 & IH2 & IH3); [unfold serving in *; by rewrite Hh|done|].
  split_and!; [done..|by eapply bounded_trans].
Qed.
End delivery.

(** C9: in every sequence of requests and deliveries, while all services but the parser work,
    the queue holds exactly one message for every queued job and no other message, no job is
    left started between the deliveries, and a failed job has used up its attempts. *)
Theorem queue_matches_table S limit w w' :
  (2 <= limit)%nat -> serving w -> balanced S limit w -> rtc (serial S limit) w w' ->
  balanced S limit w'.
Proof. intros Hl Hs Hb Hrun. by apply (serial_invariant S limit w w' Hl Hs Hb Hrun). Qed.

(** C11: backpressure bounds the work that waits: in every sequence of requests and deliveries,
    while all services but the parser work, the queue and the queued jobs stay within the
    threshold, or within what waited at the start if that was more; retries do not add. *)
Theorem backpressure_bounds_queue S limit w w' :
  (2 <= limit)%nat -> serving w -> balanced S limit w -> rtc (serial S limit) w w' ->
  let bound := Z.max (BaseAppSettings.backpressure_threshold S) (backlog S w) in
  (backlog S w' <= bound)%Z /\
  exists queued, NoDup queued /\ (Z.of_nat (List.length queued) <= bound)%Z /\
    forall id, id ∈ queued <-> exists j, jobs (w_db w') !! id = Some j /\ Job.status j = QUEUED.
Proof.
  intros Hl Hs Hb Hrun bound.
  destruct (serial_invariant S limit w w' Hl Hs Hb Hrun) as (_ & [_ (ids & Hn & Hnd & Hids) _] & H).
  split; [exact H|]. exists ids. split_and!; [done| |done].
  apply Forall2_length in Hn. rewrite <- Hn. exact H.
Qed.

(** C8: while database and broker work, and whatever the storage and the parser do, delivering
    the messages of a balanced queue ends every job: after as many deliveries as the jobs have
    attempts left the queue is empty, no job is lost, and every job is completed or has failed
    with its attempts used up. *)
Theorem pipeline_drains S limit w ts :
  (2 <= limit)%nat -> Forall (fun t => Conforming (t_env t)) ts -> ~ unhealthy w ->
  balanced S limit w -> (deliveries_needed S limit w <= List.length ts)%nat ->
  let w' := drain S limit w ts in
  waiting S w' = [] /\ dom (jobs (w_db w')) = dom (jobs (w_db w)) /\
  forall id j, jobs (w_db w') !! id = Some j -> ended j.
Proof.
  intros Hl Hts Hnu Hb Hlen w'.
  destruct (drain_ends S limit ts w Hl Hts Hnu Hb Hlen) as (Hb' & Hw & Hdom).
  split_and!; [done..|]. by apply (nothing_waits S limit).
Qed.

(** ** Examples *)

(** A queued job whose message waits. *)
Definition queued_world (h : health) : world :=
  set_queues (demo_world h (one_job QUEUED 0)) {["jobs" := [requeue_body 7]]}.

Lemma queued_balanced h : balanced demo_settings 100 (queued_world h).
Proof.
  split.
  - destruct (demo_ready h QUEUED 0). by split.
  - exists [7%N]. split_and!.
    + constructor; [|constructor]. split; [exact demo_parse|done].
    + apply NoDup_singleton.
    + intros id. rewrite list_elem_of_singleton. cbn. unfold one_job.
      setoid_rewrite lookup_singleton_Some. split; [intros ->; by eexists|by intros (? & [<- _] & _)].
  - intros id j. cbn. unfold one_job. rewrite lookup_singleton_Some. intros [_ <-]. by left.
Qed.

Definition reference_turn (tag : N) : turn := Turn (reference (fun _ => true)) 0 tag.

Lemma reference_turns tags :
  Forall (fun t => Conforming (t_env t)) (reference_turn <$> tags).
Proof. induction tags; constructor; [apply _|done]. Qed.

(** The parser is down: three deliveries, and the job has failed. *)
Lemma pipeline_drains_witness :
  let w' := drain demo_settings 100 (queued_world parser_down) (reference_turn <$> [1; 2; 3])%N in
  waiting demo_settings w' = [] /\ forall id j, jobs (w_db w') !! id = Some j -> ended j.
Proof.
  destruct (pipeline_drains demo_settings 100 (queued_world parser_down)
    (reference_turn <$> [1; 2; 3])%N) as (Hq & _ & He).
  - lia.
  - apply reference_turns.
  - by intros [H|[H|[H|H]]]; apply H.
  - apply queued_balanced.
  - vm_compute. lia.
  - by split.
Defined.

Lemma queue_matches_table_witness :
  balanced demo_settings 100
    (deliver demo_settings 100 (queued_world parser_down) (reference_turn 1)).
Proof.
  apply (queue_matches_table demo_settings 100 (queued_world parser_down)).
  - lia.
  - by repeat split.
  - apply queued_balanced.
  - apply rtc_once. apply SDelivery. apply _.
Defined.

Lemma backpressure_bounds_queue_witness :
  (backlog demo_settings
     (deliver demo_settings 100 (queued_world parser_down) (reference_turn 1)) <= 24)%Z.
Proof.
  apply (backpressure_bounds_queue demo_settings 100 (queued_world parser_down)).
  - lia.
  - by repeat split.
  - apply queued_balanced.
  - apply rtc_once. apply SDelivery. apply _.
Defined.
