(* ===== verification/Results.v ===== *)
(** * The results of the pipeline

    Registering documents, uploading them, requesting jobs and delivering messages, in any
    order and under any failure: what the artifact rows, the objects and the completed jobs
    say of each other is true at all times.  Results are stored under keys that the document
    determines, so that processing a document again replaces its result. *)

From S2P Require Import Prelude PyStr PyUuid Json Dtos Exceptions Models Program.
From S2P Require Import Interfaces Settings Environment Container Logic Contracts.
From S2P Require Import Repositories Storage ApiServices Worker Wiring.
From S2P Require Import Specs ProcessingSpec ConsumerSpec ApiSpec.
From S2P Require Import Reference WorkerOutcomes Examples ApiTheorems WorkerTheorems.
From S2P Require Import Components.

Section results.
Context (S : BaseAppSettings.t) (limit : nat).
Abbreviation bucket := (BaseAppSettings.s3_bucket S).
Abbreviation queue := (BaseAppSettings.rabbitmq_queue S).
Abbreviation store := (gmap (string * string) bytes).

(** ** What happens *)

Definition with_health (w : world) (h : health) : world :=
  World (w_db w) (w_tx w) (w_objects w) (w_queues w) (w_cached w) (w_settled w) (w_inbox w)
    (w_stop w) (w_sent w) h.

(** The state of the services changes from one act to the next; any message may arrive, any
    number of times. *)
Inductive act : world -> world -> Prop :=
| Registers env n h w account_id : Conforming env ->
    act w (run env n (with_health w h)
             (open_session (ApiContainer.document_create S account_id))).2
| Uploads w id doc content : documents (w_db w) !! id = Some doc ->
    act w (set_objects w (<[(bucket, Document.object_key doc) := content]> (w_objects w)))
| Requests env n h w dto : Conforming env -> act w (create_job env S n (with_health w h) dto).2
| Delivers env n h w msg : Conforming env -> act w (handled env S limit n (with_health w h) msg).2.

(** ** The invariant *)

(** What the rows say is true. *)
Record truthful (d : tables) (o : store) : Prop := Truthful {
  tr_documents : document_keys d;
  (** One artifact per document and type, under the key of the account and the document,
      where an object is. *)
  tr_id k a : artifacts d !! k = Some a -> Artifact.id a = k;
  tr_one k1 k2 a1 a2 : artifacts d !! k1 = Some a1 -> artifacts d !! k2 = Some a2 ->
    Artifact.document_id a1 = Artifact.document_id a2 ->
    Artifact.artifact_type a1 = Artifact.artifact_type a2 -> k1 = k2;
  tr_key k a : artifacts d !! k = Some a ->
    exists doc, documents d !! Artifact.document_id a = Some doc /\
      Artifact.object_key a =
        ProcessingService.artifact_key (Document.account_id doc) (Artifact.document_id a);
  tr_object k a : artifacts d !! k = Some a -> is_Some (o !! (bucket, Artifact.object_key a));
  (** The job of an artifact is completed, and the document of a completed job has an
      artifact. *)
  tr_job k a : artifacts d !! k = Some a ->
    exists j, jobs d !! Artifact.job_id a = Some j /\ Job.status j = COMPLETED /\
      Job.document_id j = Artifact.document_id a;
  tr_completed id j : jobs d !! id = Some j -> Job.status j = COMPLETED ->
    exists k a, artifacts d !! k = Some a /\ Artifact.document_id a = Job.document_id j /\
      Artifact.artifact_type a = MARKDOWN
}.

(** The artifacts stay as they are: documents and objects are added, completed jobs stay and
    none is added. *)
Lemma truthful_frame d o d' o' :
  truthful d o -> document_keys d' -> documents d ⊆ documents d' -> artifacts d' = artifacts d ->
  (forall k, is_Some (o !! k) -> is_Some (o' !! k)) ->
  (forall id j, jobs d' !! id = Some j /\ Job.status j = COMPLETED <->
                jobs d !! id = Some j /\ Job.status j = COMPLETED) ->
  truthful d' o'.
Proof.
  intros [Hd Hid Hone Hkey Hobj Hjob Hcomp] Hd' Hsub Ha Ho Hj. split; rewrite ?Ha; try done.
  - intros k a H. destruct (Hkey k a H) as (doc & Hdoc & Hk). exists doc.
    split; [by eapply lookup_weaken|done].
  - intros k a H. by eapply Ho, Hobj.
  - intros k a H. destruct (Hjob k a H) as (j & H1 & H2 & H3). exists j.
    destruct (proj2 (Hj _ _) (conj H1 H2)). done.
  - intros id j H1 H2. destruct (proj1 (Hj _ _) (conj H1 H2)). by apply (Hcomp id).
Qed.

(** Only jobs change, and no completed one. *)
Lemma truthful_jobs d o d' o' :
  truthful d o -> documents d' = documents d -> artifacts d' = artifacts d ->
  (forall k, is_Some (o !! k) -> is_Some (o' !! k)) ->
  (jobs d' = jobs d \/ exists id r, jobs d' = <[id := r]> (jobs d) /\ Job.status r <> COMPLETED /\
     forall j, jobs d !! id = Some j -> Job.status j <> COMPLETED) ->
  truthful d' o'.
Proof.
  intros H Hd Ha Ho Hj. apply (truthful_frame d o); [done| |by rewrite Hd|done|done|].
  - intros k r. rewrite Hd. apply (tr_documents _ _ H).
  - destruct Hj as [->|(id & r & -> & Hr & Hold)]; [done|]. intros i j.
    rewrite lookup_insert_Some. split; [intros [[[<- <-]|[_ Hi]] Hs]; done|].
    intros [Hi Hs]. split; [right|done]. split; [|done]. intros <-. by destruct (Hold j).
Qed.

(** ** A result is stored *)

Lemma select_Some {A} (p : A -> bool) o x : select p o = Some x -> o = Some x /\ p x = true.
Proof. destruct o as [y|]; cbn; [|done]. destruct (p y) eqn:E; [|done]. by intros [= <-]. Qed.

Lemma upserts_replaces d o r a :
  truthful d o -> upserts d r a ->
  (Artifact.document_id a = Artifact.document_id r /\
   Artifact.artifact_type a = Artifact.artifact_type r /\
   Artifact.job_id a = Artifact.job_id r /\ Artifact.object_key a = Artifact.object_key r) /\
  forall k x, artifacts d !! k = Some x ->
    (Artifact.document_id x = Artifact.document_id r /\
     Artifact.artifact_type x = Artifact.artifact_type r <-> k = Artifact.id a).
Proof.
  intros H [Hv ->]. unfold upserted. destruct (upsert_target d r) as [old|] eqn:E.
  - pose proof (upsert_target_some _ _ _ E) as (k' & Hk' & [E1 E2]%same_artifact_key).
    split; [by split_and!|]. intros k x Hk. cbn. rewrite (tr_id _ _ H _ _ Hk'). split.
    + intros [F1 F2]. apply (tr_one _ _ H k k' x old); congruence.
    + intros ->. by simplify_eq.
  - split; [done|]. intros k x Hk. pose proof (upsert_target_none _ _ _ _ E Hk) as Hn.
    unfold same_artifact in Hn. split.
    + intros [F1 F2]. by rewrite F1, N.eqb_refl, bool_decide_eq_true_2 in Hn.
    + intros ->. unfold artifact_violations in Hv. rewrite E, Hk in Hv.
      by rewrite bool_decide_eq_true_2 in Hv by done.
Qed.

Lemma truthful_completed w job_id j a jc o' :
  truthful (w_db w) (w_objects w) -> wf_jobs (jobs (w_db w)) ->
  jobs (w_db w) !! job_id = Some j -> Job.status j = STARTED ->
  full_output bucket job_id w j a jc o' ->
  truthful (apply_writes (w_db w) [WArtifact a; WJob jc]) o'.
Proof.
  intros H Hwf Hj Hst (_&_&doc&content&md&b&i&t&t'&Hdoc&_&_&->&Hup&->).
  destruct (upserts_replaces _ _ _ _ H Hup) as ((Ad & At & Aj & Ak) & Hrep). cbn in Ad, At, Aj, Ak.
  apply select_Some in Hdoc as [Hdoc Hacc%Z.eqb_eq].
  destruct (tr_documents _ _ H _ _ Hdoc) as (_ & Hdid & _).
  assert (Hjid : Job.id (moved j COMPLETED None t t') = job_id)
    by (rewrite <- (wf_jobs_id _ Hwf _ _ Hj); by destruct j).
  assert (Hjd : Job.document_id (moved j COMPLETED None t t') = Job.document_id j) by by destruct j.
  assert (Hjs : Job.status (moved j COMPLETED None t t') = COMPLETED) by by destruct j.
  cbn. rewrite Hjid. set (jc := moved j COMPLETED None t t') in *. split; cbn.
  - apply (tr_documents _ _ H).
  - intros k x. rewrite lookup_insert_Some. intros [[<- <-]|[_ Hx]]; [done|by eapply tr_id].
  - intros k1 k2 a1 a2. rewrite !lookup_insert_Some.
    intros [[<- <-]|[N1 H1]] [[<- <-]|[N2 H2]] Ed Et; [done| | |by eapply tr_one].
    + symmetry. apply (proj1 (Hrep _ _ H2)). split; cbn; congruence.
    + apply (proj1 (Hrep _ _ H1)). split; cbn; congruence.
  - intros k x. rewrite lookup_insert_Some. intros [[<- <-]|[_ Hx]]; [|by eapply tr_key].
    exists doc. rewrite Ad, Ak. split; [done|]. unfold output_key. congruence.
  - intros k x. rewrite lookup_insert_Some, lookup_insert_is_Some'.
    intros [[<- <-]|[_ Hx]]; [left; by rewrite Ak|right; by eapply tr_object].
  - intros k x. rewrite lookup_insert_Some. intros [[<- <-]|[_ Hx]].
    + exists jc. rewrite Aj, Ad. by rewrite lookup_insert_eq.
    + destruct (tr_job _ _ H _ _ Hx) as (j0 & Hj0 & Hs0 & Hd0). exists j0.
      rewrite lookup_insert_ne; [done|]. intros E. rewrite <- E in Hj0. congruence.
  - intros id x. rewrite lookup_insert_Some. intros [[<- <-]|[_ Hx]] Hs.
    + exists (Artifact.id a), a. rewrite lookup_insert_eq. split_and!; congruence.
    + destruct (tr_completed _ _ H _ _ Hx Hs) as (k & a0 & Ha0 & Hd0 & Ht0).
      destruct (decide (k = Artifact.id a)) as [->|Hne].
      * exists (Artifact.id a), a. rewrite lookup_insert_eq.
        destruct (proj2 (Hrep _ _ Ha0) eq_refl) as [E1 E2]. cbn in E1. split_and!; congruence.
      * exists k, a0. by rewrite lookup_insert_ne.
Qed.

(** ** Deliveries *)

Lemma claimed_truthful w j job_id t t' o' :
  truthful (w_db w) (w_objects w) -> wf_jobs (jobs (w_db w)) ->
  jobs (w_db w) !! job_id = Some j -> Job.status j = QUEUED ->
  (forall k, is_Some (w_objects w !! k) -> is_Some (o' !! k)) ->
  truthful (w_db (put_job w (claimed j t t'))) o'.
Proof.
  intros H Hwf Hj Hst Ho. apply (truthful_jobs (w_db w) (w_objects w)); [done..|].
  right. exists (Job.id (claimed j t t')), (claimed j t t'). split; [done|].
  rewrite claimed_id, (wf_jobs_id _ Hwf _ _ Hj). split; [by destruct j|].
  intros j0 Hj0. congruence.
Qed.

Lemma failure_objects id n mx x w j r w' :
  failure_result queue id n mx x w j r w' -> w_objects w' = w_objects w.
Proof.
  intros [| |t t' c|t t' ? ? ? ? Ho|? ? ? [->|(_&t&t'&[->|[_ Ho]])]]; try done.
  - exact (mq_objects _ _ (mq_frame_published (put_job w (failure_row n mx x j t t')) _ _ _)).
  - exact (mq_objects _ _ (mq_frame_outcome _ _ _ _ Ho)).
  - exact (mq_objects _ _ (mq_frame_outcome _ _ _ _ Ho)).
Qed.

Lemma failure_truthful id n mx x w j r w' :
  failure_result queue id n mx x w j r w' -> truthful (w_db w) (w_objects w) ->
  jobs (w_db w) !! Job.id j = Some j -> truthful (w_db w') (w_objects w').
Proof.
  intros Hf H Hj. rewrite (failure_objects _ _ _ _ _ _ _ _ Hf).
  destruct (failure_jobs _ _ _ _ _ _ _ _ _ Hf) as [->|(Hst & t & t' & ->)]; [done|].
  apply (truthful_jobs (w_db w) (w_objects w)); [done..|]. right.
  exists (Job.id (failure_row n mx x j t t')), (failure_row n mx x j t t'). split; [done|].
  rewrite failure_row_id. split.
  - unfold failure_row, failure_status. by destruct (_ <? _)%Z, j.
  - intros j0 Hj0. congruence.
Qed.

(** The world that the session of [process] leaves. *)
Lemma attempt_truthful w j job_id t t' jr wr :
  truthful (w_db w) (w_objects w) -> wf_jobs (jobs (w_db w)) ->
  jobs (w_db w) !! job_id = Some j -> Job.status j = QUEUED ->
  attempt bucket job_id (put_job w (claimed j t t')) (claimed j t t') jr wr ->
  truthful (w_db wr) (w_objects wr) /\ jobs (w_db wr) !! Job.id jr = Some jr.
Proof.
  intros H Hwf Hj Hst Hat. pose proof (wf_jobs_id _ Hwf _ _ Hj) as Hid.
  assert (Hcl : jobs (w_db (put_job w (claimed j t t'))) !! job_id = Some (claimed j t t')).
  { rewrite <- Hid, <- (claimed_id j t t'). apply put_job_lookup. }
  destruct Hat as [o Ho|a jc o Hout].
  - split; [|by rewrite claimed_id, Hid].
    apply (claimed_truthful w j job_id); [done..|]. intros k Hk.
    destruct Ho as [->|(doc & content & _ & ->)]; [done|].
    apply lookup_insert_is_Some'. by right.
  - split.
    + apply (truthful_completed (put_job w (claimed j t t')) job_id (claimed j t t')); try done.
      * by apply (claimed_truthful w j job_id).
      * pose proof (wf_jobs_replace _ _ _ _ Hwf Hj
          (handled_row_replaces _ _ Hst (RowClaimed j t t'))) as Hw. exact Hw.
      * by destruct j.
    + cbn. by rewrite lookup_insert_eq.
Qed.

Lemma handle_result_truthful job_id tag w r w' :
  handle_result bucket queue job_id tag w r w' -> wf_jobs (jobs (w_db w)) ->
  truthful (w_db w) (w_objects w) -> truthful (w_db w') (w_objects w').
Proof.
  intros Hres Hwf H.
  destruct Hres as [Hn|j Hj Hst Hf|j t t' a jc o Hj Hst Hwk Ho|j t t' jr wr x w2 Hj Hst Hwk Hat _ Hr
         |y w2 Hu [|Hn|Hf|j t t' Hj Hst|j t t' jr wr x r2 w3 Hj Hst Hwk Hat Hr]]; try done.
  - by destruct (attempt_truthful w j job_id t t' _ _ H Hwf Hj Hst (AT_completed _ _ _ _ _ _ _ Ho)).
  - destruct (attempt_truthful w j job_id t t' _ _ H Hwf Hj Hst Hat) as [Hwr Hjr].
    exact (failure_truthful _ _ _ _ _ _ _ _ Hr Hwr Hjr).
  - by apply (claimed_truthful w j job_id).
  - destruct (attempt_truthful w j job_id t t' _ _ H Hwf Hj Hst Hat) as [Hwr Hjr].
    exact (failure_truthful _ _ _ _ _ _ _ _ Hr Hwr Hjr).
Qed.

(** A message without a job id changes no row and no object. *)
Lemma handled_otherwise env `{!Conforming env} n w msg :
  (forall id, RabbitMQConsumer.parse_job_id limit (msg_body msg) <> Ok (Some id)) ->
  let w' := (handled env S limit n w msg).2 in w' = w \/ w' = settle w (msg_tag msg) Acked.
Proof.
  intros Hp. apply (wp_run env _ (fun _ w' => w' = w \/ w' = settle w (msg_tag msg) Acked) n w).
  destruct (RabbitMQConsumer.parse_job_id limit (msg_body msg)) as [[id|]|x] eqn:E.
  - by destruct (Hp id).
  - apply (consumer_poison_spec (fun _ _ => True) S limit msg); auto.
  - apply (consumer_raise_spec (fun _ _ => True) S limit msg x); auto.
Qed.

(** ** Requests *)

(** At most one job is written, which is queued and new. *)
Lemma create_result_frame threshold dto w r w' :
  create_result bucket queue threshold dto w r w' ->
  exists w0, mq_frame w0 w' /\
    (w0 = w \/ ~ active_job dto (w_db w) /\ exists i c, jobs (w_db w) !! drawn_id i = None /\
       w0 = put_job (set_cached w c) (created_row dto i)).
Proof.
  intros [| |doc c|doc c|doc i c c' Hd Hup Hq Ha Hf Hid|y w1 Ht (c & [->|(Ha & i & Hf & Hw)])].
  - exists w. by split; [|left].
  - exists w. by split; [|left].
  - exists w. split; [apply mq_frame_cached|by left].
  - exists w. split; [apply mq_frame_cached|by left].
  - eexists. split; [apply mq_frame_published|]. right. split; [done|]. by exists i, c.
  - exists w. split; [apply mq_frame_cached|by left].
  - exists (put_job (set_cached w c) (created_row dto i)).
    split; [|right; split; [done|]; by exists i, c].
    destruct Hw as [->|Ho]; [done|by eapply mq_frame_outcome].
Qed.

(** ** All acts *)

Record sound (w : world) : Prop := Sound {
  so_ready : ready w;
  so_truthful : truthful (w_db w) (w_objects w)
}.

Lemma sound_with_health w h : sound w -> sound (with_health w h).
Proof. by intros [[] ?]. Qed.

Lemma register_sound env `{!Conforming env} n w acc :
  sound w -> sound (run env n w (open_session (ApiContainer.document_create S acc))).2.
Proof.
  intros Hs. pose proof Hs as [[Hwf Htx] H].
  assert (Hput : forall u t, uuid4_doc (h_ids (w_health w)) (w_db w) u ->
    document_violations (w_db w) (new_document acc u t) = [] ->
    sound (put_document w (new_document acc u t))).
  { intros u t [Hu _] Hv. split; [by split|]. apply (truthful_frame (w_db w) (w_objects w)); try done.
    - apply document_keys_insert; [apply (tr_documents _ _ H)|done].
    - apply insert_subseteq. unfold document_violations in Hv.
      destruct (documents (w_db w) !! u) eqn:E; [|done]. cbn in Hv. rewrite E in Hv.
      by rewrite bool_decide_eq_true_2 in Hv by done. }
  apply (wp_run env _ (fun _ w' => sound w') n w). unfold ApiContainer.document_create.
  apply (document_create_spec (fun _ _ => True) (S3StorageService._client (ApiContainer.s3 S))
           (BaseAppSettings.s3_bucket S)); try apply _; try done.
  - intros _ _ u t url. apply Hput.
  - intros x u t Hu _. by apply Hput.
Qed.

Lemma request_sound env `{!Conforming env} n w dto :
  sound w -> sound (create_job env S n w dto).2.
Proof.
  intros [Hr H]. pose proof Hr as [Hwf Htx].
  destruct (create_result_frame _ _ _ _ _ (create_job_result env S n w dto Hr))
    as (w0 & F & Hw0). set (w' := (create_job env S n w dto).2) in *.
  split; [split|]; rewrite ?(mq_db _ _ F), ?(mq_tx _ _ F), ?(mq_objects _ _ F);
    destruct Hw0 as [->|(Hna & i & c & Hf & ->)]; try done.
  - by apply wf_jobs_created.
  - apply (truthful_jobs (w_db w) (w_objects w)); try done. right.
    exists (drawn_id i), (created_row dto i). split_and!; [done..|]. intros j Hj. congruence.
Qed.

Lemma delivery_sound env `{!Conforming env} n w msg :
  sound w -> sound (handled env S limit n w msg).2.
Proof.
  intros [Hr H].
  destruct (RabbitMQConsumer.parse_job_id limit (msg_body msg)) as [[id|]|x] eqn:E.
  - pose proof (handled_result env S limit n w msg id Hr E) as Hres. split.
    + by eapply handle_result_ready.
    + eapply handle_result_truthful; [exact Hres|by destruct Hr|done].
  - destruct (handled_otherwise env n w msg) as [->| ->]; [by rewrite E|done|].
    destruct Hr. by split.
  - destruct (handled_otherwise env n w msg) as [->| ->]; [by rewrite E|done|].
    destruct Hr. by split.
Qed.

Lemma act_sound w w' : act w w' -> sound w -> sound w'.
Proof.
  intros Hact Hs.
  destruct Hact as [env n h w acc He|w id doc content Hd|env n h w dto He|env n h w msg He].
  - by apply register_sound, sound_with_health.
  - destruct Hs as [[] H]. split; [done|]. eapply truthful_frame; [exact H|..]; try done.
    + apply (tr_documents _ _ H).
    + intros k Hk. apply lookup_insert_is_Some'. by right.
  - by apply request_sound, sound_with_health.
  - by apply delivery_sound, sound_with_health.
Qed.
End results.

(** C10: whatever is registered, uploaded, requested and delivered, in any order, with any
    messages and under any failure of the services: every document keeps the key of its
    account and id; it has at most one artifact of a type, stored under the key of the account
    and the document, where an object is, by a job that is completed; and the document of
    every completed job has its Markdown. *)
Theorem results_stay_truthful S limit w w' :
  sound S w -> rtc (act S limit) w w' -> sound S w'.
Proof. intros Hs Hrun. induction Hrun; [done|]. eauto using act_sound. Qed.

(** ** Examples *)

Lemma demo_sound h js :
  ready (demo_world h js) -> (forall id j, js !! id = Some j -> Job.status j <> COMPLETED) ->
  sound demo_settings (demo_world h js).
Proof.
  intros Hr Hjs. split; [done|].
  assert (Hno : forall k a, artifacts (w_db (demo_world h js)) !! k = Some a -> False)
    by (intros k a; cbn; by rewrite lookup_empty).
  split; try by (intros; exfalso; eauto).
  - intros k r. cbn. rewrite lookup_singleton_Some. by intros [<- <-].
  - intros id j Hj Hc. by destruct (Hjs id j Hj).
Qed.

(** A delivery while the parser is down, and one more when it is up again. *)
Definition retried_world : world :=
  let deliver h w := (handled (reference (fun _ => true)) demo_settings 100 0 (with_health w h)
                        (Message 1 (requeue_body 7))).2 in
  deliver all_up (deliver parser_down (demo_world all_up (one_job QUEUED 0))).

Lemma results_stay_truthful_witness :
  (exists k a, artifacts (w_db retried_world) !! k = Some a /\ Artifact.job_id a = 7%N) /\
  sound demo_settings retried_world.
Proof.
  split.
  - exists 0%N. eexists. split; [vm_compute; reflexivity|done].
  - apply (results_stay_truthful demo_settings 100 (demo_world all_up (one_job QUEUED 0))).
    + apply demo_sound; [apply demo_ready|]. intros id j. unfold one_job.
      rewrite lookup_singleton_Some. by intros [_ <-].
    + eapply rtc_l; [apply Delivers, _|]. apply rtc_once. apply Delivers, _.
Defined.
