(* ===== verification/Providers.v ===== *)
(** * The objects of a process ([api/core/providers.py], the two containers)

    What the containers construct, which object refers to which, and the caches in front of
    the container of the API.  [Wiring] gives the methods of the services; here are the
    instances that carry them: how many there are, and who is given which. *)

From S2P Require Import Prelude PyUuid Dtos Exceptions Models Program Interfaces.
From S2P Require Import Settings Container Repositories Storage Messaging ApiServices.
From S2P Require Import Worker Wiring Tool.

(** ** Objects *)

(** An object is named by its place in the heap. *)
Abbreviation ref := nat.

(** A constructor per class, with the attributes that [__init__] sets from its arguments.
    The attributes that change ([_connection] of the messaging service, the stop event and
    the task of the consumer) belong to the world in which their methods run. *)
Inductive object : Type :=
| OAccountRepository
| ODocumentRepository
| OJobRepository
| OArtifactRepository
| ORabbitMQMessagingService (_url : string)
| OS3StorageService (_clients : S3StorageService.t)
| OAccountService (_repo : ref)
| ODocumentService (_repo _storage : ref)
| OJobService (_repo _document_repo _messaging _storage : ref) (_queue : string)
    (_backpressure_threshold : Z)
| OArtifactService (_repo _storage _document_repo : ref)
| OPyMuPDFParser
| OProcessingService (_job_repo _document_repo _artifact_repo _storage _parser : ref)
| ORabbitMQConsumer (_processing_service _messaging _job_repo : ref) (_url _queue : string).

Abbreviation heap := (list object).

Definition new (o : object) : tool exn heap ref := fun h => (Ok (List.length h), (h ++ [o])%list).

(** The constructors: the arguments become attributes.  The consumer is given its container
    too, for the sessions it opens, which are [Container.open_session]. *)
Definition new_messaging_service (url : string) : tool exn heap ref :=
  new (ORabbitMQMessagingService url).
Definition new_account_service (account_repo : ref) : tool exn heap ref :=
  new (OAccountService account_repo).
Definition new_document_service (document_repo storage : ref) : tool exn heap ref :=
  new (ODocumentService document_repo storage).
Definition new_job_service (job_repo document_repo messaging storage : ref) (queue : string)
    (backpressure_threshold : Z) : tool exn heap ref :=
  new (OJobService job_repo document_repo messaging storage queue backpressure_threshold).
Definition new_artifact_service (artifact_repo storage document_repo : ref)
  : tool exn heap ref :=
  new (OArtifactService artifact_repo storage document_repo).
Definition new_processing_service (job_repo document_repo artifact_repo storage parser : ref)
  : tool exn heap ref :=
  new (OProcessingService job_repo document_repo artifact_repo storage parser).
Definition new_consumer (processing_service messaging job_repo : ref) (url queue : string)
  : tool exn heap ref :=
  new (ORabbitMQConsumer processing_service messaging job_repo url queue).

Section storage.
(** [boto3.client]: whether it makes the clients of a storage service. *)
Context (boto3_client : S3StorageService.t -> result exn unit).

(** [S3StorageService(...)], with the attributes that [init] computes. *)
Definition new_storage (s : S3StorageService.t) : tool exn heap ref :=
  match boto3_client s with Ok _ => new (OS3StorageService s) | Exn x => raise x end.
End storage.

(** ** The container of the API ([api/core/container.py]) *)

Module Api.
Section container.
Context (_settings : BaseAppSettings.t) (boto3_client : S3StorageService.t -> result exn unit).

Definition account_repository : tool exn heap ref := new OAccountRepository.
Definition document_repository : tool exn heap ref := new ODocumentRepository.
Definition job_repository : tool exn heap ref := new OJobRepository.
Definition artifact_repository : tool exn heap ref := new OArtifactRepository.

Definition messaging_service : tool exn heap ref :=
  new_messaging_service (BaseAppSettings.rabbitmq_url _settings).

Definition storage_service : tool exn heap ref :=
  new_storage boto3_client (ApiContainer.s3 _settings).

Definition account_service : tool exn heap ref :=
  account_repo ← account_repository; new_account_service account_repo.

Definition document_service : tool exn heap ref :=
  document_repo ← document_repository;
  storage ← storage_service;
  new_document_service document_repo storage.

Definition job_service : tool exn heap ref :=
  job_repo ← job_repository;
  document_repo ← document_repository;
  messaging ← messaging_service;
  storage ← storage_service;
  new_job_service job_repo document_repo messaging storage
    (BaseAppSettings.rabbitmq_queue _settings)
    (BaseAppSettings.backpressure_threshold _settings).

Definition artifact_service : tool exn heap ref :=
  artifact_repo ← artifact_repository;
  storage ← storage_service;
  document_repo ← document_repository;
  new_artifact_service artifact_repo storage document_repo.
End container.
End Api.

(** ** The container of the worker ([worker/core/container.py]) *)

Module WorkerProcess.
Section container.
Context (_settings : BaseAppSettings.t) (boto3_client : S3StorageService.t -> result exn unit).

Definition job_repository : tool exn heap ref := new OJobRepository.
Definition artifact_repository : tool exn heap ref := new OArtifactRepository.
Definition document_repository : tool exn heap ref := new ODocumentRepository.

Definition storage_service : tool exn heap ref :=
  new_storage boto3_client (WorkerContainer.s3 _settings).

Definition parser : tool exn heap ref := new OPyMuPDFParser.

Definition messaging_service : tool exn heap ref :=
  new_messaging_service (BaseAppSettings.rabbitmq_url _settings).

Definition processing_service : tool exn heap ref :=
  job_repo ← job_repository;
  document_repo ← document_repository;
  artifact_repo ← artifact_repository;
  storage ← storage_service;
  parser ← parser;
  new_processing_service job_repo document_repo artifact_repo storage parser.

Definition consumer : tool exn heap ref :=
  processing_service ← processing_service;
  messaging ← messaging_service;
  job_repo ← job_repository;
  new_consumer processing_service messaging job_repo
    (BaseAppSettings.rabbitmq_url _settings) (BaseAppSettings.rabbitmq_queue _settings).
End container.
End WorkerProcess.

(** ** The providers ([api/core/providers.py]) *)

(** The functions under [lru_cache]. *)
Inductive provider : Type :=
| get_account_repo | get_document_repo | get_job_repo | get_artifact_repo
| get_messaging_service | get_storage_service
| get_account_service | get_document_service | get_job_service | get_artifact_service.

#[export] Instance provider_eq_dec : EqDecision provider.
Proof. solve_decision. Defined.

(** The caches of the process: each holds at most the one value of its function, which has
    no arguments. *)
Record process : Type := Process {
  objects : heap;
  cached : provider -> option ref;
  (** Calls that found their cache empty: the thread, the function and the value it
      computed, which is not stored yet. *)
  computing : list (nat * provider * ref)
}.

Definition set_objects (st : process) (h : heap) : process :=
  Process h (cached st) (computing st).

Definition store (st : process) (p : provider) (r : ref) : process :=
  Process (objects st)
    (fun q => if decide (q = p) then match cached st p with Some r0 => Some r0 | None => Some r end
              else cached st q)
    (computing st).

Section providers.
Context (_settings : BaseAppSettings.t) (boto3_client : S3StorageService.t -> result exn unit).

(** The body of each provider: a method of the container. *)
Definition body (p : provider) : tool exn heap ref :=
  match p with
  | get_account_repo => Api.account_repository
  | get_document_repo => Api.document_repository
  | get_job_repo => Api.job_repository
  | get_artifact_repo => Api.artifact_repository
  | get_messaging_service => Api.messaging_service _settings
  | get_storage_service => Api.storage_service _settings boto3_client
  | get_account_service => Api.account_service
  | get_document_service => Api.document_service _settings boto3_client
  | get_job_service => Api.job_service _settings boto3_client
  | get_artifact_service => Api.artifact_service _settings boto3_client
  end.

(** A call of a provider while no other thread calls one: an exception is not cached. *)
Definition provide (p : provider) : tool exn process ref := fun st =>
  match cached st p with
  | Some r => (Ok r, st)
  | None =>
      match body p (objects st) with
      | (Ok r, h) => (Ok r, store (set_objects st h) p r)
      | (Exn x, h) => (Exn x, set_objects st h)
      end
  end.

(** Calls of several threads.  FastAPI runs these functions in a thread pool, and
    [lru_cache] holds no lock while it computes: a call that finds the cache empty computes
    a value of its own, stores it unless another call has stored one, and returns its own.
    Each step gives the values it returns.  The objects that overlapping calls construct are
    distinct, so that a call may construct all of its own at once. *)
Inductive step : process -> list (provider * ref) -> process -> Prop :=
| CacheHit st p r : cached st p = Some r -> step st [(p, r)] st
| CacheMiss st t p r h :
    cached st p = None -> t ∉ (computing st).*1.*1 -> body p (objects st) = (Ok r, h) ->
    step st [] (Process h (cached st) ((t, p, r) :: computing st))
| CallFails st p x h :
    cached st p = None -> body p (objects st) = (Exn x, h) -> step st [] (set_objects st h)
| CallEnds st t p r before after :
    computing st = (before ++ (t, p, r) :: after)%list ->
    step st [(p, r)]
      (Process (objects st) (cached (store st p r)) (before ++ after)).

(** A sequence of steps, with what the calls returned. *)
Inductive serves : process -> list (provider * ref) -> process -> Prop :=
| ServesNone st : serves st [] st
| ServesStep st rs st1 rs' st' :
    step st rs st1 -> serves st1 rs' st' -> serves st (rs ++ rs') st'.
End providers.

(** The process when it starts. *)
Definition started : process := Process [] (fun _ => None) [].

(** ** What an object does *)

(** An object as its clients see it: the methods of its interface. *)
Inductive instance : Type :=
| AccountRepositoryI (i : IAccountRepository)
| DocumentRepositoryI (i : IDocumentRepository)
| JobRepositoryI (i : IJobRepository)
| ArtifactRepositoryI (i : IArtifactRepository)
| MessagingI (i : IMessagingService)
| StorageI (i : IStorageService)
| AccountServiceI (i : IAccountService)
| DocumentServiceI (i : IDocumentService)
| JobServiceI (i : IJobService)
| ArtifactServiceI (i : IArtifactService).

(** The object at [r] as [f] sees it. *)
Definition at_ {A} (f : object -> option A) (h : heap) (r : ref) : option A := h !! r ≫= f.

Definition as_account_repository : heap -> ref -> option IAccountRepository :=
  at_ (fun o => match o with OAccountRepository => Some AccountRepository.repository | _ => None end).
Definition as_document_repository : heap -> ref -> option IDocumentRepository :=
  at_ (fun o => match o with ODocumentRepository => Some DocumentRepository.repository | _ => None end).
Definition as_job_repository : heap -> ref -> option IJobRepository :=
  at_ (fun o => match o with OJobRepository => Some JobRepository.repository | _ => None end).
Definition as_artifact_repository : heap -> ref -> option IArtifactRepository :=
  at_ (fun o => match o with OArtifactRepository => Some ArtifactRepository.repository | _ => None end).
Definition as_messaging : heap -> ref -> option IMessagingService :=
  at_ (fun o => match o with
                | ORabbitMQMessagingService url => Some (RabbitMQMessagingService.messaging url)
                | _ => None
                end).
Definition as_storage : heap -> ref -> option IStorageService :=
  at_ (fun o => match o with OS3StorageService s => Some (S3StorageService.storage s) | _ => None end).
Definition as_parser : heap -> ref -> option IDocumentParser :=
  at_ (fun o => match o with OPyMuPDFParser => Some PyMuPDFParser.parser | _ => None end).

(** The methods of an object, run with the objects its attributes refer to. *)
Definition instance_of (h : heap) (r : ref) : option instance :=
  o ← h !! r;
  match o with
  | OAccountRepository => AccountRepositoryI <$> as_account_repository h r
  | ODocumentRepository => DocumentRepositoryI <$> as_document_repository h r
  | OJobRepository => JobRepositoryI <$> as_job_repository h r
  | OArtifactRepository => ArtifactRepositoryI <$> as_artifact_repository h r
  | ORabbitMQMessagingService _ => MessagingI <$> as_messaging h r
  | OS3StorageService _ => StorageI <$> as_storage h r
  | OAccountService repo =>
      i ← as_account_repository h repo;
      Some (AccountServiceI {| account_authenticate := @AccountService.authenticate i |})
  | ODocumentService repo storage =>
      i ← as_document_repository h repo;
      s ← as_storage h storage;
      Some (DocumentServiceI {| document_service_create := @DocumentService.create i s;
                                document_service_get := @DocumentService.get i |})
  | OJobService repo document_repo messaging storage queue threshold =>
      i ← as_job_repository h repo;
      d ← as_document_repository h document_repo;
      m ← as_messaging h messaging;
      s ← as_storage h storage;
      Some (JobServiceI {| job_service_get := @JobService.get i;
                           job_service_create := @JobService.create i d m s queue threshold |})
  | OArtifactService repo storage document_repo =>
      i ← as_artifact_repository h repo;
      s ← as_storage h storage;
      d ← as_document_repository h document_repo;
      Some (ArtifactServiceI {| artifact_list_for_document :=
                                  @ArtifactService.list_for_document i s d |})
  | _ => None
  end.

(** [consumer().start]. *)
Definition start_of (limit : nat) (h : heap) (r : ref)
  : option (nat -> prog (RabbitMQConsumer.loop_state * option message)) :=
  o ← h !! r;
  match o with
  | ORabbitMQConsumer service messaging repo url queue =>
      p ← h !! service;
      match p with
      | OProcessingService jr dr ar st pa =>
          j ← as_job_repository h jr;
          d ← as_document_repository h dr;
          a ← as_artifact_repository h ar;
          s ← as_storage h st;
          parser ← as_parser h pa;
          m ← as_messaging h messaging;
          i ← as_job_repository h repo;
          Some (@RabbitMQConsumer.start (@ProcessingService.service j d a s parser) m i
                  url queue limit)
      | _ => None
      end
  | _ => None
  end.
