(* ===== verification/ProviderTheorems.v ===== *)
(** * Theorems about the objects of a process

    Every object the containers construct does what [Wiring] says, and the caches of
    [providers.py] hand out one instance from the first stored value on, however the calls
    of several threads overlap. *)

From S2P Require Import Prelude PyUuid Dtos Exceptions Models Program Interfaces.
From S2P Require Import Settings Container Repositories Storage Messaging ApiServices.
From S2P Require Import Worker Wiring Tool Providers Examples.

(** ** Objects stay *)

Lemma at_mono {A} (f : object -> option A) h h' r x :
  h `prefix_of` h' -> at_ f h r = Some x -> at_ f h' r = Some x.
Proof.
  unfold at_. intros Hh (o & Ho & Hf)%bind_Some. by rewrite (prefix_lookup_Some _ _ _ _ Ho Hh).
Qed.

Lemma at_new {A} (f : object -> option A) o h : at_ f (h ++ [o])%list (List.length h) = f o.
Proof. unfold at_. by rewrite lookup_app_r, Nat.sub_diag. Qed.

(** Follow an interface through a longer heap. *)
Ltac follow Hh :=
  unfold as_account_repository, as_document_repository, as_job_repository,
    as_artifact_repository, as_messaging, as_storage, as_parser in *;
  repeat match goal with
  | H : (?m ≫= _) = Some _ |- _ =>
      let E := fresh "E" in destruct m eqn:E; cbn [mbind option_bind] in H; [|discriminate H];
      apply (at_mono _ _ _ _ _ Hh) in E; rewrite E; cbn [mbind option_bind]
  | H : (_ <$> ?m) = Some _ |- _ =>
      let E := fresh "E" in destruct m eqn:E; cbn in H; [|discriminate H];
      apply (at_mono _ _ _ _ _ Hh) in E; rewrite E
  end; done.

Lemma instance_of_mono h h' r i :
  h `prefix_of` h' -> instance_of h r = Some i -> instance_of h' r = Some i.
Proof.
  intros Hh. unfold instance_of. intros (o & Ho & Hi)%bind_Some.
  rewrite (prefix_lookup_Some _ _ _ _ Ho Hh). cbn [mbind option_bind].
  destruct o; try done; follow Hh.
Qed.

(** ** What is constructed *)

(** The objects of a new list are found behind the old ones. *)
Lemma lookup_built h (l : heap) i : (h ++ l)%list !! (List.length h + i) = l !! i.
Proof. rewrite lookup_app_r by lia. f_equal. lia. Qed.

Lemma lookup_built_first h (l : heap) : (h ++ l)%list !! List.length h = l !! 0.
Proof. by rewrite <- (Nat.add_0_r (List.length h)), lookup_built. Qed.

Lemma app_extends (h l : heap) : h `prefix_of` (h ++ l)%list.
Proof. by exists l. Qed.

(** The program constructs an object that [f] sees as [v], and changes no other. *)
Definition builds {A} (m : tool exn heap ref) (f : heap -> ref -> option A) (v : A) : Prop :=
  forall h, match m h with
            | (Ok r, h') => h `prefix_of` h' /\ f h' r = Some v
            | (Exn _, h') => h `prefix_of` h'
            end.

(** Run a construction and look its objects up. *)
Ltac build :=
  intros h; cbn;
  unfold new, raise, mbind, tool_bind;
  rewrite ?length_app, <- ?app_assoc; cbn [List.length app]; rewrite <- ?Nat.add_assoc;
  cbn [Nat.add];
  lazymatch goal with |- _ /\ _ => split; [apply app_extends|] | _ => first [apply app_extends|reflexivity] end;
  unfold instance_of, start_of, as_account_repository, as_document_repository,
    as_job_repository, as_artifact_repository, as_messaging, as_storage, as_parser, at_;
  repeat (rewrite ?lookup_built, ?lookup_built_first; cbn).

Section built.
Context (S : BaseAppSettings.t) (boto3_client : S3StorageService.t -> result exn unit).

(** The methods that [Wiring] gives each provided object. *)
Definition wired (p : provider) : instance :=
  match p with
  | get_account_repo => AccountRepositoryI AccountRepository.repository
  | get_document_repo => DocumentRepositoryI DocumentRepository.repository
  | get_job_repo => JobRepositoryI JobRepository.repository
  | get_artifact_repo => ArtifactRepositoryI ArtifactRepository.repository
  | get_messaging_service => MessagingI (ApiContainer.messaging_service S)
  | get_storage_service => StorageI (ApiContainer.storage_service S)
  | get_account_service => AccountServiceI (ApiContainer.account_service)
  | get_document_service => DocumentServiceI (ApiContainer.document_service S)
  | get_job_service => JobServiceI (ApiContainer.job_service S)
  | get_artifact_service => ArtifactServiceI (ApiContainer.artifact_service S)
  end.

Lemma body_builds p : builds (body S boto3_client p) instance_of (wired p).
Proof.
  destruct p; unfold body, Api.account_service, Api.document_service, Api.job_service,
    Api.artifact_service, new_account_service, new_document_service, new_job_service,
    new_artifact_service, Api.storage_service, Api.messaging_service, new_messaging_service,
    Api.account_repository,
    Api.document_repository, Api.job_repository, Api.artifact_repository, new_storage;
    try destruct (boto3_client (ApiContainer.s3 S)); by build.
Qed.

(** The consumer of the worker is the one [Wiring] gives. *)
Lemma consumer_builds limit :
  builds (WorkerProcess.consumer S boto3_client) (start_of limit)
    (WorkerContainer.consumer_start S limit).
Proof.
  unfold WorkerProcess.consumer, WorkerProcess.processing_service,
    WorkerProcess.storage_service, WorkerProcess.messaging_service, WorkerProcess.parser,
    WorkerProcess.job_repository, WorkerProcess.document_repository,
    WorkerProcess.artifact_repository, new_processing_service, new_consumer,
    new_messaging_service, new_storage.
  destruct (boto3_client (WorkerContainer.s3 S)); by build.
Qed.

(** ** The caches *)

(** Every value that is stored or computed is an object with its wiring. *)
Record sound (st : process) : Prop := Sound {
  sd_cached p r : cached st p = Some r -> instance_of (objects st) r = Some (wired p);
  sd_computing t p r : (t, p, r) ∈ computing st -> instance_of (objects st) r = Some (wired p)
}.

Lemma sound_started : sound started.
Proof. split; [done|]. by intros t p r ?%not_elem_of_nil. Qed.

Lemma sound_grows st h c cs :
  objects st `prefix_of` h -> sound st ->
  (forall p r, c p = Some r -> cached st p = Some r \/ instance_of h r = Some (wired p)) ->
  (forall t p r, (t, p, r) ∈ cs -> (t, p, r) ∈ computing st \/ instance_of h r = Some (wired p)) ->
  sound (Process h c cs).
Proof.
  intros Hh [Hc Hr] Hc' Hr'. split; cbn.
  - intros p r [H|H]%Hc'; [|done]. by eapply instance_of_mono, Hc.
  - intros t p r [H|H]%Hr'; [|done]. by eapply instance_of_mono, Hr.
Qed.

(** A step constructs objects and changes none; what it returns is wired and is stored by
    then; a stored value stays; what it returns for a function whose value was stored is that
    value, or one that was being computed. *)
Record progress (st : process) (rs : list (provider * ref)) (st' : process) : Prop := Progress {
  pg_sound : sound st';
  pg_objects : objects st `prefix_of` objects st';
  pg_returned p r : (p, r) ∈ rs ->
    instance_of (objects st') r = Some (wired p) /\ is_Some (cached st' p);
  pg_stays p r : cached st p = Some r -> cached st' p = Some r;
  pg_computing p t r : is_Some (cached st p) -> (t, p, r) ∈ computing st' -> (t, p, r) ∈ computing st;
  pg_same p r r' : cached st p = Some r -> (p, r') ∈ rs ->
    r' = r \/ exists t, (t, p, r') ∈ computing st
}.

Lemma store_stays st p r q r0 : cached st q = Some r0 -> cached (store st p r) q = Some r0.
Proof. intros H. cbn. destruct (decide (q = p)) as [->|]; [by rewrite H|done]. Qed.

Lemma stored st p r : is_Some (cached (store st p r) p).
Proof. cbn. rewrite decide_True by done. by destruct (cached st p). Qed.

Lemma store_cases st p r q r0 :
  cached (store st p r) q = Some r0 -> cached st q = Some r0 \/ (q = p /\ r0 = r).
Proof.
  cbn. destruct (decide (q = p)) as [->|]; [|by left].
  destruct (cached st p); intros [= ->]; auto.
Qed.

Lemma step_progress st rs st' : sound st -> step S boto3_client st rs st' -> progress st rs st'.
Proof.
  intros Hs Hstep. pose proof Hs as [Hc Hr].
  destruct Hstep as [st p r H|st t p r h Hn Hf Hb|st p x h Hn Hb|st t p r before after Hcs].
  - split; try done.
    + by intros q q' [= -> ->]%list_elem_of_singleton; auto.
    + intros q r0 r' Hq [= -> ->]%list_elem_of_singleton. left. congruence.
  - pose proof (body_builds p (objects st)) as Hp. rewrite Hb in Hp. destruct Hp as [Hh Hi].
    split; try done; cbn.
    + apply (sound_grows st); [done..|auto|]. intros t' q r' [[= -> -> ->]|]%elem_of_cons; auto.
    + by intros q r' ?%not_elem_of_nil.
    + intros q t' r' [r0 Hq] [E|]%elem_of_cons; [|done]. simplify_eq.
    + by intros q r0 r' _ ?%not_elem_of_nil.
  - pose proof (body_builds p (objects st)) as Hp. rewrite Hb in Hp.
    split; try done; cbn.
    + apply (sound_grows st); auto.
    + by intros q r' ?%not_elem_of_nil.
    + by intros q r0 r' _ ?%not_elem_of_nil.
  - assert (Hin : (t, p, r) ∈ computing st) by (rewrite Hcs, elem_of_app, elem_of_cons; auto).
    assert (Hsub : forall c, c ∈ (before ++ after)%list -> c ∈ computing st)
      by (intros c; rewrite Hcs, !elem_of_app, elem_of_cons; tauto).
    split; cbn [objects computing]; try done.
    + apply (sound_grows st); [done..| |by auto].
      intros q r' [|[-> ->]]%store_cases; [by left|right]. by eapply Hr.
    + intros q r' [= -> ->]%list_elem_of_singleton. split; [by eapply Hr|apply stored].
    + intros q r0. apply store_stays.
    + auto.
    + intros q r0 r' Hq [= -> ->]%list_elem_of_singleton. right. by exists t.
Qed.

Lemma serves_progress st rs st' : sound st -> serves S boto3_client st rs st' -> progress st rs st'.
Proof.
  intros Hs Hrun. induction Hrun as [st|st rs st1 rs' st' Hstep _ IH].
  { split; try done; by intros ? ? ?%not_elem_of_nil || intros ? ? ? ? ?%not_elem_of_nil. }
  pose proof (step_progress _ _ _ Hs Hstep) as [Hs1 Ho1 Hr1 Ht1 Hc1 Hm1].
  destruct (IH Hs1) as [Hs2 Ho2 Hr2 Ht2 Hc2 Hm2]. split; [done|by etrans|..].
  - intros p r [H|H]%elem_of_app; [|by apply Hr2]. destruct (Hr1 _ _ H) as [Hi [r0 Hr0]].
    split; [by eapply instance_of_mono|]. exists r0. by apply Ht2.
  - auto.
  - intros p t r Hp H. apply Hc1; [done|]. apply Hc2; [|done]. destruct Hp as [r0 ?]. exists r0. auto.
  - intros p r r' Hp [H|H]%elem_of_app; [by eapply Hm1|].
    destruct (Hm2 p r r' (Ht1 _ _ Hp) H) as [|[t Ht]]; [by left|right].
    exists t. apply (Hc1 p t r'); [by exists r|done].
Qed.
End built.

(** C27: whatever calls of the providers overlap, in any order: every object they hand out has
    the methods [Wiring] gives it; once a call has returned a value of a provider, one value
    is stored for good; and every later call returns that one, except for the calls that were
    already computing their own when it was stored. *)
Theorem providers_settle S boto3_client st rs rs' st' :
  serves S boto3_client started rs st -> serves S boto3_client st rs' st' ->
  (forall p r, (p, r) ∈ (rs ++ rs')%list -> instance_of (objects st') r = Some (wired S p)) /\
  (forall p r, (p, r) ∈ rs -> exists r0, cached st p = Some r0 /\ cached st' p = Some r0 /\
     forall r', (p, r') ∈ rs' -> r' = r0 \/ exists t, (t, p, r') ∈ computing st).
Proof.
  intros H1 H2.
  destruct (serves_progress S boto3_client _ _ _ (sound_started S) H1) as [Hs Ho Hr _ _ _].
  destruct (serves_progress S boto3_client _ _ _ Hs H2) as [_ Ho' Hr' Ht _ Hm]. split.
  - intros p r [H|H]%elem_of_app; [|by apply Hr']. destruct (Hr _ _ H) as [Hi _].
    by eapply instance_of_mono.
  - intros p r H. destruct (Hr _ _ H) as [_ [r0 H0]]. exists r0. split_and!; [done|by apply Ht|].
    intros r' Hr0. by eapply Hm.
Qed.

(** ** One call at a time *)

Lemma provide_serves S boto3_client p st r st' :
  computing st = [] -> provide S boto3_client p st = (Ok r, st') ->
  serves S boto3_client st [(p, r)] st' /\ computing st' = [].
Proof.
  destruct st as [os c k]. cbn [computing]. intros ->. unfold provide.
  destruct (cached _ p) as [r0|] eqn:E.
  - intros [= -> <-]. split; [|done]. rewrite <- (app_nil_r [(p, r)]).
    eapply ServesStep; [by apply CacheHit|constructor].
  - destruct (body S boto3_client p _) as [[r0|x] h] eqn:Eb; [|done].
    intros [= -> <-]. split; [|done]. change [(p, r)] with ([] ++ ([(p, r)] ++ []))%list.
    eapply ServesStep; [apply (CacheMiss _ _ _ 0 p r h); [done|apply not_elem_of_nil|done]|].
    eapply ServesStep; [by apply (CallEnds _ _ _ 0 p r [])|]. constructor.
Qed.

(** ** Examples *)

(** Two threads call [get_job_service] in a new process before either has stored a value: they
    are given two services, each with a connection of its own to the broker; later calls are
    given the first to be stored. *)
Definition both_computing : process :=
  let job := get_job_service in
  Process
    [OJobRepository; ODocumentRepository; ORabbitMQMessagingService
       (BaseAppSettings.rabbitmq_url demo_settings); OS3StorageService (ApiContainer.s3 demo_settings);
     OJobService 0 1 2 3 (BaseAppSettings.rabbitmq_queue demo_settings)
       (BaseAppSettings.backpressure_threshold demo_settings);
     OJobRepository; ODocumentRepository; ORabbitMQMessagingService
       (BaseAppSettings.rabbitmq_url demo_settings); OS3StorageService (ApiContainer.s3 demo_settings);
     OJobService 5 6 7 8 (BaseAppSettings.rabbitmq_queue demo_settings)
       (BaseAppSettings.backpressure_threshold demo_settings)]
    (fun _ => None) [(2, job, 9); (1, job, 4)].

Abbreviation served := (serves demo_settings (fun _ => Ok tt)).

Definition first_stored : process :=
  Process (objects both_computing) (cached (store both_computing get_job_service 9))
    [(1, get_job_service, 4)].

Lemma overlapping_calls :
  served started [(get_job_service, 9)] first_stored /\
  served first_stored [(get_job_service, 4); (get_job_service, 9)]
    (Process (objects both_computing) (cached (store first_stored get_job_service 4)) []).
Proof.
  split.
  - change [(get_job_service, 9)] with ([] ++ ([] ++ ([(get_job_service, 9)] ++ [])))%list.
    eapply ServesStep; [by apply (CacheMiss _ _ started 1 get_job_service 4);
                        [|apply not_elem_of_nil|]|].
    eapply ServesStep; [apply (CacheMiss _ _ _ 2 get_job_service 9); [done| |done]|].
    { by intros ?%list_elem_of_singleton. }
    eapply ServesStep; [by apply (CallEnds _ _ _ 2 get_job_service 9 [])|].
    constructor.
  - change [(get_job_service, 4); (get_job_service, 9)]
      with ([(get_job_service, 4)] ++ ([(get_job_service, 9)] ++ []))%list.
    eapply ServesStep; [by apply (CallEnds _ _ _ 1 get_job_service 4 [])|].
    eapply ServesStep; [by apply CacheHit|].
    constructor.
Qed.

Lemma providers_settle_witness :
  let st' := Process (objects both_computing) (cached (store first_stored get_job_service 4)) [] in
  instance_of (objects st') 4 = Some (JobServiceI (ApiContainer.job_service demo_settings)) /\
  cached st' get_job_service = Some 9.
Proof.
  destruct overlapping_calls as [H1 H2].
  destruct (providers_settle demo_settings (fun _ => Ok tt) _ _ _ _ H1 H2) as [Hw Hs]. split.
  - apply (Hw get_job_service). apply elem_of_app. right. left.
  - destruct (Hs get_job_service 9) as (r0 & H0 & H' & _); [left|].
    rewrite H'. rewrite <- H0. by vm_compute.
Defined.
