(* ===== verification/Startup.v ===== *)
(** * Starting up ([shared/core/config.py], [shared/core/settings/], [shared/core/logging.py],
    [worker/main.py])

    The settings classes as the fields they declare, [get_settings] over the variables of
    the process and the entries of the dotenv files, the configuration of the logger, and
    the entry point of the worker.  How pydantic finds the value of a field is a parameter,
    with what is documented of it as its law ([PydanticSettings]). *)

From stdpp Require Import pretty.
From S2P Require Import Prelude PyStr PyText Exceptions Settings Program Interfaces.
From S2P Require Import Worker Wiring Environment.

(** ** The fields of the settings classes *)

Inductive field_type : Type := TStr | TInt | TOptStr.
Inductive field_value : Type := VStr (s : string) | VInt (z : Z) | VNone.

#[export] Instance field_type_eq_dec : EqDecision field_type.
Proof. solve_decision. Defined.

Record field : Type := Field {
  f_name : string; f_type : field_type; f_default : option field_value
}.

Definition fields (c : settings_class) : list field := [
  Field "app_env" TStr (Some (VStr AppEnvTypes.production));
  Field "log_level" TStr (Some (VStr (log_level_default c)));
  Field "log_format" TStr (Some (VStr (log_format_default c)));
  Field "postgres_host" TStr None;
  Field "postgres_port" TInt (Some (VInt 5432));
  Field "postgres_db" TStr None;
  Field "postgres_user" TStr None;
  Field "postgres_password" TStr None;
  Field "rabbitmq_user" TStr None;
  Field "rabbitmq_password" TStr None;
  Field "rabbitmq_host" TStr (Some (VStr "localhost"));
  Field "rabbitmq_port" TInt (Some (VInt 5672));
  Field "rabbitmq_queue" TStr (Some (VStr "jobs"));
  Field "backpressure_threshold" TInt (Some (VInt 24));
  Field "s3_bucket" TStr None;
  Field "aws_region" TStr (Some (VStr "us-east-1"));
  Field "s3_endpoint_url" TOptStr (Some VNone);
  Field "s3_public_endpoint_url" TOptStr (Some VNone);
  Field "s3_access_key" TOptStr (Some VNone);
  Field "s3_secret_key" TOptStr (Some VNone)
].

(** ** Where values come from *)

(** The variables of the process, and the entries of the files by name. *)
Record source : Type := Source {
  environ : list (string * string);
  dotenv : string -> list (string * string)
}.

(** The values of a class's fields, or a [ValidationError]. *)
Definition loader : Type := list field -> string -> source -> option (list (string * field_value)).

Section documented.
Context (lower : string -> string) (parse_int : string -> option Z).

(** The names are compared in lower case; of several the last counts. *)
Definition lookup_name (name : string) (vars : list (string * string)) : option string :=
  snd <$> List.find (fun v => String.eqb (lower v.1) name) (reverse vars).

(** A variable of the process goes before an entry of the file, and that before the
    default. *)
Definition field_text (file : string) (src : source) (name : string) : option string :=
  match lookup_name name (environ src) with
  | Some text => Some text
  | None => lookup_name name (dotenv src file)
  end.

Definition convert (ty : field_type) (text : string) : option field_value :=
  match ty with
  | TStr | TOptStr => Some (VStr text)
  | TInt => VInt <$> parse_int text
  end.

Definition field_load (file : string) (src : source) (f : field) : option (string * field_value) :=
  pair (f_name f) <$>
  match field_text file src (f_name f) with
  | Some text => convert (f_type f) text
  | None => f_default f
  end.

Definition documented_load : loader := fun fs file src => mapM (field_load file src) fs.
End documented.

(** [parse_int] reads what [str()] of a machine-sized integer writes. *)
Class IntReader (parse_int : string -> option Z) : Prop :=
  parse_pretty z : (Z.abs z < 2 ^ 63)%Z -> parse_int (pretty z) = Some z.

Class PydanticSettings (lower : string -> string) (parse_int : string -> option Z)
    (load : loader) : Prop :=
  load_documented fs file src : load fs file src = documented_load lower parse_int fs file src.

#[export] Instance documented_pydantic lower parse_int :
  PydanticSettings lower parse_int (documented_load lower parse_int).
Proof. done. Qed.

(** ** [get_settings] *)

Definition assoc (key : string) (vs : list (string * field_value)) : option field_value :=
  snd <$> List.find (fun v => String.eqb v.1 key) vs.

Definition str_field (key : string) (vs : list (string * field_value)) : option string :=
  match assoc key vs with Some (VStr s) => Some s | _ => None end.
Definition int_field (key : string) (vs : list (string * field_value)) : option Z :=
  match assoc key vs with Some (VInt z) => Some z | _ => None end.
Definition opt_field (key : string) (vs : list (string * field_value)) : option (option string) :=
  match assoc key vs with Some (VStr s) => Some (Some s) | Some VNone => Some None | _ => None end.

(** The instance with these values. *)
Definition instance_of (vs : list (string * field_value)) : option BaseAppSettings.t :=
  app_env ← str_field "app_env" vs;
  log_level ← str_field "log_level" vs;
  log_format ← str_field "log_format" vs;
  postgres_host ← str_field "postgres_host" vs;
  postgres_port ← int_field "postgres_port" vs;
  postgres_db ← str_field "postgres_db" vs;
  postgres_user ← str_field "postgres_user" vs;
  postgres_password ← str_field "postgres_password" vs;
  rabbitmq_user ← str_field "rabbitmq_user" vs;
  rabbitmq_password ← str_field "rabbitmq_password" vs;
  rabbitmq_host ← str_field "rabbitmq_host" vs;
  rabbitmq_port ← int_field "rabbitmq_port" vs;
  rabbitmq_queue ← str_field "rabbitmq_queue" vs;
  backpressure_threshold ← int_field "backpressure_threshold" vs;
  s3_bucket ← str_field "s3_bucket" vs;
  aws_region ← str_field "aws_region" vs;
  s3_endpoint_url ← opt_field "s3_endpoint_url" vs;
  s3_public_endpoint_url ← opt_field "s3_public_endpoint_url" vs;
  s3_access_key ← opt_field "s3_access_key" vs;
  s3_secret_key ← opt_field "s3_secret_key" vs;
  Some (BaseAppSettings.Make app_env log_level log_format postgres_host postgres_port
    postgres_db postgres_user postgres_password rabbitmq_user rabbitmq_password rabbitmq_host
    rabbitmq_port rabbitmq_queue backpressure_threshold s3_bucket aws_region s3_endpoint_url
    s3_public_endpoint_url s3_access_key s3_secret_key).

Section config.
Context (load : loader).

(** [cls()]. *)
Definition construct (c : settings_class) (src : source) : result exn BaseAppSettings.t :=
  match load (fields c) (env_file c) src ≫= instance_of with
  | Some s => Ok s
  | None => Exn (EOther "ValidationError" "")
  end.

(** What is computed once, and kept by [lru_cache]. *)
Definition get_settings (src : source) : result exn BaseAppSettings.t :=
  match construct BaseApp src with
  | Exn x => Exn x
  | Ok base =>
      match _environments (BaseAppSettings.app_env base) with
      | None => Exn (EOther "KeyError" (BaseAppSettings.app_env base))
      | Some c => construct c src
      end
  end.
End config.

(** ** [setup_logging] *)

Inductive processor : Type :=
| MergeContextvars | AddLogLevel | TimeStamper (fmt : string) | StackInfoRenderer
| ExceptionRenderer | JSONRenderer (default : string) | ConsoleRenderer.

(** What [structlog.configure] is given, and the state of the access logger. *)
Record logging_config : Type := LoggingConfig {
  processors : list processor;
  min_level : Z;
  context_class : string;
  logger_factory : string;
  cache_logger_on_first_use : bool;
  access_handlers : list string;
  access_propagate : bool
}.

(** An attribute of the module [logging]: a number, or something else. *)
Inductive attribute : Type := Level (n : Z) | NoLevel (name : string).

(** The attributes whose names are in upper case. *)
Definition logging_attributes : list (string * attribute) := [
  ("CRITICAL", Level 50); ("FATAL", Level 50); ("ERROR", Level 40); ("WARNING", Level 30);
  ("WARN", Level 30); ("INFO", Level 20); ("DEBUG", Level 10); ("NOTSET", Level 0);
  ("BASIC_FORMAT", NoLevel "BASIC_FORMAT"); ("_STYLES", NoLevel "_STYLES")
]%Z.

(** [make_filtering_bound_logger] accepts the numbers of the standard levels. *)
Class FilteringLogger (make_filtering_bound_logger : attribute -> result exn Z) : Prop :=
  filters_level n : n ∈ [0; 10; 20; 30; 40; 50]%Z -> make_filtering_bound_logger (Level n) = Ok n.

Section logging.
Context (upper : string -> string) (make_filtering_bound_logger : attribute -> result exn Z).

(** [getattr(logging, log_level.upper(), logging.INFO)]. *)
Definition level_of (log_level : string) : attribute :=
  match List.find (fun a => String.eqb a.1 (upper log_level)) logging_attributes with
  | Some (_, a) => a
  | None => Level 20
  end.

Definition shared_processors : list processor :=
  [MergeContextvars; AddLogLevel; TimeStamper "iso"; StackInfoRenderer].

(** The last two statements follow the configuration: the access logger has no handler
    left and passes nothing on. *)
Definition setup_logging (log_level log_format : string) : result exn logging_config :=
  let level := level_of log_level in
  let processors :=
    if bool_decide (log_format = "json")
    then (shared_processors ++ [ExceptionRenderer; JSONRenderer "str"])%list
    else (shared_processors ++ [ConsoleRenderer])%list in
  match make_filtering_bound_logger level with
  | Ok min_level => Ok (LoggingConfig processors min_level "dict" "PrintLoggerFactory"
                         true [] false)
  | Exn x => Exn x
  end.
End logging.

(** ** The containers *)

(** The instance of either [Container]: its settings, its engine, and what its session
    factory binds. *)
Record container (engine : Type) : Type := Container {
  c_settings : BaseAppSettings.t;
  c_engine : engine;
  sf_bind : engine;
  sf_expire_on_commit : bool
}.
Arguments Container {engine}.
Arguments c_settings {engine}.
Arguments c_engine {engine}.
Arguments sf_bind {engine}.
Arguments sf_expire_on_commit {engine}.

Section entry.
Context {engine : Type} (create_async_engine : list (string * string) -> result exn engine).
Context (upper : string -> string) (make_filtering_bound_logger : attribute -> result exn Z).
Context (load : loader).

(** [Container.__init__]. *)
Definition container_init (settings : BaseAppSettings.t) : result exn (container engine) :=
  match create_async_engine (BaseAppSettings.sqlalchemy_engine_props settings) with
  | Ok _engine => Ok (Container settings _engine _engine false)
  | Exn x => Exn x
  end.

(** ** [worker/main.py] *)

Inductive signal : Type := SIGTERM | SIGINT.

(** What a signal of the loop calls, and what the call does: [request_stop] sets the
    event that the consume loop reads. *)
Inductive handler : Type := request_stop.

Definition call_handler (h : handler) (w : world) : world :=
  match h with request_stop => set_stop w true end.

(** A worker that has started: its container, its logger, its signal handlers and its
    consumer. *)
Record worker : Type := StartedWorker {
  w_container : container engine;
  w_logging : logging_config;
  w_handlers : list (signal * handler);
  w_start : nat (* nesting limit *) -> nat (* messages *) ->
            prog (RabbitMQConsumer.loop_state * option message)
}.

(** The import of the container reads the settings first; [get_settings] keeps its value,
    so that the call in [_run] gives the same. *)
Definition main_run (src : source) : result exn worker :=
  match get_settings load src with
  | Exn x => Exn x
  | Ok _settings =>
      match container_init _settings with
      | Exn x => Exn x
      | Ok container =>
          match setup_logging upper make_filtering_bound_logger
                  (BaseAppSettings.log_level _settings)
                  (BaseAppSettings.log_format _settings) with
          | Exn x => Exn x
          | Ok logging =>
              Ok (StartedWorker container logging
                    ((fun sig => (sig, request_stop)) <$> [SIGTERM; SIGINT])
                    (WorkerContainer.consumer_start (c_settings container)))
          end
      end
  end.

(** ** The head of [api/app.py]: the logger before the import of the routes, and with them
    of the container. *)
Definition app_start (src : source) : result exn (logging_config * container engine) :=
  match get_settings load src with
  | Exn x => Exn x
  | Ok _settings =>
      match setup_logging upper make_filtering_bound_logger
              (BaseAppSettings.log_level _settings)
              (BaseAppSettings.log_format _settings) with
      | Exn x => Exn x
      | Ok logging =>
          match container_init _settings with
          | Exn x => Exn x
          | Ok container => Ok (logging, container)
          end
      end
  end.
End entry.
