(* ===== verification/StartupTheorems.v ===== *)
(** * What starting up gives

    [get_settings] by the variables and files it reads, and what a signal does to a worker
    that has started. *)

From stdpp Require Import pretty.
From S2P Require Import Prelude PyStr PyText Json Exceptions Dtos Settings Program Environment.
From S2P Require Import Interfaces Container Worker Wiring Logic Contracts ProcessingSpec.
From S2P Require Import ConsumerSpec Reference WorkerOutcomes Examples LoopTheorems TextFacts Startup.

(** ** Values of fields *)

Definition of_opt (o : option string) : field_value :=
  match o with Some s => VStr s | None => VNone end.

(** [v] has the type the field declares. *)
Definition typed (f : field) (v : field_value) : Prop :=
  match f_type f with
  | TStr => exists s, v = VStr s
  | TInt => exists z, v = VInt z
  | TOptStr => exists o, v = of_opt o
  end.

(** The fields of an instance. *)
Definition values (s : BaseAppSettings.t) : list (string * field_value) := [
  ("app_env", VStr (BaseAppSettings.app_env s));
  ("log_level", VStr (BaseAppSettings.log_level s));
  ("log_format", VStr (BaseAppSettings.log_format s));
  ("postgres_host", VStr (BaseAppSettings.postgres_host s));
  ("postgres_port", VInt (BaseAppSettings.postgres_port s));
  ("postgres_db", VStr (BaseAppSettings.postgres_db s));
  ("postgres_user", VStr (BaseAppSettings.postgres_user s));
  ("postgres_password", VStr (BaseAppSettings.postgres_password s));
  ("rabbitmq_user", VStr (BaseAppSettings.rabbitmq_user s));
  ("rabbitmq_password", VStr (BaseAppSettings.rabbitmq_password s));
  ("rabbitmq_host", VStr (BaseAppSettings.rabbitmq_host s));
  ("rabbitmq_port", VInt (BaseAppSettings.rabbitmq_port s));
  ("rabbitmq_queue", VStr (BaseAppSettings.rabbitmq_queue s));
  ("backpressure_threshold", VInt (BaseAppSettings.backpressure_threshold s));
  ("s3_bucket", VStr (BaseAppSettings.s3_bucket s));
  ("aws_region", VStr (BaseAppSettings.aws_region s));
  ("s3_endpoint_url", of_opt (BaseAppSettings.s3_endpoint_url s));
  ("s3_public_endpoint_url", of_opt (BaseAppSettings.s3_public_endpoint_url s));
  ("s3_access_key", of_opt (BaseAppSettings.s3_access_key s));
  ("s3_secret_key", of_opt (BaseAppSettings.s3_secret_key s))
].

Lemma instance_of_values s : instance_of (values s) = Some s.
Proof. by destruct s as [???????????????? [] [] [] []]. Qed.

(** A list with the names and types of the fields is the fields of an instance. *)
Lemma typed_values c vs :
  Forall2 (fun f nv => nv.1 = f_name f /\ typed f nv.2) (fields c) vs -> exists s, vs = values s.
Proof.
  unfold fields. intros H.
  repeat (apply Forall2_cons_inv_l in H as ([n v] & vs' & [Hn Ht] & H' & ->); cbn in Hn; subst n;
          destruct Ht as [? Ht]; cbn in Ht; subst v; rename H' into H, vs' into vs).
  apply Forall2_nil_inv_l in H as ->.
  eexists (BaseAppSettings.Make _ _ _ _ _ _ _ _ _ _ _ _ _ _ _ _ _ _ _ _). reflexivity.
Qed.

Lemma default_typed c f v : f ∈ fields c -> f_default f = Some v -> typed f v.
Proof.
  assert (H : Forall (fun f => forall v, f_default f = Some v -> typed f v) (fields c)).
  { unfold fields. repeat (apply Forall_cons; [cbn; intros w [= <-]; cbn; try (by eexists)|]);
      try (by exists None); constructor. }
  intros Hf. exact (proj1 (List.Forall_forall _ _) H f (proj1 (list_elem_of_In _ _) Hf) v).
Qed.

(** ** Loading *)

Section load.
Context (lower : string -> string) (parse_int : string -> option Z).
Context (load : loader) `{!PydanticSettings lower parse_int load}.

(** The class cannot fill the field: no text for a field without default, or a text that
    is no number for a number. *)
Inductive unfilled (c : settings_class) (src : source) (f : field) : Prop :=
| missing : f ∈ fields c -> field_text lower (env_file c) src (f_name f) = None ->
    f_default f = None -> unfilled c src f
| not_a_number text : f ∈ fields c -> f_type f = TInt ->
    field_text lower (env_file c) src (f_name f) = Some text -> parse_int text = None ->
    unfilled c src f.

(** [v] is what the variables, or else the file, or else the class say. *)
Definition given (c : settings_class) (src : source) (f : field) (v : field_value) : Prop :=
  match field_text lower (env_file c) src (f_name f) with
  | Some text => match f_type f with
                 | TInt => exists z, parse_int text = Some z /\ v = VInt z
                 | TStr | TOptStr => v = VStr text
                 end
  | None => f_default f = Some v
  end.

Abbreviation load_field c src f := (field_load lower parse_int (env_file c) src f).

Lemma field_load_some c src f nv :
  f ∈ fields c -> load_field c src f = Some nv ->
  nv.1 = f_name f /\ typed f nv.2 /\ given c src f nv.2 /\ ~ unfilled c src f.
Proof.
  unfold field_load, given. intros Hf H. pose proof (default_typed c f) as Hd.
  assert (Hn : ~ unfilled c src f).
  { intros [_ E D|text _ T E P]; rewrite E in H; [by rewrite D in H|].
    unfold convert in H. by rewrite T, P in H. }
  unfold typed in *. destruct (field_text _ _ _ _) as [text|].
  - unfold convert in H. destruct (f_type f) eqn:T.
    + injection H as <-. cbn. split_and!; eauto.
    + destruct (parse_int text) as [z|] eqn:P; [|done]. injection H as <-. cbn. split_and!; eauto.
    + injection H as <-. cbn. split_and!; eauto. by exists (Some text).
  - destruct (f_default f) as [v|] eqn:D; [|done]. injection H as <-. cbn. split_and!; eauto. by apply Hd.
Qed.

Lemma field_load_none c src f : f ∈ fields c -> load_field c src f = None -> unfilled c src f.
Proof.
  unfold field_load. intros Hf H. destruct (field_text _ _ _ _) as [text|] eqn:E.
  - unfold convert in H. destruct (f_type f) eqn:T; [done| |done].
    destruct (parse_int text) eqn:P; [done|]. by eapply not_a_number.
  - destruct (f_default f) eqn:D; [done|]. by apply missing.
Qed.

(** What [cls()] gives. *)
Lemma construct_decides c src :
  match construct load c src with
  | Ok s => Forall2 (fun f nv => nv.1 = f_name f /\ typed f nv.2 /\ given c src f nv.2)
              (fields c) (values s)
            /\ forall f, ~ unfilled c src f
  | Exn x => x = EOther "ValidationError" "" /\ exists f, unfilled c src f
  end.
Proof.
  unfold construct. rewrite (load_documented (load := load)). unfold documented_load.
  destruct (mapM _ (fields c)) as [vs|] eqn:E; cbn.
  - apply mapM_Some in E.
    assert (Hall : Forall2 (fun f nv => nv.1 = f_name f /\ typed f nv.2
                                        /\ given c src f nv.2 /\ ~ unfilled c src f) (fields c) vs).
    { apply Forall2_same_length_lookup_2; [by eapply Forall2_length|].
      intros i f nv Hf Hv. apply field_load_some; [by eapply list_elem_of_lookup_2|].
      by eapply Forall2_lookup_lr in E. }
    destruct (typed_values c vs) as [s ->].
    { eapply Forall2_impl; [|exact Hall]. cbn. intros f nv (?&?&_). done. }
    rewrite instance_of_values. split.
    + eapply Forall2_impl; [|exact Hall]. cbn. intros f nv (?&?&?&_). done.
    + intros f Hf. assert (Hin : f ∈ fields c) by by destruct Hf.
      apply list_elem_of_lookup in Hin as [i Hi].
      destruct (Forall2_lookup_l _ _ _ _ _ Hall Hi) as (nv & _ & _ & _ & _ & Hn). done.
  - split; [done|]. apply mapM_None_1, List.Exists_exists in E as (f & Hf%list_elem_of_In & E).
    exists f. by apply field_load_none.
Qed.

(** The environment the base class reads, which chooses the class. *)
Definition chosen (src : source) : string :=
  default AppEnvTypes.production (field_text lower (env_file BaseApp) src "app_env").

Lemma chosen_app_env s src :
  Forall2 (fun f nv => nv.1 = f_name f /\ typed f nv.2 /\ given BaseApp src f nv.2)
    (fields BaseApp) (values s) -> BaseAppSettings.app_env s = chosen src.
Proof.
  intros ((_ & _ & H) & _)%Forall2_cons_iff. unfold given in H. cbn in H.
  unfold chosen. cbn. destruct (field_text _ _ _ _); by injection H.
Qed.

Lemma get_settings_outcome src :
  match get_settings load src with
  | Ok s => exists c, _environments (chosen src) = Some c
      /\ (forall f, ~ unfilled BaseApp src f) /\ (forall f, ~ unfilled c src f)
      /\ Forall2 (fun f nv => nv.1 = f_name f /\ typed f nv.2 /\ given c src f nv.2)
           (fields c) (values s)
  | Exn x => (x = EOther "ValidationError" "" /\ exists c f, unfilled c src f
                /\ (c = BaseApp \/ _environments (chosen src) = Some c))
             \/ (x = EOther "KeyError" (chosen src) /\ _environments (chosen src) = None
                 /\ forall f, ~ unfilled BaseApp src f)
  end.
Proof.
  unfold get_settings. pose proof (construct_decides BaseApp src) as Hb.
  destruct (construct load BaseApp src) as [base|x].
  2:{ left. destruct Hb as [-> [f Hf]]. eauto 6. }
  destruct Hb as [Hb Hn]. rewrite (chosen_app_env _ _ Hb).
  destruct (_environments (chosen src)) as [c|] eqn:E; [|by right].
  pose proof (construct_decides c src) as Hc.
  destruct (construct load c src) as [s|x].
  - destruct Hc as [Hc Hnc]. by exists c.
  - left. destruct Hc as [-> [f Hf]]. split; [done|]. exists c, f. auto.
Qed.

End load.

(** C30: [get_settings] returns settings exactly for the sources the classes can be filled
    from: first the base class, from the variables or its file [.env], and then the class
    that its [app_env] chooses, from its own file.  Every field of the result has its
    declared type and the value of the variable, else of the entry in the file, else the
    default.  A field that is missing or no number makes it a [ValidationError], an unknown
    environment a [KeyError]. *)
Theorem get_settings_decides lower parse_int load `{!PydanticSettings lower parse_int load} src :
  match get_settings load src with
  | Ok s => exists c, _environments (chosen lower src) = Some c
      /\ (forall f, ~ unfilled lower parse_int BaseApp src f)
      /\ (forall f, ~ unfilled lower parse_int c src f)
      /\ Forall2 (fun f nv => nv.1 = f_name f /\ typed f nv.2
                              /\ given lower parse_int c src f nv.2) (fields c) (values s)
  | Exn x =>
      (x = EOther "ValidationError" "" /\ exists c f, unfilled lower parse_int c src f
         /\ (c = BaseApp \/ _environments (chosen lower src) = Some c))
      \/ (x = EOther "KeyError" (chosen lower src) /\ _environments (chosen lower src) = None
          /\ forall f, ~ unfilled lower parse_int BaseApp src f)
  end.
Proof. by apply get_settings_outcome. Qed.

(** ** The URLs *)

Lemma cut_at c a1 b1 a2 b2 :
  c ∉ list_of_string a1 -> c ∉ list_of_string a2 ->
  (a1 ++ String c b1)%string = (a2 ++ String c b2)%string -> a1 = a2 /\ b1 = b2.
Proof.
  revert a2. induction a1 as [|x a1 IH]; intros [|y a2] H1 H2 E; cbn in *.
  - by injection E.
  - injection E as -> _. by apply not_elem_of_cons in H2 as [[] _].
  - injection E as -> _. by apply not_elem_of_cons in H1 as [[] _].
  - apply not_elem_of_cons in H1 as [_ H1]. apply not_elem_of_cons in H2 as [_ H2].
    injection E as -> E. by apply IH in E as [-> ->].
Qed.

Lemma pretty_N_no (x : N) c : byte_in 48 57 c = false -> c ∉ list_of_string (pretty x).
Proof.
  intros Hc. unfold pretty, pretty_N. destruct (decide (x = 0)%N).
  { intros ->%list_elem_of_singleton. done. }
  destruct (pretty_digits x) as (ds & Hds & _ & Hstr & _). rewrite Hstr, app_nil_r.
  intros Hin%list_elem_of_In. apply (proj1 (List.Forall_forall _ _) Hds) in Hin.
  unfold is_digit in Hin. by rewrite Hc in Hin.
Qed.

(** A number is written without the delimiters of a URL. *)
Lemma pretty_no_slash (z : Z) : "/"%char ∉ list_of_string (pretty z).
Proof.
  destruct z as [|p|p]; [by intros [=]%list_elem_of_singleton| |].
  - change (pretty (Z.pos p)) with (pretty (N.pos p)). by apply pretty_N_no.
  - change (pretty (Z.neg p)) with (String "-" (pretty (N.pos p))). cbn [list_of_string].
    apply not_elem_of_cons. split; [done|by apply pretty_N_no].
Qed.

(** No part of the credentials and no host holds the character that ends it in a URL. *)
Record url_parts (s : BaseAppSettings.t) : Prop := UrlParts {
  up_postgres_user : ":"%char ∉ list_of_string (BaseAppSettings.postgres_user s);
  up_postgres_password : "@"%char ∉ list_of_string (BaseAppSettings.postgres_password s);
  up_postgres_host : ":"%char ∉ list_of_string (BaseAppSettings.postgres_host s);
  up_rabbitmq_user : ":"%char ∉ list_of_string (BaseAppSettings.rabbitmq_user s);
  up_rabbitmq_password : "@"%char ∉ list_of_string (BaseAppSettings.rabbitmq_password s);
  up_rabbitmq_host : ":"%char ∉ list_of_string (BaseAppSettings.rabbitmq_host s)
}.

(** What follows the scheme of either URL. *)
Lemma authority_inj u1 p1 h1 n1 (r1 : string) u2 p2 h2 n2 r2 :
  ":"%char ∉ list_of_string u1 -> ":"%char ∉ list_of_string u2 ->
  "@"%char ∉ list_of_string p1 -> "@"%char ∉ list_of_string p2 ->
  ":"%char ∉ list_of_string h1 -> ":"%char ∉ list_of_string h2 ->
  (u1 ++ ":" ++ p1 ++ "@" ++ h1 ++ ":" ++ pretty (n1 : Z) ++ "/" ++ r1
   = u2 ++ ":" ++ p2 ++ "@" ++ h2 ++ ":" ++ pretty (n2 : Z) ++ "/" ++ r2)%string ->
  u1 = u2 /\ p1 = p2 /\ h1 = h2 /\ n1 = n2 /\ r1 = r2.
Proof.
  intros Hu1 Hu2 Hp1 Hp2 Hh1 Hh2 E.
  apply cut_at in E as [-> E]; [|done..]. apply cut_at in E as [-> E]; [|done..].
  apply cut_at in E as [-> E]; [|done..].
  apply cut_at in E as [En ->]; [|apply pretty_no_slash..].
  by apply (inj pretty) in En as ->.
Qed.

(** C34: when no part holds its own delimiter, the URLs say which service is meant: two
    settings have the same [database_url] exactly when user, password, host, port and
    database agree, and the same [rabbitmq_url] exactly when user, password, host and port
    agree, the scheme included. *)
Theorem urls_identify_services s1 s2 :
  url_parts s1 -> url_parts s2 ->
  (BaseAppSettings.database_url s1 = BaseAppSettings.database_url s2 <->
     BaseAppSettings.postgres_user s1 = BaseAppSettings.postgres_user s2 /\
     BaseAppSettings.postgres_password s1 = BaseAppSettings.postgres_password s2 /\
     BaseAppSettings.postgres_host s1 = BaseAppSettings.postgres_host s2 /\
     BaseAppSettings.postgres_port s1 = BaseAppSettings.postgres_port s2 /\
     BaseAppSettings.postgres_db s1 = BaseAppSettings.postgres_db s2) /\
  (BaseAppSettings.rabbitmq_url s1 = BaseAppSettings.rabbitmq_url s2 <->
     BaseAppSettings.rabbitmq_user s1 = BaseAppSettings.rabbitmq_user s2 /\
     BaseAppSettings.rabbitmq_password s1 = BaseAppSettings.rabbitmq_password s2 /\
     BaseAppSettings.rabbitmq_host s1 = BaseAppSettings.rabbitmq_host s2 /\
     BaseAppSettings.rabbitmq_port s1 = BaseAppSettings.rabbitmq_port s2).
Proof.
  intros [] []. unfold BaseAppSettings.database_url, BaseAppSettings.rabbitmq_url.
  split; split.
  - intros E. injection E as E. by apply authority_inj in E.
  - by intros (-> & -> & -> & -> & ->).
  - intros E. destruct (_ =? 5671)%Z, (_ =? 5671)%Z; injection E as E; try discriminate E;
      apply (authority_inj _ _ _ _ "" _ _ _ _ "") in E as (?&?&?&?&_); done.
  - by intros (-> & -> & -> & ->).
Qed.

(** ** A source for the examples *)

Definition ascii_lower (s : string) : string :=
  string_of_list (map lower_char (list_of_string s)).
Definition ascii_upper (s : string) : string :=
  string_of_list (map upper_char (list_of_string s)).

(** The variables of the development environment; [.env.test] has another bucket. *)
Definition demo_source : source := {|
  environ := [("APP_ENV", "test"); ("POSTGRES_HOST", "db"); ("POSTGRES_DB", "docs");
              ("POSTGRES_USER", "u"); ("POSTGRES_PASSWORD", "p"); ("RABBITMQ_USER", "u");
              ("RABBITMQ_PASSWORD", "p"); ("RABBITMQ_PORT", "5671")];
  dotenv := fun file => if String.eqb file ".env.test" then [("S3_BUCKET", "tests")]
                        else [("s3_bucket", "docs")]
|}.

Definition demo_load : loader := documented_load ascii_lower int_of_str.

Lemma get_settings_decides_witness :
  match get_settings demo_load demo_source with
  | Ok s => exists c, _environments (chosen ascii_lower demo_source) = Some c
      /\ (forall f, ~ unfilled ascii_lower int_of_str BaseApp demo_source f)
      /\ (forall f, ~ unfilled ascii_lower int_of_str c demo_source f)
      /\ Forall2 (fun f nv => nv.1 = f_name f /\ typed f nv.2
                              /\ given ascii_lower int_of_str c demo_source f nv.2)
           (fields c) (values s)
  | Exn _ => False
  end.
Proof.
  generalize (get_settings_decides ascii_lower int_of_str demo_load demo_source).
  assert (H : is_ok (get_settings demo_load demo_source) = true) by by vm_compute.
  by destruct (get_settings demo_load demo_source).
Defined.

Example test_bucket :
  (fun s => (BaseAppSettings.s3_bucket s, BaseAppSettings.log_level s,
             BaseAppSettings.rabbitmq_url s))
    <$> (match get_settings demo_load demo_source with Ok s => Some s | Exn _ => None end)
  = Some ("tests", "WARNING", "amqps://u:p@localhost:5671/").
Proof. vm_compute. reflexivity. Qed.

(** Without the bucket in [.env] the base class fails, whatever [.env.test] says. *)
Example base_first :
  get_settings demo_load
    (Source (environ demo_source) (fun file => if String.eqb file ".env.test"
                                               then [("S3_BUCKET", "tests")] else []))
  = Exn (EOther "ValidationError" "").
Proof. vm_compute. reflexivity. Qed.

(** Settings with these values for the database. *)
Definition demo_database (user password host : string) : BaseAppSettings.t :=
  BaseAppSettings.Make "prod" "INFO" "json" host 5432 "docs" user password "u" "p" "mq" 5671
    "jobs" 24 "docs" "us-east-1" None None None None.

Lemma urls_identify_services_witness :
  BaseAppSettings.database_url (demo_database "u" "p" "h")
    <> BaseAppSettings.database_url (demo_database "u" "q" "h").
Proof.
  intros E. pose proof (urls_identify_services (demo_database "u" "p" "h") (demo_database "u" "q" "h"))
    as H. destruct H as [[H _] _]; [by split; apply (bool_decide_unpack _); vm_compute..|].
  by apply H in E as (_ & E & _).
Defined.

(** A password that holds the delimiter moves into the host. *)
Example at_sign_moves_the_host :
  BaseAppSettings.database_url (demo_database "u" "p@h" "x")
  = BaseAppSettings.database_url (demo_database "u" "p" "h@x").
Proof. reflexivity. Qed.

(** ** Signals *)

Section signals.
Context {engine : Type} (create_async_engine : list (string * string) -> result exn engine).
Context (upper : string -> string) (make_filtering_bound_logger : attribute -> result exn Z).
Context (load : loader).

(** What a worker that starts is made of. *)
Lemma main_run_ok src wk :
  main_run create_async_engine upper make_filtering_bound_logger load src = Ok wk ->
  exists S e l, get_settings load src = Ok S /\
    create_async_engine (BaseAppSettings.sqlalchemy_engine_props S) = Ok e /\
    setup_logging upper make_filtering_bound_logger (BaseAppSettings.log_level S)
      (BaseAppSettings.log_format S) = Ok l /\
    wk = StartedWorker (Container S e e false) l [(SIGTERM, request_stop); (SIGINT, request_stop)]
           (WorkerContainer.consumer_start S).
Proof.
  unfold main_run, container_init. destruct (get_settings load src) as [S|]; [|done].
  destruct (create_async_engine _) as [e|] eqn:Ee; [|done].
  destruct (setup_logging _ _ _ _) as [l|] eqn:El; [|done]. intros [= <-]. by exists S, e, l.
Qed.
End signals.

(** Where the worker is after a signal: it waits for a message, or it has returned. *)
Definition after_signal (w : world) : RabbitMQConsumer.loop_state :=
  match w_inbox w with
  | [] => RabbitMQConsumer.Waiting
  | _ => RabbitMQConsumer.Stopped
  end.

(** C31: a worker that has started has a handler for SIGTERM and one for SIGINT.  After the
    call of either, at the start of the loop or between two of its rounds, no further message
    is handled: the next one that is delivered is pulled and left unsettled, and [start]
    returns.  Until there is one it does not return: an idle worker goes on waiting. *)
Theorem signal_stops_worker {engine} (create_async_engine : list (string * string) -> result exn engine)
    upper make_filtering_bound_logger load src wk env `{!Conforming env} sig limit k n w :
  main_run create_async_engine upper make_filtering_bound_logger load src = Ok wk ->
  ready w -> w_health w = all_up -> Forall (parses limit) (w_inbox w) ->
  (List.length (w_inbox w) < k)%nat ->
  exists h, (sig, h) ∈ w_handlers wk /\
    Forall (fun loop => let out := run env n (call_handler h w) (loop k) in
        out.1 = Ok (after_signal w, None) /\ (w_settled out.2).*1 = (w_settled w).*1 /\
        w_inbox out.2 = drop 1 (w_inbox w))
      [w_start wk limit; WorkerContainer.consumer_resume (c_settings (w_container wk)) limit].
Proof.
  intros (S & e & l & _ & _ & _ & ->)%main_run_ok Hr Hh Hp Hk.
  exists request_stop. split; [cbn; destruct sig; set_solver|].
  set (w0 := call_handler request_stop w).
  assert (Hr0 : ready w0) by (destruct Hr; by split).
  assert (H : forall p, wp documented p (drains w0) w0 -> let out := run env n w0 p in
    out.1 = Ok (after_signal w, None) /\ (w_settled out.2).*1 = (w_settled w).*1 /\
    w_inbox out.2 = drop 1 (w_inbox w)).
  { intros p Hw. destruct (wp_run env p (drains w0) n w0 Hw) as (x & m & Hx & Hd & _ & Hm). cbn zeta. rewrite Hx.
    destruct Hd as [_ Hset Hexit]. rewrite (Hm eq_refl) in Hset, Hexit.
    rewrite Hset, take_0, app_nil_r. unfold after_signal. change (w_inbox w0) with (w_inbox w) in Hexit.
    destruct Hexit as [(-> & Hl & ->)|(-> & Hl & ->)]; destruct (w_inbox w); try done.
    cbn in Hl. lia. }
  apply Forall_cons_2; [|apply Forall_cons_2; [|apply Forall_nil_2]]; apply H.
  - by apply start_drains.
  - by apply resume_drains.
Qed.

(** The constructor of the engines of the examples keeps the URL. *)
Definition demo_engine (props : list (string * string)) : result exn (list (string * string)) :=
  Ok props.

Definition demo_filter (a : attribute) : result exn Z :=
  match a with Level n => Ok n | NoLevel name => Exn (EOther "KeyError" name) end.

#[export] Instance demo_filters : FilteringLogger demo_filter.
Proof. done. Qed.

(** A worker with a message before it, and an idle one. *)
Lemma signal_stops_worker_witness :
  exists wk, main_run demo_engine ascii_upper demo_filter demo_load demo_source = Ok wk /\
  let w := demo_world all_up (one_job QUEUED 0) in
  after_signal w = RabbitMQConsumer.Stopped /\
  after_signal (set_inbox w []) = RabbitMQConsumer.Waiting /\
  Forall (fun w => exists h, (SIGTERM, h) ∈ w_handlers wk /\
    Forall (fun loop => let out := run (reference (fun _ => true)) 0 (call_handler h w) (loop 5%nat) in
        out.1 = Ok (after_signal w, None) /\ (w_settled out.2).*1 = (w_settled w).*1 /\
        w_inbox out.2 = drop 1 (w_inbox w))
      [w_start wk 100; WorkerContainer.consumer_resume (c_settings (w_container wk)) 100])
    [w; set_inbox w []].
Proof.
  assert (H : is_ok (main_run demo_engine ascii_upper demo_filter demo_load demo_source) = true)
    by by vm_compute.
  destruct (main_run demo_engine ascii_upper demo_filter demo_load demo_source) as [wk|] eqn:E; [|done].
  exists wk. split; [done|]. cbn zeta. split; [done|]. split; [done|].
  apply Forall_cons_2; [|apply Forall_cons_2; [|apply Forall_nil_2]];
    apply (signal_stops_worker demo_engine ascii_upper demo_filter demo_load demo_source wk
           (reference _) SIGTERM 100 5 0 _ E).
  - apply demo_ready.
  - done.
  - apply Forall_cons_2; [|apply Forall_nil_2]. unfold parses. by rewrite demo_parse.
  - cbn. lia.
  - split; [|done]. apply demo_ready.
  - done.
  - apply Forall_nil_2.
  - cbn. lia.
Defined.
