(* ===== verification/Deploy.v ===== *)
(** * The cloud stacks ([infrastructure/])

    The resources the four stacks declare, with the arguments the code passes, and what a
    container of a task gets from them when it is started.  What CloudFormation and ECS make
    of the declarations is a parameter ([Cloud]), with what is documented of it as its laws
    ([CloudLaws]).  Arguments that only name a log group or size a machine are kept; the
    stack's scope, account and region are not. *)

From S2P Require Import Prelude PyStr PyText Json Startup.

#[local] Open Scope string_scope.

(** ** Values that are known when the stacks are deployed *)

Inductive token : Type :=
| Lit (s : string)
| GetAtt (resource attribute : string)
| Select (index : nat) (l : tokens)
with tokens : Type :=
| ListAtt (resource attribute : string)
| Split (delimiter : string) (t : token).

(** A piece that a split leaves: it shares no character with the delimiter. *)
Definition plain_of (delimiter s : string) : Prop :=
  Forall (fun c => c ∉ list_of_string s) (list_of_string delimiter).

(** ** [NetworkStack] *)

Module NetworkStack.
Record Vpc : Type := MakeVpc { max_azs : Z; nat_gateways : Z }.

(** Who may connect: every IPv4 address, or the members of a security group. *)
Inductive peer : Type := AnyIpv4 | Group (name : string).

(** [r_group.add_ingress_rule(r_peer, Port.tcp(r_port))]. *)
Record rule : Type := Rule { r_group : string; r_peer : peer; r_port : Z }.

Record t : Type := Make {
  vpc : Vpc;
  alb_sg : string; api_sg : string; worker_sg : string; rds_sg : string; mq_sg : string;
  rules : list rule
}.

(** All groups belong to the one VPC. *)
Definition init : t :=
  let vpc := MakeVpc 2 1 in
  let alb_sg := "AlbSg" in
  let api_sg := "ApiSg" in
  let worker_sg := "WorkerSg" in
  let rds_sg := "RdsSg" in
  let mq_sg := "MqSg" in
  Make vpc alb_sg api_sg worker_sg rds_sg mq_sg [
    Rule alb_sg AnyIpv4 80;
    Rule alb_sg AnyIpv4 443;
    Rule api_sg (Group alb_sg) 8080;
    Rule rds_sg (Group api_sg) 5432;
    Rule rds_sg (Group worker_sg) 5432;
    Rule mq_sg (Group api_sg) 5671;
    Rule mq_sg (Group worker_sg) 5671
  ].
End NetworkStack.

#[export] Instance peer_eq_dec : EqDecision NetworkStack.peer.
Proof. solve_decision. Defined.
#[export] Instance rule_eq_dec : EqDecision NetworkStack.rule.
Proof. solve_decision. Defined.

Inductive removal_policy : Type := RETAIN | DESTROY.
Inductive subnet_type : Type := PRIVATE_WITH_EGRESS.

(** ** [StorageStack] *)

Module StorageStack.
Record Bucket : Type := MakeBucket {
  b_name : token; block_public_access : bool; s3_managed_encryption : bool;
  b_removal : removal_policy
}.

(** [SecretStringGenerator]. *)
Record Secret : Type := MakeSecret {
  s_id : string; secret_string_template : string; generate_string_key : string;
  exclude_punctuation : bool
}.

Record DatabaseInstance : Type := MakeDatabase {
  db_instance_endpoint_address : token;
  engine_version : Z; database_name : string; instance_type : string;
  db_vpc : NetworkStack.Vpc; db_subnets : subnet_type;
  db_groups : list string; credentials : Secret; db_removal : removal_policy
}.

(** A field of a secret in a template. *)
Record secret_field : Type := SecretField { sf_secret : Secret; sf_key : string }.

Record Broker : Type := MakeBroker {
  attr_amqp_endpoints : tokens;
  broker_name : string; engine_type : string; mq_version : string;
  host_instance_type : string; deployment_mode : string; publicly_accessible : bool;
  mq_subnets : nat; mq_groups : list string; users : list (secret_field * secret_field)
}.

Record t : Type := Make {
  bucket : Bucket; db_secret : Secret; db : DatabaseInstance; mq_secret : Secret; mq : Broker
}.

Definition DocumentsBucket : Bucket :=
  MakeBucket (GetAtt "DocumentsBucket" "Ref") true true RETAIN.

Definition quoted (s : string) : string := String dquote (s ++ String dquote "").

(** [{"username": "docpipeline"}]. *)
Definition user_template : string :=
  "{" ++ quoted "username" ++ ": " ++ quoted "docpipeline" ++ "}".

Definition DbSecret : Secret := MakeSecret "DbSecret" user_template "password" true.
Definition MqSecret : Secret := MakeSecret "MqSecret" user_template "password" true.

Definition Db (network : NetworkStack.t) : DatabaseInstance := {|
  db_instance_endpoint_address := GetAtt "Db" "Endpoint.Address";
  engine_version := 16;
  database_name := "docpipelinedb";
  instance_type := "t3.micro";
  db_vpc := NetworkStack.vpc network;
  db_subnets := PRIVATE_WITH_EGRESS;
  db_groups := [NetworkStack.rds_sg network];
  credentials := DbSecret;
  db_removal := RETAIN
|}.

(** The broker has one node, in the first private subnet. *)
Definition CfnBroker (network : NetworkStack.t) (mq_secret : Secret) : Broker := {|
  attr_amqp_endpoints := ListAtt "Broker" "AmqpEndpoints";
  broker_name := "doc-pipeline-broker";
  engine_type := "RABBITMQ";
  mq_version := "3.13";
  host_instance_type := "mq.m5.large";
  deployment_mode := "SINGLE_INSTANCE";
  publicly_accessible := false;
  mq_subnets := 1;
  mq_groups := [NetworkStack.mq_sg network];
  users := [(SecretField mq_secret "username", SecretField mq_secret "password")]
|}.

Definition init (network : NetworkStack.t) : t :=
  Make DocumentsBucket DbSecret (Db network) MqSecret (CfnBroker network MqSecret).
End StorageStack.

(** ** [ECRStack] *)

Module ECRStack.
Record Repository : Type := MakeRepository { repository_name : string; r_removal : removal_policy }.
Record t : Type := Make { api_repo : Repository; worker_repo : Repository }.

Definition init : t :=
  Make (MakeRepository "doc-pipeline-api" RETAIN) (MakeRepository "doc-pipeline-worker" RETAIN).
End ECRStack.

(** ** [ComputeStack] *)

Module ComputeStack.
Import StorageStack.

Record LogGroup : Type := MakeLogGroup { log_group_name : string; l_removal : removal_policy }.

(** What a role is granted. *)
Inductive grant : Type := ReadWriteBucket (b : Bucket) | ReadSecret (s : Secret).

Record Role : Type := MakeRole { assumed_by : string; grants : list grant }.

Record Container : Type := MakeContainer {
  image : ECRStack.Repository;
  environment : list (string * token);
  secrets : list (string * secret_field);
  port_mappings : list Z;
  stream_prefix : string;
  log_group : LogGroup
}.

Record FargateTaskDefinition : Type := MakeTask {
  cpu : Z; memory_limit_mib : Z; task_role : Role; arm64 : bool; container : Container
}.

Record ApplicationLoadBalancer : Type := MakeAlb {
  alb_vpc : NetworkStack.Vpc; internet_facing : bool; security_group : string
}.

Record FargateService : Type := MakeService {
  cluster_vpc : NetworkStack.Vpc;
  task_definition : FargateTaskDefinition;
  security_groups : list string;
  vpc_subnets : subnet_type;
  desired_count : Z; min_healthy_percent : Z; max_healthy_percent : Z;
  rollback : bool
}.

(** [listener.add_targets]. *)
Record targets : Type := MakeTargets {
  t_port : Z; t_service : FargateService; health_path : string
}.

Record t : Type := Make {
  api_service : FargateService;
  worker_service : FargateService;
  alb : ApplicationLoadBalancer;
  listener_port : Z;
  listener_targets : targets;
  alb_dns : token
}.

Section init.
Context (network : NetworkStack.t) (storage : StorageStack.t) (ecr : ECRStack.t).

Definition api_log_group : LogGroup := MakeLogGroup "/doc-pipeline/api" DESTROY.
Definition worker_log_group : LogGroup := MakeLogGroup "/doc-pipeline/worker" DESTROY.

Definition api_role : Role := MakeRole "ecs-tasks.amazonaws.com"
  [ReadWriteBucket (bucket storage); ReadSecret (db_secret storage); ReadSecret (mq_secret storage)].
Definition worker_role : Role := MakeRole "ecs-tasks.amazonaws.com"
  [ReadWriteBucket (bucket storage); ReadSecret (db_secret storage); ReadSecret (mq_secret storage)].

(** The first endpoint, between its scheme and its port. *)
Definition mq_endpoint : token := Select 0 (attr_amqp_endpoints (mq storage)).
Definition mq_host : token :=
  Select 0 (Split ":" (Select 1 (Split "//" mq_endpoint))).

Definition shared_env : list (string * token) := [
  ("POSTGRES_HOST", db_instance_endpoint_address (db storage));
  ("POSTGRES_PORT", Lit "5432");
  ("POSTGRES_DB", Lit "docpipelinedb");
  ("S3_BUCKET", b_name (bucket storage));
  ("RABBITMQ_HOST", mq_host);
  ("RABBITMQ_PORT", Lit "5671");
  ("RABBITMQ_QUEUE", Lit "jobs");
  ("APP_ENV", Lit "prod")
].

Definition shared_secrets : list (string * secret_field) := [
  ("POSTGRES_USER", SecretField (db_secret storage) "username");
  ("POSTGRES_PASSWORD", SecretField (db_secret storage) "password");
  ("RABBITMQ_USER", SecretField (mq_secret storage) "username");
  ("RABBITMQ_PASSWORD", SecretField (mq_secret storage) "password")
].

Definition api_task_def : FargateTaskDefinition :=
  MakeTask 512 1024 api_role true
    (MakeContainer (ECRStack.api_repo ecr) shared_env shared_secrets [8080%Z] "api" api_log_group).

Definition worker_task_def : FargateTaskDefinition :=
  MakeTask 1024 2048 worker_role true
    (MakeContainer (ECRStack.worker_repo ecr) shared_env shared_secrets [] "worker"
       worker_log_group).

Definition Alb : ApplicationLoadBalancer :=
  MakeAlb (NetworkStack.vpc network) true (NetworkStack.alb_sg network).

Definition ApiService : FargateService :=
  MakeService (NetworkStack.vpc network) api_task_def [NetworkStack.api_sg network]
    PRIVATE_WITH_EGRESS 1 100 200 true.

Definition ApiTarget : targets := MakeTargets 8080 ApiService "/health".

Definition WorkerService : FargateService :=
  MakeService (NetworkStack.vpc network) worker_task_def [NetworkStack.worker_sg network]
    PRIVATE_WITH_EGRESS 1 0 100 true.

Definition init : t :=
  Make ApiService WorkerService Alb 80 ApiTarget (GetAtt "Alb" "DNSName").
End init.
End ComputeStack.

(** ** [infrastructure/app.py] *)

Definition network : NetworkStack.t := NetworkStack.init.
Definition storage : StorageStack.t := StorageStack.init network.
Definition ecr_stack : ECRStack.t := ECRStack.init.
Definition compute : ComputeStack.t := ComputeStack.init network storage ecr_stack.

(** ** The cloud *)

Class Cloud : Type := {
  get_att : string -> string -> string;
  get_list : string -> string -> list string;
  fn_select : nat -> list string -> string;
  fn_split : string -> string -> list string;
  (** a field of the generated value of a secret *)
  secret_value : StorageStack.Secret -> string -> string;
  (** the rules CDK adds for a load balancer and its targets *)
  implied : ComputeStack.t -> list NetworkStack.rule
}.

Definition join (delimiter : string) (l : list string) : string :=
  match l with [] => "" | s :: l' => fold_left (fun acc x => acc ++ delimiter ++ x) l' s end.

Definition punctuation_free (s : string) : Prop :=
  Forall (fun c => byte_in 48 57 c || byte_in 65 90 c || byte_in 97 122 c = true) (list_of_string s).

(** A letter, a digit, a hyphen or a dot. *)
Definition host_char (c : ascii) : bool :=
  byte_in 48 57 c || byte_in 65 90 c || byte_in 97 122 c || byte_in 45 46 c.
Definition hostname (s : string) : Prop :=
  Forall (fun c => host_char c = true) (list_of_string s).

Class CloudLaws `{!Cloud} : Prop := {
  select_lookup i l s : l !! i = Some s -> fn_select i l = s;
  split_join delimiter l : delimiter <> "" -> l <> [] -> Forall (plain_of delimiter) l ->
    fn_split delimiter (join delimiter l) = l;
  (** a RabbitMQ broker of one node has one endpoint, with TLS on its port *)
  amqp_endpoint : exists host, hostname host /\
    get_list "Broker" "AmqpEndpoints" = ["amqps://" ++ host ++ ":5671"];
  (** the database has a name in the network *)
  db_endpoint : hostname (get_att "Db" "Endpoint.Address");
  (** the members of the template, and the generated string under its key *)
  secret_member sec j k v :
    loads 100 (StorageStack.secret_string_template sec) = DVal j [] ->
    get_item k j = Some (JStr v) -> k <> StorageStack.generate_string_key sec ->
    secret_value sec k = v;
  secret_generated sec : StorageStack.exclude_punctuation sec = true ->
    punctuation_free (secret_value sec (StorageStack.generate_string_key sec));
  (** a listener is open to everyone, and the load balancer reaches its targets on the port
      their container maps first *)
  implied_rules c r : r ∈ implied c <->
    (r = NetworkStack.Rule (ComputeStack.security_group (ComputeStack.alb c))
           NetworkStack.AnyIpv4 (ComputeStack.listener_port c)) \/
    exists g port, g ∈ ComputeStack.security_groups
                        (ComputeStack.t_service (ComputeStack.listener_targets c)) /\
      head (ComputeStack.port_mappings (ComputeStack.container
              (ComputeStack.task_definition
                 (ComputeStack.t_service (ComputeStack.listener_targets c))))) = Some port /\
      r = NetworkStack.Rule g
            (NetworkStack.Group (ComputeStack.security_group (ComputeStack.alb c))) port
}.

Section deployed.
Context `{!Cloud}.

Fixpoint resolve (t : token) : string :=
  match t with
  | Lit s => s
  | GetAtt r a => get_att r a
  | Select i l => fn_select i (resolve_list l)
  end
with resolve_list (l : tokens) : list string :=
  match l with
  | ListAtt r a => get_list r a
  | Split d t => fn_split d (resolve t)
  end.

(** The text of a field of a secret. *)
Definition secret_text (f : StorageStack.secret_field) : string :=
  secret_value (StorageStack.sf_secret f) (StorageStack.sf_key f).

(** The variables of a container's process: those of its image and of the platform, and
    those of its definition; the images hold no dotenv file. *)
Definition container_source (extra : list (string * string)) (c : ComputeStack.Container) : source := {|
  environ := extra
    ++ (prod_map id resolve <$> ComputeStack.environment c)
    ++ (prod_map id secret_text <$> ComputeStack.secrets c);
  dotenv := fun _ => []
|}%list.

Definition container_of (s : ComputeStack.FargateService) : ComputeStack.Container :=
  ComputeStack.container (ComputeStack.task_definition s).

(** A member of the group [src], or a host outside, may connect to a member of [dst]. *)
Definition allowed (src : option string) (dst : string) (port : Z) : Prop :=
  exists r, r ∈ (NetworkStack.rules network ++ implied compute)%list /\
    NetworkStack.r_group r = dst /\ NetworkStack.r_port r = port /\
    match NetworkStack.r_peer r with
    | NetworkStack.AnyIpv4 => True
    | NetworkStack.Group g => src = Some g
    end.
End deployed.
